(* ===== verification/_CoqProject ===== *)
-Q . S2P
Prelude.v
GoStd.v
GoText.v
Ports.v
Bucket.v
Buckets.v
UdpStat.v
Concurrent.v
Linearize.v
Lifecycle.v
Salts.v
SonarCodec.v
KuiniuCodec.v
ExtHeaders.v
GoNet.v
EvrCodec.v
GoDuration.v
StateErr.v
PortRangeText.v
SonarConfig.v
Sonar6Config.v
KuiniuConfig.v
EvrConfig.v
Goscapy.v
World.v
UdpClient.v
UdpServer.v
Sonar.v
EvrAgent.v
KuiniuClient.v
KuiniuServer.v
Lidar.v
LidarRun.v
PingConfig.v
Timestamps.v
Ping.v
PingRun.v
Enrich.v
TraceConfig.v
Hop.v
Tracer.v
Format.v
Targets.v
RotateWriter.v
Receive.v
ClientRun.v
Commands.v
Main.v
