(* ===== verification/Prelude.v ===== *)
(** * nettools: a verification library

    nettools is a set of Go network probes. Every prober has the same shape: a
    client numbers its probes, stamps them with the time, pads them with a
    known pattern and records each in a statistics object; a server or the
    target sends something back; the client matches the answer to the record;
    a processor reports, span by span, what was sent, received and lost. This
    library models the probers [sonar] (UDP over IPv4), [sonar6] (UDP over
    IPv6), [kuiniu] (GPU to GPU), [evr] (VXLAN), [lidar] (TCP SYN), [ping] and
    [ping6] (ICMP echo) and the statistics they share, the two traceroute
    tools with the enrichment of their hops, and the log files, and proves what
    makes the reports trustworthy.

    ** Files

    Foundations.
    - [Prelude]: notations, tactics, machine integers, big-endian fields, byte
      slices, counting; the hint database [nettools].
    - [GoStd], [GoText], [GoNet], [GoDuration]: what the program uses of Go's
      standard library: integer division, strings, [net.ParseIP], [IP.String]
      and the other methods of [net.IP], [time.ParseDuration].
    - [StateErr]: a state-and-error monad for the [Validate] methods.
    - [Goscapy]: the packet library [smallnest/goscapy], which is not in the
      repository, as a class; the layer stacks the program hands to it
      ([sonar/codec/simple.go], [sonar6/codec/simple.go], [evr/codec]) and the
      beginning of the receive handlers. [Toy] is a small instance.

    Statistics ([src/stat]).
    - [Ports]: [PortRange], every copy of [GetNextPorts] and [GetNextPort], the
      packed port pair, the ranges of [serveRead].
    - [Bucket]: [bucket.go], the records of one span and their aggregates
      [stat] and [serverStat]. A loop over a Go map is a parameter that ranges
      over the orders of the map's entries.
    - [Buckets]: the collection of buckets, and its specification: a ledger of
      probes keyed by span and sequence number.
    - [UdpStat]: [sender.go] and [processor.go]: [udpStat], [statOnce],
      [computeServerLossPorts], the [Processor] over a store of shared objects.
    - [Concurrent]: the same methods and [statOnce] at the grain of their
      critical sections: buckets are objects of a heap, goroutines and processor
      interleave section by section. [Linearize]: under a stated discipline of
      the callers the interleavings refine the ledger of [Buckets].
    - [World]: that store with the processor, which clients and servers share.
    - [Lifecycle]: how a prober stops: send loop, receive loop and processor as
      goroutines with clocks and sleeps, over an interface (the class [Prober]
      and its laws) of what a tool does in its loops.

    Payloads.
    - [Salts] ([util/salts.go]); [SonarCodec], [KuiniuCodec], [EvrCodec] (the
      three probe formats); [ExtHeaders] (the IPv6 extension header walk).

    Configuration.
    - [PortRangeText]; [SonarConfig], [Sonar6Config], [KuiniuConfig],
      [EvrConfig]: [Config], [Validate] and their helpers, with the answers of
      the host (name, lookup, interfaces) as an argument.

    Clients and servers.
    - [UdpClient]: the client of sonar and sonar6 over the class [Family] of
      what differs; [UdpServer]: their server, with [getOrCreateStat] also as a
      step relation over interleaved critical sections; [Sonar]: the instances.
    - [KuiniuClient], [KuiniuServer]: [kuiniu/transport], client and server.
    - [EvrAgent]: [evr/agent/agent.go].
    - [Lidar]: [lidar/config.go] and [lidar/scanner.go]; [LidarRun]: its
      goroutines, an instance of [Lifecycle].

    Ping.
    - [PingConfig]: [Config] and [Validate] of both ping tools.
    - [Timestamps]: the kernel's control messages byte for byte, the choice of
      a receive and a send time, the timestamp options and the timeouts.
    - [Ping]: [ping/pinger.go] and [ping6/pinger.go]: a common part over a class
      of what a tool builds and opens, and the receive handler of each.
      [PingRun]: their goroutines, instances of [Lifecycle].

    Traceroute.
    - [TraceConfig]: [Config], [Validate] and [Protocol] of both tools, with
      the class of what the address family decides.
    - [Enrich]: [traceroute/enrich]: [Resolve] as a relation over the orders in
      which the providers complete, [mergeInto], the two providers.
    - [Hop]: [hop.go], the aggregates of a hop, [extractReply], [resolveHosts]
      and [enrichHops]. [Tracer]: [tracer.go]: the probes, the matcher, the
      concurrent collection (any order of the goroutines) and [Run].
    - [Format]: [format.go] and the log lines of [stat/sender.go] and
      [lidar/sender.go].

    Around them.
    - [Targets]: the target lists of [cmd/mping], [cmd/mping6] and the two
      traceroute commands: splitting, CIDR ranges, names.
    - [RotateWriter]: [util/rotate_writer.go] over a directory with inodes,
      names and links.
    - [Receive]: the packet filters, as programs for a machine given as a class
      with the laws of its instructions ([Vm] is an instance), the receive
      sockets the clients open and their filters.
    - [ClientRun]: [Run] of sonar, sonar6, evr and kuiniu as the order of its
      effects on sockets, on every path, and the loop of the sonar servers.
    - [Commands]: [cmd/...]: from flags and files, as parsed, to the prober that
      is started. [Main]: the ten [main] functions as processes: effects in
      order, exit codes, deferred calls and recovered panics; the version string.

    ** Conventions

    A Go integer is a [Z] with the wrap-around of its width written where the
    code can reach it ([u16], [u64], [i64], ...). [None] is a panic, except
    where a definition says that it is an error value. A pointer to a [Stat]
    is a location of the store. Sockets, the clock, random numbers and
    cancellation are arguments: a send loop takes a list of rounds with the
    answers of the outside for each (records [Outside]), so a run is finite and
    every cancellation point is covered. A method that the code protects with a
    mutex is one step in the files above the statistics; the methods of
    [buckets] and [statOnce], which take several locks one after the other, are
    one step in [Buckets] and [UdpStat] and a step per section in [Concurrent].
    A send loop that shares state with its receive loop is a round at a time in
    the tools' own files, and piece by piece in [PingRun] and [LidarRun]. What
    the system answers (a socket opens, a filter is accepted, a file is read)
    is an argument, and what the program asks of it an effect in a list.
    Log lines are left out.

    ** What the theorems show

    - Accounting. [buckets] refines the ledger over any history; a reply in
      the span of its probe or the next completes that record and no other; the
      client's report conserves probes and does not depend on map order; reports
      have strictly increasing spans; what the server reports as lost per port
      pair is exactly expected minus received.
    - Concurrency. Whatever the interleaving, reports have increasing spans and
      everything that was started can be finished; when calls about one probe do
      not overlap and no bucket is removed under a call, each call is atomic and
      the reports are exact; the first report can break that condition and lose
      a probe.
    - Liveness. Every span that has a bucket and is newer than the last one
      reported is reported after enough ticks past its delay, however the other
      events are interleaved.
    - End to end. A written probe whose payload comes back unmodified completes
      its own record, for sonar, sonar6, kuiniu, evr, lidar, ping and ping6;
      servers echo and record what they should and nothing else; no datagram
      makes a handler panic; the shared map of a server is race-free; the
      [Count] limit holds.
    - Traceroute. An ICMP message is accepted by at most one probe, and by its
      own; the hops are the same whatever the order of the goroutines, well
      formed and cut at the first TTL that reached; [Run] returns a result per
      target, each responder with its name and metadata; what enrichment adds, and that it depends on who is faster.
    - Life. When [Run] of a prober returns, what is closed and reported by
      then, and what is lost; which sockets stay open when one cannot be opened;
      when a process ends and with which exit code.
    - Around. The hosts of a range; the log files hold what was written, day
      by day, and are closed when a daemon ends; the filters deliver a reply to
      exactly one goroutine (of each pair of GPUs); what the commands accept, with
      a positive span where they do not check it, starts probers that satisfy the
      invariants assumed above, and what they reject starts nothing, but for
      [baize], which starts and then ends; what the
      traceroutes print.
    - Formats. Encoding and decoding are inverse for the payloads, targets and
      port ranges; the extension header walk finds the end of well-formed
      chains and terminates unless a position leads back to itself.
    - Configuration. What a successful [Validate] guarantees.
    - Deviations. The odometer at port 65535, the server's report shifted by
      one pair, the missing delay of the first report, the header walk that
      never ends, replies with a bit flip counted as lost, the void per-pair
      report of the kuiniu server, EVR addresses in another spelling, the SYN
      prober past 2^32 probes, TCP answers credited to every traceroute probe in
      flight, the seventeenth probe of a TTL, the /32 range, a closed log
      writer that stays closed for the day, the SYN prober's filter when its
      ports reach the top, flags of kuiniu without effect, the delay the ping
      tools skip and the SYN prober sleeps through deaf, replies that overtake
      the record of their probe, sockets left open after a failure, the kuiniu
      client without a grace period, clients whose end nobody notices.

    ** Bounds and fuel

    [ipv6_loop] has one unit of fuel per character and each round consumes one.
    [ext_loop] is analysed for every fuel: [ext_headers_terminate] gives the
    number of rounds that is enough, [ext_headers_diverge] a packet for which
    none is. [drop_stale] has one more than the number of buckets, and each
    round removes one; [split_loop] has one per port of the range.
    [parse_cmsgs] has one unit per byte of the control buffer and each message
    takes at least sixteen. [expand_loop] is analysed for every fuel above the
    number of addresses of the range. Timestamps
    are assumed to be non-negative [int64] values ([ts_ok]), which the clock
    gives. A payload received by a server may hold a negative one: the theorems
    about the servers cover it ([server_wf] is the invariant that remains), and
    [negative_timestamp_hides_span] shows what it breaks.

    ** Not modelled

    Parsing of the command line and of JSON, the handlers of signals and of
    the profiling server (only their start is an effect), buffer sizes of
    sockets, and the texts of log lines other than those of the statistics. The
    rate limiters are libraries: a round of a send loop starts when they let it.
    In [Main] a signal is taken to arrive before a panic of a goroutine, and a
    panic before an error that cancels the context. *)

From stdpp Require Export base numbers option list gmap strings fin_maps.
From Stdlib Require Export ZArith Lia.

(** ** Notations *)

Declare Scope nettools_scope.
Delimit Scope nettools_scope with nt.
Open Scope nettools_scope.

(** A Go [[]byte] is a list of integers; [is_byte] is the range of each. *)
Abbreviation bytes := (list Z).

Local Open Scope Z_scope.

(** ** Tactics *)

(** Case analysis on every integer comparison of the goal. *)
Ltac zcases :=
  repeat match goal with
  | |- context [?a <? ?b] => destruct (Z.ltb_spec a b)
  | |- context [?a <=? ?b] => destruct (Z.leb_spec a b)
  | |- context [?a =? ?b] => destruct (Z.eqb_spec a b)
  end.

(** Read boolean tests in the hypotheses as propositions. *)
Ltac bools :=
  repeat match goal with
  | H : bool_decide _ = true |- _ => apply bool_decide_eq_true in H
  | H : bool_decide _ = false |- _ => apply bool_decide_eq_false in H
  | H : _ && _ = true |- _ => apply andb_true_iff in H as [? ?]
  | H : _ || _ = false |- _ => apply orb_false_elim in H as [? ?]
  | H : negb _ = true |- _ => apply negb_true_iff in H
  | H : negb _ = false |- _ => apply negb_false_iff in H
  | H : (_ <? _)%Z = true |- _ => apply Z.ltb_lt in H
  | H : (_ <? _)%Z = false |- _ => apply Z.ltb_ge in H
  | H : (_ <=? _)%Z = true |- _ => apply Z.leb_le in H
  | H : (_ <=? _)%Z = false |- _ => apply Z.leb_gt in H
  | H : (_ =? _)%Z = true |- _ => apply Z.eqb_eq in H
  | H : (_ =? _)%Z = false |- _ => apply Z.eqb_neq in H
  | H : _ <> None |- _ => apply not_eq_None_Some in H
  end.

(** Evaluate a closed statement. *)
Ltac compute_done := vm_compute; repeat split; try reflexivity; try discriminate.

(** Close a concrete goal with an instance of a theorem, both evaluated. *)
Ltac by_instance T :=
  let H := fresh "H" in pose proof T as H; vm_compute in H; vm_compute; exact H.

(** ** Machine integers

    Go integers are modelled as [Z] with the wrap-around of their width
    written out where the code can reach it. *)

Definition u8 (z : Z) : Z := z mod 2 ^ 8.
Definition u16 (z : Z) : Z := z mod 2 ^ 16.
Definition u32 (z : Z) : Z := z mod 2 ^ 32.
Definition u64 (z : Z) : Z := z mod 2 ^ 64.
Definition i64 (z : Z) : Z := (z + 2 ^ 63) mod 2 ^ 64 - 2 ^ 63.

Definition in_u16 (z : Z) : Prop := 0 <= z < 65536.
Definition in_u32 (z : Z) : Prop := 0 <= z < 2 ^ 32.
Definition in_u64 (z : Z) : Prop := 0 <= z < 2 ^ 64.
Definition in_i64 (z : Z) : Prop := - 2 ^ 63 <= z < 2 ^ 63.
Definition is_byte (z : Z) : Prop := 0 <= z < 256.

(** Go's [/] on signed 64-bit integers: truncation, a panic ([None]) on a
    zero divisor. *)
Definition go_div (a b : Z) : option Z :=
  if b =? 0 then None else Some (i64 (Z.quot a b)).

Lemma u16_small z : in_u16 z -> u16 z = z.
Proof. intros H. unfold u16, in_u16 in *. apply Z.mod_small. lia. Qed.

Lemma u32_small z : in_u32 z -> u32 z = z.
Proof. intros H. apply Z.mod_small, H. Qed.

Lemma u64_small z : in_u64 z -> u64 z = z.
Proof. intros H. apply Z.mod_small, H. Qed.

Lemma u8_small z : is_byte z -> u8 z = z.
Proof. intros H. apply Z.mod_small, H. Qed.

Lemma i64_small z : in_i64 z -> i64 z = z.
Proof. intros H. unfold i64, in_i64 in *. rewrite Z.mod_small; lia. Qed.

Lemma u16_range z : in_u16 (u16 z).
Proof. unfold in_u16, u16. apply (Z.mod_pos_bound z 65536). lia. Qed.

Lemma u32_range z : in_u32 (u32 z).
Proof. unfold in_u32, u32. apply Z.mod_pos_bound. lia. Qed.

Lemma u64_range z : in_u64 (u64 z).
Proof. unfold in_u64, u64. apply Z.mod_pos_bound. lia. Qed.

Lemma i64_range z : in_i64 (i64 z).
Proof.
  unfold in_i64, i64.
  pose proof (Z.mod_pos_bound (z + 2 ^ 63) (2 ^ 64)). lia.
Qed.

(** The ranges of machine integers, for [auto with nettools]. *)
Create HintDb nettools.
#[export] Hint Resolve u16_range u32_range u64_range i64_range : nettools.

(** The conversion [int64(uint64(x))] is the identity on [int64]. *)
Lemma i64_u64 z : in_i64 z -> i64 (u64 z) = z.
Proof.
  intros H. unfold i64, u64, in_i64 in *.
  rewrite Zplus_mod_idemp_l, Z.mod_small by lia. lia.
Qed.

Lemma u64_i64 z : in_u64 z -> u64 (i64 z) = z.
Proof.
  intros H. unfold i64, u64, in_u64 in *.
  rewrite Zminus_mod_idemp_l. replace (z + 2 ^ 63 - 2 ^ 63) with z by lia.
  by apply Z.mod_small.
Qed.

Lemma i64_add_l a b : i64 (i64 a + b) = i64 (a + b).
Proof.
  unfold i64.
  replace ((a + 2 ^ 63) mod 2 ^ 64 - 2 ^ 63 + b + 2 ^ 63)
    with ((a + 2 ^ 63) mod 2 ^ 64 + b) by lia.
  rewrite Zplus_mod_idemp_l. do 2 f_equal. lia.
Qed.

Lemma go_div_pos a b :
  0 <= a -> in_i64 a -> 0 < b -> go_div a b = Some (a / b).
Proof.
  intros Ha Hi Hb. unfold go_div.
  rewrite (proj2 (Z.eqb_neq b 0)) by lia. f_equal.
  rewrite Z.quot_div_nonneg by lia. apply i64_small.
  unfold in_i64 in *. pose proof (Z.div_pos a b). 
  assert (a / b <= a) by (apply Z.div_le_upper_bound; nia). lia.
Qed.

(** A value below the bits of a shifted one is added by an [or]. *)
Lemma lor_shifted n l s : 0 <= n -> 0 <= s < 2 ^ n -> Z.lor (l * 2 ^ n) s = l * 2 ^ n + s.
Proof.
  intros Hn Hs. rewrite <- Z.add_lor_land.
  replace (Z.land (l * 2 ^ n) s) with 0; [lia|].
  rewrite <- Z.shiftl_mul_pow2 by lia.
  rewrite <- (Z.mod_small s (2 ^ n)) at 1 by lia. rewrite <- Z.land_ones by lia.
  symmetry. rewrite Z.land_comm, <- Z.land_assoc, (Z.land_comm (Z.ones n)).
  rewrite Z.land_ones by lia. rewrite Z.shiftl_mul_pow2, Z.mod_mul by lia.
  apply Z.land_0_r.
Qed.

(** ** Byte slices *)

(** [make([]byte, n)]. *)
Definition make_bytes (n : nat) : bytes := replicate n 0.

(** [l[a:b]], for [a <= b <= len(l)]. *)
Definition slice {A} (a b : nat) (l : list A) : list A := take (b - a) (drop a l).

(** [copy(dst[off:], src)]: at most [len(dst) - off] elements are copied. *)
Definition copy_at {A} (off : nat) (src dst : list A) : list A :=
  take off dst ++ take (length dst - off) src ++ drop (off + length src) dst.

(** [bytes.Equal]. *)
Definition bytes_equal (a b : bytes) : bool := bool_decide (a = b).

Lemma length_make_bytes n : length (make_bytes n) = n.
Proof. apply length_replicate. Qed.

Lemma length_copy_at {A} off (src dst : list A) :
  (off <= length dst)%nat -> length (copy_at off src dst) = length dst.
Proof.
  intros H. unfold copy_at.
  rewrite !length_app, !length_take, length_drop. lia.
Qed.

Lemma copy_at_split {A} (pre mid post src : list A) :
  length src = length mid ->
  copy_at (length pre) src (pre ++ mid ++ post) = pre ++ src ++ post.
Proof.
  intros H. unfold copy_at. rewrite take_app_length, !length_app.
  rewrite (take_ge src) by lia. f_equal. f_equal.
  rewrite app_assoc, drop_app_length'; [done|]. rewrite length_app. lia.
Qed.

Lemma slice_app_mid {A} (pre mid post : list A) a b :
  a = length pre -> b = (a + length mid)%nat ->
  slice a b (pre ++ mid ++ post) = mid.
Proof.
  intros -> ->. unfold slice. rewrite drop_app_length.
  apply take_app_length'. lia.
Qed.

Lemma bytes_equal_true a b : bytes_equal a b = true <-> a = b.
Proof. apply bool_decide_eq_true. Qed.

(** *** Big- and little-endian integers of [n] bytes *)

Fixpoint put_le (n : nat) (z : Z) : bytes :=
  match n with
  | O => []
  | S n => z mod 256 :: put_le n (z / 256)
  end.

Fixpoint get_le (l : bytes) : Z :=
  match l with
  | [] => 0
  | b :: l => b + 256 * get_le l
  end.

Definition put_be (n : nat) (z : Z) : bytes := reverse (put_le n z).
Definition get_be (l : bytes) : Z := get_le (reverse l).

Lemma length_put_le n z : length (put_le n z) = n.
Proof. revert z; induction n; simpl; auto. Qed.

Lemma length_put_be n z : length (put_be n z) = n.
Proof. unfold put_be. rewrite length_reverse. apply length_put_le. Qed.

Lemma put_le_bytes n z : Forall is_byte (put_le n z).
Proof.
  revert z; induction n; intros z; simpl; constructor; auto.
  unfold is_byte. apply Z.mod_pos_bound. lia.
Qed.

Lemma put_be_bytes n z : Forall is_byte (put_be n z).
Proof. apply Forall_reverse, put_le_bytes. Qed.

Lemma get_put_le n z : get_le (put_le n z) = z mod 256 ^ Z.of_nat n.
Proof.
  revert z; induction n as [|n IH]; intros z; cbn [put_le get_le].
  - by rewrite Z.mod_1_r.
  - rewrite IH, Nat2Z.inj_succ, Z.pow_succ_r by lia.
    rewrite Z.rem_mul_r by lia. lia.
Qed.

Lemma get_put_be n z : get_be (put_be n z) = z mod 256 ^ Z.of_nat n.
Proof. unfold get_be, put_be. rewrite reverse_involutive. apply get_put_le. Qed.

Lemma get_le_bound l : Forall is_byte l -> 0 <= get_le l < 256 ^ Z.of_nat (length l).
Proof.
  induction 1 as [|b l Hb _ IH]; cbn [get_le length]; [lia|].
  rewrite Nat2Z.inj_succ, Z.pow_succ_r by lia. unfold is_byte in Hb. lia.
Qed.

Lemma put_get_le l : Forall is_byte l -> put_le (length l) (get_le l) = l.
Proof.
  induction 1 as [|b l Hb _ IH]; cbn [get_le put_le length]; [done|].
  unfold is_byte in Hb. f_equal.
  - rewrite Z.mul_comm, Z_mod_plus_full. apply Z.mod_small. lia.
  - rewrite Z.mul_comm, Z_div_plus_full by lia.
    rewrite Z.div_small by lia. exact IH.
Qed.

Lemma put_get_be l : Forall is_byte l -> put_be (length l) (get_be l) = l.
Proof.
  intros H. unfold put_be, get_be.
  rewrite <- (length_reverse l), put_get_le by by apply Forall_reverse.
  apply reverse_involutive.
Qed.

(** *** Reading consecutive fields *)

Lemma slice_head {A} (m l : list A) a b : a = O -> b = length m -> slice a b (m ++ l) = m.
Proof. intros -> ->. unfold slice. rewrite drop_0, Nat.sub_0_r. apply take_app_length. Qed.

Lemma slice_skip {A} (p l : list A) a b :
  (length p <= a)%nat -> slice a b (p ++ l) = slice (a - length p) (b - length p) l.
Proof.
  intros H. unfold slice. rewrite drop_app_ge by done. f_equal. lia.
Qed.

Lemma length_slice {A} (l : list A) a b :
  (b <= length l)%nat -> length (slice a b l) = (b - a)%nat.
Proof. intros H. unfold slice. rewrite length_take, length_drop. lia. Qed.

Lemma slice_drop {A} (l : list A) a b : (a <= b)%nat -> slice a b l ++ drop b l = drop a l.
Proof.
  intros H. unfold slice. rewrite <- (take_drop (b - a) (drop a l)) at 2. f_equal.
  rewrite drop_drop. f_equal. lia.
Qed.

Lemma slice_bytes l a b : Forall is_byte l -> Forall is_byte (slice a b l).
Proof. intros H. unfold slice. by apply Forall_take, Forall_drop. Qed.

(** A field re-encodes to the bytes it was read from. *)
Lemma put_get_slice n l a b :
  Forall is_byte l -> (b <= length l)%nat -> n = (b - a)%nat ->
  put_be n (get_be (slice a b l)) = slice a b l.
Proof.
  intros H Hb ->. rewrite <- (length_slice l a b Hb). by apply put_get_be, slice_bytes.
Qed.

Lemma get_slice_bound n l a b :
  Forall is_byte l -> (b <= length l)%nat -> n = (b - a)%nat ->
  0 <= get_be (slice a b l) < 256 ^ Z.of_nat n.
Proof.
  intros H Hb ->. rewrite <- (length_slice l a b Hb), <- length_reverse.
  apply get_le_bound, Forall_reverse, slice_bytes, H.
Qed.

(** Evaluate the slices of a concatenation of encoded fields. *)
Ltac slices :=
  repeat first
    [ rewrite slice_head by (rewrite ?length_put_be; reflexivity)
    | rewrite slice_skip by (rewrite ?length_put_be; apply Nat.leb_le; reflexivity) ].

(** *** Filling a fresh buffer from left to right *)

(** [copy(dst[a:b], src)]: at most [b - a] elements are copied. *)
Definition copy_slice {A} (a b : nat) (src dst : list A) : list A :=
  copy_at a (take (b - a) src) dst.

(** A buffer whose first bytes are [pre] and whose [n] others are still 0. *)
Definition filled (pre : bytes) (n : nat) : bytes := pre ++ make_bytes n.

Lemma filled_nil n : make_bytes n = filled [] n.
Proof. done. Qed.

Lemma copy_at_filled pre n off src :
  off = length pre ->
  copy_at off src (filled pre n) = filled (pre ++ take n src) (n - length src).
Proof.
  intros ->. unfold copy_at, filled. rewrite take_app_length, length_app, length_make_bytes.
  replace (length pre + n - length pre)%nat with n by lia.
  rewrite drop_app_add, <- app_assoc. f_equal. f_equal. apply drop_replicate.
Qed.

Lemma copy_at_filled_exact pre n off src :
  off = length pre -> (length src <= n)%nat ->
  copy_at off src (filled pre n) = filled (pre ++ src) (n - length src).
Proof. intros Ho Hn. rewrite copy_at_filled by done. by rewrite take_ge. Qed.

(** The padding: as much of the salt as fits, then zeros. *)
Definition padding (salt : bytes) (n : nat) : bytes := take n salt ++ make_bytes (n - length salt).

Lemma length_padding salt n : length (padding salt n) = n.
Proof. unfold padding. rewrite length_app, length_take, length_make_bytes. lia. Qed.

Lemma padding_id l : padding l (length l) = l.
Proof. unfold padding. rewrite take_ge, Nat.sub_diag by lia. apply app_nil_r. Qed.

(** A field written into its slot of the buffer, cut or zero-padded to fit. *)
Lemma copy_slice_padding pre n a b src :
  a = length pre -> (a <= b)%nat -> (b - a <= n)%nat ->
  copy_slice a b src (filled pre n) = filled (pre ++ padding src (b - a)) (n - (b - a)).
Proof.
  intros -> Hab Hn. unfold copy_slice.
  rewrite copy_at_filled_exact by (rewrite ?length_take; lia).
  unfold filled, padding, make_bytes. rewrite <- !app_assoc. f_equal. f_equal.
  rewrite <- replicate_add. f_equal. rewrite length_take. lia.
Qed.

(** ** Lists *)

Lemma find_Some_elem {A} (f : A -> bool) l x : List.find f l = Some x -> x ∈ l /\ f x = true.
Proof. intros H. apply List.find_some in H as [H1 H2]. by rewrite list_elem_of_In. Qed.

Lemma find_None_forall {A} (f : A -> bool) l : List.find f l = None -> Forall (fun x => f x = false) l.
Proof.
  intros H. apply Forall_forall. intros x Hx. apply (List.find_none _ _ H). by apply list_elem_of_In.
Qed.


(** The first match is the only one. *)
Lemma find_unique {A} (f : A -> bool) l i x :
  l !! i = Some x -> f x = true -> (forall j y, l !! j = Some y -> f y = true -> j = i) ->
  List.find f l = Some x.
Proof.
  revert i. induction l as [|y l IH]; intros [|i] Hx Hf Hu; try done; cbn [List.find].
  - injection Hx as ->. by rewrite Hf.
  - destruct (f y) eqn:Hy; [by specialize (Hu 0%nat y eq_refl Hy)|].
    apply (IH i Hx Hf). intros j z Hz Hfz. specialize (Hu (S j) z Hz Hfz). lia.
Qed.

(** The byte at index [i] of a slice; the callers have checked [i < len]. *)
Definition byte_at (l : bytes) (i : nat) : Z := nth i l 0.

Lemma byte_at_range l i : Forall is_byte l -> is_byte (byte_at l i).
Proof.
  intros H. unfold byte_at. destruct (decide (i < length l)%nat) as [Hi|Hi].
  - rewrite Forall_forall in H. apply H, list_elem_of_In, nth_In. lia.
  - rewrite nth_overflow by lia. unfold is_byte. lia.
Qed.

Lemma byte_at_app_r pre l i :
  (length pre <= i)%nat -> byte_at (pre ++ l) i = byte_at l (i - length pre).
Proof. intros H. unfold byte_at. by rewrite app_nth2 by lia. Qed.

Lemma byte_at_app_l pre l i :
  (i < length pre)%nat -> byte_at (pre ++ l) i = byte_at pre i.
Proof. intros H. unfold byte_at. by rewrite app_nth1 by lia. Qed.
