(* ===== verification/GoStd.v ===== *)
(** * The parts of the Go standard library the program computes with

    Decimal formatting and parsing ([fmt]'s %d, [strconv.Atoi]),
    [strings.TrimSpace], [strings.Split], [strings.HasPrefix], IEEE-754
    binary64 arithmetic, and maps ranged over in an arbitrary order. *)

From Stdlib Require Export Ascii.
From stdpp Require Export pretty.
From Stdlib Require Import SpecFloat.
From S2P Require Import Prelude.
Local Open Scope Z_scope.

(** ** Floating point

    [float64] arithmetic is the bit-exact IEEE-754 binary64 specification of
    the standard library (53-bit mantissa, exponent bound 1024). *)

Definition float64 : Set := spec_float.
Definition float64_of_int (z : Z) : float64 := binary_normalize 53 1024 z 0 false.
Definition float64_div (a b : float64) : float64 := SFdiv 53 1024 a b.
Definition float64_zero : float64 := S754_zero false.

(** ** Decimal formatting *)

(** %d of an integer. *)
Definition itoa (z : Z) : string := pretty z.

(** [fmt.Appendf(_, "%d-%d", a, b)], the key of the per-port counters. *)
Definition port_key (a b : Z) : string := itoa a +:+ "-" +:+ itoa b.

Fixpoint has_dash (s : string) : bool :=
  match s with
  | EmptyString => false
  | String c s => bool_decide (c = "-"%char) || has_dash s
  end.

Lemma pretty_N_go_no_dash x s : has_dash s = false -> has_dash (pretty_N_go x s) = false.
Proof.
  revert s. induction (N.lt_wf_0 x) as [x _ IH]; intros s Hs.
  destruct (decide (x = 0%N)) as [->|Hx]; [by rewrite pretty_N_go_0|].
  rewrite pretty_N_go_step by lia. apply IH; [by apply N.div_lt; lia|].
  cbn [has_dash]. rewrite Hs, orb_false_r. apply bool_decide_eq_false_2.
  unfold pretty_N_char. repeat case_match; discriminate.
Qed.

Lemma itoa_no_dash z : 0 <= z -> has_dash (itoa z) = false.
Proof.
  intros Hz. unfold itoa, pretty.
  destruct z as [|p|p]; [done| |lia].
  change (has_dash (pretty_N_go (N.pos p) "") = false). by apply pretty_N_go_no_dash.
Qed.

Lemma dash_split a a' b b' :
  has_dash a = false -> has_dash a' = false ->
  a +:+ "-" +:+ b = a' +:+ "-" +:+ b' -> a = a' /\ b = b'.
Proof.
  revert a'. induction a as [|c a IH]; intros [|c' a'] Ha Ha' H; cbn in *; simplify_eq; try done.
  - apply orb_false_elim in Ha as [_ Ha], Ha' as [_ Ha'].
    destruct (IH a') as [-> ->]; auto.
Qed.

Lemma port_key_inj a b a' b' :
  0 <= a -> 0 <= a' -> port_key a b = port_key a' b' -> a = a' /\ b = b'.
Proof.
  unfold port_key. intros Ha Ha' H.
  apply dash_split in H as [H1 H2]; [|by apply itoa_no_dash..].
  split; by apply (inj pretty).
Qed.

(** ** Strings *)

(** The UTF-8 encodings of the code points [unicode.IsSpace] accepts. *)
Definition space_encodings : list (list nat) :=
  [[9]; [10]; [11]; [12]; [13]; [32]; [194; 133]; [194; 160]; [225; 154; 128];
   [226; 128; 128]; [226; 128; 129]; [226; 128; 130]; [226; 128; 131]; [226; 128; 132];
   [226; 128; 133]; [226; 128; 134]; [226; 128; 135]; [226; 128; 136]; [226; 128; 137];
   [226; 128; 138]; [226; 128; 168]; [226; 128; 169]; [226; 128; 175]; [226; 129; 159];
   [227; 128; 128]]%nat.

Definition string_codes (s : string) : list nat :=
  Ascii.nat_of_ascii <$> String.list_ascii_of_string s.
Definition codes_string (l : list nat) : string :=
  String.string_of_list_ascii (Ascii.ascii_of_nat <$> l).

Fixpoint strip_codes (p l : list nat) : option (list nat) :=
  match p, l with
  | [], _ => Some l
  | x :: p, y :: l => if decide (x = y) then strip_codes p l else None
  | _ :: _, [] => None
  end.

Fixpoint strip_any (ps : list (list nat)) (l : list nat) : option (list nat) :=
  match ps with
  | [] => None
  | p :: ps =>
      match strip_codes p l with
      | Some l' => Some l'
      | None => strip_any ps l
      end
  end.

(** Drop white-space runes from the front; one byte at least goes per round. *)
Fixpoint trim_codes (fuel : nat) (ps : list (list nat)) (l : list nat) : list nat :=
  match fuel with
  | O => l
  | S fuel =>
      match strip_any ps l with
      | Some l' => trim_codes fuel ps l'
      | None => l
      end
  end.

(** [strings.TrimSpace]. *)
Definition TrimSpace (s : string) : string :=
  let l := string_codes s in
  let l := trim_codes (length l) space_encodings l in
  let r := trim_codes (length l) (reverse <$> space_encodings) (reverse l) in
  codes_string (reverse r).

(** [strings.Split(s, sep)] for a one-byte separator. *)
Fixpoint Split (s : string) (sep : ascii) : list string :=
  match s with
  | EmptyString => [""]
  | String c s' =>
      if decide (c = sep) then "" :: Split s' sep
      else
        match Split s' sep with
        | [] => [String c ""]
        | w :: ws => String c w :: ws
        end
  end.

(** [strings.Join]. *)
Fixpoint Join (l : list string) (sep : string) : string :=
  match l with
  | [] => ""
  | [s] => s
  | s :: l => s +:+ sep +:+ Join l sep
  end.

Definition HasPrefix (s p : string) : bool := String.prefix p s.

(** [strings.IndexByte] as the text before and after the first [c]. *)
Fixpoint cut_byte (s : string) (c : ascii) : option (string * string) :=
  match s with
  | EmptyString => None
  | String d s' =>
      if decide (d = c) then Some ("", s')
      else '(a, b) ← cut_byte s' c; Some (String d a, b)
  end.

Definition digit_value (c : ascii) : option Z :=
  let n := Z.of_nat (Ascii.nat_of_ascii c) in
  if (48 <=? n) && (n <=? 57) then Some (n - 48) else None.

Fixpoint parse_digits (acc : Z) (s : string) : option Z :=
  match s with
  | EmptyString => Some acc
  | String c s => d ← digit_value c; parse_digits (10 * acc + d) s
  end.

(** A non-empty string of decimal digits. *)
Definition parse_decimal (s : string) : option Z :=
  match s with
  | EmptyString => None
  | String _ _ => parse_digits 0 s
  end.

(** [strconv.Atoi]: an optional sign and decimal digits, within [int64];
    [None] is either error. *)
Definition Atoi (s : string) : option Z :=
  z ← match s with
      | String c s' =>
          if decide (c = "-"%char) then Z.opp <$> parse_decimal s'
          else if decide (c = "+"%char) then parse_decimal s'
          else parse_decimal s
      | EmptyString => None
      end;
  if (- 2 ^ 63 <=? z) && (z <? 2 ^ 63) then Some z else None.

(** [strconv.ParseUint(s, 10, 32)]. *)
Definition ParseUint32 (s : string) : option Z :=
  z ← parse_decimal s;
  if z <? 2 ^ 32 then Some z else None.

Lemma Split_nonempty s sep : Split s sep <> [].
Proof.
  destruct s as [|c s]; cbn; [done|]. case_decide; [done|].
  by destruct (Split s sep).
Qed.

Lemma digit_value_range c d : digit_value c = Some d -> 0 <= d <= 9.
Proof.
  unfold digit_value. intros H.
  destruct (_ && _) eqn:E; simplify_eq. apply andb_prop in E as [?%Z.leb_le ?%Z.leb_le]. lia.
Qed.

Lemma parse_digits_nonneg acc s v : parse_digits acc s = Some v -> 0 <= acc -> 0 <= v.
Proof.
  revert acc. induction s as [|c s IH]; intros acc; cbn [parse_digits]; [by intros [= <-]|].
  destruct (digit_value c) as [d|] eqn:E; [cbn [mbind option_bind]|done].
  apply digit_value_range in E. intros H Ha. eapply IH; [exact H|lia].
Qed.

Lemma parse_decimal_nonneg s v : parse_decimal s = Some v -> 0 <= v.
Proof. destruct s; [done|]. intros H. by eapply parse_digits_nonneg. Qed.

(** ** Ranging over a Go map

    The iteration order of a Go map is unspecified; [range_order m l] says
    that [l] is one of the orders [for k, v := range m] may take. *)
Definition range_order {K V} `{Countable K} (m : gmap K V) (l : list (K * V)) : Prop :=
  l ≡ₚ map_to_list m.

Lemma range_order_self {K V} `{Countable K} (m : gmap K V) : range_order m (map_to_list m).
Proof. unfold range_order. reflexivity. Qed.
