(* ===== verification/GoText.v ===== *)
(** * Text: white space, separators, decimal numbers

    Lemmas on [TrimSpace], [Split], [Atoi], [ParseUint32] and decimal printing
    that the parsers of the program share. *)

From S2P Require Import Prelude GoStd.
Local Open Scope Z_scope.

(** ** Decimal text *)

(** A string of characters none of which starts or ends a white-space
    encoding: printable ASCII. *)
Fixpoint visible (s : string) : Prop :=
  match s with
  | EmptyString => True
  | String c s => (33 <= Ascii.nat_of_ascii c < 127)%nat /\ visible s
  end.

Lemma visible_codes s : visible s -> Forall (fun n => 33 <= n < 127)%nat (string_codes s).
Proof.
  unfold string_codes. induction s as [|c s IH]; cbn; constructor.
  - by destruct H.
  - apply IH. by destruct H.
Qed.

Lemma strip_any_visible n l ps :
  (33 <= n < 127)%nat ->
  Forall (fun p => match p with x :: _ => (x < 33 \/ 127 <= x)%nat | [] => False end) ps ->
  strip_any ps (n :: l) = None.
Proof.
  intros Hn H. induction H as [|p ps Hp _ IH]; [done|]. cbn [strip_any].
  destruct p as [|x p]; [done|]. cbn [strip_codes]. rewrite decide_False by lia. exact IH.
Qed.

Lemma trim_codes_visible fuel l ps :
  Forall (fun n => 33 <= n < 127)%nat l ->
  Forall (fun p => match p with x :: _ => (x < 33 \/ 127 <= x)%nat | [] => False end) ps ->
  trim_codes fuel ps l = l.
Proof.
  intros Hl Hps. destruct fuel as [|fuel]; [done|]. cbn [trim_codes].
  destruct Hl as [|n l Hn Hl]; [|by rewrite strip_any_visible].
  assert (strip_any ps [] = None) as ->; [|done].
  induction Hps as [|p ps Hp _ IH]; [done|]. by destruct p.
Qed.

Lemma codes_string_codes s : codes_string (string_codes s) = s.
Proof.
  unfold codes_string, string_codes. rewrite <- list_fmap_compose.
  rewrite (list_fmap_ext _ id) by (intros; cbn; by rewrite Ascii.ascii_nat_embedding).
  rewrite list_fmap_id. apply String.string_of_list_ascii_of_string.
Qed.

(** Text without white space is left alone. *)
Lemma TrimSpace_visible s : visible s -> TrimSpace s = s.
Proof.
  intros H%visible_codes. unfold TrimSpace.
  rewrite (trim_codes_visible _ (string_codes s)); [|done|].
  - rewrite trim_codes_visible; [rewrite reverse_involutive; apply codes_string_codes| |].
    + by apply Forall_reverse.
    + let x := eval vm_compute in (reverse <$> space_encodings) in
      change (reverse <$> space_encodings) with x.
      repeat (constructor; [cbn; lia|]). constructor.
  - unfold space_encodings. repeat (constructor; [cbn; lia|]). constructor.
Qed.

Lemma visible_app a b : visible (a +:+ b) <-> visible a /\ visible b.
Proof. induction a as [|c a IH]; [cbn; tauto|]. change (String c a +:+ b) with (String c (a +:+ b)). cbn [visible]. rewrite IH. tauto. Qed.

Lemma digit_char_spec d :
  (d < 10)%N ->
  digit_value (pretty_N_char d) = Some (Z.of_N d) /\
  (33 <= Ascii.nat_of_ascii (pretty_N_char d) < 127)%nat /\
  pretty_N_char d <> "-"%char /\ pretty_N_char d <> "+"%char /\ pretty_N_char d <> ","%char.
Proof.
  intros H. assert (d = 0 \/ d = 1 \/ d = 2 \/ d = 3 \/ d = 4 \/ d = 5 \/ d = 6 \/ d = 7 \/ d = 8 \/ d = 9)%N
    as Hd by lia.
  destruct_or! Hd; subst; split_and!; first [reflexivity | discriminate | vm_compute; lia].
Qed.

(** The digits [pretty_N_go] puts in front of [s]. *)
Lemma pretty_N_go_digits (P : string -> Prop) x s :
  (forall d s, (d < 10)%N -> P s -> P (String (pretty_N_char d) s)) -> P s -> P (pretty_N_go x s).
Proof.
  intros Hd. revert s. induction (N.lt_wf_0 x) as [x _ IH]; intros s Hs.
  destruct (decide (x = 0%N)) as [->|Hx]; [by rewrite pretty_N_go_0|].
  rewrite pretty_N_go_step by lia. apply IH; [apply N.div_lt; lia|].
  apply Hd; [apply N.mod_lt; lia|done].
Qed.

Lemma parse_pretty_N_go x s :
  (0 < x)%N -> parse_digits 0 (pretty_N_go x s) = parse_digits (Z.of_N x) s.
Proof.
  revert s. induction (N.lt_wf_0 x) as [x _ IH]; intros s Hx.
  rewrite pretty_N_go_step by lia.
  destruct (digit_char_spec (x mod 10)) as [Hv _]; [apply N.mod_lt; lia|].
  assert (Hstep : parse_digits (Z.of_N (x / 10)) (String (pretty_N_char (x mod 10)) s) =
                    parse_digits (Z.of_N x) s).
  { cbn [parse_digits]. rewrite Hv. cbn [mbind option_bind]. f_equal.
    pose proof (N.div_mod x 10 ltac:(lia)). lia. }
  destruct (decide (x / 10 = 0)%N) as [E|E].
  - rewrite E, pretty_N_go_0. by rewrite E in Hstep.
  - rewrite IH; [done|apply N.div_lt; lia|by apply N.neq_0_lt_0].
Qed.

Lemma itoa_pos z : 0 < z -> itoa z = pretty_N_go (Z.to_N z) "".
Proof. intros H. unfold itoa, pretty. by destruct z. Qed.

Lemma Atoi_unsigned s :
  (match s with String c _ => c <> "-"%char /\ c <> "+"%char | EmptyString => False end) ->
  Atoi s = (z ← parse_digits 0 s; if (- 2 ^ 63 <=? z) && (z <? 2 ^ 63) then Some z else None).
Proof. destruct s as [|c s]; [done|]. intros [H1 H2]. unfold Atoi. by rewrite !decide_False by done. Qed.

(** Printing a positive [int] and parsing it. *)
Lemma Atoi_itoa z : 0 < z < 2 ^ 63 -> Atoi (itoa z) = Some z.
Proof.
  intros H. rewrite itoa_pos by lia. rewrite Atoi_unsigned.
  - rewrite parse_pretty_N_go by lia. cbn [parse_digits mbind option_bind].
    rewrite Z2N.id by lia. rewrite (proj2 (Z.leb_le _ _)), (proj2 (Z.ltb_lt _ _)) by lia. done.
  - rewrite pretty_N_go_step by lia.
    apply (pretty_N_go_digits (fun s => match s with String c _ => c <> "-"%char /\ c <> "+"%char
                                        | EmptyString => False end)).
    + intros d s Hd _. by apply digit_char_spec in Hd as (_ & _ & ? & ? & _).
    + destruct (digit_char_spec (Z.to_N z mod 10)) as (_ & _ & ? & ? & _); [apply N.mod_lt; lia|done].
Qed.

Lemma itoa_visible z : 0 < z -> visible (itoa z).
Proof.
  intros H. rewrite itoa_pos by lia. apply pretty_N_go_digits; [|done].
  intros d s Hd Hs. split; [by apply digit_char_spec in Hd as (_ & ? & _)|done].
Qed.

Fixpoint no_char (c : ascii) (s : string) : Prop :=
  match s with EmptyString => True | String d s => d <> c /\ no_char c s end.

Lemma itoa_no_comma z : 0 < z -> no_char "," (itoa z).
Proof.
  intros H. rewrite itoa_pos by lia. apply pretty_N_go_digits; [|done].
  intros d s Hd Hs. split; [by apply digit_char_spec in Hd as (_ & _ & _ & _ & ?)|done].
Qed.

Lemma Split_no_char c s : no_char c s -> Split s c = [s].
Proof.
  induction s as [|d s IH]; [done|]. intros [Hd Hs]. cbn [Split].
  rewrite decide_False by done. by rewrite IH.
Qed.

Lemma Split_app c a b : no_char c a -> Split (a +:+ String c b) c = a :: Split b c.
Proof.
  induction a as [|d a IH]; intros H.
  - change ("" +:+ String c b) with (String c b). cbn [Split]. by rewrite decide_True.
  - destruct H as [Hd Ha]. change ((String d a +:+ String c b)) with (String d (a +:+ String c b)).
    cbn [Split]. rewrite decide_False by done. by rewrite IH.
Qed.

