(* ===== verification/Ports.v ===== *)
(** * Port ranges and the port-pair odometer

    [stat.PortRange], the four copies of [GetNextPorts] (packages [stat],
    [sonar/config], [sonar6/config], [kuiniu/config]), [evr/config.GetNextPort],
    the packing of a port pair into one atomic [uint32], and the split of a
    client port range over receive goroutines. *)

From S2P Require Import Prelude.
Local Open Scope Z_scope.

(** [stat.PortRange]: [Min] and [Max] are Go [int]s. *)
Record PortRange := mkPortRange { Min : Z; Max : Z }.

#[export] Instance PortRange_eq_dec : EqDecision PortRange.
Proof. solve_decision. Defined.

Module stat.

(** [stat.GetNextPorts], on [uint16] ports. *)
Definition GetNextPorts (clientPort serverPort : Z) (cr sr : PortRange) : Z * Z :=
  let serverPort := u16 (serverPort + 1) in
  let '(serverPort, clientPort) :=
    if u16 (Max sr) <? serverPort
    then (u16 (Min sr), u16 (clientPort + 1))
    else (serverPort, clientPort) in
  let clientPort :=
    if u16 (Max cr) <? clientPort then u16 (Min cr) else clientPort in
  (clientPort, serverPort).

End stat.

Module sonar_config.

(** [sonar/config.GetNextPorts]. *)
Definition GetNextPorts (clientPort serverPort : Z) (cr sr : PortRange) : Z * Z :=
  let serverPort := u16 (serverPort + 1) in
  let '(serverPort, clientPort) :=
    if u16 (Max sr) <? serverPort
    then (u16 (Min sr), u16 (clientPort + 1))
    else (serverPort, clientPort) in
  let clientPort :=
    if u16 (Max cr) <? clientPort then u16 (Min cr) else clientPort in
  (clientPort, serverPort).

End sonar_config.

Module sonar6_config.

(** [sonar6/config.GetNextPorts]. *)
Definition GetNextPorts (clientPort serverPort : Z) (cr sr : PortRange) : Z * Z :=
  let serverPort := u16 (serverPort + 1) in
  let '(serverPort, clientPort) :=
    if u16 (Max sr) <? serverPort
    then (u16 (Min sr), u16 (clientPort + 1))
    else (serverPort, clientPort) in
  let clientPort :=
    if u16 (Max cr) <? clientPort then u16 (Min cr) else clientPort in
  (clientPort, serverPort).

End sonar6_config.

Module kuiniu_config.

(** [kuiniu/config.GetNextPorts]. *)
Definition GetNextPorts (clientPort serverPort : Z) (cr sr : PortRange) : Z * Z :=
  let serverPort := u16 (serverPort + 1) in
  let '(serverPort, clientPort) :=
    if u16 (Max sr) <? serverPort
    then (u16 (Min sr), u16 (clientPort + 1))
    else (serverPort, clientPort) in
  let clientPort :=
    if u16 (Max cr) <? clientPort then u16 (Min cr) else clientPort in
  (clientPort, serverPort).

End kuiniu_config.

Module evr_config.

(** [evr/config.GetNextPort]. *)
Definition GetNextPort (port : Z) (pr : PortRange) : Z :=
  let port := u16 (port + 1) in
  if (u16 (Max pr) <? port) || (port <? u16 (Min pr)) then u16 (Min pr) else port.

End evr_config.

Module sonar_client.

(** [sonar/client.packPorts] and [unpackPorts]. *)
Definition packPorts (local server : Z) : Z :=
  Z.lor (u32 (Z.shiftl local 16)) server.

Definition unpackPorts (v : Z) : Z * Z := (u16 (Z.shiftr v 16), u16 v).

(** The sub-ranges [serveRead] opens a socket for: the loop
    [for i := pr.Min; i <= pr.Max; i += portsPerG], [fuel] iterations at
    most. [portsPerG = 0] would panic only through the division by
    [gcount = 0], that is for an empty range. *)
Fixpoint split_loop (fuel : nat) (i portsPerG : Z) (pr : PortRange) : list PortRange :=
  match fuel with
  | O => []
  | S fuel =>
      if i <=? Max pr then
        let upper := i + portsPerG - 1 in
        let upper := if Max pr <? upper then Max pr else upper in
        mkPortRange i upper :: split_loop fuel (i + portsPerG) portsPerG pr
      else []
  end.

Definition serveRead_ranges (pr : PortRange) : option (list PortRange) :=
  let portCount := Max pr - Min pr + 1 in
  let gcount := Z.min portCount 8 in
  portsPerG ← go_div (portCount + gcount - 1) gcount;
  Some (split_loop (Z.to_nat portCount) (Min pr) portsPerG pr).

End sonar_client.

Module sonar6_client.

(** [sonar6/client.packPorts] and [unpackPorts]. *)
Definition packPorts (local server : Z) : Z :=
  Z.lor (u32 (Z.shiftl local 16)) server.

Definition unpackPorts (v : Z) : Z * Z := (u16 (Z.shiftr v 16), u16 v).

End sonar6_client.

Module kuiniu_client.

(** [kuiniu/client.packPorts] and [unpackPorts]. *)
Definition packPorts (local server : Z) : Z :=
  Z.lor (u32 (Z.shiftl local 16)) server.

Definition unpackPorts (v : Z) : Z * Z := (u16 (Z.shiftr v 16), u16 v).

End kuiniu_client.

(** ** Well-formed ranges *)

(** What [ParsePortRange] accepts. *)
Definition valid_range (r : PortRange) : Prop := 1 <= Min r /\ Min r <= Max r /\ Max r <= 65535.

Definition in_range (r : PortRange) (p : Z) : Prop := Min r <= p <= Max r.

Definition width (r : PortRange) : Z := Max r - Min r + 1.

(** The position of a pair in the cycle: the server port is the low digit. *)
Definition pair_index (cr sr : PortRange) (p : Z * Z) : Z :=
  (p.1 - Min cr) * width sr + (p.2 - Min sr).

Definition next_pair (cr sr : PortRange) (p : Z * Z) : Z * Z :=
  stat.GetNextPorts p.1 p.2 cr sr.

(** [k] steps of the odometer. *)
Fixpoint nth_pair (k : nat) (cr sr : PortRange) (p : Z * Z) : Z * Z :=
  match k with
  | O => p
  | S k => nth_pair k cr sr (next_pair cr sr p)
  end.

(** The first [k] pairs after [p]. *)
Fixpoint pairs_after (k : nat) (cr sr : PortRange) (p : Z * Z) : list (Z * Z) :=
  match k with
  | O => []
  | S k => next_pair cr sr p :: pairs_after k cr sr (next_pair cr sr p)
  end.

Section odometer.
Variables cr sr : PortRange.
  (** Both ranges are valid and end below the top of [uint16]. *)
Hypothesis Hc : valid_range cr /\ Max cr < 65535.
Hypothesis Hs : valid_range sr /\ Max sr < 65535.

Lemma next_pair_cases c s :
    in_range cr c -> in_range sr s ->
    next_pair cr sr (c, s) =
      if s <? Max sr then (c, s + 1)
      else if c <? Max cr then (c + 1, Min sr) else (Min cr, Min sr).
Proof using Hc Hs.
    unfold next_pair, stat.GetNextPorts, in_range, valid_range in *. cbn [fst snd].
    intros Hic His.
    rewrite (u16_small (s + 1)), (u16_small (Max sr)), (u16_small (Min sr)),
      (u16_small (c + 1)), (u16_small (Max cr)), (u16_small (Min cr))
      by (unfold in_u16; lia).
    destruct (Z.ltb_spec (Max sr) (s + 1)), (Z.ltb_spec s (Max sr)); try lia.
    - destruct (Z.ltb_spec (Max cr) (c + 1)), (Z.ltb_spec c (Max cr)); try lia; done.
    - destruct (Z.ltb_spec (Max cr) c); try lia; done.
Qed.

Lemma next_pair_range p :
    in_range cr p.1 -> in_range sr p.2 ->
    in_range cr (next_pair cr sr p).1 /\ in_range sr (next_pair cr sr p).2.
Proof using Hc Hs.
    destruct p as [c s]; cbn [fst snd]. intros Hic His.
    rewrite next_pair_cases by done. unfold in_range, valid_range in *.
    repeat match goal with
    | |- context [if ?a <? ?b then _ else _] => destruct (Z.ltb_spec a b)
    end; cbn [fst snd]; lia.
Qed.

Lemma pair_index_range p :
    in_range cr p.1 -> in_range sr p.2 ->
    0 <= pair_index cr sr p < width cr * width sr.
Proof using Type.
    unfold in_range, pair_index, width. intros. nia.
Qed.

Lemma pair_index_inj p q :
    in_range sr p.2 -> in_range sr q.2 ->
    pair_index cr sr p = pair_index cr sr q -> p = q.
Proof using Type.
    destruct p as [c s], q as [c' s']; unfold in_range, pair_index, width; cbn [fst snd].
    intros Hp Hq H. assert (c = c') by nia. subst. f_equal. lia.
Qed.

Lemma next_pair_index p :
    in_range cr p.1 -> in_range sr p.2 ->
    pair_index cr sr (next_pair cr sr p) =
      (pair_index cr sr p + 1) mod (width cr * width sr).
Proof using Hc Hs.
    destruct p as [c s]; cbn [fst snd]. intros Hic His.
    rewrite next_pair_cases by done.
    pose proof (pair_index_range (c, s) Hic His) as Hr. revert Hr.
    unfold pair_index, width, in_range, valid_range in *; cbn [fst snd].
    destruct (Z.ltb_spec s (Max sr)); [|destruct (Z.ltb_spec c (Max cr))];
      cbn [fst snd]; intros Hr.
    - rewrite Z.mod_small; nia.
    - rewrite Z.mod_small; [|nia].
      replace s with (Max sr) by lia. ring.
    - replace s with (Max sr) by lia. replace c with (Max cr) by lia.
      replace ((Max cr - Min cr) * (Max sr - Min sr + 1) + (Max sr - Min sr) + 1)
        with ((Max cr - Min cr + 1) * (Max sr - Min sr + 1)) by ring.
      rewrite Z_mod_same_full. lia.
Qed.

Lemma nth_pair_index k p :
    in_range cr p.1 -> in_range sr p.2 ->
    in_range cr (nth_pair k cr sr p).1 /\ in_range sr (nth_pair k cr sr p).2 /\
    pair_index cr sr (nth_pair k cr sr p) =
      (pair_index cr sr p + Z.of_nat k) mod (width cr * width sr).
Proof using Hc Hs.
    revert p; induction k as [|k IH]; intros p Hic His; cbn [nth_pair].
    - split_and!; [done..|]. rewrite Z.add_0_r, Z.mod_small; [done|].
      by apply pair_index_range.
    - destruct (next_pair_range p Hic His) as [H1 H2].
      destruct (IH _ H1 H2) as (H3 & H4 & ->). split_and!; [done..|].
      rewrite next_pair_index by done. rewrite Zplus_mod_idemp_l. f_equal. lia.
Qed.

Lemma pairs_after_lookup n k p :
    (k < n)%nat -> pairs_after n cr sr p !! k = Some (nth_pair (S k) cr sr p).
Proof using Type.
    revert k p; induction n as [|n IH]; intros k p Hk; [lia|].
    destruct k as [|k]; cbn [pairs_after]; [done|].
    cbn [lookup list_lookup]. rewrite IH by lia. done.
Qed.

Lemma length_pairs_after n p : length (pairs_after n cr sr p) = n.
Proof using Type. revert p; induction n; intros; cbn; auto. Qed.

Lemma pairs_after_S n p :
    pairs_after (S n) cr sr p = pairs_after n cr sr p ++ [nth_pair (S n) cr sr p].
Proof using Type.
    revert p; induction n as [|n IH]; intros p; [done|].
    cbn [pairs_after app]. f_equal. apply IH.
Qed.

  (** Fewer steps than there are pairs meet no pair twice. *)
Lemma pairs_after_NoDup n p :
    in_range cr p.1 -> in_range sr p.2 -> Z.of_nat n < width cr * width sr ->
    NoDup (p :: pairs_after n cr sr p).
Proof using Hc Hs.
    intros Hp1 Hp2 Hn.
    assert (Hl : forall i x, (p :: pairs_after n cr sr p) !! i = Some x ->
                   (i <= n)%nat /\ x = nth_pair i cr sr p).
    { intros [|i] x H; [by simplify_eq/=; split; [lia|]|]. cbn in H.
      assert (i < n)%nat as Hi
        by (apply lookup_lt_Some in H; by rewrite length_pairs_after in H).
      rewrite pairs_after_lookup in H by done. by simplify_eq. }
    apply NoDup_alt. intros i j x [Hi ->]%Hl [Hj E]%Hl.
    destruct (nth_pair_index i p Hp1 Hp2) as (_ & _ & Ei).
    destruct (nth_pair_index j p Hp1 Hp2) as (_ & _ & Ej).
    rewrite E, Ej in Ei. pose proof (pair_index_range p Hp1 Hp2) as Hr.
    set (N := width cr * width sr) in *. set (d := pair_index cr sr p) in *.
    pose proof (Z.div_mod (d + Z.of_nat i) N ltac:(lia)).
    pose proof (Z.div_mod (d + Z.of_nat j) N ltac:(lia)).
    assert (N * ((d + Z.of_nat i) / N - (d + Z.of_nat j) / N) = Z.of_nat i - Z.of_nat j) by lia.
    assert ((d + Z.of_nat i) / N - (d + Z.of_nat j) / N = 0) by nia.
    nia.
Qed.

End odometer.

(** ** Properties *)

(** As long as both valid ranges end below 65535, [GetNextPorts] started
    inside them is a cycle through all pairs: every pair of in-range ports
    comes up exactly once among the next [width cr * width sr] steps, and
    after that many steps the walk is back where it started. *)
Theorem GetNextPorts_visits_each_pair_once :
  forall cr sr p q,
    valid_range cr /\ Max cr < 65535 -> valid_range sr /\ Max sr < 65535 ->
    in_range cr p.1 -> in_range sr p.2 -> in_range cr q.1 -> in_range sr q.2 ->
    nth_pair (Z.to_nat (width cr * width sr)) cr sr p = p /\
    exists! k, (k < Z.to_nat (width cr * width sr))%nat /\ nth_pair (S k) cr sr p = q.
Proof.
  intros cr sr p q Hc Hs Hp1 Hp2 Hq1 Hq2.
  set (N := width cr * width sr).
  assert (0 < N) by (unfold N, width, valid_range in *; nia).
  pose proof (pair_index_range cr sr p Hp1 Hp2) as Hip.
  pose proof (pair_index_range cr sr q Hq1 Hq2) as Hiq. fold N in Hip, Hiq.
  split.
  - destruct (nth_pair_index cr sr Hc Hs (Z.to_nat N) p) as (H1 & H2 & H3); auto.
    apply (pair_index_inj cr sr); auto. rewrite H3. fold N.
    rewrite Z2Nat.id by lia. rewrite <- (Z.mul_1_l N) at 1.
    rewrite Z_mod_plus_full. apply Z.mod_small, Hip.
  - set (d := (pair_index cr sr q - pair_index cr sr p - 1) mod N).
    assert (0 <= d < N) by (apply Z.mod_pos_bound; lia).
    exists (Z.to_nat d). split; [split; [lia|]|].
    + destruct (nth_pair_index cr sr Hc Hs (S (Z.to_nat d)) p) as (H1 & H2 & H3); auto.
      apply (pair_index_inj cr sr); auto. rewrite H3. fold N. unfold d.
      rewrite Nat2Z.inj_succ, Z2Nat.id by (apply Z.mod_pos_bound; lia).
      rewrite <- (Z.mod_small (pair_index cr sr q) N) at 2 by lia.
      rewrite Z.add_succ_r, <- Z.add_succ_l, Zplus_mod_idemp_r. f_equal. lia.
    + intros k [Hk Hkq].
      destruct (nth_pair_index cr sr Hc Hs (S k) p) as (H1 & H2 & H3); auto.
      rewrite Hkq in H3. fold N in H3. unfold d. rewrite H3.
      rewrite <- Z.sub_add_distr, Zminus_mod_idemp_l.
      replace (pair_index cr sr p + Z.of_nat (S k) - (pair_index cr sr p + 1))
        with (Z.of_nat k) by lia.
      rewrite Z.mod_small by lia. lia.
Qed.

Lemma GetNextPorts_visits_each_pair_once_witness :
  let cr := mkPortRange 5 6 in let sr := mkPortRange 8 10 in
  nth_pair 6 cr sr (6, 9) = (6, 9) /\
  exists! k, (k < 6)%nat /\ nth_pair (S k) cr sr (6, 9) = (5, 10).
Proof.
  apply (GetNextPorts_visits_each_pair_once (mkPortRange 5 6) (mkPortRange 8 10) (6, 9) (5, 10));
    repeat split; vm_compute; discriminate.
Defined.

(** A server range ending at 65535 (which [ParsePortRange] accepts)
    defeats the wrap-around of [GetNextPorts]: the increment wraps to 0 before
    the comparison with [Max], so from then on the server port walks through
    all 65536 values, whatever [Min] is, and the client port never advances. *)
Theorem GetNextPorts_stuck_at_top :
  forall cr smin c s k,
    0 <= Max cr <= 65535 -> 0 <= c <= Max cr -> in_u16 s ->
    nth_pair k cr (mkPortRange smin 65535) (c, s) = (c, u16 (s + Z.of_nat k)).
Proof.
  intros cr smin c s k Hm Hc. revert s. induction k as [|k IH]; intros s Hs; cbn [nth_pair].
  - by rewrite Z.add_0_r, u16_small.
  - unfold next_pair, stat.GetNextPorts. cbn [fst snd Max Min].
    rewrite (u16_small 65535), (u16_small (Max cr)) by (unfold in_u16; lia).
    destruct (Z.ltb_spec 65535 (u16 (s + 1))) as [H|_].
    { pose proof (u16_range (s + 1)). unfold in_u16 in *. lia. }
    destruct (Z.ltb_spec (Max cr) c); [lia|].
    rewrite IH by apply u16_range. f_equal. unfold u16.
    rewrite Zplus_mod_idemp_l. f_equal. lia.
Qed.

Lemma GetNextPorts_stuck_at_top_witness :
  nth_pair 3 (mkPortRange 43500 43599) (mkPortRange 65000 65535) (43500, 65534) = (43500, 1).
Proof.
  rewrite (GetNextPorts_stuck_at_top (mkPortRange 43500 43599) 65000 43500 65534 3);
    [reflexivity | vm_compute; split; discriminate .. | vm_compute; split; [discriminate | reflexivity]].
Defined.

(** [evr/config.GetNextPort] never leaves a valid range, from any port
    and also when the range ends at 65535, and inside the range it is the
    successor, back to [Min] after [Max]. *)
Lemma GetNextPort_in_range :
  forall pr port,
    valid_range pr ->
    in_range pr (evr_config.GetNextPort port pr) /\
    (in_range pr port ->
     evr_config.GetNextPort port pr = if port =? Max pr then Min pr else port + 1).
Proof.
  intros pr port Hv. unfold evr_config.GetNextPort, in_range, valid_range in *.
  rewrite (u16_small (Max pr)), (u16_small (Min pr)) by (unfold in_u16; lia).
  split.
  - destruct (Z.ltb_spec (Max pr) (u16 (port + 1))), (Z.ltb_spec (u16 (port + 1)) (Min pr));
      cbn [orb]; lia.
  - intros Hp. destruct (Z.eqb_spec port (Max pr)) as [->|Hne].
    + destruct (Z.eq_dec (Max pr) 65535) as [->|].
      * change (u16 (65535 + 1)) with 0.
        destruct (Z.ltb_spec 65535 0), (Z.ltb_spec 0 (Min pr)); cbn [orb]; lia.
      * rewrite u16_small by (unfold in_u16; lia).
        destruct (Z.ltb_spec (Max pr) (Max pr + 1)); cbn [orb]; lia.
    + rewrite u16_small by (unfold in_u16; lia).
      destruct (Z.ltb_spec (Max pr) (port + 1)), (Z.ltb_spec (port + 1) (Min pr));
        cbn [orb]; lia.
Qed.

Lemma GetNextPort_in_range_witness :
  in_range (mkPortRange 65000 65535) (evr_config.GetNextPort 65535 (mkPortRange 65000 65535)) /\
  (in_range (mkPortRange 65000 65535) 65535 ->
   evr_config.GetNextPort 65535 (mkPortRange 65000 65535) = 65000).
Proof.
  apply (GetNextPort_in_range (mkPortRange 65000 65535) 65535).
  vm_compute; repeat split; discriminate.
Defined.

(** A port pair survives the packing into the one [uint32] the write and
    read goroutines share. *)
Lemma unpackPorts_packPorts :
  forall local server,
    in_u16 local -> in_u16 server ->
    in_u32 (sonar_client.packPorts local server) /\
    sonar_client.unpackPorts (sonar_client.packPorts local server) = (local, server).
Proof.
  intros l s Hl Hs. unfold in_u16 in *.
  unfold sonar_client.packPorts, sonar_client.unpackPorts.
  rewrite Z.shiftl_mul_pow2, (u32_small (l * 2 ^ 16)) by (unfold in_u32; lia).
  rewrite lor_shifted by lia.
  split; [unfold in_u32; lia|].
  rewrite Z.shiftr_div_pow2 by lia. f_equal.
  - rewrite Z.div_add_l by lia. rewrite (Z.div_small s) by lia.
    rewrite Z.add_0_r. by apply u16_small.
  - unfold u16. rewrite Z.add_comm, Z_mod_plus_full. by apply u16_small.
Qed.

Lemma unpackPorts_packPorts_witness :
  in_u32 (sonar_client.packPorts 43500 65535) /\
  sonar_client.unpackPorts (sonar_client.packPorts 43500 65535) = (43500, 65535).
Proof. apply (unpackPorts_packPorts 43500 65535); vm_compute; repeat split; discriminate. Defined.

(** *** The receive sockets *)

Lemma split_loop_cover fuel i per pr x :
  0 < per -> Max pr - i + 1 <= Z.of_nat fuel ->
  i <= x <= Max pr ->
  exists r, r ∈ sonar_client.split_loop fuel i per pr /\ in_range r x.
Proof.
  intros Hper. revert i. induction fuel as [|fuel IH]; intros i Hf Hx; [lia|].
  cbn [sonar_client.split_loop]. destruct (Z.leb_spec i (Max pr)) as [Hle|]; [|lia].
  set (upper := if Max pr <? i + per - 1 then Max pr else i + per - 1).
  destruct (Z.le_gt_cases x upper) as [Hxu|Hxu].
  - exists (mkPortRange i upper). split; [apply list_elem_of_here|].
    split; cbn; lia.
  - assert (upper = i + per - 1) as Hu
      by (unfold upper in *; destruct (Z.ltb_spec (Max pr) (i + per - 1)); lia).
    destruct (IH (i + per)) as (r & Hr & Hin); [lia|lia|].
    exists r. split; [by apply list_elem_of_further|done].
Qed.

Lemma split_loop_bounds fuel i per pr r :
  0 < per -> r ∈ sonar_client.split_loop fuel i per pr ->
  i <= Min r /\ Min r <= Max r <= Max pr.
Proof.
  intros Hper. revert i. induction fuel as [|fuel IH]; intros i Hr; cbn in Hr.
  { set_solver. }
  destruct (Z.leb_spec i (Max pr)); [|set_solver].
  apply elem_of_cons in Hr as [->|Hr]; cbn.
  - destruct (Z.ltb_spec (Max pr) (i + per - 1)); lia.
  - apply IH in Hr. lia.
Qed.

Lemma split_loop_disjoint fuel i per pr j k rj rk x :
  0 < per ->
  sonar_client.split_loop fuel i per pr !! j = Some rj ->
  sonar_client.split_loop fuel i per pr !! k = Some rk ->
  in_range rj x -> in_range rk x -> j = k.
Proof.
  intros Hper. revert i j k. induction fuel as [|fuel IH]; intros i j k Hj Hk Hxj Hxk; [done|].
  cbn in Hj, Hk. destruct (Z.leb_spec i (Max pr)); [|done].
  assert (Htail : forall n r, sonar_client.split_loop fuel (i + per) per pr !! n = Some r ->
            i + per <= Min r).
  { intros n r Hn. apply list_elem_of_lookup_2 in Hn. by apply split_loop_bounds in Hn as [? _]. }
  assert (Hhead : forall y, in_range (mkPortRange i
            (if Max pr <? i + per - 1 then Max pr else i + per - 1)) y -> y < i + per).
  { intros y [_ Hy]; cbn in Hy. destruct (Z.ltb_spec (Max pr) (i + per - 1)); lia. }
  destruct j as [|j], k as [|k]; cbn in Hj, Hk; simplify_eq; [done|..].
  - apply Htail in Hk. apply Hhead in Hxj. unfold in_range in *. lia.
  - apply Htail in Hj. apply Hhead in Hxk. unfold in_range in *. lia.
  - f_equal. eapply IH; eauto.
Qed.

Lemma split_loop_length fuel i per pr :
  0 < per ->
  Z.of_nat (length (sonar_client.split_loop fuel i per pr)) * per <= Z.max 0 (Max pr - i + per).
Proof.
  intros Hper. revert i. induction fuel as [|fuel IH]; intros i; cbn; [lia|].
  destruct (Z.leb_spec i (Max pr)); cbn; [|lia].
  specialize (IH (i + per)). lia.
Qed.

(** The sockets [serveRead] opens for a valid client port range are at
    most eight, stay inside the range, and every port of the range is matched
    by exactly one of them. *)
Theorem serveRead_ranges_partition :
  forall pr,
    valid_range pr ->
    exists rs,
      sonar_client.serveRead_ranges pr = Some rs /\
      (length rs <= 8)%nat /\
      (forall r, r ∈ rs -> Min pr <= Min r /\ Min r <= Max r <= Max pr) /\
      (forall x, in_range pr x ->
         exists! k, exists r, rs !! k = Some r /\ in_range r x).
Proof.
  intros pr Hv. unfold valid_range in Hv. unfold sonar_client.serveRead_ranges.
  set (n := Max pr - Min pr + 1). set (g := Z.min n 8).
  assert (1 <= g <= 8 /\ g <= n /\ n <= 65535) by (unfold g, n; lia).
  assert (go_div (n + g - 1) g = Some ((n + g - 1) / g)) as ->
    by (apply go_div_pos; unfold in_i64; lia).
  cbn [mbind option_bind]. set (per := (n + g - 1) / g).
  assert (0 < per) by (apply Z.div_str_pos; lia).
  assert (n <= per * g).
  { pose proof (Z.div_mod (n + g - 1) g). pose proof (Z.mod_pos_bound (n + g - 1) g).
    fold per in H1. nia. }
  eexists; split_and!; [done|..].
  - pose proof (split_loop_length (Z.to_nat n) (Min pr) per pr ltac:(lia)) as Hl.
    assert (Z.of_nat (length (sonar_client.split_loop (Z.to_nat n) (Min pr) per pr)) < 9); [|lia].
    assert (n = Max pr - Min pr + 1) by done. nia.
  - intros r Hr. by apply split_loop_bounds in Hr.
  - intros x Hx. destruct (split_loop_cover (Z.to_nat n) (Min pr) per pr x) as (r & Hr & Hin);
      [lia|unfold n; lia|done|].
    apply list_elem_of_lookup in Hr as [k Hk]. exists k. split; [eauto|].
    intros k' (r' & Hk' & Hin'). eapply split_loop_disjoint; eauto.
Qed.

Lemma serveRead_ranges_partition_witness :
  exists rs,
    sonar_client.serveRead_ranges (mkPortRange 43500 43599) = Some rs /\
    (length rs <= 8)%nat /\
    (forall r, r ∈ rs -> 43500 <= Min r /\ Min r <= Max r <= 43599) /\
    (forall x, in_range (mkPortRange 43500 43599) x ->
       exists! k, exists r, rs !! k = Some r /\ in_range r x).
Proof.
  apply (serveRead_ranges_partition (mkPortRange 43500 43599)).
  vm_compute; repeat split; discriminate.
Defined.
