(* ===== verification/Bucket.v ===== *)
(** * Probe records of one span ([stat/bucket.go], type [bucket])

    A bucket is the record of the probes of one span, keyed by sequence
    number; [stat] aggregates it. The mutexes of the Go code make each of
    these operations one atomic step, and that is how they are modelled. *)

From S2P Require Import Prelude GoStd Ports.
Local Open Scope Z_scope.

Definition rttUnset : Z := -1.

(** [request]. *)
Record request := mkRequest {
  r_clientPort : Z;
  r_serverPort : Z;
  r_seq : Z;
  r_ts : Z;
  r_rtt : Z;
  r_hasBitflip : bool;
  r_isRst : bool
}.

(** [bucket]. *)
Record bucket := mkBucket {
  b_id : Z;
  b_startNano : Z;
  b_packetCount : Z;
  b_packetCountFixed : bool;
  b_startSrcPort : Z;
  b_startDstPort : Z;
  b_fixed : bool;
  b_serverSide : bool;
  b_requests : gmap Z request
}.

(** [statResult]. A nil Go map is the empty map: the program only ranges over
    and looks up in these maps. *)
Record statResult := mkStatResult {
  sr_sent : Z;
  sr_received : Z;
  sr_loss : Z;
  sr_lossRate : float64;
  sr_rtt : Z;
  sr_maxRTT : Z;
  sr_synack : Z;
  sr_rst : Z;
  sr_lossPorts : gmap Z Z;
  sr_bitflipPorts : gmap Z Z;
  sr_lossPortsCount : gmap string Z;
  sr_bitflipPortsCount : gmap string Z
}.

#[export] Instance request_eq_dec : EqDecision request.
Proof. solve_decision. Defined.

(** The zero value of [statResult]. *)
Definition statResult_zero : statResult :=
  mkStatResult 0 0 0 float64_zero 0 0 0 0 ∅ ∅ ∅ ∅.

(** [m[k]++] on a Go map of counters. *)
Definition incr {K} `{Countable K} (k : K) (m : gmap K Z) : gmap K Z :=
  <[k := default 0 (m !! k) + 1]> m.

Definition set_requests (m : gmap Z request) (b : bucket) : bucket :=
  mkBucket (b_id b) (b_startNano b) (b_packetCount b) (b_packetCountFixed b)
    (b_startSrcPort b) (b_startDstPort b) (b_fixed b) (b_serverSide b) m.

Definition set_fixed (f : bool) (b : bucket) : bucket :=
  mkBucket (b_id b) (b_startNano b) (b_packetCount b) (b_packetCountFixed b)
    (b_startSrcPort b) (b_startDstPort b) f (b_serverSide b) (b_requests b).

(** The assignments [receivedAndFix] makes to the previous bucket. *)
Definition fix_count (count src dst : Z) (b : bucket) : bucket :=
  mkBucket (b_id b) (b_startNano b) count true src dst (b_fixed b) (b_serverSide b) (b_requests b).

(** [newBucket]. *)
Definition newBucket (bucketID span rateInSpan : Z) (serverSide : bool) : bucket :=
  mkBucket bucketID (i64 (bucketID * span)) (u32 rateInSpan) false 0 0 false serverSide ∅.

Definition put_request (cp sp s t : Z) (r : request) : request :=
  mkRequest cp sp (r_seq r) t (r_rtt r) (r_hasBitflip r) (r_isRst r).

Definition fresh_request (cp sp s t : Z) : request :=
  mkRequest cp sp s t rttUnset false false.

Module bucket.

(** [bucket.put]. *)
Definition put (cp sp s t : Z) (b : bucket) : bucket :=
  match b_requests b !! s with
  | Some r => set_requests (<[s := put_request cp sp s t r]> (b_requests b)) b
  | None => set_requests (<[s := fresh_request cp sp s t]> (b_requests b)) b
  end.

(** [bucket.delete]. *)
Definition delete (s : Z) (b : bucket) : bucket :=
  set_requests (base.delete s (b_requests b)) b.

Definition mark_received (rt : Z) (bf : bool) (r : request) : request :=
  mkRequest (r_clientPort r) (r_serverPort r) (r_seq r) (r_ts r) rt bf (r_isRst r).

Definition mark_rst (rt : Z) (r : request) : request :=
  mkRequest (r_clientPort r) (r_serverPort r) (r_seq r) (r_ts r) rt (r_hasBitflip r) true.

(** [bucket.updateReceived]: the updated bucket and whether [s] was there. *)
Definition updateReceived (s rt : Z) (bf : bool) (b : bucket) : bucket * bool :=
  match b_requests b !! s with
  | Some r => (set_requests (<[s := mark_received rt bf r]> (b_requests b)) b, true)
  | None => (b, false)
  end.

(** [bucket.received]. *)
Definition received (s rt : Z) (bf : bool) (b : bucket) : bucket :=
  match b_requests b !! s with
  | Some r => set_requests (<[s := mark_received rt bf r]> (b_requests b)) b
  | None => set_requests (<[s := mkRequest 0 0 s 0 rt bf false]> (b_requests b)) b
  end.

(** [bucket.updateReceivedRST]. *)
Definition updateReceivedRST (s rt : Z) (b : bucket) : bucket * bool :=
  match b_requests b !! s with
  | Some r => (set_requests (<[s := mark_rst rt r]> (b_requests b)) b, true)
  | None => (b, false)
  end.

(** [bucket.receivedRST]. *)
Definition receivedRST (s rt : Z) (b : bucket) : bucket :=
  match b_requests b !! s with
  | Some r => set_requests (<[s := mark_rst rt r]> (b_requests b)) b
  | None => set_requests (<[s := mkRequest 0 0 s 0 rt false true]> (b_requests b)) b
  end.

(** ** Aggregation *)

(** One iteration of the loop of [bucket.stat]. *)
Definition stat_step (res : statResult) (r : request) : statResult :=
  let key := port_key (r_clientPort r) (r_serverPort r) in
  if r_rtt r =? rttUnset then
    mkStatResult (sr_sent res + 1) (sr_received res) (sr_loss res) (sr_lossRate res) (sr_rtt res) (sr_maxRTT res)
      (sr_synack res) (sr_rst res)
      (<[r_clientPort r := r_serverPort r]> (sr_lossPorts res)) (sr_bitflipPorts res)
      (incr key (sr_lossPortsCount res)) (sr_bitflipPortsCount res)
  else
    mkStatResult (sr_sent res + 1) (sr_received res + 1) (sr_loss res) (sr_lossRate res)
      (i64 (sr_rtt res + r_rtt r))
      (if sr_maxRTT res <? r_rtt r then r_rtt r else sr_maxRTT res)
      (if r_isRst r then sr_synack res else sr_synack res + 1)
      (if r_isRst r then sr_rst res + 1 else sr_rst res)
      (sr_lossPorts res)
      (if r_hasBitflip r then <[r_clientPort r := r_serverPort r]> (sr_bitflipPorts res)
       else sr_bitflipPorts res)
      (sr_lossPortsCount res)
      (if r_hasBitflip r then incr key (sr_bitflipPortsCount res) else sr_bitflipPortsCount res).

(** [float64(loss) / float64(sent)], guarded as in the code. *)
Definition loss_rate (loss sent : Z) : float64 :=
  if 0 <? sent then float64_div (float64_of_int loss) (float64_of_int sent) else float64_zero.

(** [result.rtt /= int64(result.received)], guarded as in the code. *)
Definition avg_rtt (total received : Z) : Z :=
  if 0 <? received then i64 (Z.quot total received) else total.

(** The tail of [stat]. *)
Definition stat_finish (res : statResult) : statResult :=
  let l := sr_sent res - sr_received res in
  mkStatResult (sr_sent res) (sr_received res) l (loss_rate l (sr_sent res))
    (avg_rtt (sr_rtt res) (sr_received res)) (sr_maxRTT res) (sr_synack res) (sr_rst res)
    (sr_lossPorts res) (sr_bitflipPorts res) (sr_lossPortsCount res) (sr_bitflipPortsCount res).

(** One iteration of the loop of [serverStat]: received, rtt, maxRTT. *)
Definition server_step (acc : Z * Z * Z) (r : request) : Z * Z * Z :=
  let '(recv, total, mx) := acc in
  if r_rtt r =? rttUnset then acc
  else (recv + 1, i64 (total + r_rtt r), if mx <? r_rtt r then r_rtt r else mx).

(** [bucket.serverStat], the requests taken in the order [rs]. *)
Definition serverStat (rs : list request) (b : bucket) : statResult :=
  let sent := if b_packetCountFixed b then b_packetCount b else Z.of_nat (size (b_requests b)) in
  let '(recv, total, mx) := foldl server_step (0, 0, 0) rs in
  let l := sent - recv in
  let l := if l <? 0 then 0 else l in
  mkStatResult sent recv l (loss_rate l sent) (avg_rtt total recv) mx 0 0 ∅ ∅ ∅ ∅.

(** [bucket.stat], the requests taken in the order [rs]. *)
Definition stat_over (rs : list request) (b : bucket) : statResult :=
  if bool_decide (b_requests b = ∅) then statResult_zero
  else if b_serverSide b then serverStat rs b
  else stat_finish (foldl stat_step statResult_zero rs).

(** [bucket.stat] for one iteration order of the map. *)
Definition stat (b : bucket) : statResult :=
  stat_over (map_to_list (b_requests b)).*2 b.

End bucket.

(** ** Lemmas on counters *)

Lemma incr_comm {K} `{Countable K} (a b : K) (m : gmap K Z) :
  incr a (incr b m) = incr b (incr a m).
Proof.
  unfold incr. destruct (decide (a = b)) as [->|Hne]; [done|].
  rewrite !lookup_insert_ne by done. by apply insert_insert_ne.
Qed.

Lemma lookup_incr {K} `{Countable K} (a b : K) (m : gmap K Z) :
  incr a m !! b = if decide (a = b) then Some (default 0 (m !! b) + 1) else m !! b.
Proof. unfold incr. rewrite lookup_insert. case_decide; by subst. Qed.

(** The sum of a map of counters. *)
Definition map_sum {K} `{Countable K} (m : gmap K Z) : Z :=
  map_fold (fun _ v acc => v + acc) 0 m.

Lemma map_sum_insert_None {K} `{Countable K} (k : K) v (m : gmap K Z) :
  m !! k = None -> map_sum (<[k:=v]> m) = v + map_sum m.
Proof. intros Hk. unfold map_sum. apply map_fold_insert_L; [intros; lia|done]. Qed.

Lemma map_sum_incr {K} `{Countable K} (k : K) (m : gmap K Z) :
  map_sum (incr k m) = map_sum m + 1.
Proof.
  unfold incr. destruct (m !! k) as [v|] eqn:E; cbn [default].
  - rewrite <- (insert_id m k v) at 2 by done.
    rewrite <- (insert_delete_eq m k v), <- (insert_delete_eq m k (v + 1)).
    rewrite !map_sum_insert_None by apply lookup_delete_eq. lia.
  - rewrite map_sum_insert_None by done. lia.
Qed.

(** Counting the elements of a list, [for _, k := range l { m[k]++ }]. *)
Definition count_all {K} `{Countable K} (l : list K) : gmap K Z :=
  foldl (fun m k => incr k m) ∅ l.

Definition occurrences {K} `{EqDecision K} (k : K) (l : list K) : Z :=
  Z.of_nat (length (filter (fun x => x = k) l)).

Lemma occurrences_cons {K} `{EqDecision K} (k x : K) l :
  occurrences k (x :: l) = (if decide (x = k) then 1 else 0) + occurrences k l.
Proof. unfold occurrences. rewrite filter_cons. case_decide; cbn [length]; lia. Qed.

Lemma occurrences_nonneg {K} `{EqDecision K} (k : K) l : 0 <= occurrences k l.
Proof. unfold occurrences. lia. Qed.

Lemma occurrences_pos {K} `{EqDecision K} (k : K) l : 0 < occurrences k l <-> k ∈ l.
Proof.
  induction l as [|x l IH].
  - split; [unfold occurrences; cbn; lia | set_solver].
  - rewrite occurrences_cons, elem_of_cons, <- IH.
    pose proof (occurrences_nonneg k l).
    case_decide as Hx; split; intros Hi; [by left | lia | right; lia | ].
    destruct Hi as [->|Hi]; [done|lia].
Qed.

Lemma lookup_foldl_incr {K} `{Countable K} (l : list K) m k :
  foldl (fun m k => incr k m) m l !! k =
    if decide (k ∈ l) then Some (default 0 (m !! k) + occurrences k l) else m !! k.
Proof.
  revert m. induction l as [|x l IH]; intros m; cbn [foldl].
  { case_decide; [set_solver|done]. }
  rewrite IH, lookup_incr, occurrences_cons.
  destruct (decide (x = k)) as [->|Hx].
  - destruct (decide (k ∈ l)) as [|Hn], (decide (k ∈ k :: l)); try set_solver; cbn; f_equal; [lia|].
    pose proof (occurrences_nonneg k l). rewrite <- occurrences_pos in Hn. lia.
  - destruct (decide (k ∈ l)), (decide (k ∈ x :: l)); try set_solver.
Qed.

Lemma lookup_count_all {K} `{Countable K} (l : list K) k :
  count_all l !! k = if decide (k ∈ l) then Some (occurrences k l) else None.
Proof. unfold count_all. rewrite lookup_foldl_incr, lookup_empty. by case_decide. Qed.

(** ** The aggregate does not depend on the iteration order *)

(** Equality of two results up to which of several server ports the
    [lossPorts] and [bitflipPorts] maps keep for one client port. *)
Record stat_equiv (a b : statResult) : Prop := {
  eqv_sent : sr_sent a = sr_sent b;
  eqv_received : sr_received a = sr_received b;
  eqv_loss : sr_loss a = sr_loss b;
  eqv_lossRate : sr_lossRate a = sr_lossRate b;
  eqv_rtt : sr_rtt a = sr_rtt b;
  eqv_maxRTT : sr_maxRTT a = sr_maxRTT b;
  eqv_synack : sr_synack a = sr_synack b;
  eqv_rst : sr_rst a = sr_rst b;
  eqv_lossPorts : dom (sr_lossPorts a) = dom (sr_lossPorts b);
  eqv_bitflipPorts : dom (sr_bitflipPorts a) = dom (sr_bitflipPorts b);
  eqv_lossPortsCount : sr_lossPortsCount a = sr_lossPortsCount b;
  eqv_bitflipPortsCount : sr_bitflipPortsCount a = sr_bitflipPortsCount b
}.

#[export] Instance stat_equiv_equivalence : Equivalence stat_equiv.
Proof.
  split.
  - intros a; by split.
  - intros a b []; by split.
  - intros a b c [] []; split; congruence.
Qed.

Ltac stat_cases :=
  repeat match goal with
  | |- context [if ?b then _ else _] => destruct b eqn:?
  end.

#[export] Instance stat_step_proper :
  Proper (stat_equiv ==> eq ==> stat_equiv) bucket.stat_step.
Proof.
  intros a b [] r ? <-. unfold bucket.stat_step.
  stat_cases; split; cbn; rewrite ?dom_insert_L; congruence.
Qed.

#[export] Instance stat_finish_proper :
  Proper (stat_equiv ==> stat_equiv) bucket.stat_finish.
Proof. intros a b []. unfold bucket.stat_finish. split; cbn; congruence. Qed.

Lemma ltb_max m x : (if m <? x then x else m) = Z.max m x.
Proof. destruct (Z.ltb_spec m x); lia. Qed.

Lemma max_comm3 m x y :
  let mx m x := if m <? x then x else m in mx (mx m x) y = mx (mx m y) x.
Proof.
  cbn zeta beta. rewrite !ltb_max. lia.
Qed.

Lemma stat_step_comm res r r' :
  stat_equiv (bucket.stat_step (bucket.stat_step res r) r')
             (bucket.stat_step (bucket.stat_step res r') r).
Proof.
  unfold bucket.stat_step.
  destruct (r_rtt r =? rttUnset), (r_rtt r' =? rttUnset); split; cbn; try done;
    rewrite ?i64_add_l; try apply max_comm3; try (f_equal; lia);
    stat_cases; rewrite ?dom_insert_L; try set_solver; try apply incr_comm; try lia.
Qed.

Lemma stat_fold_perm rs rs' res res' :
  rs ≡ₚ rs' -> stat_equiv res res' ->
  stat_equiv (foldl bucket.stat_step res rs) (foldl bucket.stat_step res' rs').
Proof.
  intros Hp. revert res res'. induction Hp as [|r l l' _ IH|r r' l|l1 l2 l3 _ IH1 _ IH2];
    intros res res' Hr; cbn [foldl].
  - done.
  - apply IH. by rewrite Hr.
  - assert (stat_equiv (bucket.stat_step (bucket.stat_step res r') r)
              (bucket.stat_step (bucket.stat_step res' r) r')) as H
      by (rewrite stat_step_comm; by rewrite Hr).
    revert H. generalize (bucket.stat_step (bucket.stat_step res r') r).
    generalize (bucket.stat_step (bucket.stat_step res' r) r').
    induction l as [|x l IH]; intros a b H; cbn [foldl]; [done|].
    apply IH. by rewrite H.
  - rewrite IH1 by exact Hr. apply IH2. reflexivity.
Qed.

Lemma server_step_comm acc r r' :
  bucket.server_step (bucket.server_step acc r) r' =
  bucket.server_step (bucket.server_step acc r') r.
Proof.
  destruct acc as [[a b] c]. unfold bucket.server_step.
  destruct (r_rtt r =? rttUnset), (r_rtt r' =? rttUnset); try done.
  rewrite !ltb_max, !i64_add_l.
  f_equal; [f_equal; f_equal; lia | lia].
Qed.

Lemma server_fold_perm rs rs' acc :
  rs ≡ₚ rs' -> foldl bucket.server_step acc rs = foldl bucket.server_step acc rs'.
Proof.
  intros Hp. revert acc. induction Hp as [|r l l' _ IH|r r' l|l1 l2 l3 _ IH1 _ IH2];
    intros acc; cbn [foldl]; [done|done|by rewrite server_step_comm|by rewrite IH1].
Qed.

(** ** What the fold computes *)

Definition lost (r : request) : bool := r_rtt r =? rttUnset.

Definition n_lost (rs : list request) : Z := Z.of_nat (length (List.filter lost rs)).
Definition n_received (rs : list request) : Z :=
  Z.of_nat (length (List.filter (fun r => negb (lost r)) rs)).

Lemma n_lost_received rs : n_lost rs + n_received rs = Z.of_nat (length rs).
Proof.
  unfold n_lost, n_received. induction rs as [|r rs IH]; [done|].
  cbn. destruct (lost r); cbn; lia.
Qed.

Lemma stat_fold_counts rs res :
  let out := foldl bucket.stat_step res rs in
  sr_sent out = sr_sent res + Z.of_nat (length rs) /\
  sr_received out = sr_received res + n_received rs /\
  sr_synack out + sr_rst out = sr_synack res + sr_rst res + n_received rs /\
  map_sum (sr_lossPortsCount out) = map_sum (sr_lossPortsCount res) + n_lost rs.
Proof.
  cbn zeta. revert res. induction rs as [|r rs IH]; intros res.
  { unfold n_received, n_lost. cbn [foldl List.filter length]. lia. }
  destruct (IH (bucket.stat_step res r)) as (H1 & H2 & H3 & H4). cbn [foldl length].
  rewrite H1, H2, H3, H4. clear H1 H2 H3 H4 IH.
  unfold n_received, n_lost, bucket.stat_step. cbn [List.filter].
  fold (lost r). destruct (lost r); cbn; rewrite ?map_sum_incr; stat_cases; split_and!; try lia.
Qed.

Definition req_ports (r : request) : Z * Z := (r_clientPort r, r_serverPort r).
Definition req_key (r : request) : string := port_key (r_clientPort r) (r_serverPort r).

Lemma stat_fold_lossPortsCount rs res :
  sr_lossPortsCount (foldl bucket.stat_step res rs) =
    foldl (fun m k => incr k m) (sr_lossPortsCount res) (map req_key (List.filter lost rs)).
Proof.
  revert res. induction rs as [|r rs IH]; intros res; cbn [foldl List.filter map]; [done|].
  rewrite IH. unfold bucket.stat_step. fold (lost r).
  destruct (lost r); cbn [foldl map sr_lossPortsCount]; done.
Qed.

Lemma occurrences_req_key c s rs :
  0 <= c -> Forall (fun r => 0 <= r_clientPort r) rs ->
  occurrences (port_key c s) (map req_key rs) = occurrences (c, s) (map req_ports rs).
Proof.
  intros Hc. induction 1 as [|r rs Hr _ IH]; cbn [map]; [done|].
  rewrite !occurrences_cons, IH. f_equal. unfold req_key, req_ports.
  destruct (decide (port_key _ _ = _)) as [E|E], (decide ((_, _) = _)) as [E'|E']; try done.
  - destruct E'. apply port_key_inj in E as [-> ->]; done.
  - destruct E. by simplify_eq.
Qed.

(** Every pair kept in [lossPorts] belongs to a lost probe. *)
Lemma stat_fold_lossPorts_sound rs res c s :
  sr_lossPorts (foldl bucket.stat_step res rs) !! c = Some s ->
  sr_lossPorts res !! c = Some s \/ exists r, r ∈ rs /\ lost r = true /\ req_ports r = (c, s).
Proof.
  revert res. induction rs as [|r rs IH]; intros res H; cbn [foldl] in H; [by left|].
  destruct (IH _ H) as [H1|(r' & Hr' & Hl & Hp)].
  - unfold bucket.stat_step in H1. fold (lost r) in H1.
    destruct (lost r) eqn:E; cbn in H1; [|by left].
    rewrite lookup_insert in H1. case_decide as Hd; [|by left].
    right. exists r. split_and!; [set_solver|done|unfold req_ports; congruence].
  - right. exists r'. split_and!; [set_solver|done..].
Qed.

Lemma size_map_to_list_values {K V} `{Countable K} (m : gmap K V) :
  length (map_to_list m).*2 = size m.
Proof. by rewrite length_fmap, length_map_to_list. Qed.

(** ** Properties *)

(** The orders in which [for _, r := range b.requests] may see the requests. *)
Definition request_order (b : bucket) (rs : list request) : Prop :=
  rs ≡ₚ (map_to_list (b_requests b)).*2.

Lemma request_order_self b : request_order b (map_to_list (b_requests b)).*2.
Proof. unfold request_order. reflexivity. Qed.

Lemma request_order_length b rs : request_order b rs -> length rs = size (b_requests b).
Proof. intros H. rewrite (Permutation_length H). apply size_map_to_list_values. Qed.

Lemma stat_over_counts :
  forall b rs,
    b_requests b <> ∅ -> b_serverSide b = false -> request_order b rs ->
    let r := bucket.stat_over rs b in
    sr_sent r = Z.of_nat (size (b_requests b)) /\
    sr_received r = n_received rs /\ sr_loss r = n_lost rs /\
    sr_sent r = sr_received r + sr_loss r /\
    sr_received r = sr_synack r + sr_rst r /\
    map_sum (sr_lossPortsCount r) = sr_loss r.
Proof.
  intros b rs Hne Hs Ho. cbn zeta. unfold bucket.stat_over.
  rewrite bool_decide_eq_false_2, Hs by done.
  destruct (stat_fold_counts rs statResult_zero) as (H1 & H2 & H3 & H4).
  pose proof (n_lost_received rs) as Hn. pose proof (request_order_length b rs Ho) as Hl.
  unfold bucket.stat_finish. cbn [sr_sent sr_received sr_loss sr_synack sr_rst sr_lossPortsCount].
  rewrite H1, H2, H4. cbn [statResult_zero sr_sent sr_received sr_synack sr_rst sr_lossPortsCount] in *.
  change (map_sum ∅) with 0 in *. split_and!; lia.
Qed.

(** C9: the client-side aggregate of a bucket accounts for every probe, in
    whatever order the map is ranged over: each recorded probe is sent, sent
    is received plus lost, received is SYN-ACK plus RST, and the per-port loss
    counters add up to the loss. *)
Theorem stat_conservation :
  forall b rs,
    b_requests b <> ∅ -> b_serverSide b = false -> request_order b rs ->
    let r := bucket.stat_over rs b in
    sr_sent r = Z.of_nat (size (b_requests b)) /\
    sr_received r = n_received rs /\ sr_loss r = n_lost rs /\
    sr_sent r = sr_received r + sr_loss r /\
    sr_received r = sr_synack r + sr_rst r /\
    map_sum (sr_lossPortsCount r) = sr_loss r.
Proof. exact stat_over_counts. Qed.

(** Two iteration orders of the same bucket give the same aggregate,
    client- or server-side, up to which of several server ports the
    [lossPorts] and [bitflipPorts] maps keep for a client port. *)
Theorem stat_order_irrelevant :
  forall b rs rs',
    request_order b rs -> request_order b rs' ->
    stat_equiv (bucket.stat_over rs b) (bucket.stat_over rs' b).
Proof.
  intros b rs rs' H H'. assert (rs ≡ₚ rs') as Hp by by rewrite H, H'.
  unfold bucket.stat_over. case_bool_decide; [done|]. destruct (b_serverSide b).
  - unfold bucket.serverStat. by rewrite (server_fold_perm rs rs') by done.
  - rewrite stat_fold_perm by done. done.
Qed.

(** The per-pair loss counter is exact: the entry "c-s" of
    [lossPortsCount] is the number of unanswered probes sent from port [c] to
    port [s], absent if there is none; and a pair kept in [lossPorts] is the
    pair of some unanswered probe. *)
Theorem stat_lossPorts_exact :
  forall b rs c s,
    b_requests b <> ∅ -> b_serverSide b = false -> request_order b rs ->
    0 <= c -> Forall (fun r => 0 <= r_clientPort r) rs ->
    let n := occurrences (c, s) (map req_ports (List.filter lost rs)) in
    sr_lossPortsCount (bucket.stat_over rs b) !! port_key c s =
      (if 0 <? n then Some n else None) /\
    (sr_lossPorts (bucket.stat_over rs b) !! c = Some s -> 0 < n).
Proof.
  intros b rs c s Hne Hs Ho Hc Hports. cbn zeta. unfold bucket.stat_over.
  rewrite bool_decide_eq_false_2, Hs by done.
  unfold bucket.stat_finish; cbn [sr_lossPortsCount sr_lossPorts].
  set (l := List.filter lost rs). split.
  - assert (Forall (fun r => 0 <= r_clientPort r) l) as Hl.
    { rewrite Forall_forall in *. intros r Hr. apply Hports.
      apply list_elem_of_In in Hr. apply filter_In in Hr as [Hr _].
      by apply list_elem_of_In. }
    rewrite stat_fold_lossPortsCount, lookup_foldl_incr; fold l.
    cbn [statResult_zero sr_lossPortsCount]. rewrite lookup_empty.
    rewrite <- occurrences_req_key by done.
    destruct (decide _) as [Hin|Hin]; cbn [default].
    + apply occurrences_pos in Hin. rewrite (proj2 (Z.ltb_lt 0 _)) by done. f_equal.
    + rewrite <- occurrences_pos in Hin. rewrite (proj2 (Z.ltb_ge 0 _)) by lia. done.
  - intros H. apply stat_fold_lossPorts_sound in H as [H|(r & Hr & Hl & Hp)]; [done|].
    apply occurrences_pos. rewrite <- Hp. apply list_elem_of_In, in_map.
    apply filter_In. split; [by apply list_elem_of_In|done].
Qed.

Lemma server_fold_received rs acc :
  (foldl bucket.server_step acc rs).1.1 = acc.1.1 + n_received rs.
Proof.
  revert acc. induction rs as [|r rs IH]; intros acc; unfold n_received in *;
    cbn [foldl List.filter length]; [lia|].
  rewrite IH. destruct acc as [[a b] c]. unfold bucket.server_step. fold (lost r).
  destruct (lost r); cbn; lia.
Qed.

Lemma n_received_bounds rs : 0 <= n_received rs <= Z.of_nat (length rs).
Proof. pose proof (n_lost_received rs). unfold n_received, n_lost in *. lia. Qed.

(** The server-side aggregate of a non-empty bucket: the probes sent are
    the count the client reported once it is known and the probes seen until
    then, and the loss is the shortfall, clamped at zero. *)
Theorem serverStat_spec :
  forall b rs,
    b_requests b <> ∅ -> b_serverSide b = true -> request_order b rs ->
    let r := bucket.stat_over rs b in
    sr_sent r = (if b_packetCountFixed b then b_packetCount b
                 else Z.of_nat (size (b_requests b))) /\
    sr_received r = n_received rs /\
    sr_received r <= Z.of_nat (size (b_requests b)) /\
    sr_loss r = Z.max 0 (sr_sent r - sr_received r) /\
    (b_packetCountFixed b = false -> sr_sent r = sr_received r + sr_loss r).
Proof.
  intros b rs Hne Hs Ho. cbn zeta. unfold bucket.stat_over.
  rewrite bool_decide_eq_false_2, Hs by done. unfold bucket.serverStat.
  pose proof (server_fold_received rs (0, 0, 0)) as Hr.
  pose proof (n_received_bounds rs) as Hb. rewrite (request_order_length b rs Ho) in Hb.
  destruct (foldl bucket.server_step (0, 0, 0) rs) as [[recv total] mx]. cbn [fst] in Hr.
  cbn [sr_sent sr_received sr_loss]. rewrite Z.add_0_l in Hr. subst recv.
  split_and!; try done; [lia|zcases; lia|].
  intros ->. zcases; lia.
Qed.

(** *** Witnesses *)

Definition sample_bucket (server : bool) : bucket :=
  bucket.received 8 1500 false (bucket.put 43500 43501 8 100
    (bucket.put 43500 43500 7 50 (newBucket 3 1000 5000 server))).

Lemma stat_conservation_witness :
  let r := bucket.stat (sample_bucket false) in
  sr_sent r = 2 /\ sr_received r = 1 /\ sr_loss r = 1 /\
  sr_sent r = sr_received r + sr_loss r /\
  sr_received r = sr_synack r + sr_rst r /\
  map_sum (sr_lossPortsCount r) = sr_loss r.
Proof.
  by_instance (stat_conservation (sample_bucket false)
    (map_to_list (b_requests (sample_bucket false))).*2
    ltac:(vm_compute; discriminate) eq_refl (request_order_self _)).
Defined.

Lemma stat_order_irrelevant_witness :
  let b := sample_bucket false in
  stat_equiv (bucket.stat_over (map_to_list (b_requests b)).*2 b)
             (bucket.stat_over (reverse (map_to_list (b_requests b)).*2) b).
Proof.
  apply stat_order_irrelevant; unfold request_order; [reflexivity | apply reverse_Permutation].
Defined.

Lemma stat_lossPorts_exact_witness :
  let b := sample_bucket false in
  sr_lossPortsCount (bucket.stat b) !! port_key 43500 43500 = Some 1 /\
  (sr_lossPorts (bucket.stat b) !! 43500 = Some 43500 -> 0 < 1).
Proof.
  by_instance (stat_lossPorts_exact (sample_bucket false)
    (map_to_list (b_requests (sample_bucket false))).*2 43500 43500
    ltac:(vm_compute; discriminate) eq_refl (request_order_self _) ltac:(lia)
    ltac:(repeat constructor; vm_compute; discriminate)).
Defined.

Lemma serverStat_spec_witness :
  let b := fix_count 5 43500 43500 (sample_bucket true) in
  let r := bucket.stat b in
  sr_sent r = 5 /\ sr_received r = 1 /\ sr_received r <= 2 /\
  sr_loss r = Z.max 0 (sr_sent r - sr_received r) /\
  (b_packetCountFixed b = false -> sr_sent r = sr_received r + sr_loss r).
Proof.
  by_instance (serverStat_spec (fix_count 5 43500 43500 (sample_bucket true))
    (map_to_list (b_requests (sample_bucket true))).*2
    ltac:(vm_compute; discriminate) eq_refl (request_order_self _)).
Defined.
