(* ===== verification/Buckets.v ===== *)
(** * The time-bucketed collection ([stat/bucket.go], type [buckets])

    [buckets] keeps one [bucket] per span, keyed by [ts / span], and the
    smallest key. Its operations panic ([None]) only on a zero span. The
    second half of the file is the abstract specification: a ledger of probes
    keyed by (span number, sequence number), which every operation refines. *)

From S2P Require Import Prelude GoStd Ports Bucket.
Local Open Scope Z_scope.

(** [buckets]. *)
Record buckets := mkBuckets {
  bs_buckets : gmap Z bucket;
  bs_rateInSpan : Z;
  bs_span : Z;
  bs_minID : Z;
  bs_serverSide : bool
}.

(** [newBuckets]. *)
Definition newBuckets (span rateInSpan : Z) (serverSide : bool) : buckets :=
  mkBuckets ∅ rateInSpan span (-1) serverSide.

Definition set_bucket (i : Z) (b : bucket) (bs : buckets) : buckets :=
  mkBuckets (<[i := b]> (bs_buckets bs)) (bs_rateInSpan bs) (bs_span bs) (bs_minID bs)
    (bs_serverSide bs).

Definition alter_bucket (i : Z) (f : bucket -> bucket) (bs : buckets) : buckets :=
  mkBuckets (alter f i (bs_buckets bs)) (bs_rateInSpan bs) (bs_span bs) (bs_minID bs)
    (bs_serverSide bs).

(** The block under [bs.Lock()] that [put], [received], [receivedRST] and
    [receivedAndFix] share: the bucket of [bucketID], created if missing. *)
Definition bucket_for (i : Z) (bs : buckets) : bucket * buckets :=
  match bs_buckets bs !! i with
  | Some b => (b, bs)
  | None =>
      let b := newBucket i (bs_span bs) (bs_rateInSpan bs) (bs_serverSide bs) in
      (b, mkBuckets (<[i := b]> (bs_buckets bs)) (bs_rateInSpan bs) (bs_span bs)
            (if (bs_minID bs <? 0) || (i <? bs_minID bs) then i else bs_minID bs)
            (bs_serverSide bs))
  end.

Module buckets.

(** [buckets.put]. *)
Definition put (cp sp s t : Z) (bs : buckets) : option buckets :=
  i ← go_div t (bs_span bs);
  let '(b, bs) := bucket_for i bs in
  Some (set_bucket i (bucket.put cp sp s t b) bs).

(** [buckets.delete]. *)
Definition delete (s t : Z) (bs : buckets) : option buckets :=
  i ← go_div t (bs_span bs);
  Some match bs_buckets bs !! i with
       | Some b => set_bucket i (bucket.delete s b) bs
       | None => bs
       end.

(** [if b != nil && b.update(...) { return }] on bucket [i]: [Some] is the
    early return. *)
Definition try_update (i : Z) (f : bucket -> bucket * bool) (bs : buckets) : option buckets :=
  b ← bs_buckets bs !! i;
  let '(b', ok) := f b in
  if (ok : bool) then Some (set_bucket i b' bs) else None.

(** [buckets.received]. *)
Definition received (s t rt : Z) (bf : bool) (bs : buckets) : option buckets :=
  i ← go_div t (bs_span bs);
  match try_update i (bucket.updateReceived s rt bf) bs with
  | Some bs => Some bs
  | None =>
      match try_update (i64 (i - 1)) (bucket.updateReceived s rt bf) bs with
      | Some bs => Some bs
      | None =>
          let '(b, bs) := bucket_for i bs in
          Some (set_bucket i (bucket.received s rt bf b) bs)
      end
  end.

(** [buckets.receivedRST]. *)
Definition receivedRST (s t rt : Z) (bs : buckets) : option buckets :=
  i ← go_div t (bs_span bs);
  match try_update i (bucket.updateReceivedRST s rt) bs with
  | Some bs => Some bs
  | None =>
      match try_update (i64 (i - 1)) (bucket.updateReceivedRST s rt) bs with
      | Some bs => Some bs
      | None =>
          let '(b, bs) := bucket_for i bs in
          Some (set_bucket i (bucket.receivedRST s rt b) bs)
      end
  end.

(** [buckets.receivedAndFix]. *)
Definition receivedAndFix (s t rt lastSentCount lastStartSrcPort lastStartDstPort : Z)
    (bf : bool) (bs : buckets) : option buckets :=
  i ← go_div t (bs_span bs);
  let '(b, bs) := bucket_for i bs in
  let b := bucket.received s rt bf b in
  let was_fixed := b_fixed b in
  let bs := set_bucket i (set_fixed true b) bs in
  Some (if negb was_fixed && (0 <? lastSentCount)
        then alter_bucket (i64 (i - 1))
               (fix_count lastSentCount lastStartSrcPort lastStartDstPort) bs
        else bs).

(** [buckets.oldest]. *)
Definition oldest (bs : buckets) : option bucket :=
  if bool_decide (bs_buckets bs = ∅) then None else bs_buckets bs !! bs_minID bs.

(** The loop of [remove] that looks for the new minimum, over the keys in
    the order [ids]. *)
Definition min_scan (ids : list Z) (m : Z) : Z :=
  foldl (fun m i => if (m <? 0) || (i <? m) then i else m) m ids.

(** [buckets.remove], the remaining keys taken in the order [ids]. *)
Definition remove_over (ids : list Z) (i : Z) (bs : buckets) : buckets :=
  mkBuckets (base.delete i (bs_buckets bs)) (bs_rateInSpan bs) (bs_span bs)
    (if i =? bs_minID bs then min_scan ids (-1) else bs_minID bs)
    (bs_serverSide bs).

(** [buckets.remove] for one iteration order of the map. *)
Definition remove (i : Z) (bs : buckets) : buckets :=
  remove_over (map_to_list (base.delete i (bs_buckets bs))).*1 i bs.

End buckets.

(** ** Invariant *)

(** Every request is stored under its own sequence number. *)
Definition bucket_ok (b : bucket) : Prop := map_Forall (fun s r => r_seq r = s) (b_requests b).

(** [minID] is the smallest key, or -1 when there is none. *)
Definition min_ok (m : gmap Z bucket) (mi : Z) : Prop :=
  if decide (m = ∅) then mi = -1
  else is_Some (m !! mi) /\ forall i, is_Some (m !! i) -> mi <= i.

(** The representation invariant: keys are the non-negative span numbers the
    buckets carry, each bucket starts at its span, requests sit under their sequence numbers, and [minID] is
    the smallest key. *)
Record buckets_ok (bs : buckets) : Prop := {
  ok_span : 0 < bs_span bs;
  ok_ids : forall i b, bs_buckets bs !! i = Some b -> b_id b = i /\ 0 <= i;
  ok_start : forall i b, bs_buckets bs !! i = Some b -> b_startNano b = i * bs_span bs;
  ok_bucket : forall i b, bs_buckets bs !! i = Some b -> bucket_ok b;
  ok_min : min_ok (bs_buckets bs) (bs_minID bs)
}.

(** Timestamps as [time.Now().UnixNano()] gives them. *)
Definition ts_ok (t : Z) : Prop := 0 <= t < 2 ^ 63.

(** A span number whose start is an [int64] time. *)
Definition span_number (bs : buckets) (i : Z) : Prop := 0 <= i /\ i * bs_span bs < 2 ^ 63.

(** The recorded probe [s] of span [i]. *)
Definition probe (bs : buckets) (i s : Z) : option request :=
  b ← bs_buckets bs !! i; b_requests b !! s.

Lemma min_ok_insert m mi i b :
  (forall j, is_Some (m !! j) -> 0 <= j) -> 0 <= i ->
  m !! i = None -> min_ok m mi ->
  min_ok (<[i := b]> m) (if (mi <? 0) || (i <? mi) then i else mi).
Proof.
  intros Hpos Hi Hn. unfold min_ok at 2.
  rewrite decide_False by apply insert_non_empty. unfold min_ok.
  destruct (decide (m = ∅)) as [->|Hne].
  - intros ->. cbn. split; [by rewrite lookup_insert_eq|].
    intros j [x Hx]. rewrite lookup_insert in Hx. case_decide; [lia|].
    by rewrite lookup_empty in Hx.
  - intros [Hm Hmin]. pose proof (Hpos _ Hm).
    assert (i <> mi) by (intros ->; rewrite Hn in Hm; by destruct Hm).
    destruct (Z.ltb_spec mi 0); [lia|]. cbn [orb].
    destruct (Z.ltb_spec i mi); (split;
      [by rewrite ?lookup_insert_eq, ?lookup_insert_ne by lia|]);
      intros j Hj; rewrite lookup_insert in Hj; case_decide; try lia;
      apply Hmin in Hj; lia.
Qed.

Lemma min_ok_update m mi i b :
  is_Some (m !! i) -> min_ok m mi -> min_ok (<[i := b]> m) mi.
Proof.
  intros Hi. unfold min_ok. rewrite (decide_False (P := <[i:=b]> m = ∅)) by apply insert_non_empty.
  destruct (decide (m = ∅)) as [->|]; [by destruct Hi as [? ?%lookup_empty_Some]|].
  intros [Hm Hmin]. split.
  - rewrite lookup_insert. by case_decide.
  - intros j Hj. rewrite lookup_insert in Hj. case_decide; [subst|]; auto.
Qed.

Lemma min_scan_spec ids m :
  (forall i, i ∈ ids -> 0 <= i) ->
  let r := buckets.min_scan ids m in
  (0 <= m -> (r = m \/ r ∈ ids) /\ r <= m /\ forall i, i ∈ ids -> r <= i) /\
  (m < 0 -> (ids = [] /\ r = m) \/ (r ∈ ids /\ forall i, i ∈ ids -> r <= i)).
Proof.
  cbn zeta. revert m. induction ids as [|x ids IH]; intros m Hpos.
  { cbn. split; intros; [split_and!; [by left|lia|set_solver]|by left]. }
  assert (0 <= x) by (apply Hpos; set_solver).
  assert (Hpos' : forall i, i ∈ ids -> 0 <= i) by (intros i Hi; apply Hpos; set_solver).
  unfold buckets.min_scan in *. cbn [foldl].
  set (m' := if (m <? 0) || (x <? m) then x else m).
  assert (0 <= m') by (unfold m'; zcases; cbn; lia).
  destruct (IH m' Hpos') as [IH' _]. destruct (IH' H0) as (H1 & H2 & H3). clear IH IH'.
  split; intros Hm.
  - assert (m' = Z.min x m) as Hm' by (unfold m'; zcases; cbn; lia).
    split_and!; [|lia|].
    + destruct H1 as [->|H1]; [|right; set_solver].
      destruct (Z.min_spec x m) as [[_ E]|[_ E]]; rewrite Hm', E; [right; set_solver|by left].
    + intros i [->|Hi]%elem_of_cons; [lia|by apply H3].
  - right. assert (m' = x) as Hm' by (unfold m'; zcases; cbn; lia).
    split; [destruct H1 as [->|H1]; [rewrite Hm'|]; set_solver|].
    intros i [->|Hi]%elem_of_cons; [lia|by apply H3].
Qed.

(** ** Effect of the building blocks on the invariant and on the probes *)

Lemma buckets_ok_key bs i : buckets_ok bs -> is_Some (bs_buckets bs !! i) -> 0 <= i.
Proof. intros H [b Hb]. by destruct (ok_ids bs H i b Hb). Qed.

Lemma set_bucket_ok bs i b b' :
  buckets_ok bs -> bs_buckets bs !! i = Some b' ->
  b_id b = b_id b' -> b_startNano b = b_startNano b' -> bucket_ok b ->
  buckets_ok (set_bucket i b bs).
Proof.
  intros H Hi Hid Hst Hb. destruct (ok_ids bs H i b' Hi) as [Hid' Hpos].
  split; cbn [set_bucket bs_span bs_buckets bs_minID].
  - apply H.
  - intros j c. rewrite lookup_insert. case_decide; [|apply (ok_ids bs H)].
    intros [= <-]. subst. split; congruence.
  - intros j c. rewrite lookup_insert. case_decide; [|apply (ok_start bs H)].
    intros [= <-]. subst. rewrite Hst. by apply (ok_start bs H).
  - intros j c. rewrite lookup_insert. case_decide; [|apply (ok_bucket bs H)].
    by intros [= <-].
  - apply min_ok_update; [by exists b'|apply H].
Qed.

Lemma alter_bucket_ok bs i f :
  buckets_ok bs ->
  (forall b, b_id (f b) = b_id b /\ b_startNano (f b) = b_startNano b /\
             b_requests (f b) = b_requests b) ->
  buckets_ok (alter_bucket i f bs).
Proof.
  intros H Hf. destruct (bs_buckets bs !! i) as [b|] eqn:Hi.
  - replace (alter_bucket i f bs) with (set_bucket i (f b) bs).
    + eapply set_bucket_ok; [done|done|apply Hf|apply Hf|].
      unfold bucket_ok. destruct (Hf b) as (_ & _ & ->). by apply (ok_bucket bs H i).
    + unfold alter_bucket, set_bucket. f_equal. apply map_eq. intros j.
      rewrite lookup_insert, lookup_alter. case_decide; [by subst; rewrite Hi|done].
  - replace (alter_bucket i f bs) with bs; [done|].
    destruct bs; unfold alter_bucket; cbn in *. f_equal. apply map_eq. intros j.
    rewrite lookup_alter. case_decide; [by subst; rewrite Hi|done].
Qed.

Lemma bucket_for_ok bs i :
  buckets_ok bs -> span_number bs i ->
  let '(b, bs') := bucket_for i bs in
  buckets_ok bs' /\ bs_buckets bs' !! i = Some b /\ bs_span bs' = bs_span bs /\
  b_id b = i /\ bucket_ok b /\
  (forall j, j <> i -> bs_buckets bs' !! j = bs_buckets bs !! j) /\
  (forall s, b_requests b !! s = probe bs i s).
Proof.
  intros H [Hi Hi']. unfold bucket_for, probe. destruct (bs_buckets bs !! i) as [b|] eqn:E.
  - destruct (ok_ids bs H i b E) as [? ?]. pose proof (ok_bucket bs H i b E). done.
  - cbn [bs_buckets bs_span newBucket b_id b_requests mbind option_bind].
    split_and!; try done.
    + split; cbn [bs_span bs_buckets bs_minID].
      * apply H.
      * intros j c. rewrite lookup_insert. case_decide; [|apply (ok_ids bs H)].
        intros [= <-]. cbn. lia.
      * intros j c. rewrite lookup_insert. case_decide; [|apply (ok_start bs H)].
        intros [= <-]. subst. apply i64_small. pose proof (ok_span bs H).
        unfold in_i64. nia.
      * intros j c. rewrite lookup_insert. case_decide; [|apply (ok_bucket bs H)].
        intros [= <-]. apply map_Forall_empty.
      * apply min_ok_insert; [|done..|apply H]. intros j. by apply buckets_ok_key.
    + by rewrite lookup_insert_eq.
    + intros j Hj. by rewrite lookup_insert_ne.
Qed.

Lemma probe_set_bucket bs i b j s :
  probe (set_bucket i b bs) j s = if decide (i = j) then b_requests b !! s else probe bs j s.
Proof.
  unfold probe, set_bucket. cbn. rewrite lookup_insert. by case_decide.
Qed.

Lemma probe_alter_bucket bs i f j s :
  (forall b, b_requests (f b) = b_requests b) ->
  probe (alter_bucket i f bs) j s = probe bs j s.
Proof.
  intros Hf. unfold probe, alter_bucket. cbn. rewrite lookup_alter.
  case_decide; [subst|done]. destruct (bs_buckets bs !! j); cbn; by rewrite ?Hf.
Qed.

(** The two shapes of the bucket operations: insert-or-update a request, and
    update it if it is there. *)
Definition upsert_with (f : request -> request) (d : request) (s : Z) (b : bucket) : bucket :=
  set_requests (<[s := from_option f d (b_requests b !! s)]> (b_requests b)) b.

Definition update_with (f : request -> request) (s : Z) (b : bucket) : bucket * bool :=
  match b_requests b !! s with
  | Some r => (set_requests (<[s := f r]> (b_requests b)) b, true)
  | None => (b, false)
  end.

Lemma put_upsert cp sp s t b :
  bucket.put cp sp s t b = upsert_with (put_request cp sp s t) (fresh_request cp sp s t) s b.
Proof. unfold bucket.put, upsert_with. by destruct (b_requests b !! s). Qed.

Lemma received_upsert s rt bf b :
  bucket.received s rt bf b =
  upsert_with (bucket.mark_received rt bf) (mkRequest 0 0 s 0 rt bf false) s b.
Proof. unfold bucket.received, upsert_with. by destruct (b_requests b !! s). Qed.

Lemma receivedRST_upsert s rt b :
  bucket.receivedRST s rt b =
  upsert_with (bucket.mark_rst rt) (mkRequest 0 0 s 0 rt false true) s b.
Proof. unfold bucket.receivedRST, upsert_with. by destruct (b_requests b !! s). Qed.

Lemma upsert_with_ok f d s b :
  (forall r, r_seq (f r) = r_seq r) -> r_seq d = s ->
  bucket_ok b -> bucket_ok (upsert_with f d s b).
Proof.
  intros Hf Hd Hb. unfold bucket_ok, upsert_with. cbn [set_requests b_requests].
  apply map_Forall_insert_2; [|done].
  destruct (b_requests b !! s) as [r|] eqn:E; cbn; [|done].
  rewrite Hf. by apply (map_Forall_lookup_1 _ _ _ _ Hb E).
Qed.

(** The bucket handed out is the one stored, with the requests recorded so far;
    no invariant is needed for that. *)
Lemma bucket_for_stored bs i :
  let '(b, bs') := bucket_for i bs in
  bs_buckets bs' !! i = Some b /\ bs_span bs' = bs_span bs /\
  (forall j, j <> i -> bs_buckets bs' !! j = bs_buckets bs !! j) /\
  (forall s, b_requests b !! s = probe bs i s).
Proof.
  unfold bucket_for, probe. destruct (bs_buckets bs !! i) as [b|] eqn:E; [done|].
  cbn. split_and!; [apply lookup_insert_eq|done|intros j Hj; by rewrite lookup_insert_ne|done].
Qed.

(** Insert-or-update at span [i], as every creating operation does it: the
    effect on the probes. *)
Lemma probe_upsert_at bs i f d s :
  let '(b, bs') := bucket_for i bs in
  let bs'' := set_bucket i (upsert_with f d s b) bs' in
  bs_span bs'' = bs_span bs /\
  forall j x, probe bs'' j x =
    if decide ((i, s) = (j, x)) then Some (from_option f d (probe bs i s)) else probe bs j x.
Proof.
  pose proof (bucket_for_stored bs i) as Hbf. destruct (bucket_for i bs) as [b bs'].
  destruct Hbf as (_ & Hs & Hj & Hr). cbn zeta. split; [done|]. intros j x.
  rewrite probe_set_bucket. unfold upsert_with. cbn [set_requests b_requests].
  destruct (decide (i = j)) as [<-|Hne].
  - rewrite lookup_insert, Hr. destruct (decide (s = x)) as [<-|]; [by rewrite decide_True|].
    rewrite decide_False by congruence. apply Hr.
  - rewrite decide_False by congruence. unfold probe. by rewrite Hj.
Qed.

(** The same with the invariant. *)
Lemma upsert_at_ok bs i f d s :
  (forall r, r_seq (f r) = r_seq r) -> r_seq d = s ->
  buckets_ok bs -> span_number bs i ->
  let '(b, bs') := bucket_for i bs in
  let bs'' := set_bucket i (upsert_with f d s b) bs' in
  buckets_ok bs'' /\ bs_span bs'' = bs_span bs /\
  forall j x, probe bs'' j x =
    if decide ((i, s) = (j, x)) then Some (from_option f d (probe bs i s)) else probe bs j x.
Proof.
  intros Hf Hd H Hi. pose proof (bucket_for_ok bs i H Hi) as Hbf.
  pose proof (probe_upsert_at bs i f d s) as Hp.
  destruct (bucket_for i bs) as [b bs']. destruct Hbf as (H' & Hl & _ & _ & Hb & _). cbn zeta in *.
  split; [|done]. eapply set_bucket_ok; [done..|]. by apply upsert_with_ok.
Qed.

(** Update-if-present at span [i]: succeeds exactly when the probe is there. *)
Lemma try_update_spec bs i f s :
  (forall r, r_seq (f r) = r_seq r) -> buckets_ok bs ->
  match buckets.try_update i (update_with f s) bs with
  | Some bs' =>
      exists r, probe bs i s = Some r /\ buckets_ok bs' /\ bs_span bs' = bs_span bs /\
      forall j x, probe bs' j x =
        if decide ((i, s) = (j, x)) then Some (f r) else probe bs j x
  | None => probe bs i s = None
  end.
Proof.
  intros Hf H. unfold buckets.try_update, update_with.
  assert (probe bs i s = b ← bs_buckets bs !! i; b_requests b !! s) as Hp by done.
  destruct (bs_buckets bs !! i) as [b|] eqn:Hi; cbn in *; [|done].
  destruct (b_requests b !! s) as [r|] eqn:Hr; [|done].
  exists r. split_and!; [done| |done|].
  - eapply set_bucket_ok; [done|done|done|done|].
    apply map_Forall_insert_2; [|by apply (ok_bucket bs H i)].
    rewrite Hf. by apply (map_Forall_lookup_1 _ _ _ _ (ok_bucket bs H i b Hi) Hr).
  - intros j x. rewrite probe_set_bucket. cbn [set_requests b_requests].
    destruct (decide (i = j)) as [<-|Hne]; [|by rewrite decide_False by congruence].
    rewrite lookup_insert. destruct (decide (s = x)) as [<-|]; [by rewrite decide_True|].
    rewrite decide_False by congruence. unfold probe. rewrite Hi.
    reflexivity.
Qed.

Lemma remove_ok bs i ids :
  buckets_ok bs -> ids ≡ₚ (map_to_list (delete i (bs_buckets bs))).*1 ->
  buckets_ok (buckets.remove_over ids i bs).
Proof.
  intros H Hids. set (m := delete i (bs_buckets bs)) in *.
  assert (Hmem : forall j, j ∈ ids <-> is_Some (m !! j)).
  { intros j. rewrite Hids, list_elem_of_fmap. split.
    - intros ([k b] & -> & Hb). apply elem_of_map_to_list in Hb. by exists b.
    - intros [b Hb]. exists (j, b). split; [done|]. by apply elem_of_map_to_list. }
  assert (Hsub : forall j b, m !! j = Some b -> bs_buckets bs !! j = Some b /\ j <> i).
  { intros j b [Hne Hb]%lookup_delete_Some. done. }
  split; cbn [buckets.remove_over bs_span bs_buckets bs_minID]; fold m.
  - apply H.
  - intros j b Hb. apply Hsub in Hb as [Hb _]. by apply (ok_ids bs H).
  - intros j b Hb. apply Hsub in Hb as [Hb _]. by apply (ok_start bs H).
  - intros j b Hb. apply Hsub in Hb as [Hb _]. by apply (ok_bucket bs H j).
  - pose proof (ok_min bs H) as Hm. unfold min_ok in *.
    destruct (Z.eqb_spec i (bs_minID bs)) as [->|Hne].
    + destruct (min_scan_spec ids (-1)) as [_ Hscan].
      { intros j [b Hb]%Hmem. apply Hsub in Hb as [Hb _]. by apply (ok_ids bs H j b). }
      destruct (Hscan ltac:(lia)) as [[Hnil ->]|[Hin Hmin]].
      * rewrite decide_True; [done|]. apply map_eq. intros j. rewrite lookup_empty.
        apply eq_None_not_Some. intros Hs. apply Hmem in Hs. rewrite Hnil in Hs. set_solver.
      * apply Hmem in Hin. rewrite decide_False.
        { split; [done|]. intros j Hj. apply Hmin. by apply Hmem. }
        intros E. rewrite E in Hin. by destruct Hin as [? ?%lookup_empty_Some].
    + destruct (decide (bs_buckets bs = ∅)) as [E|_].
      { rewrite decide_True; [done|]. unfold m. rewrite E. apply delete_empty. }
      destruct Hm as [Hs Hmin].
      assert (is_Some (m !! bs_minID bs)) as Hs' by (unfold m; by rewrite lookup_delete_ne).
      rewrite decide_False.
      { split; [done|]. intros j [b Hb]. apply Hmin. apply Hsub in Hb as [Hb _]. by exists b. }
      intros E. rewrite E in Hs'. by destruct Hs' as [? ?%lookup_empty_Some].
Qed.

Lemma probe_remove bs i ids j s :
  probe (buckets.remove_over ids i bs) j s = if decide (i = j) then None else probe bs j s.
Proof. unfold probe. cbn. rewrite lookup_delete. by case_decide. Qed.

(** ** Timestamps that are not from the clock

    A timestamp taken from a datagram can be any [int64]. The operations of the
    servers still record what they should; only the invariant needs the
    timestamp not to be negative. *)

Lemma go_div_total t span : 0 < span -> go_div t span = Some (i64 (Z.quot t span)).
Proof. intros H. unfold go_div. destruct (Z.eqb_spec span 0); [lia|done]. Qed.

Lemma put_any cp sp s t bs i :
  go_div t (bs_span bs) = Some i ->
  exists bs', buckets.put cp sp s t bs = Some bs' /\ bs_span bs' = bs_span bs /\
    forall j x, probe bs' j x =
      if decide ((i, s) = (j, x))
      then Some (from_option (put_request cp sp s t) (fresh_request cp sp s t) (probe bs i s))
      else probe bs j x.
Proof.
  intros Hi. unfold buckets.put. rewrite Hi. cbn [mbind option_bind].
  pose proof (probe_upsert_at bs i (put_request cp sp s t) (fresh_request cp sp s t) s) as Hp.
  destruct (bucket_for i bs) as [b bs']. rewrite put_upsert. by eexists.
Qed.

Lemma receivedAndFix_any s t rt cnt lsp ldp bf bs i :
  go_div t (bs_span bs) = Some i ->
  exists bs', buckets.receivedAndFix s t rt cnt lsp ldp bf bs = Some bs' /\ bs_span bs' = bs_span bs /\
    forall j x, probe bs' j x =
      if decide ((i, s) = (j, x))
      then Some (from_option (bucket.mark_received rt bf) (mkRequest 0 0 s 0 rt bf false) (probe bs i s))
      else probe bs j x.
Proof.
  intros Hi. unfold buckets.receivedAndFix. rewrite Hi. cbn [mbind option_bind].
  pose proof (probe_upsert_at bs i (bucket.mark_received rt bf) (mkRequest 0 0 s 0 rt bf false) s) as Hp.
  destruct (bucket_for i bs) as [b bs']. rewrite received_upsert. cbn zeta in *.
  destruct Hp as [Hs Hp]. eexists. split; [done|]. split; [by case_match|].
  intros j x. rewrite <- Hp. destruct (negb _ && _); [rewrite probe_alter_bucket by done|];
    rewrite !probe_set_bucket; done.
Qed.

(** A negative span number is mistaken for the empty [minID]: after a probe of
    span -5 and probes of the spans 5, 6 and 7, the removal of span 5 can make 7
    the oldest span although 6 is there (the map of Go ranges in any order), so
    that 7 is reported first and 6 is then removed unreported. *)
Lemma negative_timestamp_hides_span :
  exists bs ids,
    (bs ← buckets.put 43500 43501 1 (-5000) (newBuckets 1000 5 true);
     bs ← buckets.put 43500 43501 2 5000 bs;
     bs ← buckets.put 43500 43501 3 6000 bs;
     buckets.put 43500 43501 4 7000 bs) = Some bs /\
    ids ≡ₚ (map_to_list (base.delete 5 (bs_buckets bs))).*1 /\
    bs_minID bs = 5 /\ is_Some (bs_buckets bs !! 6) /\
    bs_minID (buckets.remove_over ids 5 bs) = 7.
Proof.
  eexists _, [6; -5; 7]. split; [vm_compute; reflexivity|].
  split; [|by split_and!; [|eexists|]].
  replace (map_to_list _).*1 with [-5; 7; 6] by (vm_compute; reflexivity).
  etrans; [apply perm_swap|]. apply perm_skip, perm_swap.
Qed.

(** ** The abstract specification: a ledger of probes *)

(** Probes keyed by (span number, sequence number). *)
Abbreviation ledger := (gmap (Z * Z) request).

(** The entry a received packet belongs to: the probe sent in the span of the
    receive timestamp, else the one sent in the span before it, else a new
    entry in the span of the receive timestamp. *)
Definition locate (L : ledger) (i s : Z) : Z * Z :=
  if decide (is_Some (L !! (i, s))) then (i, s)
  else if decide (is_Some (L !! (i - 1, s))) then (i - 1, s)
  else (i, s).

Definition upsert (k : Z * Z) (f : request -> request) (d : request) (L : ledger) : ledger :=
  <[k := from_option f d (L !! k)]> L.

(** The operations of [buckets]. *)
Inductive op :=
| Put (cp sp s t : Z)
| Delete (s t : Z)
| Received (s t rt : Z) (bf : bool)
| ReceivedRST (s t rt : Z)
| ReceivedAndFix (s t rt count sp dp : Z) (bf : bool)
| Remove (i : Z).

Definition op_ok (o : op) : Prop :=
  match o with
  | Put _ _ _ t | Delete _ t | Received _ t _ _ | ReceivedRST _ t _
  | ReceivedAndFix _ t _ _ _ _ _ => ts_ok t
  | Remove _ => True
  end.

Definition exec (o : op) (bs : buckets) : option buckets :=
  match o with
  | Put cp sp s t => buckets.put cp sp s t bs
  | Delete s t => buckets.delete s t bs
  | Received s t rt bf => buckets.received s t rt bf bs
  | ReceivedRST s t rt => buckets.receivedRST s t rt bs
  | ReceivedAndFix s t rt c sp dp bf => buckets.receivedAndFix s t rt c sp dp bf bs
  | Remove i => Some (buckets.remove i bs)
  end.

Definition spec (span : Z) (o : op) (L : ledger) : ledger :=
  match o with
  | Put cp sp s t => upsert (t / span, s) (put_request cp sp s t) (fresh_request cp sp s t) L
  | Delete s t => base.delete (t / span, s) L
  | Received s t rt bf =>
      upsert (locate L (t / span) s) (bucket.mark_received rt bf) (mkRequest 0 0 s 0 rt bf false) L
  | ReceivedRST s t rt =>
      upsert (locate L (t / span) s) (bucket.mark_rst rt) (mkRequest 0 0 s 0 rt false true) L
  | ReceivedAndFix s t rt _ _ _ bf =>
      upsert (t / span, s) (bucket.mark_received rt bf) (mkRequest 0 0 s 0 rt bf false) L
  | Remove i => filter (fun kr => kr.1.1 <> i) L
  end.

(** [bs] records exactly the probes of the ledger. *)
Definition refines (bs : buckets) (L : ledger) : Prop :=
  forall i s, probe bs i s = L !! (i, s).

(** [bs'] is a well-formed collection over the same span that records [L']. *)
Definition step_ok (bs : buckets) (r : option buckets) (L' : ledger) : Prop :=
  exists bs', r = Some bs' /\ buckets_ok bs' /\ bs_span bs' = bs_span bs /\ refines bs' L'.

Lemma bucket_number bs t :
  buckets_ok bs -> ts_ok t ->
  go_div t (bs_span bs) = Some (t / bs_span bs) /\
  0 <= t / bs_span bs < 2 ^ 63 /\ span_number bs (t / bs_span bs).
Proof.
  intros H Ht. unfold ts_ok in Ht. pose proof (ok_span bs H). split.
  - apply go_div_pos; unfold in_i64; lia.
  - assert (0 <= t / bs_span bs < 2 ^ 63).
    { split; [by apply Z.div_pos; lia|]. apply Z.div_lt_upper_bound; nia. }
    split; [done|]. split; [lia|]. pose proof (Z.mul_div_le t (bs_span bs)). lia.
Qed.

Lemma refines_upsert_at bs L i f d s :
  (forall r, r_seq (f r) = r_seq r) -> r_seq d = s ->
  buckets_ok bs -> refines bs L -> span_number bs i ->
  step_ok bs (let '(b, bs') := bucket_for i bs in
              Some (set_bucket i (upsert_with f d s b) bs'))
    (upsert (i, s) f d L).
Proof.
  intros Hf Hd H HR Hi. pose proof (upsert_at_ok bs i f d s Hf Hd H Hi) as Hu.
  destruct (bucket_for i bs) as [b bs']. destruct Hu as (H1 & H2 & H3).
  eexists. split_and!; [done..|]. intros j x. rewrite H3. unfold upsert.
  rewrite lookup_insert, HR. case_decide; [done|apply HR].
Qed.

(** [received] and [receivedRST] share their control flow. *)
Definition receive_at (i s : Z) (f : request -> request) (d : request) (bs : buckets) :
    option buckets :=
  match buckets.try_update i (update_with f s) bs with
  | Some bs => Some bs
  | None =>
      match buckets.try_update (i64 (i - 1)) (update_with f s) bs with
      | Some bs => Some bs
      | None =>
          let '(b, bs) := bucket_for i bs in Some (set_bucket i (upsert_with f d s b) bs)
      end
  end.

Lemma received_receive_at s t rt bf bs :
  buckets.received s t rt bf bs =
    i ← go_div t (bs_span bs);
    receive_at i s (bucket.mark_received rt bf) (mkRequest 0 0 s 0 rt bf false) bs.
Proof.
  unfold buckets.received, receive_at. destruct (go_div t (bs_span bs)) as [i|]; [|done].
  cbn. change (bucket.updateReceived s rt bf) with (update_with (bucket.mark_received rt bf) s).
  do 2 (case_match; [done|]). destruct (bucket_for i bs). by rewrite received_upsert.
Qed.

Lemma receivedRST_receive_at s t rt bs :
  buckets.receivedRST s t rt bs =
    i ← go_div t (bs_span bs);
    receive_at i s (bucket.mark_rst rt) (mkRequest 0 0 s 0 rt false true) bs.
Proof.
  unfold buckets.receivedRST, receive_at. destruct (go_div t (bs_span bs)) as [i|]; [|done].
  cbn. change (bucket.updateReceivedRST s rt) with (update_with (bucket.mark_rst rt) s).
  do 2 (case_match; [done|]). destruct (bucket_for i bs). by rewrite receivedRST_upsert.
Qed.

Lemma refines_receive_at bs L i f d s :
  (forall r, r_seq (f r) = r_seq r) -> r_seq d = s ->
  buckets_ok bs -> refines bs L -> 0 <= i < 2 ^ 63 -> span_number bs i ->
  step_ok bs (receive_at i s f d bs) (upsert (locate L i s) f d L).
Proof.
  intros Hf Hd H HR Hi Hi'. unfold receive_at, locate. rewrite <- !HR.
  rewrite i64_small by (unfold in_i64; lia).
  pose proof (try_update_spec bs i f s Hf H) as Ht.
  destruct (buckets.try_update i (update_with f s) bs) as [bs'|].
  { destruct Ht as (r & Hr & H1 & H2 & H3). rewrite decide_True by (by exists r).
    exists bs'. split_and!; [done..|]. intros j x. rewrite H3. unfold upsert.
    rewrite lookup_insert, <- HR, Hr. by case_decide. }
  rewrite (decide_False (P := is_Some (probe bs i s))) by (rewrite Ht; apply is_Some_None).
  pose proof (try_update_spec bs (i - 1) f s Hf H) as Ht'.
  destruct (buckets.try_update (i - 1) (update_with f s) bs) as [bs'|].
  { destruct Ht' as (r & Hr & H1 & H2 & H3). rewrite decide_True by (by exists r).
    exists bs'. split_and!; [done..|]. intros j x. rewrite H3. unfold upsert.
    rewrite lookup_insert, <- HR, Hr. by case_decide. }
  rewrite decide_False by (rewrite Ht'; apply is_Some_None).
  by apply refines_upsert_at.
Qed.

Lemma refines_remove bs L i ids :
  buckets_ok bs -> refines bs L -> ids ≡ₚ (map_to_list (delete i (bs_buckets bs))).*1 ->
  step_ok bs (Some (buckets.remove_over ids i bs)) (filter (fun kr => kr.1.1 <> i) L).
Proof.
  intros H HR Hids. eexists. split_and!; [done|by apply remove_ok|done|].
  intros j s. rewrite probe_remove, map_lookup_filter. rewrite HR.
  destruct (L !! (j, s)) as [r|]; cbn; [|by case_decide].
  case_decide; case_guard; cbn in *; congruence.
Qed.

Lemma refines_delete bs L s t :
  buckets_ok bs -> refines bs L -> ts_ok t ->
  step_ok bs (buckets.delete s t bs) (base.delete (t / bs_span bs, s) L).
Proof.
  intros H HR Ht. destruct (bucket_number bs t H Ht) as (Hn & Hi & Hi').
  unfold buckets.delete. rewrite Hn. cbn. set (i := t / bs_span bs) in *.
  destruct (bs_buckets bs !! i) as [b|] eqn:Hb.
  - eexists. split_and!; [done| |done|].
    + eapply set_bucket_ok; [done|done|done|done|].
      by apply map_Forall_delete, (ok_bucket bs H i).
    + intros j x. rewrite probe_set_bucket. cbn [bucket.delete set_requests b_requests].
      rewrite !lookup_delete, <- HR. unfold probe.
      destruct (decide (i = j)) as [<-|]; [rewrite Hb|by rewrite decide_False by congruence].
      cbn. destruct (decide (s = x)) as [->|]; [by rewrite decide_True|].
      by rewrite decide_False by congruence.
  - exists bs. split_and!; [done..|]. intros j x. rewrite lookup_delete, HR.
    case_decide as E; [|done]. simplify_eq. rewrite <- HR. unfold probe. by rewrite Hb.
Qed.

Lemma refines_receivedAndFix bs L s t rt c sp dp bf :
  buckets_ok bs -> refines bs L -> ts_ok t ->
  step_ok bs (buckets.receivedAndFix s t rt c sp dp bf bs)
    (upsert (t / bs_span bs, s) (bucket.mark_received rt bf) (mkRequest 0 0 s 0 rt bf false) L).
Proof.
  intros H HR Ht. destruct (bucket_number bs t H Ht) as (Hn & Hi & Hi').
  unfold buckets.receivedAndFix. rewrite Hn. cbn [mbind option_bind].
  set (i := t / bs_span bs) in *.
  destruct (refines_upsert_at bs L i (bucket.mark_received rt bf)
              (mkRequest 0 0 s 0 rt bf false) s) as (bs1 & E & H1 & H2 & H3);
    [done..|].
  destruct (bucket_for i bs) as [b bs']. rewrite <- received_upsert in E. injection E as E.
  set (b1 := bucket.received s rt bf b) in *.
  assert (Hl : bs_buckets bs1 !! i = Some b1)
    by (rewrite <- E; cbn; apply lookup_insert_eq).
  assert (Hset : set_bucket i (set_fixed true b1) bs' = set_bucket i (set_fixed true b1) bs1).
  { rewrite <- E. unfold set_bucket; cbn. by rewrite insert_insert_eq. }
  assert (Hok : buckets_ok (set_bucket i (set_fixed true b1) bs1)).
  { eapply set_bucket_ok; [done|done|done|done|].
    change (bucket_ok b1). by apply (ok_bucket bs1 H1 i). }
  assert (Hp : refines (set_bucket i (set_fixed true b1) bs1)
            (upsert (i, s) (bucket.mark_received rt bf) (mkRequest 0 0 s 0 rt bf false) L)).
  { intros j x. rewrite probe_set_bucket, <- H3. case_decide as Hd; [subst|done].
    unfold probe. by rewrite Hl. }
  rewrite Hset. case_match; eexists; (split_and!; [done| |done|]); try done.
  - by apply alter_bucket_ok.
  - intros j x. rewrite probe_alter_bucket by done. apply Hp.
Qed.

(** One operation refines the ledger's. *)
Lemma exec_refines :
  forall bs L o,
    buckets_ok bs -> refines bs L -> op_ok o ->
    step_ok bs (exec o bs) (spec (bs_span bs) o L).
Proof.
  intros bs L o H HR Ho. destruct o; cbn [exec spec op_ok] in *.
  - destruct (bucket_number bs t H Ho) as (Hn & Hi & Hi'). unfold buckets.put. rewrite Hn.
    cbn [mbind option_bind].
    destruct (refines_upsert_at bs L (t / bs_span bs) (put_request cp sp s t)
                (fresh_request cp sp s t) s) as (bs' & E & Hs); [done..|].
    exists bs'. split; [|done]. rewrite <- E. destruct (bucket_for _ bs). by rewrite put_upsert.
  - by apply refines_delete.
  - destruct (bucket_number bs t H Ho) as (Hn & Hi & Hi').
    rewrite received_receive_at, Hn. cbn [mbind option_bind]. by apply refines_receive_at.
  - destruct (bucket_number bs t H Ho) as (Hn & Hi & Hi').
    rewrite receivedRST_receive_at, Hn. cbn [mbind option_bind]. by apply refines_receive_at.
  - by apply refines_receivedAndFix.
  - by apply refines_remove.
Qed.

(** Every collection records some ledger. *)
Definition ledger_of (bs : buckets) : ledger :=
  list_to_map (ib ← map_to_list (bs_buckets bs);
               (fun sr => ((ib.1, sr.1), sr.2)) <$> map_to_list (b_requests ib.2)).

Lemma refines_ledger_of bs : refines bs (ledger_of bs).
Proof.
  intros j x. unfold probe, ledger_of.
  destruct (list_to_map _ !! (j, x)) as [r|] eqn:E.
  - apply elem_of_list_to_map_2, list_elem_of_bind in E as ([j' b] & E & Hb).
    apply elem_of_map_to_list in Hb. apply list_elem_of_fmap in E as ([x' r'] & E & Hr).
    apply elem_of_map_to_list in Hr. simplify_eq/=. by rewrite Hb.
  - apply not_elem_of_list_to_map_2 in E.
    destruct (bs_buckets bs !! j) as [b|] eqn:Hb; [cbn|done].
    destruct (b_requests b !! x) as [r|] eqn:Hr; [|done]. exfalso. apply E.
    apply list_elem_of_fmap. exists ((j, x), r). split; [done|].
    apply list_elem_of_bind. exists (j, b). split; [|by apply elem_of_map_to_list].
    apply list_elem_of_fmap. exists (x, r). split; [done|by apply elem_of_map_to_list].
Qed.

(** A probe with an unused sequence number is recorded as pending. *)
Lemma put_unused bs cp sp s t :
  buckets_ok bs -> ts_ok t -> probe bs (t / bs_span bs) s = None ->
  exists bs', buckets.put cp sp s t bs = Some bs' /\
    forall i x, probe bs' i x = if decide ((i, x) = (t / bs_span bs, s))
                                then Some (fresh_request cp sp s t) else probe bs i x.
Proof.
  intros H Ht Hn. pose proof (refines_ledger_of bs) as HR.
  destruct (exec_refines bs _ (Put cp sp s t) H HR Ht) as (bs' & E & _ & _ & R).
  exists bs'. split; [exact E|]. intros i x. rewrite R. cbn [spec]. unfold upsert.
  rewrite <- HR, Hn. cbn [from_option]. rewrite lookup_insert. case_decide as Hd.
  - rewrite decide_True by congruence. done.
  - rewrite decide_False by congruence. by rewrite HR.
Qed.

(** A reply stamped with the time of a recorded probe completes its record. *)
Lemma received_recorded bs s t rt bf r :
  buckets_ok bs -> ts_ok t -> probe bs (t / bs_span bs) s = Some r ->
  exists bs', buckets.received s t rt bf bs = Some bs' /\
    forall i x, probe bs' i x = if decide ((i, x) = (t / bs_span bs, s))
                                then Some (bucket.mark_received rt bf r) else probe bs i x.
Proof.
  intros H Ht Hr. pose proof (refines_ledger_of bs) as HR.
  destruct (exec_refines bs _ (Received s t rt bf) H HR Ht) as (bs' & E & _ & _ & R).
  exists bs'. split; [exact E|]. intros i x. rewrite R. cbn [spec].
  assert (locate (ledger_of bs) (t / bs_span bs) s = (t / bs_span bs, s)) as ->
    by (unfold locate; by rewrite decide_True by (rewrite <- HR, Hr; by eexists)).
  unfold upsert. rewrite <- HR, Hr. cbn [from_option]. rewrite lookup_insert. case_decide as Hd.
  - rewrite decide_True by congruence. done.
  - rewrite decide_False by congruence. by rewrite HR.
Qed.

(** A recorded probe whose number is free in the next span is found from
    either span. *)
Lemma locate_recorded (L : ledger) i i' q r :
  L !! (i, q) = Some r -> L !! (i + 1, q) = None -> i' = i \/ i' = i + 1 -> locate L i' q = (i, q).
Proof.
  intros H1 H2 [->| ->]; unfold locate.
  - by rewrite decide_True by (by eexists).
  - rewrite decide_False by (rewrite H2; apply is_Some_None).
    replace (i + 1 - 1) with i by lia. by rewrite decide_True by (by eexists).
Qed.

(** A reply stamped with the time of its arrival, in the span of the probe or
    the next one, completes the probe's record. *)
Lemma received_answer bs i s t rt bf r :
  buckets_ok bs -> ts_ok t -> probe bs i s = Some r -> probe bs (i + 1) s = None ->
  t / bs_span bs = i \/ t / bs_span bs = i + 1 ->
  exists bs', buckets.received s t rt bf bs = Some bs' /\
    forall j x, probe bs' j x = if decide ((j, x) = (i, s))
                                then Some (bucket.mark_received rt bf r) else probe bs j x.
Proof.
  intros H Ht Hr Hn Hi. pose proof (refines_ledger_of bs) as HR.
  destruct (exec_refines bs _ (Received s t rt bf) H HR Ht) as (bs' & E & _ & _ & R).
  exists bs'. split; [exact E|]. intros j x. rewrite R. cbn [spec].
  rewrite (locate_recorded _ i _ s r) by (by rewrite <- ?HR).
  unfold upsert. rewrite <- HR, Hr. cbn [from_option]. rewrite lookup_insert. case_decide as Hd.
  - rewrite decide_True by congruence. done.
  - rewrite decide_False by congruence. by rewrite HR.
Qed.

(** The other order: a reply recorded before its probe is put. In the span of
    the probe the record ends up complete; in the next span there are two, a
    probe without an answer and an answer without a probe. *)
Lemma received_then_put bs cp sp s t t' rt bf :
  buckets_ok bs -> ts_ok t -> ts_ok t' ->
  let i := t / bs_span bs in
  (forall j, i - 1 <= j <= i + 1 -> probe bs j s = None) ->
  t' / bs_span bs = i \/ t' / bs_span bs = i + 1 ->
  exists bs1 bs2,
    buckets.received s t' rt bf bs = Some bs1 /\ buckets.put cp sp s t bs1 = Some bs2 /\
    (forall j x, x <> s \/ (j <> i /\ j <> i + 1) -> probe bs2 j x = probe bs j x) /\
    (t' / bs_span bs = i ->
       probe bs2 i s = Some (mkRequest cp sp s t rt bf false) /\ probe bs2 (i + 1) s = None) /\
    (t' / bs_span bs = i + 1 ->
       probe bs2 i s = Some (fresh_request cp sp s t) /\
       probe bs2 (i + 1) s = Some (mkRequest 0 0 s 0 rt bf false)).
Proof.
  intros H Ht Ht' i Hnone Hspan. set (L := ledger_of bs). pose proof (refines_ledger_of bs) as HR. fold L in HR.
  destruct (exec_refines bs L (Received s t' rt bf) H HR Ht') as (bs1 & E1 & H1 & Hs1 & R1).
  destruct (exec_refines bs1 _ (Put cp sp s t) H1 R1 Ht) as (bs2 & E2 & H2 & Hs2 & R2).
  cbn [exec spec] in E1, R1, E2, R2. rewrite Hs1 in R2. fold i in R2.
  assert (HL : forall j, i - 1 <= j <= i + 1 -> L !! (j, s) = None) by (intros j Hj; by rewrite <- HR, Hnone).
  assert (locate L (t' / bs_span bs) s = (t' / bs_span bs, s)) as Hloc.
  { unfold locate. rewrite !decide_False; [done|..]; rewrite HL by lia; apply is_Some_None. }
  rewrite Hloc in R2. exists bs1, bs2. split_and!; [done|done|..].
  - intros j x Hne. rewrite R2. unfold upsert. rewrite !lookup_insert_ne by (intros [=]; lia). by rewrite HR.
  - intros Hi. rewrite !R2, Hi. unfold upsert. rewrite !lookup_insert_eq, !lookup_insert_ne by (intros [=]; lia).
    by rewrite !HL by lia.
  - intros Hi. rewrite !R2, Hi. unfold upsert.
    rewrite lookup_insert_eq, (lookup_insert_ne _ (i, s) (i + 1, s)), lookup_insert_eq by (intros [=]; lia).
    rewrite lookup_insert_ne by (intros [=]; lia). by rewrite !HL by lia.
Qed.

Lemma put_then_received :
  forall bs cp sp s t t' rt bf,
    buckets_ok bs -> ts_ok t -> ts_ok t' ->
    probe bs (t / bs_span bs) s = None -> probe bs (t / bs_span bs + 1) s = None ->
    t' / bs_span bs = t / bs_span bs \/ t' / bs_span bs = t / bs_span bs + 1 ->
    exists bs1 bs2,
      buckets.put cp sp s t bs = Some bs1 /\ buckets.received s t' rt bf bs1 = Some bs2 /\
      probe bs2 (t / bs_span bs) s = Some (mkRequest cp sp s t rt bf false) /\
      forall i x, (i, x) <> (t / bs_span bs, s) -> probe bs2 i x = probe bs i x.
Proof.
  intros bs cp sp s t t' rt bf H Ht Ht' Hn1 Hn2 Hspan.
  set (i := t / bs_span bs) in *.
  set (L := ledger_of bs). pose proof (refines_ledger_of bs) as HR. fold L in HR.
  destruct (exec_refines bs L (Put cp sp s t) H HR Ht) as (bs1 & E1 & H1 & Hs1 & R1).
  cbn [exec spec] in E1, R1. fold i in R1.
  destruct (exec_refines bs1 _ (Received s t' rt bf) H1 R1 Ht')
    as (bs2 & E2 & H2 & Hs2 & R2).
  cbn [exec spec] in E2, R2. rewrite Hs1 in R2.
  exists bs1, bs2. split_and!; [done..| |].
  all: set (L1 := upsert (i, s) (put_request cp sp s t) (fresh_request cp sp s t) L) in *.
  all: assert (HL1 : L1 !! (i, s) = Some (fresh_request cp sp s t))
    by (unfold L1, upsert; rewrite lookup_insert_eq, <- HR, Hn1; done).
  all: assert (Hloc : locate L1 (t' / bs_span bs) s = (i, s)).
  all: try (unfold locate; destruct Hspan as [->| ->]; [by rewrite decide_True by (by eexists)|];
    rewrite decide_False;
      [replace (i + 1 - 1) with i by lia; by rewrite decide_True by (by eexists)|];
    unfold L1, upsert; rewrite lookup_insert_ne, <- HR, Hn2 by (intros [=]; lia);
    apply is_Some_None).
  - rewrite R2, Hloc. unfold upsert. by rewrite lookup_insert_eq, HL1.
  - intros j x Hne. rewrite R2, Hloc. unfold upsert. rewrite lookup_insert_ne by done.
    unfold L1, upsert. by rewrite lookup_insert_ne, HR by done.
Qed.

(** C4: a reply to a recorded probe that arrives in the span it was sent in
    or in the next one completes that probe's own record (ports, sequence
    number and send time kept, RTT and flag set) and touches nothing else:
    no duplicate record appears. *)
Theorem reply_completes_its_probe :
  forall bs cp sp s t t' rt bf,
    buckets_ok bs -> ts_ok t -> ts_ok t' ->
    probe bs (t / bs_span bs) s = None -> probe bs (t / bs_span bs + 1) s = None ->
    t' / bs_span bs = t / bs_span bs \/ t' / bs_span bs = t / bs_span bs + 1 ->
    exists bs1 bs2,
      buckets.put cp sp s t bs = Some bs1 /\ buckets.received s t' rt bf bs1 = Some bs2 /\
      probe bs2 (t / bs_span bs) s = Some (mkRequest cp sp s t rt bf false) /\
      forall i x, (i, x) <> (t / bs_span bs, s) -> probe bs2 i x = probe bs i x.
Proof. exact put_then_received. Qed.

Lemma remove_order_irrelevant bs i ids ids' :
  buckets_ok bs ->
  ids ≡ₚ (map_to_list (delete i (bs_buckets bs))).*1 ->
  ids' ≡ₚ (map_to_list (delete i (bs_buckets bs))).*1 ->
  buckets.remove_over ids i bs = buckets.remove_over ids' i bs.
Proof.
  intros H Hids Hids'.
  pose proof (ok_min _ (remove_ok bs i ids H Hids)) as Hm.
  pose proof (ok_min _ (remove_ok bs i ids' H Hids')) as Hm'.
  revert Hm Hm'. unfold buckets.remove_over, min_ok. cbn [bs_buckets bs_minID].
  set (a := if i =? bs_minID bs then buckets.min_scan ids (-1) else bs_minID bs).
  set (b := if i =? bs_minID bs then buckets.min_scan ids' (-1) else bs_minID bs).
  intros Hm Hm'. enough (a = b) as -> by done.
  case_decide; [congruence|]. destruct Hm as [Ha Hm], Hm' as [Hb Hm'].
  pose proof (Hm _ Hb). pose proof (Hm' _ Ha). lia.
Qed.

Lemma newBuckets_ok span rate ss : 0 < span -> buckets_ok (newBuckets span rate ss).
Proof.
  intros H. split; cbn; [done| | | |unfold min_ok; by rewrite decide_True];
    intros i b Hb; by rewrite lookup_empty in Hb.
Qed.

Lemma newBuckets_refines span rate ss : refines (newBuckets span rate ss) ∅.
Proof. intros i s. unfold probe. cbn. by rewrite !lookup_empty. Qed.

Fixpoint exec_all (os : list op) (bs : buckets) : option buckets :=
  match os with
  | [] => Some bs
  | o :: os => bs ← exec o bs; exec_all os bs
  end.

Lemma exec_all_refines os bs L :
  buckets_ok bs -> refines bs L -> Forall op_ok os ->
  step_ok bs (exec_all os bs) (foldl (fun L o => spec (bs_span bs) o L) L os).
Proof.
  intros H HR Hos. revert bs L H HR. induction Hos as [|o os Ho _ IH]; intros bs L H HR.
  - by exists bs.
  - destruct (exec_refines bs L o H HR Ho) as (bs1 & E1 & H1 & Hs1 & R1).
    destruct (IH bs1 _ H1 R1) as (bs' & E & H' & Hs & R). rewrite Hs1 in Hs, R.
    exists bs'. cbn [exec_all foldl]. by rewrite E1.
Qed.

(** C1: [buckets] implements the ledger: whatever sequence of puts, deletes,
    replies, resets, fixes and removals with clock timestamps is applied to a
    new collection, no operation panics, the representation invariant holds at
    the end (in particular [minID] is the smallest key), and the recorded probes
    are exactly those of the ledger after the same operations. *)
Theorem buckets_refine_ledger :
  forall span rate ss os,
    0 < span -> Forall op_ok os ->
    exists bs, exec_all os (newBuckets span rate ss) = Some bs /\ buckets_ok bs /\
      refines bs (foldl (fun L o => spec span o L) ∅ os).
Proof.
  intros span rate ss os H Hos.
  destruct (exec_all_refines os (newBuckets span rate ss) ∅) as (bs & E & Hok & _ & HR);
    [by apply newBuckets_ok|apply newBuckets_refines|done|]. by exists bs.
Qed.

Lemma buckets_refine_ledger_witness :
  exists bs,
    exec_all [Put 7 8 9 1500; Put 7 9 10 1600; Received 9 2100 600 false; Delete 10 1600;
              Remove 0] (newBuckets 1000 5 false) = Some bs /\
    buckets_ok bs /\
    refines bs (foldl (fun L o => spec 1000 o L) ∅
      [Put 7 8 9 1500; Put 7 9 10 1600; Received 9 2100 600 false; Delete 10 1600; Remove 0]).
Proof.
  apply (buckets_refine_ledger 1000 5 false); [done|].
  repeat constructor; cbn; lia.
Defined.

Lemma reply_completes_its_probe_witness :
  exists bs1 bs2,
    buckets.put 7 8 9 1900 (newBuckets 1000 5 false) = Some bs1 /\
    buckets.received 9 2100 200 false bs1 = Some bs2 /\
    probe bs2 1 9 = Some (mkRequest 7 8 9 1900 200 false false) /\
    forall i x, (i, x) <> (1, 9) -> probe bs2 i x = probe (newBuckets 1000 5 false) i x.
Proof.
  apply (reply_completes_its_probe (newBuckets 1000 5 false) 7 8 9 1900 2100 200 false);
    [by apply newBuckets_ok | split; [lia|reflexivity] | split; [lia|reflexivity]
    | reflexivity | reflexivity | right; reflexivity].
Defined.
