(* ===== verification/UdpStat.v ===== *)
(** * Per-pair statistics and their periodic reporting ([stat/sender.go],
    [stat/stat.go], [stat/processor.go])

    [udpStat] owns a [buckets] collection and reports its oldest bucket on
    every tick of the [Processor]. A [Stat] is shared: a client or server and
    the processor hold pointers to the same object, so the objects live in a
    store indexed by location. *)

From Stdlib Require Import Sorted.
From S2P Require Import Prelude GoStd Ports Bucket Buckets.
Local Open Scope Z_scope.

(** [StatResult]; [Timestamp] is the time in nanoseconds. *)
Record StatResult := mkReport {
  Timestamp : Z;
  ClientAddr : string;
  ServerAddr : string;
  ServerSide : bool;
  Sent : Z;
  ReceivedN : Z;
  Loss : Z;
  LossRate : float64;
  AvgRTT : Z;
  MaxRTT : Z;
  SynAckCount : Z;
  RSTCount : Z;
  LossPorts : gmap Z Z;
  BitflipPorts : gmap Z Z;
  LossPortsCount : gmap string Z;
  BitflipPortsCount : gmap string Z
}.

(** [udpStat]; [u_sender] says whether the [Sender] is non-nil. *)
Record udpStat := mkUdpStat {
  u_clientAddr : string;
  u_serverAddr : string;
  u_clientPortRange : PortRange;
  u_serverPortRange : PortRange;
  u_lastID : Z;
  u_serverSide : bool;
  u_bkts : buckets;
  u_rateInSpan : Z;
  u_span : Z;
  u_delay : Z;
  u_sender : bool
}.

(** [NewStat]. *)
Definition NewStat (clientAddr serverAddr : string) (cr sr : PortRange)
    (rateInSpan span delay : Z) (sender : bool) : udpStat :=
  mkUdpStat clientAddr serverAddr cr sr 0 false (newBuckets span rateInSpan false)
    rateInSpan span delay sender.

(** [NewServerStat]. *)
Definition NewServerStat (clientAddr serverAddr : string) (cr sr : PortRange)
    (rateInSpan span delay : Z) (sender : bool) : udpStat :=
  mkUdpStat clientAddr serverAddr cr sr 0 true (newBuckets span rateInSpan true)
    rateInSpan span delay sender.

Definition set_bkts (bs : buckets) (u : udpStat) : udpStat :=
  mkUdpStat (u_clientAddr u) (u_serverAddr u) (u_clientPortRange u) (u_serverPortRange u)
    (u_lastID u) (u_serverSide u) bs (u_rateInSpan u) (u_span u) (u_delay u) (u_sender u).

Definition set_lastID (i : Z) (u : udpStat) : udpStat :=
  mkUdpStat (u_clientAddr u) (u_serverAddr u) (u_clientPortRange u) (u_serverPortRange u)
    i (u_serverSide u) (u_bkts u) (u_rateInSpan u) (u_span u) (u_delay u) (u_sender u).

Module udpStat.

(** [udpStat.Put], [Delete], [Received], [ReceivedRST], [ReceivedAndFix]. *)
Definition Put (cp sp s t : Z) (u : udpStat) : option udpStat :=
  bs ← buckets.put cp sp s t (u_bkts u); Some (set_bkts bs u).
Definition Delete (s t : Z) (u : udpStat) : option udpStat :=
  bs ← buckets.delete s t (u_bkts u); Some (set_bkts bs u).
Definition Received (s t rt : Z) (bf : bool) (u : udpStat) : option udpStat :=
  bs ← buckets.received s t rt bf (u_bkts u); Some (set_bkts bs u).
Definition ReceivedRST (s t rt : Z) (u : udpStat) : option udpStat :=
  bs ← buckets.receivedRST s t rt (u_bkts u); Some (set_bkts bs u).
Definition ReceivedAndFix (s t rt lastSentCount lastStartSrcPort lastStartDstPort : Z)
    (bf : bool) (u : udpStat) : option udpStat :=
  bs ← buckets.receivedAndFix s t rt lastSentCount lastStartSrcPort lastStartDstPort bf (u_bkts u);
  Some (set_bkts bs u).

(** The expected port pairs of a span: [packetCount] steps of the odometer. *)
Fixpoint expected_pairs (n : nat) (cr sr : PortRange) (p : Z * Z) : list (Z * Z) :=
  match n with
  | O => []
  | S n =>
      let p := stat.GetNextPorts p.1 p.2 cr sr in
      p :: expected_pairs n cr sr p
  end.

(** The received port pairs of a bucket. *)
Definition received_pairs (b : bucket) : list (Z * Z) :=
  map (fun r => (r_clientPort r, r_serverPort r))
    (List.filter (fun r => negb (r_rtt r =? rttUnset) && negb (r_clientPort r =? 0))
       (map_to_list (b_requests b)).*2).

(** The loop over [expectedCounts], in the order [l]. *)
Definition loss_loop (recv : gmap (Z * Z) Z) (l : list ((Z * Z) * Z)) : gmap Z Z * gmap string Z :=
  foldl (fun '(ports, counts) '(pp, expected) =>
           let r := default 0 (recv !! pp) in
           if r <? expected
           then (<[pp.1 := pp.2]> ports, <[port_key pp.1 pp.2 := expected - r]> counts)
           else (ports, counts)) (∅, ∅) l.

(** [udpStat.computeServerLossPorts]. *)
Definition computeServerLossPorts (u : udpStat) (b : bucket) : gmap Z Z * gmap string Z :=
  let packetCount := b_packetCount b in
  let startSrc := b_startSrcPort b in
  let startDst := b_startDstPort b in
  if negb (b_packetCountFixed b) || (packetCount =? 0) || ((startSrc =? 0) && (startDst =? 0))
  then (∅, ∅)
  else
    let expectedCounts := count_all
      (expected_pairs (Z.to_nat packetCount) (u_clientPortRange u) (u_serverPortRange u)
         (startSrc, startDst)) in
    let receivedCounts := count_all (received_pairs b) in
    loss_loop receivedCounts (map_to_list expectedCounts).

(** The loop of [statOnce] that drops the buckets not newer than [lastID];
    [fuel] rounds at most, each removing a bucket. *)
Fixpoint drop_stale (fuel : nat) (lastID : Z) (bs : buckets) (b : option bucket) :
    buckets * option bucket :=
  match fuel, b with
  | S fuel, Some b' =>
      if b_id b' <=? lastID then
        let bs := buckets.remove (b_id b') bs in
        drop_stale fuel lastID bs (buckets.oldest bs)
      else (bs, b)
  | _, _ => (bs, b)
  end.

(** The early return of [statOnce]: the oldest bucket is newer than
    [now - delay]. *)
Definition too_new (now : Z) (u : udpStat) (b : option bucket) : option bool :=
  match b with
  | Some b =>
      if (0 <? u_lastID u) && (0 <? b_id b) then
        q ← go_div (i64 (now - u_delay u)) (u_span u); Some (q <? b_id b)
      else Some false
  | None => Some false
  end.

(** The [StatResult] built from a bucket. *)
Definition report (u : udpStat) (b : bucket) : StatResult :=
  let sr := bucket.stat b in
  let '(lp, lpc) :=
    if u_serverSide u then computeServerLossPorts u b
    else (sr_lossPorts sr, sr_lossPortsCount sr) in
  mkReport (b_startNano b) (u_clientAddr u) (u_serverAddr u) (u_serverSide u)
    (sr_sent sr) (sr_received sr) (sr_loss sr) (sr_lossRate sr) (sr_rtt sr) (sr_maxRTT sr)
    (sr_synack sr) (sr_rst sr) lp (sr_bitflipPorts sr) lpc (sr_bitflipPortsCount sr).

(** [udpStat.statOnce] at time [now]: the new state and what is sent to the
    [Sender]. *)
Definition statOnce (now : Z) (u : udpStat) : option (udpStat * list StatResult) :=
  let lastID := u_lastID u in
  let b := buckets.oldest (u_bkts u) in
  early ← too_new now u b;
  if (early : bool) then Some (u, [])
  else
    let '(bs, b) := drop_stale (S (size (bs_buckets (u_bkts u)))) lastID (u_bkts u) b in
    match b with
    | None => Some (set_bkts bs u, [])
    | Some b =>
        let u := set_lastID (b_id b) (set_bkts bs u) in
        Some (set_bkts (buckets.remove (b_id b) bs) u,
              if (0 <? u_lastID u) && u_sender u then [report u b] else [])
    end.

End udpStat.

(** ** The processor *)

(** The heap of [Stat] objects. *)
Abbreviation stat_store := (gmap nat udpStat).

(** [Processor]: locations of the registered stats. *)
Record Processor := mkProcessor {
  p_stats : list nat;
  p_span : Z;
  p_delay : Z
}.

(** [NewProcessor]. *)
Definition NewProcessor (span delay : Z) : Processor := mkProcessor [] span delay.

(** Call a method of the [Stat] at [l]; a dangling location panics. *)
Definition on_stat (l : nat) (f : udpStat -> option udpStat) (σ : stat_store) : option stat_store :=
  u ← σ !! l; u' ← f u; Some (<[l := u']> σ).

Module Processor.

(** [Processor.AddStat]. *)
Definition AddStat (l : nat) (p : Processor) : Processor :=
  mkProcessor (p_stats p ++ [l]) (p_span p) (p_delay p).

(** The loop of [runOnce] over the snapshot; [now] is read anew for each. *)
Fixpoint run_stats (ls : list nat) (now : nat -> Z) (σ : stat_store) :
    option (stat_store * list StatResult) :=
  match ls with
  | [] => Some (σ, [])
  | l :: ls =>
      u ← σ !! l;
      '(u', out) ← udpStat.statOnce (now (length ls)) u;
      '(σ', out') ← run_stats ls now (<[l := u']> σ);
      Some (σ', out ++ out')
  end.

(** [Processor.runOnce]. *)
Definition runOnce (now : nat -> Z) (p : Processor) (σ : stat_store) :
    option (stat_store * list StatResult) :=
  run_stats (p_stats p) now σ.

(** [Processor.Run] after the initial sleep: [runOnce], then one more per tick
    until the context is cancelled; [ticks] lists the clock of each tick. *)
Fixpoint Run_ticks (ticks : list (nat -> Z)) (p : Processor) (σ : stat_store) :
    option (stat_store * list StatResult) :=
  match ticks with
  | [] => Some (σ, [])
  | now :: ticks =>
      '(σ, out) ← runOnce now p σ;
      '(σ, out') ← Run_ticks ticks p σ;
      Some (σ, out ++ out')
  end.

Definition Run (first : nat -> Z) (ticks : list (nat -> Z)) (p : Processor) (σ : stat_store) :
    option (stat_store * list StatResult) :=
  Run_ticks (first :: ticks) p σ.

End Processor.

(** ** Invariant *)

Record udpStat_ok (u : udpStat) : Prop := {
  uok_bkts : buckets_ok (u_bkts u);
  uok_span : u_span u = bs_span (u_bkts u);
  uok_last : 0 <= u_lastID u
}.

Lemma NewStat_ok ca sa cr sr rate span delay sender :
  0 < span -> udpStat_ok (NewStat ca sa cr sr rate span delay sender).
Proof. intros H. split; [by apply newBuckets_ok|done|done]. Qed.

Lemma NewServerStat_ok ca sa cr sr rate span delay sender :
  0 < span -> udpStat_ok (NewServerStat ca sa cr sr rate span delay sender).
Proof. intros H. split; [by apply newBuckets_ok|done|done]. Qed.
#[export] Hint Resolve NewStat_ok NewServerStat_ok uok_bkts uok_last : nettools.

Lemma oldest_spec bs :
  buckets_ok bs ->
  match buckets.oldest bs with
  | None => bs_buckets bs = ∅
  | Some b => bs_buckets bs !! b_id b = Some b /\
              forall i c, bs_buckets bs !! i = Some c -> b_id b <= i
  end.
Proof.
  intros H. pose proof (ok_min bs H) as Hm. unfold buckets.oldest, min_ok in *.
  case_bool_decide as E; [done|]. rewrite decide_False in Hm by done.
  destruct Hm as [[b Hb] Hmin]. rewrite Hb. destruct (ok_ids bs H _ _ Hb) as [-> _].
  split; [done|]. intros i c Hc. apply Hmin. by exists c.
Qed.

Lemma remove_lookup bs i j :
  bs_buckets (buckets.remove i bs) !! j = if decide (i = j) then None else bs_buckets bs !! j.
Proof. cbn. by rewrite lookup_delete. Qed.

Lemma remove_buckets_ok bs i : buckets_ok bs -> buckets_ok (buckets.remove i bs).
Proof. intros H. by apply remove_ok. Qed.

Lemma drop_stale_spec fuel lastID bs :
  buckets_ok bs -> (size (bs_buckets bs) < fuel)%nat ->
  let '(bs', b') := udpStat.drop_stale fuel lastID bs (buckets.oldest bs) in
  buckets_ok bs' /\ bs_span bs' = bs_span bs /\ b' = buckets.oldest bs' /\
  (forall i, bs_buckets bs' !! i = if lastID <? i then bs_buckets bs !! i else None).
Proof.
  revert bs. induction fuel as [|fuel IH]; intros bs H Hf; [lia|].
  cbn [udpStat.drop_stale]. pose proof (oldest_spec bs H) as Ho.
  destruct (buckets.oldest bs) as [b|] eqn:Eo.
  - destruct Ho as [Hb Hmin]. destruct (Z.leb_spec (b_id b) lastID) as [Hle|Hgt].
    + assert (Hsz : (size (bs_buckets (buckets.remove (b_id b) bs)) < fuel)%nat).
      { cbn. rewrite map_size_delete, Hb.
        assert (size (bs_buckets bs) <> 0%nat); [|cbn; lia].
        apply (map_size_ne_0_lookup_2 _ (b_id b)). by exists b. }
      specialize (IH _ (remove_buckets_ok bs (b_id b) H) Hsz).
      destruct (udpStat.drop_stale _ _ _ _) as [bs' b']. destruct IH as (H1 & H2 & H3 & H4).
      split_and!; [done..|]. intros i. rewrite H4, remove_lookup.
      destruct (Z.ltb_spec lastID i); [|done]. by rewrite decide_False by lia.
    + split_and!; [done..|]. intros i. destruct (Z.ltb_spec lastID i); [done|].
      destruct (bs_buckets bs !! i) as [c|] eqn:Hc; [|done]. apply Hmin in Hc. lia.
  - split_and!; [done..|]. intros i. rewrite Ho, lookup_empty. by zcases.
Qed.

(** The outcome of a tick: nothing happens, or everything up to the new
    [lastID] is gone, and the bucket reported is the first one after the old
    [lastID]. *)
Record tick_outcome (u u' : udpStat) (out : list StatResult) : Prop := {
  tick_ok : udpStat_ok u';
  tick_config : set_lastID 0 (set_bkts (u_bkts u) u') = set_lastID 0 u;
  tick_case :
    (u' = u /\ out = []) \/
    (u_lastID u' = u_lastID u /\ out = [] /\ bs_buckets (u_bkts u') = ∅ /\
     forall i, is_Some (bs_buckets (u_bkts u) !! i) -> i <= u_lastID u) \/
    (exists b, u_lastID u < u_lastID u' /\
       bs_buckets (u_bkts u) !! u_lastID u' = Some b /\
       (forall i, is_Some (bs_buckets (u_bkts u) !! i) -> i <= u_lastID u \/ u_lastID u' <= i) /\
       (forall i, bs_buckets (u_bkts u') !! i =
          if u_lastID u' <? i then bs_buckets (u_bkts u) !! i else None) /\
       out = if u_sender u then [udpStat.report u b] else [])
}.

Lemma statOnce_after_guard now u :
  udpStat_ok u -> udpStat.too_new now u (buckets.oldest (u_bkts u)) = Some false ->
  exists u' out, udpStat.statOnce now u = Some (u', out) /\ tick_outcome u u' out /\
    (u' = u -> bs_buckets (u_bkts u) = ∅).
Proof.
  intros [H Hsp Hl] Hearly. unfold udpStat.statOnce. rewrite Hearly. cbn [mbind option_bind].
  pose proof (drop_stale_spec (S (size (bs_buckets (u_bkts u)))) (u_lastID u) (u_bkts u) H
                ltac:(lia)) as Hd.
  destruct (udpStat.drop_stale _ _ _ _) as [bs b]. destruct Hd as (H1 & H2 & -> & H4).
  pose proof (oldest_spec bs H1) as Ho.
  destruct (buckets.oldest bs) as [b|].
  - destruct Ho as [Hb Hmin]. assert (Hb' := Hb). rewrite H4 in Hb'.
    destruct (Z.ltb_spec (u_lastID u) (b_id b)) as [Hlt|]; [|done].
    eexists _, _. split; [done|]. split.
    + split; cbn.
      * split; cbn; [by apply remove_buckets_ok|congruence|lia].
      * by destruct u.
      * right; right. exists b. split_and!; [done|done| | |].
        -- intros i [c Hc]. destruct (Z.ltb_spec (u_lastID u) i) as [Hi|]; [|by left].
           right. apply (Hmin i c). rewrite H4. by rewrite (proj2 (Z.ltb_lt _ _)).
        -- intros i. rewrite lookup_delete, H4. case_decide as Hd; [subst; by zcases; try lia|].
           destruct (Z.ltb_spec (u_lastID u) i), (Z.ltb_spec (b_id b) i); try done; try lia.
           destruct (bs_buckets (u_bkts u) !! i) as [c|] eqn:Hc; [|done]. exfalso.
           assert (b_id b <= i); [|lia]. apply (Hmin i c). rewrite H4.
           by rewrite (proj2 (Z.ltb_lt _ _)).
        -- rewrite (proj2 (Z.ltb_lt 0 (b_id b))) by lia. cbn [andb].
           destruct (u_sender u); [|done]. reflexivity.
    + intros E. apply (f_equal u_lastID) in E. cbn in E. lia.
  - eexists _, _. split; [done|]. split.
    + split; cbn; [split; cbn; congruence|by destruct u|].
      right; left. split_and!; [done|done|done|]. intros i [c Hc].
      destruct (Z.ltb_spec (u_lastID u) i) as [Hi|]; [|done].
      assert (bs_buckets bs !! i = Some c) as Hx
        by (rewrite H4; by rewrite (proj2 (Z.ltb_lt _ _))).
      by rewrite Ho, lookup_empty in Hx.
    + intros E. apply (f_equal u_bkts) in E. cbn in E. by rewrite <- E.
Qed.

Lemma too_new_total now u b :
  udpStat_ok u -> exists e, udpStat.too_new now u b = Some e.
Proof.
  intros [H Hsp Hl]. unfold udpStat.too_new. destruct b as [b|]; [|eauto].
  case_match; [|eauto]. unfold go_div. pose proof (ok_span _ H).
  rewrite (proj2 (Z.eqb_neq (u_span u) 0)) by lia. cbn. eauto.
Qed.

Lemma statOnce_outcome now u :
  udpStat_ok u -> exists u' out, udpStat.statOnce now u = Some (u', out) /\ tick_outcome u u' out.
Proof.
  intros H. destruct (too_new_total now u (buckets.oldest (u_bkts u)) H) as [[] He].
  - exists u, []. split; [unfold udpStat.statOnce; by rewrite He|].
    split; [done|by destruct u|by left].
  - destruct (statOnce_after_guard now u H He) as (u' & out & E & Ho & _). eauto.
Qed.

(** ** Histories of a [Stat] *)

(** A call of the [Stat] interface, or a tick of the processor. *)
Inductive event :=
| EPut (cp sp s t : Z)
| EDelete (s t : Z)
| EReceived (s t rt : Z) (bf : bool)
| EReceivedRST (s t rt : Z)
| EReceivedAndFix (s t rt count sp dp : Z) (bf : bool)
| ETick (now : Z).

Definition event_ok (e : event) : Prop :=
  match e with
  | EPut _ _ _ t | EDelete _ t | EReceived _ t _ _ | EReceivedRST _ t _
  | EReceivedAndFix _ t _ _ _ _ _ => ts_ok t
  | ETick _ => True
  end.

Definition silent (r : option udpStat) : option (udpStat * list StatResult) :=
  u ← r; Some (u, []).

Definition step (e : event) (u : udpStat) : option (udpStat * list StatResult) :=
  match e with
  | EPut cp sp s t => silent (udpStat.Put cp sp s t u)
  | EDelete s t => silent (udpStat.Delete s t u)
  | EReceived s t rt bf => silent (udpStat.Received s t rt bf u)
  | EReceivedRST s t rt => silent (udpStat.ReceivedRST s t rt u)
  | EReceivedAndFix s t rt c sp dp bf => silent (udpStat.ReceivedAndFix s t rt c sp dp bf u)
  | ETick now => udpStat.statOnce now u
  end.

Fixpoint run (es : list event) (u : udpStat) : option (udpStat * list StatResult) :=
  match es with
  | [] => Some (u, [])
  | e :: es =>
      '(u, out) ← step e u;
      '(u, out') ← run es u;
      Some (u, out ++ out')
  end.

Definition same_config (u u' : udpStat) : Prop :=
  set_lastID 0 (set_bkts (u_bkts u) u') = set_lastID 0 u.

Lemma op_step o u :
  udpStat_ok u -> op_ok o ->
  exists bs, exec o (u_bkts u) = Some bs /\ udpStat_ok (set_bkts bs u) /\
    same_config u (set_bkts bs u) /\ u_lastID (set_bkts bs u) = u_lastID u.
Proof.
  intros [H Hsp Hl] Ho.
  destruct (exec_refines _ _ o H (refines_ledger_of _) Ho) as (bs & E & H1 & H2 & _).
  exists bs. split_and!; [done| |by destruct u|done].
  split; cbn; [done|congruence|done].
Qed.

Lemma step_op_ok e u :
  udpStat_ok u -> event_ok e ->
  match e with
  | ETick _ => True
  | _ => exists u', step e u = Some (u', []) /\ udpStat_ok u' /\ same_config u u' /\
                    u_lastID u' = u_lastID u
  end.
Proof.
  intros H He. destruct e; cbn [event_ok] in *; try done.
  all: try match goal with
  | |- context [EPut ?a ?b ?c ?d] => destruct (op_step (Put a b c d) u H He) as (bs & E & Hbs)
  | |- context [EDelete ?a ?b] => destruct (op_step (Delete a b) u H He) as (bs & E & Hbs)
  | |- context [EReceived ?a ?b ?c ?d] =>
      destruct (op_step (Received a b c d) u H He) as (bs & E & Hbs)
  | |- context [EReceivedRST ?a ?b ?c] =>
      destruct (op_step (ReceivedRST a b c) u H He) as (bs & E & Hbs)
  | |- context [EReceivedAndFix ?a ?b ?c ?d ?e ?f ?g] =>
      destruct (op_step (ReceivedAndFix a b c d e f g) u H He) as (bs & E & Hbs)
  end.
  all: exists (set_bkts bs u); split; [|done].
  all: unfold step, silent, udpStat.Put, udpStat.Delete, udpStat.Received,
         udpStat.ReceivedRST, udpStat.ReceivedAndFix; cbn [exec] in E; by rewrite E.
Qed.

Lemma same_config_span u u' : same_config u u' -> u_span u' = u_span u.
Proof. intros H. by apply (f_equal u_span) in H. Qed.

(** One step moves [lastID] up to the span it reports, if any. *)
Lemma step_reports e u :
  udpStat_ok u -> event_ok e ->
  exists u' out, step e u = Some (u', out) /\ udpStat_ok u' /\ u_span u' = u_span u /\
    u_lastID u <= u_lastID u' /\
    (out = [] \/ exists r, out = [r] /\ Timestamp r = u_lastID u' * u_span u /\
                           u_lastID u < u_lastID u').
Proof.
  intros H He. assert (Hop := step_op_ok e u H He).
  destruct e; try (destruct Hop as (u' & E & H1 & H2 & H3); exists u', [];
    split_and!; [done|done|by apply same_config_span|lia|by left]).
  destruct (statOnce_outcome now u H) as (u' & out & E & [H1 H2 H3]).
  exists u', out. split_and!; [done|done|by apply same_config_span| |].
  - destruct H3 as [[-> _]|[(-> & _)|(b & Hlt & _)]]; lia.
  - destruct H3 as [[_ ->]|[(_ & -> & _)|(b & Hlt & Hb & _ & _ & ->)]]; [by left|by left|].
    destruct (u_sender u); [right|by left]. eexists. split_and!; [done| |done].
    destruct H as [Hbk Hsp _]. rewrite Hsp.
    unfold udpStat.report. case_match. cbn. by apply (ok_start _ Hbk).
Qed.

Lemma run_reports es u :
  udpStat_ok u -> Forall event_ok es ->
  exists u' out, run es u = Some (u', out) /\ udpStat_ok u' /\
    StronglySorted Z.lt (map Timestamp out) /\
    Forall (fun t => u_lastID u * u_span u < t) (map Timestamp out).
Proof.
  intros H Hes. revert u H. induction Hes as [|e es He _ IH]; intros u H.
  { exists u, []. split_and!; [done|done|by constructor|by constructor]. }
  destruct (step_reports e u H He) as (u1 & out1 & E1 & H1 & Hspan & Hle & Hout).
  destruct (IH u1 H1) as (u' & out & E & H' & Hs & Hf).
  exists u', (out1 ++ out). cbn [run]. rewrite E1. cbn [mbind option_bind]. rewrite E.
  cbn [mbind option_bind]. assert (0 < u_span u) as Hpos
    by (destruct H as [Hb -> _]; apply (ok_span _ Hb)).
  rewrite Hspan in Hf.
  assert (Hf' : Forall (fun t => u_lastID u * u_span u < t) (map Timestamp out))
    by (eapply Forall_impl; [exact Hf|]; cbn; intros; nia).
  split_and!; [done|done| |].
  - destruct Hout as [->|(r & -> & Hr & Hlt)]; [done|]. cbn. constructor; [done|].
    by rewrite Hr.
  - destruct Hout as [->|(r & -> & Hr & Hlt)]; [done|]. cbn. constructor; [|done].
    rewrite Hr. nia.
Qed.

(** ** Progress *)

(** A bucket stays until it is reported: no method of the interface removes
    one. *)
Lemma set_bucket_keeps i j b bs : is_Some (bs_buckets bs !! i) -> is_Some (bs_buckets (set_bucket j b bs) !! i).
Proof. intros H. cbn. rewrite lookup_insert_is_Some. destruct (decide (j = i)); [by left|by right]. Qed.

Lemma bucket_for_keeps i j bs : is_Some (bs_buckets bs !! i) -> is_Some (bs_buckets (bucket_for j bs).2 !! i).
Proof.
  intros H. unfold bucket_for. destruct (bs_buckets bs !! j); [done|]. cbn. rewrite lookup_insert_is_Some.
  destruct (decide (j = i)); [by left|by right].
Qed.

Lemma try_update_keeps i j f bs bs' :
  buckets.try_update j f bs = Some bs' -> is_Some (bs_buckets bs !! i) -> is_Some (bs_buckets bs' !! i).
Proof.
  unfold buckets.try_update. destruct (bs_buckets bs !! j) as [b|]; cbn [mbind option_bind]; [|done].
  destruct (f b) as [b' []]; [|done]. intros [= <-]. apply set_bucket_keeps.
Qed.

Definition is_remove (o : op) : bool := match o with Remove _ => true | _ => false end.

Lemma exec_keeps i o bs bs' :
  is_remove o = false -> exec o bs = Some bs' -> is_Some (bs_buckets bs !! i) -> is_Some (bs_buckets bs' !! i).
Proof.
  intros Hr E H. destruct o; try done; cbn [exec] in E; unfold buckets.put, buckets.delete, buckets.received,
    buckets.receivedRST, buckets.receivedAndFix in E;
    (destruct (go_div _ _) as [k|]; cbn [mbind option_bind] in E; [|done]).
  all: repeat match type of E with
    | match buckets.try_update ?j ?f ?b with _ => _ end = _ =>
        destruct (buckets.try_update j f b) eqn:?; [injection E as <-; by eapply try_update_keeps|]
    end.
  all: try (pose proof (bucket_for_keeps i k bs H) as Hk; destruct (bucket_for k bs) as [b bs1]; cbn [snd] in Hk).
  all: injection E as <-.
  - by apply set_bucket_keeps.
  - destruct (bs_buckets bs !! k); [by apply set_bucket_keeps|done].
  - by apply set_bucket_keeps.
  - by apply set_bucket_keeps.
  - destruct (_ && _); [|by apply set_bucket_keeps]. unfold alter_bucket. cbn [bs_buckets].
    rewrite lookup_alter_is_Some. by apply set_bucket_keeps.
Qed.

(** A tick at which the delay of span [i] is over. *)
Definition due (u : udpStat) (i : Z) (e : event) : bool :=
  match e with
  | ETick now => match go_div (i64 (now - u_delay u)) (u_span u) with Some q => i <=? q | None => false end
  | _ => false
  end.

Lemma due_config u u' i : same_config u u' -> due u' i = due u i.
Proof.
  intros H. assert (u_delay u' = u_delay u /\ u_span u' = u_span u) as [Hd Hs]
    by (split; [by apply (f_equal u_delay) in H|by apply (f_equal u_span) in H]).
  unfold due. by rewrite Hd, Hs.
Qed.

(** One step with span [i] pending: it is reported now, or it is still pending
    and a due tick has brought the last reported span closer. *)
Lemma step_progress e u i :
  udpStat_ok u -> event_ok e -> is_Some (bs_buckets (u_bkts u) !! i) -> u_lastID u < i -> u_sender u = true ->
  exists u' out, step e u = Some (u', out) /\ udpStat_ok u' /\ same_config u u' /\
    (i * u_span u ∈ map Timestamp out \/
     is_Some (bs_buckets (u_bkts u') !! i) /\ u_lastID u + (if due u i e then 1 else 0) <= u_lastID u' < i).
Proof.
  intros Hok He Hi Hlt Hsend. assert (Hop := step_op_ok e u Hok He).
  assert (Hkeep : forall o, is_remove o = false -> op_ok o -> due u i e = false ->
    (forall bs, exec o (u_bkts u) = Some bs -> step e u = Some (set_bkts bs u, [])) ->
    exists u' out, step e u = Some (u', out) /\ udpStat_ok u' /\ same_config u u' /\
      (i * u_span u ∈ map Timestamp out \/
       is_Some (bs_buckets (u_bkts u') !! i) /\ u_lastID u + (if due u i e then 1 else 0) <= u_lastID u' < i)).
  { intros o Hr Ho Hd Hs. destruct (op_step o u Hok Ho) as (bs & E & H1 & H2 & H3).
    exists (set_bkts bs u), []. split_and!; [by apply Hs|done|done|]. right. rewrite Hd.
    split; [exact (exec_keeps i o _ _ Hr E Hi)|lia]. }
  destruct e; cbn [event_ok] in He.
  1: apply (Hkeep (Put cp sp s t)). 5: apply (Hkeep (Delete s t)). 9: apply (Hkeep (Received s t rt bf)).
  13: apply (Hkeep (ReceivedRST s t rt)). 17: apply (Hkeep (ReceivedAndFix s t rt count sp dp bf)).
  all: try done.
  all: try (intros bs E; unfold step, silent, udpStat.Put, udpStat.Delete, udpStat.Received, udpStat.ReceivedRST,
              udpStat.ReceivedAndFix; cbn [exec] in E; by rewrite E).
  clear Hkeep Hop. cbn [step]. destruct (statOnce_outcome now u Hok) as (u' & out & E & [H1 H2 H3]).
  exists u', out. split_and!; [done|done|done|].
  destruct H3 as [[-> ->]|[(_ & _ & _ & Hall)|(b & Hl & Hb & Hmin & Hrest & ->)]].
  - right. split; [done|]. destruct (due u i (ETick now)) eqn:Hd; [|lia]. exfalso.
    assert (Hearly : udpStat.too_new now u (buckets.oldest (u_bkts u)) = Some false).
    { unfold udpStat.too_new. pose proof (oldest_spec _ (uok_bkts _ Hok)) as Ho.
      destruct (buckets.oldest (u_bkts u)) as [b|]; [|done]. destruct (_ && _); [|done].
      cbn [due] in Hd. destruct (go_div _ _) as [q|]; [|done]. cbn [mbind option_bind]. f_equal. apply Z.ltb_ge.
      apply Z.leb_le in Hd. destruct Hi as [c Hc]. apply Ho in Hc. lia. }
    destruct (statOnce_after_guard now u Hok Hearly) as (u' & out & E' & _ & Hempty).
    rewrite E in E'. injection E' as <- _. destruct Hi as [c Hc]. by rewrite (Hempty eq_refl), lookup_empty in Hc.
  - exfalso. apply Hall in Hi. lia.
  - destruct (Hmin i Hi) as [|Hle]; [lia|]. destruct (decide (u_lastID u' = i)) as [Heq|Hne].
    + left. rewrite Hsend. subst i. apply list_elem_of_singleton. unfold udpStat.report.
      destruct (if u_serverSide u then _ else _). cbn [Timestamp].
      rewrite (uok_span _ Hok). symmetry. by apply (ok_start _ (uok_bkts _ Hok)).
    + right. rewrite Hrest, (proj2 (Z.ltb_lt _ _)) by lia. split; [done|]. destruct (due u i (ETick now)); lia.
Qed.

(** ** Properties *)

(** C8: a span newer than the last reported one is reported: once it has a
    bucket in a [Stat] with a [Sender], any continuation of probes and replies
    with non-negative timestamps and of ticks, with as many ticks after the end
    of the span's delay as there are span numbers from the last reported one up
    to it, hands its report to the [Sender], however the other events are
    interleaved. (A bucket that a late packet makes for a span not newer than
    the last reported one is removed without a report: [tick_outcome].) *)
Theorem every_span_reported :
  forall es u i,
    udpStat_ok u -> Forall event_ok es -> is_Some (bs_buckets (u_bkts u) !! i) -> u_lastID u < i -> u_sender u = true ->
    i - u_lastID u <= Z.of_nat (length (List.filter (due u i) es)) ->
    exists u' out, run es u = Some (u', out) /\ i * u_span u ∈ map Timestamp out.
Proof.
  intros es u i Hok Hes. revert u Hok. induction Hes as [|e es He Hes IH]; intros u Hok Hi Hlt Hsend Hn.
  { cbn in Hn. lia. }
  destruct (step_progress e u i Hok He Hi Hlt Hsend) as (u1 & out1 & E1 & H1 & Hc & Hout).
  cbn [run]. rewrite E1. cbn [mbind option_bind].
  assert (u_sender u1 = true /\ u_span u1 = u_span u) as [Hs1 Hsp1]
    by (split; [rewrite <- Hsend; by apply (f_equal u_sender) in Hc|by apply same_config_span]).
  destruct Hout as [Hin|[Hi1 Hl1]].
  - destruct (run_reports es u1 H1 Hes) as (u' & out & -> & _). cbn [mbind option_bind]. eexists _, _. split; [done|].
    rewrite map_app. apply elem_of_app. by left.
  - destruct (IH u1 H1 Hi1 ltac:(lia) Hs1) as (u' & out & -> & Hin).
    { rewrite (due_config _ _ _ Hc). cbn [List.filter] in Hn. destruct (due u i e); cbn [length] in Hn; lia. }
    cbn [mbind option_bind]. eexists _, _. split; [done|]. rewrite map_app. apply elem_of_app. right. by rewrite <- Hsp1.
Qed.

(** C7: through any history of probes, replies and ticks with clock
    timestamps, nothing panics and the reports handed to the [Sender] carry
    strictly increasing span start times: a span is reported at most once and
    never after a later one. *)
Theorem reports_strictly_increasing :
  forall es u,
    udpStat_ok u -> Forall event_ok es ->
    exists u' out, run es u = Some (u', out) /\ udpStat_ok u' /\
      StronglySorted Z.lt (map Timestamp out).
Proof.
  intros es u H Hes. destruct (run_reports es u H Hes) as (u' & out & E & H' & Hs & _). eauto.
Qed.

Definition sample_stat : udpStat :=
  NewStat "10.0.0.1" "10.0.0.2" (mkPortRange 43500 43599) (mkPortRange 43500 43509)
    5000 1000 3000 true.

Lemma reports_strictly_increasing_witness :
  exists u' out,
    run [EPut 43500 43500 7 1500; EReceived 7 2100 600 false; ETick 9000;
         EPut 43500 43501 8 2600; ETick 9500] sample_stat = Some (u', out) /\ udpStat_ok u' /\
    StronglySorted Z.lt (map Timestamp out).
Proof.
  apply (reports_strictly_increasing
    [EPut 43500 43500 7 1500; EReceived 7 2100 600 false; ETick 9000;
     EPut 43500 43501 8 2600; ETick 9500] sample_stat).
  - by apply NewStat_ok.
  - repeat constructor; cbn; lia.
Defined.

(** Sent in span 1 and span 3 (of 1000), a delay of 3000. *)
Lemma every_span_reported_witness :
  exists u' out,
    run [ETick 5000; EPut 43500 43502 9 3600; ETick 7000; ETick 8000]
      (default sample_stat (udpStat.Put 43500 43500 7 1500 sample_stat)) = Some (u', out) /\
    1000 ∈ map Timestamp out.
Proof.
  eapply (every_span_reported [ETick 5000; EPut 43500 43502 9 3600; ETick 7000; ETick 8000]
    (default sample_stat (udpStat.Put 43500 43500 7 1500 sample_stat)) 1).
  - destruct (op_step (Put 43500 43500 7 1500) sample_stat) as (bs & E & H & _); [by apply NewStat_ok|done|].
    unfold udpStat.Put. change (buckets.put 43500 43500 7 1500 (u_bkts sample_stat)) with
      (exec (Put 43500 43500 7 1500) (u_bkts sample_stat)). rewrite E. exact H.
  - repeat constructor; discriminate.
  - eexists. vm_compute. reflexivity.
  - reflexivity.
  - reflexivity.
  - vm_compute. discriminate.
Defined.

Lemma drop_stale_fresh fuel lastID bs b :
  lastID < b_id b -> udpStat.drop_stale fuel lastID bs (Some b) = (bs, Some b).
Proof. intros H. destruct fuel; cbn; [done|]. by rewrite (proj2 (Z.leb_gt _ _)). Qed.

(** The schedule of [statOnce] when the oldest bucket has not been
    reported: once something has been reported, a bucket whose span is not
    [delay] old is left alone; an old enough one is reported and removed.
    Before anything has been reported ([lastID] is 0) the delay is ignored and
    the bucket is reported at once. *)
Theorem statOnce_schedule :
  forall now u b,
    udpStat_ok u -> 0 <= now - u_delay u < 2 ^ 63 ->
    buckets.oldest (u_bkts u) = Some b -> u_lastID u < b_id b ->
    (0 < u_lastID u -> (now - u_delay u) / u_span u < b_id b ->
     udpStat.statOnce now u = Some (u, [])) /\
    (u_lastID u = 0 \/ b_id b <= (now - u_delay u) / u_span u ->
     exists u', udpStat.statOnce now u =
                  Some (u', if u_sender u then [udpStat.report u b] else []) /\
       u_lastID u' = b_id b /\ bs_buckets (u_bkts u') !! b_id b = None).
Proof.
  intros now u b H Hnow Ho Hlt. assert (Hspan : 0 < u_span u)
    by (destruct H as [Hb -> _]; apply (ok_span _ Hb)).
  assert (Hdiv : go_div (i64 (now - u_delay u)) (u_span u) =
                 Some ((now - u_delay u) / u_span u)).
  { rewrite i64_small by (unfold in_i64; lia). apply go_div_pos; unfold in_i64; lia. }
  destruct H as [_ _ Hl]. unfold udpStat.statOnce. rewrite Ho. unfold udpStat.too_new.
  rewrite (proj2 (Z.ltb_lt 0 (b_id b))), andb_true_r by lia. split.
  - intros Hl' Hq. rewrite (proj2 (Z.ltb_lt 0 (u_lastID u))), Hdiv by lia.
    cbn [mbind option_bind]. by rewrite (proj2 (Z.ltb_lt _ _)).
  - intros Hq.
    assert ((if 0 <? u_lastID u then
               q ← go_div (i64 (now - u_delay u)) (u_span u); Some (q <? b_id b)
             else Some false) = Some false) as ->.
    { destruct (Z.ltb_spec 0 (u_lastID u)); [|done]. rewrite Hdiv. cbn [mbind option_bind].
      f_equal. apply Z.ltb_ge. lia. }
    cbn [mbind option_bind]. rewrite drop_stale_fresh by done. eexists. split.
    + cbn. by rewrite (proj2 (Z.ltb_lt 0 (b_id b))) by lia.
    + split; [done|]. cbn. apply lookup_delete_eq.
Qed.

Definition first_probe : udpStat := default sample_stat (udpStat.Put 43500 43500 7 1500 sample_stat).

Lemma statOnce_schedule_witness :
  let b := default (newBucket 0 0 0 false) (buckets.oldest (u_bkts first_probe)) in
  (0 < u_lastID first_probe -> (3100 - 3000) / 1000 < b_id b ->
   udpStat.statOnce 3100 first_probe = Some (first_probe, [])) /\
  (u_lastID first_probe = 0 \/ b_id b <= (3100 - 3000) / 1000 ->
   exists u', udpStat.statOnce 3100 first_probe = Some (u', [udpStat.report first_probe b]) /\
     u_lastID u' = b_id b /\ bs_buckets (u_bkts u') !! b_id b = None).
Proof.
  apply (statOnce_schedule 3100 first_probe); [|vm_compute; split; [discriminate|reflexivity]
    |reflexivity|reflexivity].
  destruct (op_step (Put 43500 43500 7 1500) sample_stat) as (bs & E & Hok & _);
    [by apply NewStat_ok|split; [lia|reflexivity]|].
  unfold first_probe, udpStat.Put. cbn [exec] in E. rewrite E. exact Hok.
Defined.

(** ** Server-side loss *)

Lemma expected_pairs_after n cr sr p :
  udpStat.expected_pairs n cr sr p = pairs_after n cr sr p.
Proof. revert p. induction n as [|n IH]; intros p; cbn; [done|]. by rewrite IH. Qed.

Lemma pairs_after_nonneg n cr sr p :
  0 <= p.1 -> Forall (fun q => 0 <= q.1) (pairs_after n cr sr p).
Proof.
  revert p. induction n as [|n IH]; intros p Hp; cbn [pairs_after]; constructor.
  2: apply IH.
  all: unfold next_pair, stat.GetNextPorts; repeat case_match; simplify_eq/=;
    first [apply u16_range | exact Hp].
Qed.

Definition loss_step (recv : gmap (Z * Z) Z) (acc : gmap Z Z * gmap string Z)
    (pe : (Z * Z) * Z) : gmap Z Z * gmap string Z :=
  if default 0 (recv !! pe.1) <? pe.2
  then (<[pe.1.1 := pe.1.2]> acc.1,
        <[port_key pe.1.1 pe.1.2 := pe.2 - default 0 (recv !! pe.1)]> acc.2)
  else acc.

Lemma loss_loop_steps recv l acc :
  foldl (fun '(ports, counts) '(pp, expected) =>
           let r := default 0 (recv !! pp) in
           if r <? expected
           then (<[pp.1 := pp.2]> ports, <[port_key pp.1 pp.2 := expected - r]> counts)
           else (ports, counts)) acc l = foldl (loss_step recv) acc l.
Proof.
  revert acc. induction l as [|[pp e] l IH]; intros [m1 m2]; cbn [foldl]; [done|].
  by rewrite <- IH.
Qed.

Lemma loss_steps_other recv l acc k :
  (forall pp e, (pp, e) ∈ l -> port_key pp.1 pp.2 <> k) ->
  (foldl (loss_step recv) acc l).2 !! k = acc.2 !! k.
Proof.
  revert acc. induction l as [|[pp e] l IH]; intros acc H; cbn [foldl]; [done|].
  rewrite IH by (intros; eapply H; by right). unfold loss_step; cbn [fst snd].
  case_match; [|done]. cbn [snd]. rewrite lookup_insert_ne; [done|]. apply (H pp e). by left.
Qed.

Lemma loss_steps_lookup recv l acc pp e :
  NoDup l.*1 -> Forall (fun q => 0 <= q.1.1) l -> (pp, e) ∈ l ->
  (foldl (loss_step recv) acc l).2 !! port_key pp.1 pp.2 =
    if default 0 (recv !! pp) <? e then Some (e - default 0 (recv !! pp))
    else acc.2 !! port_key pp.1 pp.2.
Proof.
  revert acc. induction l as [|[qq e'] l IH]; intros acc Hnd Hnn Hin; [set_solver|].
  cbn [foldl fmap list_fmap fst] in *. apply NoDup_cons in Hnd as [Hq Hnd].
  apply Forall_cons in Hnn as [Hqn Hnn]. apply elem_of_cons in Hin as [[= <- <-]|Hin].
  - rewrite loss_steps_other.
    + unfold loss_step; cbn [fst snd]. case_match; [|done]. cbn [snd]. by rewrite lookup_insert_eq.
    + intros rr e'' Hr Heq. rewrite Forall_forall in Hnn. pose proof (Hnn _ Hr) as Hrn.
      apply port_key_inj in Heq as [H1 H2]; [|done..].
      apply Hq. destruct pp, rr; cbn in *; subst. by apply (list_elem_of_fmap_2 fst _ _ Hr).
  - rewrite IH by done. case_match; [done|]. unfold loss_step; cbn [fst snd].
    case_match; [|done]. cbn [snd]. rewrite lookup_insert_ne; [done|]. intros Heq.
    rewrite Forall_forall in Hnn. pose proof (Hnn _ Hin) as Hpn.
    apply port_key_inj in Heq as [H1 H2]; [|done..].
    apply Hq. destruct pp, qq; cbn in *; subst. by apply (list_elem_of_fmap_2 fst _ _ Hin).
Qed.

(** [computeServerLossPorts] once its guard has passed. *)
Lemma server_loss_steps u b :
  b_packetCountFixed b = true -> b_packetCount b <> 0 ->
  (b_startSrcPort b, b_startDstPort b) <> (0, 0) ->
  udpStat.computeServerLossPorts u b =
    foldl (loss_step (count_all (udpStat.received_pairs b))) (∅, ∅)
      (map_to_list (count_all (pairs_after (Z.to_nat (b_packetCount b)) (u_clientPortRange u)
         (u_serverPortRange u) (b_startSrcPort b, b_startDstPort b)))).
Proof.
  intros Hf Hn Hp. unfold udpStat.computeServerLossPorts, udpStat.loss_loop.
  rewrite Hf, (proj2 (Z.eqb_neq _ _)) by done. cbn [negb orb].
  destruct ((b_startSrcPort b =? 0) && (b_startDstPort b =? 0)) eqn:E.
  - apply andb_true_iff in E as [E1%Z.eqb_eq E2%Z.eqb_eq]. by rewrite E1, E2 in Hp.
  - by rewrite loss_loop_steps, expected_pairs_after.
Qed.

Lemma count_all_default {K} `{Countable K} (l : list K) k :
  default 0 (count_all l !! k) = occurrences k l.
Proof.
  rewrite lookup_count_all. case_decide as Hk; [done|]. cbn.
  rewrite <- occurrences_pos in Hk. pose proof (occurrences_nonneg k l). lia.
Qed.

Lemma count_all_nonneg_keys (l : list (Z * Z)) :
  Forall (fun q => 0 <= q.1) l ->
  Forall (fun q => 0 <= q.1.1) (map_to_list (count_all l)).
Proof.
  rewrite !Forall_forall. intros H [pp e] Hin%elem_of_map_to_list.
  rewrite lookup_count_all in Hin. case_decide; [|done]. by apply H.
Qed.

Lemma server_loss_lookup u b c s :
  b_packetCountFixed b = true -> b_packetCount b <> 0 -> 0 <= b_startSrcPort b ->
  (b_startSrcPort b, b_startDstPort b) <> (0, 0) -> 0 <= c ->
  let e := occurrences (c, s) (pairs_after (Z.to_nat (b_packetCount b)) (u_clientPortRange u)
             (u_serverPortRange u) (b_startSrcPort b, b_startDstPort b)) in
  let r := occurrences (c, s) (udpStat.received_pairs b) in
  (udpStat.computeServerLossPorts u b).2 !! port_key c s =
    if r <? e then Some (e - r) else None.
Proof.
  intros Hf Hn Hsrc Hp Hc. cbn zeta. rewrite server_loss_steps by done.
  set (l := pairs_after _ _ _ _).
  assert (Forall (fun q => 0 <= q.1) l) as Hl by (by apply pairs_after_nonneg).
  destruct (decide ((c, s) ∈ l)) as [Hin|Hin].
  - assert (((c, s), occurrences (c, s) l) ∈ map_to_list (count_all l)) as Hm.
    { apply elem_of_map_to_list. by rewrite lookup_count_all, decide_True. }
    rewrite (loss_steps_lookup _ _ _ (c, s) (occurrences (c, s) l));
      [|apply NoDup_fst_map_to_list|by apply count_all_nonneg_keys|done].
    by rewrite count_all_default.
  - rewrite loss_steps_other.
    + cbn. rewrite lookup_empty.
      rewrite <- occurrences_pos in Hin.
      pose proof (occurrences_nonneg (c, s) (udpStat.received_pairs b)).
      by rewrite (proj2 (Z.ltb_ge _ _)) by lia.
    + intros [c' s'] e Hm%elem_of_map_to_list Heq. rewrite lookup_count_all in Hm.
      case_decide as Hin'; [|done]. rewrite Forall_forall in Hl. pose proof (Hl _ Hin') as Hc'.
      apply port_key_inj in Heq as [H1 H2]; [|done..]. cbn in H1, H2. by subst.
Qed.

Lemma server_loss_key u b k :
  b_packetCountFixed b = true -> b_packetCount b <> 0 ->
  (b_startSrcPort b, b_startDstPort b) <> (0, 0) ->
  is_Some ((udpStat.computeServerLossPorts u b).2 !! k) ->
  exists p, p ∈ pairs_after (Z.to_nat (b_packetCount b)) (u_clientPortRange u)
              (u_serverPortRange u) (b_startSrcPort b, b_startDstPort b) /\
            k = port_key p.1 p.2.
Proof.
  intros Hf Hn Hp. rewrite server_loss_steps by done. set (l := pairs_after _ _ _ _).
  destruct (decide (Exists (fun p => k = port_key p.1 p.2) l)) as [Hex|Hno].
  - intros _. apply Exists_exists in Hex as (p & H1 & H2). eauto.
  - intros [x Hx]. rewrite loss_steps_other in Hx; [cbn in Hx; by rewrite lookup_empty in Hx|].
    intros p e Hm%elem_of_map_to_list Heq. rewrite lookup_count_all in Hm.
    case_decide; [|done]. apply Hno, Exists_exists. eauto.
Qed.

(** C14: the server's loss report, once the client has announced the size and
    start of the span: the entry of a port pair is the number of its expected
    occurrences (in the [packetCount] steps of the odometer after the start)
    that were not received, and is absent when all of them were. *)
Theorem server_loss_exact :
  forall u b c s,
    b_packetCountFixed b = true -> b_packetCount b <> 0 -> 0 <= b_startSrcPort b ->
    (b_startSrcPort b, b_startDstPort b) <> (0, 0) -> 0 <= c ->
    let e := occurrences (c, s) (pairs_after (Z.to_nat (b_packetCount b)) (u_clientPortRange u)
               (u_serverPortRange u) (b_startSrcPort b, b_startDstPort b)) in
    let r := occurrences (c, s) (udpStat.received_pairs b) in
    (udpStat.computeServerLossPorts u b).2 !! port_key c s =
      if r <? e then Some (e - r) else None.
Proof. exact server_loss_lookup. Qed.

Definition sample_server : udpStat :=
  NewServerStat "10.0.0.1" "10.0.0.2" (mkPortRange 43500 43502) (mkPortRange 43500 43501)
    5 1000 3000 true.

(** A span of three probes of which the second was lost. *)
Definition sample_span : bucket :=
  default (newBucket 0 0 0 true)
    (bs ← buckets.put 43500 43501 1 1000 (u_bkts sample_server);
     bs ← buckets.received 1 1000 10 false bs;
     bs ← buckets.put 43501 43501 3 1003 bs;
     bs ← buckets.received 3 1003 10 false bs;
     b ← bs_buckets bs !! 1;
     Some (fix_count 3 43500 43500 b)).

Lemma server_loss_exact_witness :
  (udpStat.computeServerLossPorts sample_server sample_span).2 !! port_key 43501 43500 = Some 1.
Proof.
  rewrite (server_loss_exact sample_server sample_span 43501 43500);
    [vm_compute; reflexivity | reflexivity | discriminate | discriminate | discriminate
    | discriminate].
Defined.

Lemma occurrences_NoDup {K} `{EqDecision K} (x : K) l :
  NoDup l -> occurrences x l = if decide (x ∈ l) then 1 else 0.
Proof.
  induction 1 as [|y l Hy _ IH]; [done|]. rewrite occurrences_cons, IH.
  destruct (decide (y = x)) as [->|]; repeat case_decide; set_solver.
Qed.

Lemma occurrences_perm {K} `{EqDecision K} (x : K) l l' :
  l ≡ₚ l' -> occurrences x l = occurrences x l'.
Proof. intros H. unfold occurrences. by rewrite H. Qed.

Section missing_last.
Context {K : Type} `{EqDecision K}.
Variables (p q : K) (A R : list K).
Hypothesis Hnd : NoDup (p :: A ++ [q]).
Hypothesis Hq : q ∉ p :: A.
Hypothesis HR : R ≡ₚ p :: A \/ R ≡ₚ A.

Lemma missing_counts x :
    occurrences x (A ++ [q]) = (if decide (x ∈ A ++ [q]) then 1 else 0) /\
    occurrences x R = (if decide (x ∈ R) then 1 else 0).
Proof using Hnd Hq HR.
    assert (H1 := Hnd). apply NoDup_cons in H1 as [Hp HA].
    assert (NoDup (p :: A)) as HpA.
    { constructor; [set_solver|]. by apply NoDup_app in HA as (? & _ & _). }
    split; apply occurrences_NoDup; [done|].
    destruct HR as [->| ->]; [done|]. by apply NoDup_cons in HpA as [_ ?].
Qed.

Lemma missing_member x : (x ∈ A ++ [q] /\ x ∉ R) <-> x = q.
Proof using Hnd Hq HR.
    assert (A ⊆ R /\ R ⊆ p :: A) as [H1 H2] by (destruct HR as [->| ->]; set_solver).
    set_solver.
Qed.

Lemma missing_last x :
    (occurrences x R <? occurrences x (A ++ [q])) = bool_decide (x = q).
Proof using Hnd Hq HR.
    destruct (missing_counts x) as [-> ->]. pose proof (missing_member x) as Hm.
    destruct (decide (x ∈ A ++ [q])), (decide (x ∈ R)); cbn; symmetry;
      first [apply bool_decide_eq_true_2; tauto | apply bool_decide_eq_false_2; tauto].
Qed.

Lemma missing_last_count : occurrences q (A ++ [q]) - occurrences q R = 1.
Proof using Hnd Hq HR.
    destruct (missing_counts q) as [-> ->]. destruct (proj2 (missing_member q) eq_refl).
    by rewrite decide_True, decide_False.
Qed.
End missing_last.

(** [computeServerLossPorts] steps the odometer before it counts, so a
    start pair [p] that is the first pair of the span (what the clients
    announce) yields the pairs after [p]. When all [n] probes
    [p, next p, ...] of the span arrive, it still reports exactly one lost
    probe, of the pair after the last one, which was never sent; and when the
    first probe was the only one lost the report is the same. *)
Theorem server_loss_off_by_one :
  forall u b p n,
    valid_range (u_clientPortRange u) /\ Max (u_clientPortRange u) < 65535 ->
    valid_range (u_serverPortRange u) /\ Max (u_serverPortRange u) < 65535 ->
    in_range (u_clientPortRange u) p.1 -> in_range (u_serverPortRange u) p.2 ->
    b_packetCountFixed b = true -> b_packetCount b = Z.of_nat (S n) ->
    Z.of_nat (S n) < width (u_clientPortRange u) * width (u_serverPortRange u) ->
    (b_startSrcPort b, b_startDstPort b) = p ->
    let sent_after_first := pairs_after n (u_clientPortRange u) (u_serverPortRange u) p in
    udpStat.received_pairs b ≡ₚ p :: sent_after_first \/
    udpStat.received_pairs b ≡ₚ sent_after_first ->
    let never_sent := nth_pair (S n) (u_clientPortRange u) (u_serverPortRange u) p in
    never_sent ∉ p :: sent_after_first /\
    (udpStat.computeServerLossPorts u b).2 = {[ port_key never_sent.1 never_sent.2 := 1 ]}.
Proof.
  intros u b p n Hc Hs Hp1 Hp2 Hf Hn Hw Hstart. cbn zeta. intros Hrecv.
  set (cr := u_clientPortRange u) in *. set (sr := u_serverPortRange u) in *.
  pose proof (pairs_after_NoDup cr sr Hc Hs (S n) p Hp1 Hp2 Hw) as Hnd.
  set (A := pairs_after n cr sr p) in *.
  assert (HE : pairs_after (S n) cr sr p = A ++ [nth_pair (S n) cr sr p]) by apply pairs_after_S.
  set (q := nth_pair (S n) cr sr p) in *. rewrite HE in Hnd.
  assert (Hq : q ∉ p :: A).
  { rewrite app_comm_cons in Hnd. apply NoDup_app in Hnd as (_ & Hx & _).
    intros Hin. apply (Hx _ Hin). set_solver. }
  split; [done|].
  destruct (nth_pair_index cr sr Hc Hs (S n) p Hp1 Hp2) as (Hi1 & _ & _). fold q in Hi1.
  assert (Hpos : 0 < p.1 /\ 0 < q.1) by (unfold in_range, valid_range in *; lia).
  assert (Hlt : forall x, (occurrences x (udpStat.received_pairs b) <? occurrences x (A ++ [q])) =
                          bool_decide (x = q)).
  { intros x. by apply (missing_last p). }
  assert (Hlk : forall c s, 0 <= c ->
            (udpStat.computeServerLossPorts u b).2 !! port_key c s =
            if decide ((c, s) = q) then Some 1 else None).
  { intros c s Hcs. rewrite server_loss_lookup; [|done|lia|by subst p; cbn in *; lia| |done].
    2: { rewrite Hstart. intros ->. cbn in *. lia. }
    fold cr sr. rewrite Hn, Nat2Z.id, Hstart, HE, Hlt, bool_decide_decide.
    case_decide as Hd; [|done]. rewrite Hd. f_equal. by apply (missing_last_count p). }
  apply map_eq. intros k. destruct (decide (k = port_key q.1 q.2)) as [->|Hk].
  - rewrite lookup_singleton_eq, Hlk by lia. by rewrite <- surjective_pairing, decide_True.
  - rewrite lookup_singleton_ne by done.
    destruct (_ !! k) as [x|] eqn:Hx; [exfalso|done].
    destruct (server_loss_key u b k) as (r & Hr & ->); [done|lia| |by eexists|].
    { rewrite Hstart. intros ->. cbn in *. lia. }
    fold cr sr in Hr. rewrite Hstart in Hr.
    assert (0 <= r.1) by (eapply Forall_forall in Hr; [|by apply pairs_after_nonneg; lia]; done).
    rewrite Hlk in Hx by done. case_decide as Hd; [|done]. apply Hk. by rewrite <- Hd.
Qed.

(** The same span with all three probes received. *)
Definition complete_span : bucket :=
  default sample_span
    (bs ← buckets.put 43500 43500 0 1000 (u_bkts sample_server);
     bs ← buckets.received 0 1000 10 false bs;
     bs ← buckets.put 43500 43501 1 1001 bs;
     bs ← buckets.received 1 1001 10 false bs;
     bs ← buckets.put 43501 43500 2 1002 bs;
     bs ← buckets.received 2 1002 10 false bs;
     b ← bs_buckets bs !! 1;
     Some (fix_count 3 43500 43500 b)).

Lemma server_loss_off_by_one_witness :
  (43501, 43501) ∉ [(43500, 43500); (43500, 43501); (43501, 43500)] /\
  (udpStat.computeServerLossPorts sample_server complete_span).2 = {[ "43501-43501" := 1 ]}.
Proof.
  apply (server_loss_off_by_one sample_server complete_span (43500, 43500) 2);
    try (vm_compute; repeat split; congruence).
  left. vm_compute. exact (Permutation_rev [(43501, 43500); (43500, 43501); (43500, 43500)])
    || exact (Permutation_sym (Permutation_rev [(43501, 43500); (43500, 43501); (43500, 43500)])).
Defined.
