(* ===== verification/Concurrent.v ===== *)
(** * The statistics under concurrency ([stat/bucket.go], [stat/sender.go])

    The goroutines of a client or server call the methods of one [Stat] while
    the processor runs [statOnce] on it. A method is several critical sections:
    it finds or creates a bucket under the lock of the collection, releases it,
    and then works on the bucket under the bucket's own lock. Here the buckets
    are objects in a heap, the collection maps a span number to a location, and
    a goroutine stands between two of its critical sections; one step is one
    critical section with the local work that follows it.

    [view] reads the collection back as the [buckets] of Buckets.v, so the
    lemmas of that file apply to each section. The configurations also carry
    the order in which the operations took effect ([c_log]), which no step
    reads: Linearize.v compares it with the ledger of Buckets.v. This file
    proves what holds in every interleaving. *)

From Stdlib Require Import Sorted.
From stdpp Require Import sorting.
From S2P Require Import Prelude GoStd Ports Bucket Buckets UdpStat.
Local Open Scope Z_scope.

(** ** The shared objects *)

(** [buckets] with its buckets on the heap: [cb_objs] holds every bucket ever
    created, [cb_map] is the field [buckets], [cb_writer] the goroutine that
    keeps [bs.Lock()] from one section to the next. *)
Record cbuckets := mkCBuckets {
  cb_objs : gmap nat bucket;
  cb_map : gmap Z nat;
  cb_next : nat;
  cb_rateInSpan : Z;
  cb_span : Z;
  cb_minID : Z;
  cb_serverSide : bool;
  cb_writer : option nat
}.

(** [newBuckets]. *)
Definition new_cbuckets (span rateInSpan : Z) (serverSide : bool) : cbuckets :=
  mkCBuckets ∅ ∅ 0 rateInSpan span (-1) serverSide None.

Definition set_objs (m : gmap nat bucket) (cb : cbuckets) : cbuckets :=
  mkCBuckets m (cb_map cb) (cb_next cb) (cb_rateInSpan cb) (cb_span cb) (cb_minID cb)
    (cb_serverSide cb) (cb_writer cb).

Definition set_writer (w : option nat) (cb : cbuckets) : cbuckets :=
  mkCBuckets (cb_objs cb) (cb_map cb) (cb_next cb) (cb_rateInSpan cb) (cb_span cb) (cb_minID cb)
    (cb_serverSide cb) w.

(** A section of the lock of the collection waits while a goroutine holds it. *)
Definition unlocked {A} (cb : cbuckets) (k : option A) : option A :=
  match cb_writer cb with None => k | Some _ => None end.

(** A section of a bucket's lock, which replaces its contents by [f]. *)
Definition on_bucket (l : nat) (f : bucket -> bucket) (cb : cbuckets) : cbuckets :=
  set_objs (alter f l (cb_objs cb)) cb.

(** [b := bs.buckets[bucketID]; if b == nil { ... }] under [bs.Lock()]. *)
Definition get_or_create (i : Z) (cb : cbuckets) : nat * cbuckets :=
  match cb_map cb !! i with
  | Some l => (l, cb)
  | None =>
      let l := cb_next cb in
      (l, mkCBuckets
            (<[l := newBucket i (cb_span cb) (cb_rateInSpan cb) (cb_serverSide cb)]> (cb_objs cb))
            (<[i := l]> (cb_map cb)) (S l) (cb_rateInSpan cb) (cb_span cb)
            (if (cb_minID cb <? 0) || (i <? cb_minID cb) then i else cb_minID cb)
            (cb_serverSide cb) (cb_writer cb))
  end.

(** The section of [oldest]: the location of the bucket, nil if there is none. *)
Definition oldest_loc (cb : cbuckets) : option nat :=
  if bool_decide (cb_map cb = ∅) then None else cb_map cb !! cb_minID cb.

(** The section of [remove]. *)
Definition remove_loc (i : Z) (cb : cbuckets) : cbuckets :=
  let m := base.delete i (cb_map cb) in
  mkCBuckets (cb_objs cb) m (cb_next cb) (cb_rateInSpan cb) (cb_span cb)
    (if i =? cb_minID cb then buckets.min_scan (map_to_list m).*1 (-1) else cb_minID cb)
    (cb_serverSide cb) (cb_writer cb).

(** ** Goroutines *)

(** Where a goroutine stands in the method it called. *)
Inductive pc :=
| AtStart
| TryCur (b prev : option nat)  (** [received]: [b] and [prev] have been read *)
| TryPrev (prev : option nat)   (** [b] is nil or does not have the probe *)
| Create                        (** neither has it *)
| Write (l : nat)               (** about to lock the bucket at [l] *)
| FixMark (l : nat)             (** [receivedAndFix] after [b.received] *)
| FixLook                       (** about to look for the previous bucket *)
| FixPrev (l : nat)             (** about to lock the previous bucket *)
| Done.

(** What is written into the bucket under its lock, once its location is known. *)
Definition bucket_write (o : op) : bucket -> bucket :=
  match o with
  | Put cp sp s t => bucket.put cp sp s t
  | Delete s _ => bucket.delete s
  | Received s _ rt bf | ReceivedAndFix s _ rt _ _ _ bf => bucket.received s rt bf
  | ReceivedRST s _ rt => bucket.receivedRST s rt
  | Remove _ => id
  end.

(** [updateReceived] or [updateReceivedRST]. *)
Definition bucket_update (o : op) (b : bucket) : bucket * bool :=
  match o with
  | Received s _ rt bf => bucket.updateReceived s rt bf b
  | ReceivedRST s _ rt => bucket.updateReceivedRST s rt b
  | _ => (b, false)
  end.

Definition op_time (o : op) : Z :=
  match o with
  | Put _ _ _ t | Delete _ t | Received _ t _ _ | ReceivedRST _ t _
  | ReceivedAndFix _ t _ _ _ _ _ => t
  | Remove _ => 0
  end.

(** Outcome of a section: whether the operation took effect in it, where the
    goroutine stands after it, and the shared objects. *)
Abbreviation outcome := (bool * pc * cbuckets)%type.

(** [if b != nil && b.update(...) { return }]; [next] is where the code goes on
    otherwise. *)
Definition try_loc (o : op) (l : option nat) (next : pc) (cb : cbuckets) : option outcome :=
  match l with
  | None => Some (false, next, cb)
  | Some l =>
      b ← cb_objs cb !! l;
      let '(b', ok) := bucket_update o b in
      Some (if (ok : bool) then (true, Done, set_objs (<[l := b']> (cb_objs cb)) cb)
            else (false, next, cb))
  end.

(** The next section of goroutine [k], which executes the method of [o]. *)
Definition op_step (k : nat) (o : op) (p : pc) (cb : cbuckets) : option outcome :=
  i ← go_div (op_time o) (cb_span cb);
  match o, p with
  | Put _ _ _ _, AtStart =>
      unlocked cb (let '(l, cb) := get_or_create i cb in Some (false, Write l, cb))
  | Delete _ _, AtStart =>
      unlocked cb (Some match cb_map cb !! i with
                        | Some l => (false, Write l, cb)
                        | None => (true, Done, cb)
                        end)
  | (Received _ _ _ _ | ReceivedRST _ _ _), AtStart =>
      unlocked cb (Some (false, TryCur (cb_map cb !! i) (cb_map cb !! i64 (i - 1)), cb))
  | (Received _ _ _ _ | ReceivedRST _ _ _), TryCur b prev => try_loc o b (TryPrev prev) cb
  | (Received _ _ _ _ | ReceivedRST _ _ _), TryPrev prev => try_loc o prev Create cb
  | (Received _ _ _ _ | ReceivedRST _ _ _), Create =>
      unlocked cb (let '(l, cb) := get_or_create i cb in Some (false, Write l, cb))
  | (Put _ _ _ _ | Delete _ _ | Received _ _ _ _ | ReceivedRST _ _ _), Write l =>
      Some (true, Done, on_bucket l (bucket_write o) cb)
  | ReceivedAndFix _ _ _ _ _ _ _, AtStart =>
      unlocked cb (let '(l, cb) := get_or_create i cb in
                   Some (false, Write l, set_writer (Some k) cb))
  | ReceivedAndFix _ _ _ _ _ _ _, Write l =>
      Some (true, FixMark l, on_bucket l (bucket_write o) cb)
  | ReceivedAndFix _ _ _ count _ _ _, FixMark l =>
      b ← cb_objs cb !! l;
      Some (false, if negb (b_fixed b) && (0 <? count) then FixLook else Done,
            set_writer None (on_bucket l (set_fixed true) cb))
  | ReceivedAndFix _ _ _ _ _ _ _, FixLook =>
      unlocked cb (Some (false, match cb_map cb !! i64 (i - 1) with
                                | Some l => FixPrev l
                                | None => Done
                                end, cb))
  | ReceivedAndFix _ _ _ count sp dp _, FixPrev l =>
      Some (false, Done, on_bucket l (fix_count count sp dp) cb)
  | _, _ => None
  end.

(** ** The processor *)

(** Where [statOnce] stands. *)
Inductive proc :=
| PIdle
| PDrop (i : Z)                                       (** about to [remove(b.id)] in the loop *)
| PAgain                                              (** about to call [oldest] in the loop *)
| PStat (l : nat)                                     (** about to call [b.stat()] *)
| PMeta (l : nat) (sr : statResult)                   (** about to read [packetCount] ... *)
| PPairs (l : nat) (sr : statResult) (meta : bucket)  (** about to read the requests *)
| PRemove (i : Z).                                    (** about to [remove(b.id)] at the end *)

(** What took effect, in order: a method called by a goroutine, the aggregates
    taken of span [i], its removal. *)
Inductive entry :=
| Did (k : nat) (o : op)
| Reported (i : Z)
| Removed (i : Z).

Record config := mkConfig {
  c_cb : cbuckets;
  c_lastID : Z;
  c_proc : proc;
  c_threads : gmap nat (op * pc);
  c_out : list StatResult;
  c_log : list entry
}.

(** A goroutine calls a method; it executes its next section; the processor
    calls [statOnce] at a time; it executes its next section. *)
Inductive label :=
| Call (k : nat) (o : op)
| Run (k : nat)
| Tick (now : Z)
| Proc.

(** The [StatResult] of a bucket from its aggregates and lost ports. *)
Definition report_with (u : udpStat) (b : bucket) (sr : statResult)
    (lost : gmap Z Z * gmap string Z) : StatResult :=
  mkReport (b_startNano b) (u_clientAddr u) (u_serverAddr u) (u_serverSide u)
    (sr_sent sr) (sr_received sr) (sr_loss sr) (sr_lossRate sr) (sr_rtt sr) (sr_maxRTT sr)
    (sr_synack sr) (sr_rst sr) lost.1 (sr_bitflipPorts sr) lost.2 (sr_bitflipPortsCount sr).

(** The early return of [computeServerLossPorts]. *)
Definition no_loss_data (b : bucket) : bool :=
  negb (b_packetCountFixed b) || (b_packetCount b =? 0) ||
  ((b_startSrcPort b =? 0) && (b_startDstPort b =? 0)).

Section runs.

(** The object as it was created; its fields [lastID] and [bkts] are those of
    the configuration. *)
Variable u0 : udpStat.

Definition new_config (rateInSpan span : Z) : config :=
  mkConfig (new_cbuckets span rateInSpan (u_serverSide u0)) (u_lastID u0) PIdle ∅ [] [].

(** [if s.lastID > 0 && s.sender != nil { s.sender.Send(...) }], and on to the
    removal. *)
Definition send_report (b : bucket) (sr : statResult) (lost : gmap Z Z * gmap string Z)
    (log : list entry) (c : config) : config :=
  mkConfig (c_cb c) (c_lastID c) (PRemove (b_id b)) (c_threads c)
    (c_out c ++ if (0 <? c_lastID c) && u_sender u0 then [report_with u0 b sr lost] else [])
    (c_log c ++ log).

Definition set_proc (p : proc) (c : config) : config :=
  mkConfig (c_cb c) (c_lastID c) p (c_threads c) (c_out c) (c_log c).

(** The body of the loop of [statOnce] and what follows it, up to the next
    section, on the bucket at [l]. *)
Definition pick (l : option nat) (c : config) : option config :=
  match l with
  | None => Some (set_proc PIdle c)
  | Some l =>
      b ← cb_objs (c_cb c) !! l;
      Some (if b_id b <=? c_lastID c then set_proc (PDrop (b_id b)) c
            else mkConfig (c_cb c) (b_id b) (PStat l) (c_threads c) (c_out c) (c_log c))
  end.

(** [remove] by the processor. *)
Definition drop (i : Z) (p : proc) (c : config) : option config :=
  unlocked (c_cb c)
    (Some (mkConfig (remove_loc i (c_cb c)) (c_lastID c) p (c_threads c) (c_out c)
             (c_log c ++ [Removed i]))).

Definition proc_step (c : config) : option config :=
  match c_proc c with
  | PIdle => None
  | PDrop i => drop i PAgain c
  | PAgain => unlocked (c_cb c) (pick (oldest_loc (c_cb c)) c)
  | PStat l =>
      b ← cb_objs (c_cb c) !! l;
      let sr := bucket.stat b in
      Some (if u_serverSide u0
            then set_proc (PMeta l sr) (mkConfig (c_cb c) (c_lastID c) (c_proc c) (c_threads c)
                                          (c_out c) (c_log c ++ [Reported (b_id b)]))
            else send_report b sr (sr_lossPorts sr, sr_lossPortsCount sr) [Reported (b_id b)] c)
  | PMeta l sr =>
      b ← cb_objs (c_cb c) !! l;
      Some (if no_loss_data b then send_report b sr (∅, ∅) [] c
            else set_proc (PPairs l sr b) c)
  | PPairs l sr meta =>
      b ← cb_objs (c_cb c) !! l;
      Some (send_report meta sr
              (udpStat.computeServerLossPorts u0 (set_requests (b_requests b) meta)) [] c)
  | PRemove i => drop i PIdle c
  end.

(** The first section of [statOnce], the guard and the loop after it. *)
Definition tick_step (now : Z) (c : config) : option config :=
  match c_proc c with
  | PIdle =>
      unlocked (c_cb c)
        (let l := oldest_loc (c_cb c) in
         early ← udpStat.too_new now (set_lastID (c_lastID c) u0) (l ← l; cb_objs (c_cb c) !! l);
         if (early : bool) then Some c else pick l c)
  | _ => None
  end.

Definition cstep (lb : label) (c : config) : option config :=
  match lb with
  | Call k o =>
      match c_threads c !! k with
      | Some _ => None
      | None => Some (mkConfig (c_cb c) (c_lastID c) (c_proc c) (<[k := (o, AtStart)]> (c_threads c))
                        (c_out c) (c_log c))
      end
  | Run k =>
      '(o, p) ← c_threads c !! k;
      '(did, p', cb) ← op_step k o p (c_cb c);
      Some (mkConfig cb (c_lastID c) (c_proc c) (<[k := (o, p')]> (c_threads c)) (c_out c)
              (c_log c ++ if (did : bool) then [Did k o] else []))
  | Tick now => tick_step now c
  | Proc => proc_step c
  end.

Fixpoint csteps (ls : list label) (c : config) : option config :=
  match ls with
  | [] => Some c
  | lb :: ls => c ← cstep lb c; csteps ls c
  end.

End runs.

(** ** Invariant of the shared objects *)

(** The collection as Buckets.v has it. *)
Definition view (cb : cbuckets) : buckets :=
  mkBuckets (omap (fun l => cb_objs cb !! l) (cb_map cb)) (cb_rateInSpan cb) (cb_span cb)
    (cb_minID cb) (cb_serverSide cb).

(** What holds of every bucket ever created, in the collection or not. *)
Record obj_ok (cb : cbuckets) (l : nat) (b : bucket) : Prop := {
  obj_next : (l < cb_next cb)%nat;
  obj_id : 0 <= b_id b;
  obj_start : b_startNano b = b_id b * cb_span cb;
  obj_time : b_id b * cb_span cb < 2 ^ 63;
  obj_side : b_serverSide b = cb_serverSide cb;
  obj_requests : bucket_ok b
}.

(** [l] is a bucket of span [i]. *)
Definition has_id (cb : cbuckets) (l : nat) (i : Z) : Prop :=
  exists b, cb_objs cb !! l = Some b /\ b_id b = i.

Record cb_ok (cb : cbuckets) : Prop := {
  co_span : 0 < cb_span cb;
  co_map : forall i l, cb_map cb !! i = Some l -> has_id cb l i;
  co_obj : forall l b, cb_objs cb !! l = Some b -> obj_ok cb l b;
  co_min : min_ok (bs_buckets (view cb)) (cb_minID cb)
}.

Lemma view_lookup cb i : bs_buckets (view cb) !! i = l ← cb_map cb !! i; cb_objs cb !! l.
Proof. cbn. by rewrite lookup_omap. Qed.

Lemma view_is_Some cb i :
  cb_ok cb -> is_Some (bs_buckets (view cb) !! i) <-> is_Some (cb_map cb !! i).
Proof.
  intros H. rewrite view_lookup. destruct (cb_map cb !! i) as [l|] eqn:E; cbn.
  - destruct (co_map cb H i l E) as (b & -> & _). split; by eexists.
  - done.
Qed.

Lemma view_ok cb : cb_ok cb -> buckets_ok (view cb).
Proof.
  intros H.
  assert (Hb : forall i b, bs_buckets (view cb) !! i = Some b ->
    exists l, obj_ok cb l b /\ b_id b = i).
  { intros i b Hi. rewrite view_lookup in Hi. apply bind_Some in Hi as (l & Hl & Hb).
    destruct (co_map cb H i l Hl) as (b' & Hb' & Hid). simplify_eq. exists l.
    split; [by apply (co_obj cb H)|done]. }
  split; [apply H| | | |apply H]; intros i b (l & Ho & <-)%Hb.
  - split; [done|apply Ho].
  - apply Ho.
  - apply Ho.
Qed.

Lemma min_ok_dom m m' mi :
  (forall i, is_Some (m !! i) <-> is_Some (m' !! i)) -> min_ok m mi -> min_ok m' mi.
Proof.
  intros Hd. assert (He : m = ∅ <-> m' = ∅).
  { split; intros ->; apply map_eq; intros i; rewrite lookup_empty; apply eq_None_not_Some;
      [rewrite <- Hd|rewrite Hd]; rewrite lookup_empty; apply is_Some_None. }
  unfold min_ok. destruct (decide (m = ∅)) as [E|E].
  - by rewrite decide_True by tauto.
  - rewrite decide_False by tauto. intros [H1 H2]. split; [by apply Hd|].
    intros i Hi. by apply H2, Hd.
Qed.

(** A location stands for at most one span of the collection. *)
Lemma loc_span cb i l b :
  cb_ok cb -> cb_map cb !! i = Some l -> cb_objs cb !! l = Some b -> i = b_id b.
Proof. intros H Hi Hb. destruct (co_map cb H i l Hi) as (b' & Hb' & <-). by simplify_eq. Qed.

(** The sections under a bucket's lock: the bucket at [l] becomes [b']. *)
Lemma set_obj_ok cb l b b' :
  cb_ok cb -> cb_objs cb !! l = Some b ->
  b_id b' = b_id b -> b_startNano b' = b_startNano b -> b_serverSide b' = b_serverSide b ->
  bucket_ok b' ->
  let cb' := set_objs (<[l := b']> (cb_objs cb)) cb in
  cb_ok cb' /\
  forall j x, probe (view cb') j x =
    if decide (cb_map cb !! j = Some l) then b_requests b' !! x else probe (view cb) j x.
Proof.
  intros H Hl Hid Hst Hss Hb. cbn zeta. set (cb' := set_objs _ cb).
  assert (Hlk : forall l', cb_objs cb' !! l' = if decide (l = l') then Some b' else cb_objs cb !! l')
    by (intros l'; apply lookup_insert).
  assert (Hmap : forall i l', cb_map cb !! i = Some l' -> has_id cb' l' i).
  { intros i l' Hi. unfold has_id. rewrite Hlk. destruct (decide (l = l')) as [<-|].
    - exists b'. rewrite Hid. split; [done|]. symmetry. by apply (loc_span cb i l).
    - by apply (co_map cb H). }
  split.
  - split; [apply H|apply Hmap| |].
    + intros l' c. rewrite Hlk. case_decide as Hd.
      * intros [= <-]. subst l'. pose proof (co_obj cb H l b Hl) as [H1 H2 H3 H3' H4 H5].
        split; [exact H1|by rewrite Hid|by rewrite Hst, Hid|by rewrite Hid|by rewrite Hss|done].
      * intros Hc. destruct (co_obj cb H l' c Hc). by split.
    + apply (min_ok_dom (bs_buckets (view cb))); [|apply H]. intros i.
      rewrite !view_lookup. cbn [cb_map cb' set_objs].
      destruct (cb_map cb !! i) as [l'|] eqn:Hi; [|done]. cbn.
      destruct (co_map cb H i l' Hi) as (c & Hc & _), (Hmap i l' Hi) as (c' & Hc' & _).
      rewrite Hc. cbn in Hc'. rewrite Hc'. split; by eexists.
  - intros j x. unfold probe. rewrite !view_lookup. cbn [cb_map cb' set_objs].
    destruct (cb_map cb !! j) as [l'|]; cbn [mbind option_bind]; [|by rewrite decide_False].
    rewrite Hlk. destruct (decide (l = l')) as [<-|]; [by rewrite decide_True|].
    by rewrite decide_False by congruence.
Qed.

Lemma on_bucket_insert cb l b f :
  cb_objs cb !! l = Some b -> on_bucket l f cb = set_objs (<[l := f b]> (cb_objs cb)) cb.
Proof.
  intros Hl. unfold on_bucket. f_equal. apply map_eq. intros l'.
  rewrite lookup_alter, lookup_insert. case_decide; [|done]. subst. by rewrite Hl.
Qed.

(** A later state of the shared objects: buckets stay allocated, with their
    numbers, and the configuration is the same. *)
Record extends (cb cb' : cbuckets) : Prop := {
  ext_obj : forall l i, has_id cb l i -> has_id cb' l i;
  ext_span : cb_span cb' = cb_span cb;
  ext_side : cb_serverSide cb' = cb_serverSide cb
}.

(** In addition nothing has been removed. *)
Record grows (cb cb' : cbuckets) : Prop := {
  grow_extends : extends cb cb';
  grow_map : forall i l, cb_map cb !! i = Some l -> cb_map cb' !! i = Some l
}.

#[export] Instance extends_refl : Reflexive extends.
Proof. by split. Qed.
#[export] Instance grows_refl : Reflexive grows.
Proof. by split. Qed.

(** The sections that touch one bucket. *)
Record touches (f : bucket -> bucket) : Prop := {
  t_id : forall b, b_id (f b) = b_id b;
  t_start : forall b, b_startNano (f b) = b_startNano b;
  t_side : forall b, b_serverSide (f b) = b_serverSide b;
  t_ok : forall b, bucket_ok b -> bucket_ok (f b)
}.

Lemma on_bucket_ok cb l i f :
  cb_ok cb -> has_id cb l i -> touches f ->
  cb_ok (on_bucket l f cb) /\ grows cb (on_bucket l f cb) /\
  exists b, cb_objs cb !! l = Some b /\
    forall j x, probe (view (on_bucket l f cb)) j x =
      if decide (cb_map cb !! j = Some l) then b_requests (f b) !! x else probe (view cb) j x.
Proof.
  intros H (b & Hb & Hi) [F1 F2 F3 F4]. rewrite (on_bucket_insert cb l b f Hb).
  destruct (set_obj_ok cb l b (f b) H Hb) as [Hok Hp]; [done..|by apply F4, (co_obj cb H l)|].
  split_and!; [done| |by exists b].
  split; [|done]. split; [|done..]. intros l' j (c & Hc & Hj). unfold has_id. cbn.
  rewrite lookup_insert. case_decide; [|by exists c]. subst l'. exists (f b).
  simplify_eq. by rewrite F1.
Qed.

Lemma set_writer_ok w cb : cb_ok cb -> cb_ok (set_writer w cb).
Proof. intros H. split; [apply H|apply H| |apply H]. intros l b Hb. by destruct (co_obj cb H l b Hb). Qed.

Lemma get_or_create_ok i cb :
  cb_ok cb -> span_number (view cb) i ->
  let '(l, cb') := get_or_create i cb in
  cb_ok cb' /\ grows cb cb' /\ cb_map cb' !! i = Some l /\
  (forall j x, probe (view cb') j x = probe (view cb) j x).
Proof.
  intros H Hi. unfold get_or_create. destruct (cb_map cb !! i) as [l|] eqn:Hl; [done|].
  set (l := cb_next cb). set (b := newBucket _ _ _ _). set (cb' := mkCBuckets _ _ _ _ _ _ _ _).
  assert (Hfresh : forall l' c, cb_objs cb !! l' = Some c -> l <> l').
  { intros l' c Hc Heq. pose proof (obj_next _ _ _ (co_obj cb H _ _ Hc)). unfold l in Heq. lia. }
  assert (Hobj : forall l' c, cb_objs cb !! l' = Some c -> cb_objs cb' !! l' = Some c).
  { intros l' c Hc. cbn. rewrite lookup_insert_ne; [done|by eapply Hfresh]. }
  assert (Hext : forall l' j, has_id cb l' j -> has_id cb' l' j).
  { intros l' j (c & Hc & Hj). exists c. split; [by apply Hobj|done]. }
  assert (Hview : view cb' = (bucket_for i (view cb)).2).
  { unfold bucket_for. rewrite view_lookup, Hl. cbn [mbind option_bind snd]. unfold view. cbn. f_equal.
    apply map_eq. intros j. rewrite lookup_omap, !lookup_insert, lookup_omap.
    destruct (decide (i = j)) as [<-|]; cbn; [by rewrite lookup_insert_eq|].
    destruct (cb_map cb !! j) as [l'|] eqn:Hj; [cbn|done].
    destruct (co_map cb H j l' Hj) as (c & Hc & _). rewrite Hc. by apply Hobj. }
  pose proof (bucket_for_ok (view cb) i (view_ok cb H) Hi) as Hbf.
  destruct (bucket_for i (view cb)) as [b0 bs'] eqn:Ebf. cbn [snd] in Hview. subst bs'.
  destruct Hbf as (Hok & _ & _ & _ & _ & Hoth & Hreq).
  split_and!.
  - split; [apply H| | |apply (ok_min _ Hok)].
    + intros j l' Hj. cbn in Hj. rewrite lookup_insert in Hj. case_decide as Hd.
      * simplify_eq. exists b. cbn. by rewrite lookup_insert_eq.
      * by apply Hext, (co_map cb H).
    + intros l' c Hc. cbn in Hc. rewrite lookup_insert in Hc. case_decide as Hd.
      * simplify_eq. destruct Hi as [Hi Hi']. split; cbn; [lia|done| |done|done|apply map_Forall_empty].
        apply i64_small. pose proof (co_span cb H). cbn in Hi'. unfold in_i64. nia.
      * destruct (co_obj cb H l' c Hc). split; cbn; try done. lia.
  - split; [by split|]. intros j l' Hj. cbn. rewrite lookup_insert_ne; [done|congruence].
  - cbn. by rewrite lookup_insert_eq.
  - intros j x. unfold probe. destruct (decide (i = j)) as [<-|Hne].
    + rewrite !view_lookup, Hl. cbn. rewrite lookup_insert_eq. cbn. rewrite lookup_insert_eq. cbn.
      by rewrite lookup_empty.
    + by rewrite Hoth by done.
Qed.

(** ** Every section keeps the invariant *)

Definition op_seq (o : op) : Z :=
  match o with
  | Put _ _ s _ | Delete s _ | Received s _ _ _ | ReceivedRST s _ _
  | ReceivedAndFix s _ _ _ _ _ _ => s
  | Remove _ => 0
  end.

(** The span an operation works on. *)
Definition op_span (cb : cbuckets) (o : op) : Z := op_time o / cb_span cb.

Definition opt_id (cb : cbuckets) (l : option nat) (i : Z) : Prop :=
  match l with Some l => has_id cb l i | None => True end.

(** The locations a goroutine holds are buckets of its span or of the one
    before. *)
Definition pc_ok (cb : cbuckets) (o : op) (p : pc) : Prop :=
  match p with
  | Write l | FixMark l => has_id cb l (op_span cb o)
  | TryCur b prev => opt_id cb b (op_span cb o) /\ opt_id cb prev (op_span cb o - 1)
  | TryPrev prev => opt_id cb prev (op_span cb o - 1)
  | FixPrev l => has_id cb l (op_span cb o - 1)
  | AtStart | Create | FixLook | Done => True
  end.

Lemma pc_ok_extends cb cb' o p : extends cb cb' -> pc_ok cb o p -> pc_ok cb' o p.
Proof.
  intros [He Hs _]. unfold pc_ok, op_span, opt_id. rewrite Hs.
  destruct p as [|[b|] [prev|]|[prev|]| | | | | |]; naive_solver.
Qed.

(** The writes of an operation only concern the request of its number. *)
Lemma bucket_write_touches o : touches (bucket_write o).
Proof.
  destruct o; cbn [bucket_write];
    (split; intros b; [..|intros Hb]; unfold bucket.put, bucket.delete, bucket.received, bucket.receivedRST;
       try (by destruct (b_requests b !! _))); try done.
  - change (bucket_ok (bucket.put cp sp s t b)). rewrite put_upsert. by apply upsert_with_ok.
  - by apply map_Forall_delete.
  - change (bucket_ok (bucket.received s rt bf b)). rewrite received_upsert. by apply upsert_with_ok.
  - change (bucket_ok (bucket.receivedRST s rt b)). rewrite receivedRST_upsert. by apply upsert_with_ok.
  - change (bucket_ok (bucket.received s rt bf b)). rewrite received_upsert. by apply upsert_with_ok.
Qed.

Lemma bucket_write_other o b x :
  x <> op_seq o -> b_requests (bucket_write o b) !! x = b_requests b !! x.
Proof.
  intros Hx. destruct o; cbn [bucket_write op_seq] in *; try done.
  - rewrite put_upsert. by apply lookup_insert_ne.
  - by apply lookup_delete_ne.
  - rewrite received_upsert. by apply lookup_insert_ne.
  - rewrite receivedRST_upsert. by apply lookup_insert_ne.
  - rewrite received_upsert. by apply lookup_insert_ne.
Qed.

(** [updateReceived] and [updateReceivedRST]: the record of the probe is
    completed if it is there. *)
Definition op_mark (o : op) : request -> request :=
  match o with
  | Put cp sp s t => put_request cp sp s t
  | Received _ _ rt bf | ReceivedAndFix _ _ rt _ _ _ bf => bucket.mark_received rt bf
  | ReceivedRST _ _ rt => bucket.mark_rst rt
  | _ => id
  end.

Definition is_answer (o : op) : bool :=
  match o with Received _ _ _ _ | ReceivedRST _ _ _ => true | _ => false end.

Lemma bucket_update_with o b :
  is_answer o = true -> bucket_update o b = update_with (op_mark o) (op_seq o) b.
Proof. by destruct o. Qed.

Lemma op_mark_seq o r : r_seq (op_mark o r) = r_seq r.
Proof. by destruct o. Qed.

(** [if b != nil && b.update(...)]. *)
Lemma try_loc_spec o l i next cb did p cb' :
  is_answer o = true -> cb_ok cb -> opt_id cb l i ->
  try_loc o l next cb = Some (did, p, cb') ->
  cb_ok cb' /\ grows cb cb' /\
  ((did = false /\ p = next /\ cb' = cb /\
    forall l' b, l = Some l' -> cb_objs cb !! l' = Some b -> b_requests b !! op_seq o = None) \/
   (did = true /\ p = Done /\ exists l' b r, l = Some l' /\ cb_objs cb !! l' = Some b /\
      b_requests b !! op_seq o = Some r /\
      forall j x, probe (view cb') j x =
        if decide (cb_map cb !! j = Some l' /\ op_seq o = x) then Some (op_mark o r)
        else probe (view cb) j x)).
Proof.
  intros Ha H Hl. unfold try_loc. destruct l as [l|]; [|intros [= <- <- <-]; split_and!; [done|done|by left]].
  destruct Hl as (b & Hb & Hid). rewrite Hb. cbn [mbind option_bind].
  rewrite bucket_update_with by done. unfold update_with.
  destruct (b_requests b !! op_seq o) as [r|] eqn:Hr; intros [= <- <- <-].
  - set (b' := set_requests _ b).
    destruct (set_obj_ok cb l b b' H Hb) as [Hok Hp]; [done..| |].
    { apply map_Forall_insert_2; [rewrite op_mark_seq|];
        pose proof (obj_requests _ _ _ (co_obj cb H l b Hb)) as Hbk; [|done].
      by apply (map_Forall_lookup_1 _ _ _ _ Hbk Hr). }
    split_and!; [done| |].
    { split; [|done]. split; [|done..]. intros l' j (c & Hc & Hj). unfold has_id. cbn.
      rewrite lookup_insert. case_decide; [|by exists c]. subst l'. exists b'. by simplify_eq. }
    right. split_and!; [done..|]. exists l, b, r. split_and!; [done..|]. intros j x. rewrite Hp.
    destruct (decide (cb_map cb !! j = Some l)) as [Hj|Hj]; [|by rewrite decide_False by tauto].
    cbn. rewrite lookup_insert. destruct (decide (op_seq o = x)) as [<-|Hx]; [by rewrite decide_True|].
    rewrite decide_False by tauto. unfold probe. rewrite view_lookup, Hj. cbn. by rewrite Hb.
  - split_and!; [done|done|]. left. split_and!; [done..|]. intros l' c [= <-] Hc. by simplify_eq.
Qed.

Lemma op_number cb o :
  cb_ok cb -> op_ok o -> (forall i, o <> Remove i) ->
  go_div (op_time o) (cb_span cb) = Some (op_span cb o) /\
  span_number (view cb) (op_span cb o) /\ i64 (op_span cb o - 1) = op_span cb o - 1.
Proof.
  intros H Ho Hr. assert (ts_ok (op_time o)) as Ht by (destruct o; naive_solver).
  destruct (bucket_number (view cb) (op_time o) (view_ok cb H) Ht) as (H1 & H2 & H3).
  split_and!; [done|done|]. apply i64_small. unfold in_i64, op_span in *. cbn in H2. lia.
Qed.

Lemma touches_set_fixed : touches (set_fixed true).
Proof. by split. Qed.
Lemma touches_fix_count c sp dp : touches (fix_count c sp dp).
Proof. by split. Qed.
#[export] Hint Resolve touches_set_fixed touches_fix_count bucket_write_touches : nettools.

(** A section that changes one bucket and nothing of probe numbers other than
    those [f] changes. *)
Lemma on_bucket_other cb l i f s :
  cb_ok cb -> has_id cb l i -> touches f ->
  (forall b x, x <> s -> b_requests (f b) !! x = b_requests b !! x) ->
  cb_ok (on_bucket l f cb) /\ grows cb (on_bucket l f cb) /\
  forall j x, x <> s -> probe (view (on_bucket l f cb)) j x = probe (view cb) j x.
Proof.
  intros H Hl Hf Hx. destruct (on_bucket_ok cb l i f H Hl Hf) as (H1 & H2 & b & Hb & Hp).
  split_and!; [done..|]. intros j x Hne. rewrite Hp. case_decide as Hj; [|done].
  rewrite Hx by done. unfold probe. rewrite view_lookup, Hj. cbn. by rewrite Hb.
Qed.

Lemma grows_id cb cb' l i : grows cb cb' -> has_id cb l i -> has_id cb' l i.
Proof. intros [[H _ _] _]. apply H. Qed.

Lemma map_opt_id cb i : cb_ok cb -> opt_id cb (cb_map cb !! i) i.
Proof. intros H. destruct (cb_map cb !! i) as [l|] eqn:E; cbn; [by apply (co_map cb H)|done]. Qed.

(** The section of [bs.Lock()] in which the bucket of the operation is found
    or created. *)
Lemma get_or_create_op cb o :
  cb_ok cb -> op_ok o -> (forall i, o <> Remove i) ->
  let '(l, cb') := get_or_create (op_span cb o) cb in
  cb_ok cb' /\ grows cb cb' /\ cb_map cb' !! op_span cb o = Some l /\ has_id cb' l (op_span cb o) /\
  (forall j x, probe (view cb') j x = probe (view cb) j x).
Proof.
  intros H Ho Hr. destruct (op_number cb o H Ho Hr) as (_ & Hs & _).
  pose proof (get_or_create_ok _ cb H Hs) as Hg. destruct (get_or_create _ _) as [l cb'].
  destruct Hg as (H1 & H2 & H3 & H4). split_and!; [done..| |done]. by apply (co_map cb' H1).
Qed.

Record section_ok (o : op) (cb : cbuckets) (p' : pc) (cb' : cbuckets) : Prop := {
  sec_ok : cb_ok cb';
  sec_grows : grows cb cb';
  sec_pc : pc_ok cb' o p';
  sec_other : forall j x, x <> op_seq o -> probe (view cb') j x = probe (view cb) j x
}.

Lemma op_span_eq cb cb' o : cb_span cb' = cb_span cb -> op_span cb' o = op_span cb o.
Proof. unfold op_span. by intros ->. Qed.

Lemma grows_span cb cb' o : grows cb cb' -> op_span cb' o = op_span cb o.
Proof. intros [[_ Hs _] _]. by apply op_span_eq. Qed.

Lemma section_same o cb p' : cb_ok cb -> pc_ok cb o p' -> section_ok o cb p' cb.
Proof. by split. Qed.

Lemma section_create o cb l cb' w :
  cb_ok cb -> op_ok o -> (forall i, o <> Remove i) ->
  get_or_create (op_span cb o) cb = (l, cb') ->
  section_ok o cb (Write l) cb' /\ section_ok o cb (Write l) (set_writer w cb').
Proof.
  intros H Ho Hr E. pose proof (get_or_create_op cb o H Ho Hr) as Hg. rewrite E in Hg.
  destruct Hg as (H1 & H2 & H3 & H4 & H5). pose proof (grows_span _ _ o H2) as Hsp.
  split; (split; [by try apply set_writer_ok| | |intros; apply H5]).
  - done.
  - cbn [pc_ok]. by rewrite Hsp.
  - destruct H2 as [[E1 E2 E3] E4]. by repeat split.
  - cbn [pc_ok]. change (has_id cb' l (op_span cb' o)). by rewrite Hsp.
Qed.

Lemma section_write o cb l i f p' :
  cb_ok cb -> has_id cb l i -> touches f ->
  (forall b x, x <> op_seq o -> b_requests (f b) !! x = b_requests b !! x) ->
  pc_ok cb o p' -> section_ok o cb p' (on_bucket l f cb).
Proof.
  intros H Hl Hf Hx Hp. destruct (on_bucket_other cb l i f (op_seq o) H Hl Hf Hx) as (H1 & H2 & H3).
  split; [done..| |done]. destruct H2 as [H2 _]. by apply (pc_ok_extends cb).
Qed.

Lemma section_try o l i next cb did p' cb' :
  is_answer o = true -> cb_ok cb -> opt_id cb l i -> pc_ok cb o next ->
  try_loc o l next cb = Some (did, p', cb') -> section_ok o cb p' cb'.
Proof.
  intros Ha H Hl Hn E. destruct (try_loc_spec o l i next cb did p' cb' Ha H Hl E) as (H1 & H2 & Hc).
  destruct Hc as [(_ & -> & -> & _)|(_ & -> & l' & b & r & _ & _ & _ & Hp)]; [by split|].
  split; [done..|]. intros j x Hx. rewrite Hp. by rewrite decide_False by naive_solver.
Qed.

Lemma unlocked_Some {A} cb (k : option A) r :
  unlocked cb k = Some r -> cb_writer cb = None /\ k = Some r.
Proof. unfold unlocked. by destruct (cb_writer cb). Qed.

(** Every section of every method keeps the invariant, removes nothing, and
    changes the records of its own sequence number only. *)
Lemma op_step_ok k o p cb did p' cb' :
  cb_ok cb -> op_ok o -> (forall i, o <> Remove i) -> pc_ok cb o p ->
  op_step k o p cb = Some (did, p', cb') -> section_ok o cb p' cb'.
Proof.
  intros H Ho Hr Hp. destruct (op_number cb o H Ho Hr) as (Hdiv & Hs & Hi). unfold op_step.
  rewrite Hdiv. cbn [mbind option_bind]. rewrite Hi.
  assert (Hw : forall l p, has_id cb l (op_span cb o) -> pc_ok cb o p ->
    section_ok o cb p (on_bucket l (bucket_write o) cb)).
  { intros l p1 Hl Hp1. apply (section_write o cb l (op_span cb o)); auto using bucket_write_other with nettools. }
  assert (Hc : unlocked cb (let '(l, cb) := get_or_create (op_span cb o) cb in Some (false, Write l, cb))
                 = Some (did, p', cb') -> section_ok o cb p' cb').
  { intros E. apply unlocked_Some in E as [_ E].
    destruct (get_or_create (op_span cb o) cb) as [l cb1] eqn:Eg. injection E as <- <- <-.
    apply (section_create o cb l cb1 None H Ho Hr Eg). }
  destruct o; try done; (destruct p; try done); cbn [pc_ok] in Hp; intros E;
    try (by apply Hc); try (injection E as <- <- <-; by apply Hw).
  - apply unlocked_Some in E as [_ E].
    destruct (cb_map cb !! _) as [l|] eqn:El; injection E as <- <- <-; apply section_same; try done.
    by apply (co_map cb H).
  - apply unlocked_Some in E as [_ E]. injection E as <- <- <-. apply section_same; [done|].
    split; by apply map_opt_id.
  - destruct Hp as [Hb Hp]. eapply section_try; [| | | |exact E]; done.
  - eapply section_try; [| | | |exact E]; done.
  - apply unlocked_Some in E as [_ E]. injection E as <- <- <-. apply section_same; [done|].
    split; by apply map_opt_id.
  - destruct Hp as [Hb Hp]. eapply section_try; [| | | |exact E]; done.
  - eapply section_try; [| | | |exact E]; done.
  - apply unlocked_Some in E as [_ E].
    destruct (get_or_create _ cb) as [l cb1] eqn:Eg. injection E as <- <- <-.
    by apply (section_create _ cb l cb1 (Some k) H Ho Hr).
  - destruct Hp as (b & Hb & Hid). rewrite Hb in E. cbn [mbind option_bind] in E. injection E as <- <- <-.
    destruct (section_write (ReceivedAndFix s t rt count sp dp bf) cb l (b_id b) (set_fixed true)
      (if negb (b_fixed b) && (0 <? count) then FixLook else Done)) as [S1 S2 S3 S4];
      [done|by exists b|by eauto with nettools|done|by destruct (_ && _)|].
    split; [by apply set_writer_ok|destruct S2 as [[E1 E2 E3] E4]; by repeat split|by destruct (_ && _)|apply S4].
  - apply unlocked_Some in E as [_ E]. injection E as <- <- <-. apply section_same; [done|].
    destruct (cb_map cb !! _) as [l|] eqn:El; [|done]. by apply (co_map cb H).
  - injection E as <- <- <-. by eapply section_write; auto with nettools.
Qed.

Lemma elem_of_keys {A} (m : gmap Z A) j : j ∈ (map_to_list m).*1 <-> is_Some (m !! j).
Proof.
  rewrite list_elem_of_fmap. split.
  - intros ([k a] & -> & Ha%elem_of_map_to_list). by exists a.
  - intros [a Ha]. exists (j, a). split; [done|]. by apply elem_of_map_to_list.
Qed.

(** [remove], in whatever order the map is iterated. *)
Lemma remove_loc_ok i cb :
  cb_ok cb ->
  cb_ok (remove_loc i cb) /\ extends cb (remove_loc i cb) /\
  (forall j, cb_map (remove_loc i cb) !! j = if decide (i = j) then None else cb_map cb !! j) /\
  (forall j x, probe (view (remove_loc i cb)) j x = if decide (i = j) then None else probe (view cb) j x).
Proof.
  intros H. assert (Hmap : forall j, cb_map (remove_loc i cb) !! j = if decide (i = j) then None else cb_map cb !! j)
    by (intros j; cbn; by rewrite lookup_delete).
  set (ids := (map_to_list (delete i (cb_map cb))).*1).
  assert (Hids : ids ≡ₚ (map_to_list (delete i (bs_buckets (view cb)))).*1).
  { apply NoDup_Permutation; [apply NoDup_fst_map_to_list..|]. intros j. unfold ids.
    rewrite !elem_of_keys, !lookup_delete. case_decide; [done|]. symmetry. by apply view_is_Some. }
  assert (Hview : view (remove_loc i cb) = buckets.remove_over ids i (view cb)).
  { unfold view, buckets.remove_over. cbn. f_equal. apply map_eq. intros j.
    rewrite lookup_omap, !lookup_delete, lookup_omap. by case_decide. }
  split_and!; [|by split|done|].
  - split; [apply H| |intros l b Hb; by destruct (co_obj cb H l b Hb)|].
    + intros j l. rewrite Hmap. case_decide; [done|]. apply (co_map cb H).
    + pose proof (remove_ok (view cb) i ids (view_ok cb H) Hids) as Hok. rewrite <- Hview in Hok.
      apply (ok_min _ Hok).
  - intros j x. rewrite Hview. apply probe_remove.
Qed.

(** ** Invariant of the configurations *)

Definition fix_section (o : op) (p : pc) : bool :=
  match o, p with ReceivedAndFix _ _ _ _ _ _ _, (Write _ | FixMark _) => true | _, _ => false end.

(** Where each method can stand. *)
Definition stands (o : op) (p : pc) : bool :=
  match o, p with
  | _, (AtStart | Done) => true
  | (Put _ _ _ _ | Delete _ _), Write _ => true
  | (Received _ _ _ _ | ReceivedRST _ _ _), (TryCur _ _ | TryPrev _ | Create | Write _) => true
  | ReceivedAndFix _ _ _ _ _ _ _, (Write _ | FixMark _ | FixLook | FixPrev _) => true
  | _, _ => false
  end.

Record thread_ok (cb : cbuckets) (o : op) (p : pc) : Prop := {
  th_op : op_ok o;
  th_stands : stands o p = true;
  th_remove : forall i, o <> Remove i;
  th_pc : pc_ok cb o p
}.

(** The processor has chosen a bucket and not yet reported it. *)
Definition reporting (p : proc) : bool :=
  match p with PStat _ | PMeta _ _ | PPairs _ _ _ => true | _ => false end.

Definition proc_ok (c : config) : Prop :=
  match c_proc c with
  | PIdle | PAgain => True
  | PDrop i => is_Some (cb_map (c_cb c) !! i) /\ i <= c_lastID c
  | PRemove i => is_Some (cb_map (c_cb c) !! i) /\ i = c_lastID c
  | PStat l | PMeta l _ => cb_map (c_cb c) !! c_lastID c = Some l
  | PPairs l _ meta =>
      cb_map (c_cb c) !! c_lastID c = Some l /\ b_id meta = c_lastID c /\
      b_startNano meta = c_lastID c * cb_span (c_cb c)
  end.

Record cfg_ok (u0 : udpStat) (c : config) : Prop := {
  ck_cb : cb_ok (c_cb c);
  ck_span : cb_span (c_cb c) = u_span u0;
  ck_side : cb_serverSide (c_cb c) = u_serverSide u0;
  ck_last : 0 <= c_lastID c;
  ck_threads : forall k o p, c_threads c !! k = Some (o, p) -> thread_ok (c_cb c) o p;
  ck_writer : forall k, cb_writer (c_cb c) = Some k <->
                exists o p, c_threads c !! k = Some (o, p) /\ fix_section o p = true;
  ck_proc : proc_ok c;
  ck_sorted : StronglySorted Z.lt (map Timestamp (c_out c));
  ck_bound : Forall (fun t => t <= (if reporting (c_proc c) then c_lastID c - 1 else c_lastID c) * u_span u0)
               (map Timestamp (c_out c))
}.

Definition label_ok (lb : label) : Prop :=
  match lb with Call _ o => op_ok o /\ forall i, o <> Remove i | _ => True end.

Lemma thread_ok_extends cb cb' o p : extends cb cb' -> thread_ok cb o p -> thread_ok cb' o p.
Proof. intros He [H1 H2 H3 H4]. split; [done..|]. by apply (pc_ok_extends cb). Qed.

Lemma proc_ok_grows c cb' ts log :
  grows (c_cb c) cb' -> proc_ok c -> proc_ok (mkConfig cb' (c_lastID c) (c_proc c) ts (c_out c) log).
Proof.
  intros [[_ Hs _] Hm]. unfold proc_ok. cbn. rewrite Hs. destruct (c_proc c); try done.
  - intros [[l Hl] ?]. split; [exists l; by apply Hm|done].
  - apply Hm.
  - apply Hm.
  - intros (H1 & H2). split; [by apply Hm|done].
  - intros [[l Hl] ?]. split; [exists l; by apply Hm|done].
Qed.

Lemma new_config_ok u0 rate :
  0 < u_span u0 -> 0 <= u_lastID u0 -> cfg_ok u0 (new_config u0 rate (u_span u0)).
Proof.
  intros Hs Hl. split; cbn; try done.
  - intros k. cbn. split; [done|]. intros (o & p & E & _). by rewrite lookup_empty in E.
  - constructor.
Qed.

Lemma oldest_loc_span cb l : oldest_loc cb = Some l -> cb_map cb !! cb_minID cb = Some l.
Proof. unfold oldest_loc. by case_bool_decide. Qed.

(** The local part of [statOnce] after [oldest]. *)
Lemma pick_ok u0 c c' :
  cfg_ok u0 c -> reporting (c_proc c) = false ->
  pick (oldest_loc (c_cb c)) c = Some c' -> cfg_ok u0 c'.
Proof.
  intros H Hr E. destruct (oldest_loc (c_cb c)) as [l'|] eqn:El; cbn [pick] in E.
  - apply oldest_loc_span in El.
    destruct (co_map _ (ck_cb _ _ H) _ _ El) as (b & Hb & Hid). rewrite Hb in E. cbn [mbind option_bind] in E.
    destruct (Z.leb_spec (b_id b) (c_lastID c)) as [Hle|Hgt]; injection E as <-.
    + destruct H as [H1 H2 H3 H4 H5 H6 H7 H8 H9]. rewrite Hr in H9.
      split; try done. cbn. rewrite Hid. split; [by exists l'|lia].
    + destruct H as [H1 H2 H3 H4 H5 H6 H7 H8 H9]. rewrite Hr in H9. split; try done; cbn.
      * lia.
      * by rewrite Hid.
      * eapply Forall_impl; [exact H9|]. cbn. pose proof (co_span _ H1). rewrite H2 in H. intros; nia.
  - injection E as <-. destruct H as [H1 H2 H3 H4 H5 H6 H7 H8 H9]. rewrite Hr in H9. by split.
Qed.

Lemma send_report_ok u0 b sr lost log c :
  cfg_ok u0 c -> reporting (c_proc c) = true ->
  is_Some (cb_map (c_cb c) !! c_lastID c) -> b_id b = c_lastID c ->
  b_startNano b = c_lastID c * cb_span (c_cb c) ->
  cfg_ok u0 (send_report u0 b sr lost log c).
Proof.
  intros H Hr Hm Hid Hst. destruct H as [H1 H2 H3 H4 H5 H6 H7 H8 H9]. rewrite Hr in H9.
  pose proof (co_span _ H1) as Hpos. rewrite H2 in Hpos, Hst.
  split; try done; cbn; rewrite ?map_app.
  - by rewrite Hid.
  - destruct (_ && _); cbn; [|by rewrite app_nil_r]. apply StronglySorted_app_2; [|done|by repeat constructor].
    intros t t' Ht ->%list_elem_of_singleton. rewrite Forall_forall in H9. apply H9 in Ht. rewrite Hst. nia.
  - apply Forall_app. split.
    + eapply Forall_impl; [exact H9|]. cbn. intros; nia.
    + destruct (_ && _); cbn; [|done]. constructor; [|done]. by rewrite Hst.
Qed.

Lemma drop_ok u0 i p c c' :
  cfg_ok u0 c -> c_proc c = PDrop i /\ p = PAgain \/ c_proc c = PRemove i /\ p = PIdle ->
  drop i p c = Some c' -> cfg_ok u0 c'.
Proof.
  intros H Hp E. apply unlocked_Some in E as [_ E]. injection E as <-.
  assert (reporting (c_proc c) = false /\ reporting p = false) as [Hr Hr'] by (by destruct Hp as [[-> ->]|[-> ->]]).
  destruct H as [H1 H2 H3 H4 H5 H6 H7 H8 H9]. destruct (remove_loc_ok i (c_cb c) H1) as (R1 & R2 & R3 & R4).
  rewrite Hr in H9. split; try done; cbn.
  - intros k o q Hk. apply (thread_ok_extends (c_cb c)); [done|by apply (H5 k)].
  - unfold proc_ok. cbn. by destruct Hp as [[_ ->]|[_ ->]].
  - by rewrite Hr'.
Qed.

Lemma get_or_create_writer i cb : cb_writer (get_or_create i cb).2 = cb_writer cb.
Proof. unfold get_or_create. by destruct (cb_map cb !! i). Qed.

Lemma try_loc_writer o l next cb did p cb' :
  try_loc o l next cb = Some (did, p, cb') ->
  cb_writer cb' = cb_writer cb /\ (p = next \/ p = Done).
Proof.
  unfold try_loc. destruct l as [l|]; [|intros [= <- <- <-]; by split; [|left]].
  destruct (cb_objs cb !! l); cbn [mbind option_bind]; [|done].
  destruct (bucket_update o b) as [b' []]; intros [= <- <- <-]; split; auto.
Qed.

(** Only [receivedAndFix] keeps the lock of the collection, from its first
    section to its third, and it takes it when it is free. *)
Lemma op_step_writer k o p cb did p' cb' :
  op_step k o p cb = Some (did, p', cb') ->
  (fix_section o p = false /\ fix_section o p' = true /\ cb_writer cb = None /\ cb_writer cb' = Some k) \/
  (fix_section o p = true /\ fix_section o p' = false /\ cb_writer cb' = None) \/
  (fix_section o p = fix_section o p' /\ cb_writer cb' = cb_writer cb).
Proof.
  unfold op_step. destruct (go_div _ _) as [i|]; cbn [mbind option_bind]; [|done].
  destruct o; try done; (destruct p; try done); intros E;
    try (injection E as <- <- <-; tauto);
    try (destruct (try_loc_writer _ _ _ _ _ _ _ E) as [-> [->| ->]]; by auto).
  all: try (apply unlocked_Some in E as [Hu E]).
  all: try (pose proof (get_or_create_writer i cb) as Hg; destruct (get_or_create i cb) as [l' cb1]; cbn [snd] in Hg).
  all: try (destruct (cb_objs cb !! l); cbn [mbind option_bind] in E; [|done]).
  all: try match type of E with context [cb_map ?c !! ?j] => destruct (cb_map c !! j) end.
  all: injection E as <- <- <-; cbn; rewrite ?Hg; auto.
  right; left. by destruct (_ && _).
Qed.

(** How far a method is from its end; [AtStart] is at most six sections away. *)
Definition rank (p : pc) : nat :=
  match p with
  | Done => 0 | FixPrev _ => 1 | FixLook => 2 | FixMark _ => 3 | Write _ => 4
  | Create => 5 | TryPrev _ => 6 | TryCur _ _ => 7 | AtStart => 8
  end.

Lemma op_step_next k o p cb did p' cb' :
  op_step k o p cb = Some (did, p', cb') -> stands o p' = true /\ (rank p' < rank p)%nat.
Proof.
  unfold op_step. destruct (go_div _ _) as [i|]; cbn [mbind option_bind]; [|done].
  destruct o; try done; (destruct p; try done); intros E; try (apply unlocked_Some in E as [_ E]).
  all: try (apply try_loc_writer in E as [_ [->| ->]]; cbn; split; [done|lia|done|lia]).
  all: try (destruct (get_or_create i cb)); try (destruct (cb_objs cb !! l); cbn [mbind option_bind] in E; [|done]).
  all: repeat case_match; simplify_eq; cbn; try (split; [done|lia]).
Qed.

Lemma op_step_stands k o p cb did p' cb' :
  op_step k o p cb = Some (did, p', cb') -> stands o p' = true.
Proof. intros E. by destruct (op_step_next _ _ _ _ _ _ _ E). Qed.

(** A goroutine is only ever held up by the lock of the collection. *)
Lemma op_step_enabled k o p cb :
  cb_ok cb -> thread_ok cb o p -> p <> Done -> cb_writer cb = None \/ fix_section o p = true ->
  is_Some (op_step k o p cb).
Proof.
  intros H [Ho Hst Hr Hp] Hd Hw. destruct (op_number cb o H Ho Hr) as (Hdiv & _ & _).
  unfold op_step. rewrite Hdiv. cbn [mbind option_bind].
  assert (Ht : forall l i next, opt_id cb l i -> is_Some (try_loc o l next cb)).
  { intros l i next Hl. unfold try_loc. destruct l as [l|]; [|by eexists]. destruct Hl as (b & -> & _).
    cbn [mbind option_bind]. destruct (bucket_update o b). by eexists. }
  assert (Hu : forall (A : Type) (a : A), fix_section o p = false -> is_Some (unlocked cb (Some a))).
  { intros A a Hf. destruct Hw as [Hw|Hw]; [|congruence]. unfold unlocked. rewrite Hw. by eexists. }
  destruct o; try done; (destruct p; try done); cbn [pc_ok] in Hp;
    try (destruct (get_or_create _ cb)); try (by apply Hu); try (by eexists).
  all: try (by eapply Ht). all: try (by eapply Ht; apply Hp).
  - destruct Hp as (b & Hb & _). rewrite Hb. by eexists.
  - by destruct (Hr i).
Qed.

Lemma run_ok u0 k o p did p' cb' c :
  cfg_ok u0 c -> c_threads c !! k = Some (o, p) -> op_step k o p (c_cb c) = Some (did, p', cb') ->
  cfg_ok u0 (mkConfig cb' (c_lastID c) (c_proc c) (<[k := (o, p')]> (c_threads c)) (c_out c)
              (c_log c ++ if did then [Did k o] else [])).
Proof.
  intros H Hk E. assert (Hth := ck_threads _ _ H k o p Hk). destruct Hth as [T1 Ts T2 T3].
  destruct (op_step_ok k o p (c_cb c) did p' cb' (ck_cb _ _ H) T1 T2 T3 E) as [S1 S2 S3 S4].
  pose proof (op_step_writer _ _ _ _ _ _ _ E) as Hw.
  destruct H as [H1 H2 H3 H4 H5 H6 H7 H8 H9]. destruct (grow_extends _ _ S2) as [E1 E2 E3].
  split; try done; cbn.
  - by rewrite E2.
  - by rewrite E3.
  - intros k' o1 p1. rewrite lookup_insert. case_decide as Hd.
    + intros [= <- <-]. split; [done| |done..]. apply (op_step_stands _ _ _ _ _ _ _ E).
    + intros Hk'. apply (thread_ok_extends (c_cb c)); [done|by apply (H5 k')].
  - intros k'. setoid_rewrite lookup_insert. destruct (decide (k = k')) as [<-|Hne].
    + transitivity (fix_section o p' = true); [|split; [by exists o, p'|intros (? & ? & [= <- <-] & ?); done]].
      assert (Hk' := H6 k). assert (fix_section o p = true -> cb_writer (c_cb c) = Some k) as Hold
        by (intros Hf; apply H6; by exists o, p).
      assert (cb_writer (c_cb c) = Some k -> fix_section o p = true) as Hold'.
      { intros (o1 & p1 & Hk1 & Hf)%H6. by simplify_eq. }
      destruct Hw as [(W1 & W2 & W3 & W4)|[(W1 & W2 & W3)|(W1 & W2)]].
      * by rewrite W2, W4.
      * by rewrite W2, W3.
      * rewrite <- W1, W2. split; auto.
    + rewrite <- H6. destruct Hw as [(W1 & W2 & W3 & W4)|[(W1 & W2 & W3)|(W1 & W2)]].
      * rewrite W3, W4. split; [intros [= Hkk]; done|done].
      * rewrite W3. split; [done|]. assert (cb_writer (c_cb c) = Some k) as -> by (apply H6; by exists o, p).
        intros [= Hkk]. done.
      * by rewrite W2.
  - by apply proc_ok_grows.
Qed.

Lemma cstep_ok u0 lb c c' :
  cfg_ok u0 c -> label_ok lb -> cstep u0 lb c = Some c' -> cfg_ok u0 c'.
Proof.
  intros H Hlb E. destruct lb as [k o|k|now|]; cbn [cstep] in E.
  - destruct (c_threads c !! k) as [op|] eqn:Hk; [done|]. injection E as <-.
    destruct H as [H1 H2 H3 H4 H5 H6 H7 H8 H9]. split; try done; cbn.
    + intros k' o' p'. rewrite lookup_insert. case_decide; [|apply H5].
      intros [= <- <-]. destruct Hlb. split; try done. by destruct o.
    + intros k'. rewrite H6. setoid_rewrite lookup_insert. destruct (decide (k = k')) as [<-|]; [|done].
      rewrite Hk. split; [by intros (? & ? & ? & ?)|]. intros (o' & p' & [= <- <-] & Hf). by destruct o.
  - destruct (c_threads c !! k) as [[o p]|] eqn:Hk; cbn [mbind option_bind] in E; [|done].
    destruct (op_step k o p (c_cb c)) as [[[did p'] cb']|] eqn:Es; cbn [mbind option_bind] in E; [|done].
    injection E as <-. by apply (run_ok u0 k o p did p' cb').
  - unfold tick_step in E. destruct (c_proc c) eqn:Hp; try done. apply unlocked_Some in E as [_ E].
    destruct (udpStat.too_new _ _ _) as [[]|]; cbn [mbind option_bind] in E; [|..|done].
    + by injection E as <-.
    + apply (pick_ok u0 c); [done|by rewrite Hp|done].
  - assert (Hpr := ck_proc _ _ H). unfold proc_ok in Hpr. unfold proc_step in E.
    assert (Hb : forall l, cb_map (c_cb c) !! c_lastID c = Some l ->
      exists b, cb_objs (c_cb c) !! l = Some b /\ b_id b = c_lastID c /\
                b_startNano b = c_lastID c * cb_span (c_cb c)).
    { intros l Hl. destruct (co_map _ (ck_cb _ _ H) _ _ Hl) as (b & Hb & Hid). exists b. split_and!; [done..|].
      rewrite <- Hid. apply (co_obj _ (ck_cb _ _ H) l b Hb). }
    destruct (c_proc c) as [|i| |l|l sr|l sr meta|i] eqn:Hp; try done.
    + apply (drop_ok u0 i PAgain c c' H); auto.
    + apply unlocked_Some in E as [_ E]. apply (pick_ok u0 c); [done|by rewrite Hp|done].
    + destruct (Hb l Hpr) as (b & Hl & Hid & Hst). rewrite Hl in E. cbn [mbind option_bind] in E.
      destruct (u_serverSide u0).
      * injection E as <-. destruct H as [H1 H2 H3 H4 H5 H6 H7 H8 H9]. rewrite Hp in H9. by split.
      * injection E as <-. apply send_report_ok; [done|by rewrite Hp|by eexists|done|done].
    + destruct (Hb l Hpr) as (b & Hl & Hid & Hst). rewrite Hl in E. cbn [mbind option_bind] in E.
      destruct (no_loss_data b); injection E as <-.
      * apply send_report_ok; [done|by rewrite Hp|by eexists|done|done].
      * destruct H as [H1 H2 H3 H4 H5 H6 H7 H8 H9]. rewrite Hp in H9. split; try done.
    + destruct Hpr as (Hl & Hid & Hst). destruct (Hb l Hl) as (b & Hlb' & _). rewrite Hlb' in E.
      cbn [mbind option_bind] in E. injection E as <-.
      apply send_report_ok; [done|by rewrite Hp|by eexists|done|done].
    + apply (drop_ok u0 i PIdle c c' H); auto.
Qed.

Lemma csteps_ok u0 ls c c' :
  cfg_ok u0 c -> Forall label_ok ls -> csteps u0 ls c = Some c' -> cfg_ok u0 c'.
Proof.
  intros H Hls. revert c H. induction Hls as [|lb ls Hlb _ IH]; intros c H E; cbn [csteps] in E.
  - by injection E as <-.
  - destruct (cstep u0 lb c) as [c1|] eqn:E1; cbn [mbind option_bind] in E; [|done].
    apply (IH c1); [by eapply cstep_ok|done].
Qed.

(** ** Completion *)

Definition all_done (ts : gmap nat (op * pc)) : Prop := map_Forall (fun _ op => op.2 = Done) ts.

(** The labels of a run in which nobody calls anything. *)
Definition quiet_label (lb : label) : Prop := match lb with Run _ | Proc => True | _ => False end.

Lemma quiet_label_ok lb : quiet_label lb -> label_ok lb.
Proof. by destruct lb. Qed.

Lemma csteps_app u0 ls ls' c :
  csteps u0 (ls ++ ls') c = c ← csteps u0 ls c; csteps u0 ls' c.
Proof.
  revert c. induction ls as [|lb ls IH]; intros c; cbn [csteps app]; [done|].
  destruct (cstep u0 lb c); cbn [mbind option_bind]; [apply IH|done].
Qed.

(** A goroutine that does not have to wait runs to the end of its method. *)
Lemma finish_thread u0 k n : forall c o p,
  cfg_ok u0 c -> c_threads c !! k = Some (o, p) -> (rank p <= n)%nat ->
  cb_writer (c_cb c) = None \/ fix_section o p = true ->
  exists ls c', Forall quiet_label ls /\ csteps u0 ls c = Some c' /\ cfg_ok u0 c' /\
    c_threads c' = <[k := (o, Done)]> (c_threads c) /\ cb_writer (c_cb c') = None.
Proof.
  induction n as [|n IH]; intros c o p H Hk Hn Hw.
  - assert (p = Done) as -> by (destruct p; cbn in Hn; first [done|lia]).
    exists [], c. split_and!; [done..| |]; [by rewrite insert_id|].
    destruct Hw as [|Hf]; [done|]. by destruct o.
  - destruct (decide (rank p = 0)%nat) as [Hz|Hz]; [apply (IH c o p); [done..|lia|done]|].
    pose proof (ck_threads _ _ H k o p Hk) as Hth.
    destruct (op_step_enabled k o p (c_cb c) (ck_cb _ _ H) Hth) as [[[did p'] cb'] E];
      [by intros ->|done|].
    pose proof (run_ok u0 k o p did p' cb' c H Hk E) as H1. set (c1 := mkConfig _ _ _ _ _ _) in H1.
    destruct (op_step_next _ _ _ _ _ _ _ E) as [_ Hlt].
    assert (Hw' : cb_writer (c_cb c1) = None \/ fix_section o p' = true).
    { cbn. destruct (op_step_writer _ _ _ _ _ _ _ E) as [(_ & ? & _)|[(_ & _ & ?)|(Hf & ->)]]; auto.
      by rewrite <- Hf. }
    destruct (IH c1 o p' H1) as (ls & c' & L1 & L2 & L3 & L4 & L5); [cbn; by rewrite lookup_insert_eq|lia|done|].
    exists (Run k :: ls), c'. split_and!; [by constructor| |done| |done].
    + cbn [csteps cstep]. rewrite Hk. cbn [mbind option_bind]. rewrite E. exact L2.
    + rewrite L4. cbn. by rewrite insert_insert_eq.
Qed.

Lemma finish_threads u0 (ks : list nat) : forall c,
  cfg_ok u0 c -> cb_writer (c_cb c) = None ->
  (forall k op, c_threads c !! k = Some op -> k ∈ ks \/ op.2 = Done) ->
  exists ls c', Forall quiet_label ls /\ csteps u0 ls c = Some c' /\ cfg_ok u0 c' /\
    all_done (c_threads c') /\ cb_writer (c_cb c') = None.
Proof.
  induction ks as [|k ks IH]; intros c H Hw Hks.
  - exists [], c. split_and!; [done..| |done]. intros k op Hk. destruct (Hks k op Hk); [set_solver|done].
  - destruct (c_threads c !! k) as [[o p]|] eqn:Hk.
    + destruct (finish_thread u0 k (rank p) c o p H Hk ltac:(lia)) as (ls & c1 & L1 & L2 & L3 & L4 & L5); [by left|].
      destruct (IH c1 L3 L5) as (ls' & c' & M1 & M2 & M3).
      { intros k' op. rewrite L4, lookup_insert. case_decide; [intros [= <-]; by right|].
        intros Hk'. destruct (Hks k' op Hk'); [left; set_solver|by right]. }
      exists (ls ++ ls'), c'. split_and!; [by apply Forall_app| |apply M3..].
      by rewrite csteps_app, L2.
    + apply IH; [done..|]. intros k' op Hk'. destruct (Hks k' op Hk'); [|by right].
      left. assert (k' <> k) by congruence. set_solver.
Qed.

(** The sections the processor still has before it, in a measure that every
    one of them decreases. *)
Definition proc_rank (c : config) : nat :=
  10 * size (cb_map (c_cb c)) +
  match c_proc c with
  | PIdle => 0 | PRemove _ => 1 | PPairs _ _ _ => 2 | PMeta _ _ => 3 | PStat _ => 4
  | PDrop _ => 5 | PAgain => 6
  end.

Lemma size_remove i cb :
  is_Some (cb_map cb !! i) -> S (size (cb_map (remove_loc i cb))) = size (cb_map cb).
Proof.
  intros [l Hl]. cbn. rewrite map_size_delete, Hl.
  assert (size (cb_map cb) <> 0%nat); [|cbn; lia].
  apply (map_size_ne_0_lookup_2 _ i). by exists l.
Qed.

Lemma proc_step_enabled u0 c :
  cfg_ok u0 c -> cb_writer (c_cb c) = None -> c_proc c <> PIdle ->
  exists c', proc_step u0 c = Some c' /\ c_threads c' = c_threads c /\
    cb_writer (c_cb c') = None /\ (proc_rank c' < proc_rank c)%nat.
Proof.
  intros H Hw Hp. assert (Hpr := ck_proc _ _ H). unfold proc_ok in Hpr. unfold proc_step, drop, unlocked.
  assert (Hb : forall l, cb_map (c_cb c) !! c_lastID c = Some l -> exists b, cb_objs (c_cb c) !! l = Some b).
  { intros l Hl. destruct (co_map _ (ck_cb _ _ H) _ _ Hl) as (b & Hb & _). by exists b. }
  unfold proc_rank. rewrite Hw. destruct (c_proc c) as [|i| |l|l sr|l sr meta|i]; [done|..].
  - eexists. split_and!; [done..|]. cbn. destruct Hpr as [Hs _]. apply size_remove in Hs. cbn in Hs. lia.
  - destruct (oldest_loc (c_cb c)) as [l|] eqn:El; cbn [pick].
    + apply oldest_loc_span in El. destruct (co_map _ (ck_cb _ _ H) _ _ El) as (b & Hl & _).
      rewrite Hl. cbn [mbind option_bind]. eexists. split; [done|]. case_match; cbn; split_and!; first [done|lia].
    + eexists. split; [done|]. cbn. split_and!; first [done|lia].
  - destruct (Hb l Hpr) as [b Hl]. rewrite Hl. cbn [mbind option_bind]. eexists. split; [done|].
    case_match; cbn; split_and!; first [done|lia].
  - destruct (Hb l Hpr) as [b Hl]. rewrite Hl. cbn [mbind option_bind]. eexists. split; [done|].
    case_match; cbn; split_and!; first [done|lia].
  - destruct (Hb l) as [b Hl]; [apply Hpr|]. rewrite Hl. cbn [mbind option_bind]. eexists. split; [done|].
    cbn; split_and!; first [done|lia].
  - eexists. split_and!; [done..|]. cbn. destruct Hpr as [Hs _]. apply size_remove in Hs. cbn in Hs. lia.
Qed.

Lemma finish_proc u0 n : forall c,
  cfg_ok u0 c -> cb_writer (c_cb c) = None -> (proc_rank c <= n)%nat ->
  exists ls c', Forall quiet_label ls /\ csteps u0 ls c = Some c' /\
    c_threads c' = c_threads c /\ c_proc c' = PIdle.
Proof.
  induction n as [|n IH]; intros c H Hw Hn;
    (assert (c_proc c = PIdle \/ c_proc c <> PIdle) as [Hp|Hp] by (destruct (c_proc c); auto);
     [by exists [], c|]);
    destruct (proc_step_enabled u0 c H Hw Hp) as (c1 & E & Ht & Hw1 & Hlt); [lia|].
  assert (H1 : cfg_ok u0 c1) by (by apply (cstep_ok u0 Proc c)).
  destruct (IH c1 H1 Hw1 ltac:(lia)) as (ls & c' & L1 & L2 & L3 & L4).
  exists (Proc :: ls), c'. split_and!; [by constructor| |congruence|done].
  cbn [csteps cstep]. by rewrite E.
Qed.

Lemma complete u0 c :
  cfg_ok u0 c ->
  exists ls c', Forall quiet_label ls /\ csteps u0 ls c = Some c' /\
    all_done (c_threads c') /\ c_proc c' = PIdle.
Proof.
  intros H.
  assert (exists ls c1, Forall quiet_label ls /\ csteps u0 ls c = Some c1 /\ cfg_ok u0 c1 /\
            cb_writer (c_cb c1) = None) as (ls1 & c1 & L1 & E1 & H1 & W1).
  { destruct (cb_writer (c_cb c)) as [k|] eqn:Hw; [|by exists [], c].
    destruct (proj1 (ck_writer _ _ H k) Hw) as (o & p & Hk & Hf).
    destruct (finish_thread u0 k (rank p) c o p H Hk ltac:(lia)) as (ls & c1 & ? & ? & ? & _ & ?); [by right|].
    by exists ls, c1. }
  destruct (finish_threads u0 (map_to_list (c_threads c1)).*1 c1 H1 W1) as (ls2 & c2 & L2 & E2 & H2 & D2 & W2).
  { intros k op Hk. left. apply list_elem_of_fmap. exists (k, op). split; [done|]. by apply elem_of_map_to_list. }
  destruct (finish_proc u0 (proc_rank c2) c2 H2 W2 ltac:(lia)) as (ls3 & c3 & L3 & E3 & T3 & P3).
  exists (ls1 ++ ls2 ++ ls3), c3. split_and!; [by rewrite !Forall_app| |by rewrite T3|done].
  rewrite csteps_app, E1. cbn [mbind option_bind]. by rewrite csteps_app, E2.
Qed.

(** ** Properties *)

(** C5: in every interleaving, disciplined or not, of any calls and ticks, the
    reports handed to the [Sender] carry strictly increasing span start times
    and the collection keeps its invariant. *)
Theorem concurrent_reports_increasing :
  forall u0 rate ls c,
    0 < u_span u0 -> 0 <= u_lastID u0 -> Forall label_ok ls ->
    csteps u0 ls (new_config u0 rate (u_span u0)) = Some c ->
    StronglySorted Z.lt (map Timestamp (c_out c)) /\ buckets_ok (view (c_cb c)).
Proof.
  intros u0 rate ls c Hsp Hl Hls E.
  pose proof (csteps_ok u0 ls _ _ (new_config_ok u0 rate Hsp Hl) Hls E) as H.
  split; [apply H|apply view_ok, H].
Qed.

(** C6: no deadlock: whatever calls and ticks have been started, in whatever
    interleaving, all of them can be completed by letting the goroutines and the
    processor run on. *)
Theorem concurrent_completes :
  forall u0 rate ls c,
    0 < u_span u0 -> 0 <= u_lastID u0 -> Forall label_ok ls ->
    csteps u0 ls (new_config u0 rate (u_span u0)) = Some c ->
    exists ls' c', Forall quiet_label ls' /\ csteps u0 ls' c = Some c' /\
      all_done (c_threads c') /\ c_proc c' = PIdle.
Proof.
  intros u0 rate ls c Hsp Hl Hls E. apply complete.
  exact (csteps_ok u0 ls _ _ (new_config_ok u0 rate Hsp Hl) Hls E).
Qed.

(** Two probes put at once, a reply that crosses into the next span while a
    probe is put there, and a tick. *)
Definition sample_schedule : list label :=
  [Call 1 (Put 43500 43500 7 1500); Call 2 (Put 43501 43500 8 1600); Run 1; Run 2; Run 2; Run 1;
   Call 3 (Received 7 2100 600 false); Call 4 (Put 43500 43501 9 2050); Run 3; Run 4; Run 3; Run 4; Run 3;
   Tick 6000; Proc; Proc].

Definition sample_run : config :=
  default (new_config sample_stat 5000 1000) (csteps sample_stat sample_schedule (new_config sample_stat 5000 1000)).

Example sample_run_reports :
  map (fun r => (Timestamp r, Sent r, ReceivedN r, Loss r)) (c_out sample_run) = [(1000, 2, 1, 1)].
Proof. vm_compute. reflexivity. Qed.

Lemma concurrent_reports_increasing_witness :
  StronglySorted Z.lt (map Timestamp (c_out sample_run)) /\ buckets_ok (view (c_cb sample_run)).
Proof.
  apply (concurrent_reports_increasing sample_stat 5000 sample_schedule sample_run);
    [reflexivity|discriminate| |vm_compute; reflexivity].
  repeat constructor; cbn; try discriminate; unfold ts_ok; lia.
Defined.

(** The same schedule stopped in the middle, while [receivedAndFix] holds the
    lock and another goroutine waits for it. *)
Definition stopped_run : config :=
  default (new_config sample_stat 5000 1000)
    (csteps sample_stat [Call 1 (Put 43500 43500 7 1500); Run 1; Tick 5000;
                         Call 2 (ReceivedAndFix 8 1600 5 3 43500 43500 false); Run 2; Run 2;
                         Call 3 (Received 9 1700 10 false)] (new_config sample_stat 5000 1000)).

Lemma concurrent_completes_witness :
  exists ls' c', Forall quiet_label ls' /\ csteps sample_stat ls' stopped_run = Some c' /\
    all_done (c_threads c') /\ c_proc c' = PIdle.
Proof.
  apply (concurrent_completes sample_stat 5000
    [Call 1 (Put 43500 43500 7 1500); Run 1; Tick 5000; Call 2 (ReceivedAndFix 8 1600 5 3 43500 43500 false);
     Run 2; Run 2; Call 3 (Received 9 1700 10 false)] stopped_run);
    [reflexivity|discriminate| |vm_compute; reflexivity].
  repeat constructor; cbn; try discriminate; unfold ts_ok; lia.
Defined.
