(* ===== verification/Linearize.v ===== *)
(** * The interleavings of [Stat] calls refine the ledger

    In the interleavings of Concurrent.v each call takes effect at one of its
    sections, and the collection records the ledger of Buckets.v after the calls
    in that order, provided that the callers keep the discipline stated below;
    so the reports of a client are exact. The last theorem shows what happens
    when the first report breaks it. *)

From S2P Require Import Prelude GoStd Ports Bucket Buckets UdpStat Concurrent.
Local Open Scope Z_scope.

(** ** Refinement of the ledger

    The discipline of the callers: calls about the same probe do not overlap
    (the send happens after [Put] has returned, and a reply reaches one
    goroutine), and the processor does not remove a bucket while a call works
    on its span. Under it every operation takes effect at one of its own
    sections, as the ledger of Buckets.v says. *)

Definition snapshot (cb : cbuckets) (s : Z) (l : option nat) (i : Z) : Prop :=
  match l with Some l => cb_map cb !! i = Some l | None => probe (view cb) i s = None end.

(** What a goroutine has read still holds. *)
Definition pc_sync (cb : cbuckets) (o : op) (p : pc) : Prop :=
  let i := op_span cb o in
  let s := op_seq o in
  match p with
  | AtStart | Done | FixMark _ | FixLook | FixPrev _ => True
  | TryCur b prev => snapshot cb s b i /\ snapshot cb s prev (i - 1)
  | TryPrev prev => probe (view cb) i s = None /\ snapshot cb s prev (i - 1)
  | Create => probe (view cb) i s = None /\ probe (view cb) (i - 1) s = None
  | Write l =>
      cb_map cb !! i = Some l /\
      (is_answer o = true -> probe (view cb) i s = None /\ probe (view cb) (i - 1) s = None)
  end.

(** What an operation writes when the record is missing. *)
Definition op_default (o : op) : request :=
  match o with
  | Put cp sp s t => fresh_request cp sp s t
  | Received s _ rt bf | ReceivedAndFix s _ rt _ _ _ bf => mkRequest 0 0 s 0 rt bf false
  | ReceivedRST s _ rt => mkRequest 0 0 s 0 rt false true
  | Delete s _ => mkRequest 0 0 s 0 0 false false
  | Remove _ => mkRequest 0 0 0 0 0 false false
  end.

Definition is_delete (o : op) : bool := match o with Delete _ _ => true | _ => false end.

Lemma spec_upsert span o L :
  is_delete o = false -> (forall i, o <> Remove i) ->
  spec span o L =
    upsert (if is_answer o then locate L (op_time o / span) (op_seq o) else (op_time o / span, op_seq o))
      (op_mark o) (op_default o) L.
Proof. intros Hd Hr. destruct o; try done. by destruct (Hr i). Qed.

Lemma bucket_write_upsert o b :
  is_delete o = false -> (forall i, o <> Remove i) ->
  bucket_write o b = upsert_with (op_mark o) (op_default o) (op_seq o) b.
Proof.
  intros Hd Hr. destruct o; try done; cbn [bucket_write op_mark op_default op_seq].
  - apply put_upsert.
  - apply received_upsert.
  - apply receivedRST_upsert.
  - apply received_upsert.
  - by destruct (Hr i).
Qed.

Lemma locate_none (L : ledger) i s :
  L !! (i, s) = None -> L !! (i - 1, s) = None -> locate L i s = (i, s).
Proof. intros H1 H2. unfold locate. by rewrite H1, H2, !decide_False by apply is_Some_None. Qed.

Lemma view_at cb i l b s :
  cb_map cb !! i = Some l -> cb_objs cb !! l = Some b -> probe (view cb) i s = b_requests b !! s.
Proof. intros Hm Hb. unfold probe. rewrite view_lookup, Hm. cbn. by rewrite Hb. Qed.

(** The bucket at [l] belongs to its own span only. *)
Lemma in_map_iff cb i j l :
  cb_ok cb -> cb_map cb !! i = Some l -> cb_map cb !! j = Some l <-> i = j.
Proof.
  intros H Hi. split; [|by intros <-]. intros Hj.
  destruct (co_map cb H i l Hi) as (b & Hb & Hid). rewrite <- Hid. symmetry. by apply (loc_span cb j l).
Qed.

(** The last section of an operation on the bucket of its span. *)
Lemma write_refines cb o l L :
  cb_ok cb -> (forall i, o <> Remove i) -> cb_map cb !! op_span cb o = Some l ->
  (is_answer o = true -> probe (view cb) (op_span cb o) (op_seq o) = None /\
                         probe (view cb) (op_span cb o - 1) (op_seq o) = None) ->
  refines (view cb) L ->
  refines (view (on_bucket l (bucket_write o) cb)) (spec (cb_span cb) o L).
Proof.
  intros H Hr Hl Ha HR.
  destruct (on_bucket_ok cb l (op_span cb o) (bucket_write o) H (co_map cb H _ l Hl) (bucket_write_touches o))
    as (_ & _ & b & Hb & Hp).
  assert (Hv : forall s, probe (view cb) (op_span cb o) s = b_requests b !! s) by (intros; by eapply view_at).
  intros j x. rewrite Hp. destruct (is_delete o) eqn:Hd.
  - destruct o; try done. cbn [spec bucket_write op_time op_seq op_span] in *.
    unfold bucket.delete. cbn [set_requests b_requests]. rewrite !lookup_delete.
    destruct (decide (cb_map cb !! j = Some l)) as [Hj|Hj].
    + apply (in_map_iff cb _ j l H Hl) in Hj as <-. unfold op_span in *. cbn [op_time] in *. rewrite <- Hv, HR.
      destruct (decide (s = x)) as [<-|]; [by rewrite decide_True|by rewrite decide_False by congruence].
    + rewrite HR. rewrite decide_False; [done|]. intros [= <- _]. done.
  - rewrite spec_upsert, bucket_write_upsert by done.
    assert ((if is_answer o then locate L (op_time o / cb_span cb) (op_seq o)
             else (op_time o / cb_span cb, op_seq o)) = (op_span cb o, op_seq o)) as ->.
    { destruct (is_answer o); [|done]. destruct (Ha eq_refl). apply locate_none; by rewrite <- HR. }
    unfold upsert, upsert_with. cbn [set_requests b_requests]. rewrite <- HR, Hv, !lookup_insert.
    destruct (decide (cb_map cb !! j = Some l)) as [Hj|Hj].
    + apply (in_map_iff cb _ j l H Hl) in Hj as <-.
      destruct (decide (op_seq o = x)) as [<-|]; [by rewrite decide_True|rewrite decide_False by congruence].
      by rewrite <- Hv.
    + rewrite decide_False; [done|]. intros [= <- _]. done.
Qed.

(** [if b != nil && b.update(...) { return }] on a bucket that was read from
    the collection: the record is completed in it, or the probe is not there. *)
Lemma try_refines cb o l i next did p cb' L :
  cb_ok cb -> is_answer o = true -> snapshot cb (op_seq o) l i -> refines (view cb) L ->
  try_loc o l next cb = Some (did, p, cb') ->
  (did = false /\ p = next /\ cb' = cb /\ probe (view cb) i (op_seq o) = None) \/
  (did = true /\ p = Done /\ is_Some (probe (view cb) i (op_seq o)) /\
   refines (view cb') (upsert (i, op_seq o) (op_mark o) (op_default o) L)).
Proof.
  intros H Ha Hl HR E.
  assert (Hid : opt_id cb l i) by (destruct l; [by apply (co_map cb H)|done]).
  destruct (try_loc_spec o l i next cb did p cb' Ha H Hid E) as (_ & _ & Hc).
  destruct Hc as [(-> & -> & -> & Hn)|(-> & -> & l' & b & r & -> & Hb & Hr & Hp)].
  - left. split_and!; [done..|]. destruct l as [l|]; [|done]. cbn in Hl.
    destruct (co_map cb H _ _ Hl) as (b & Hb & _). rewrite (view_at cb i l b) by done. by apply (Hn l).
  - right. cbn in Hl.
    assert (Hv : probe (view cb) i (op_seq o) = Some r) by (by rewrite (view_at cb i l' b)).
    split_and!; [done|done|by exists r|]. intros j x. rewrite Hp. unfold upsert.
    rewrite <- HR, Hv, lookup_insert. cbn [from_option].
    destruct (decide ((i, op_seq o) = (j, x))) as [[= -> ->]|Hne].
    + by rewrite decide_True.
    + rewrite decide_False; [done|]. intros [Hj <-]. apply (in_map_iff cb i j l' H Hl) in Hj as <-. done.
Qed.

Lemma spec_located cb o L k :
  is_answer o = true -> locate L (op_span cb o) (op_seq o) = k ->
  spec (cb_span cb) o L = upsert k (op_mark o) (op_default o) L.
Proof. intros Ha <-. rewrite spec_upsert by (by destruct o). by rewrite Ha. Qed.

Lemma refines_ext bs bs' L :
  (forall j x, probe bs' j x = probe bs j x) -> refines bs L -> refines bs' L.
Proof. intros Hp HR j x. by rewrite Hp. Qed.

(** The sections of [receivedAndFix] that touch no record. *)
Lemma meta_refines cb l i f L :
  cb_ok cb -> has_id cb l i -> touches f -> (forall b, b_requests (f b) = b_requests b) ->
  refines (view cb) L -> refines (view (on_bucket l f cb)) L.
Proof.
  intros H Hl Hf Hr HR. destruct (on_bucket_ok cb l i f H Hl Hf) as (_ & _ & b & Hb & Hp).
  intros j x. rewrite Hp, Hr, <- HR. case_decide as Hj; [|done]. symmetry. by apply (view_at cb j l b).
Qed.

(** After a section the goroutine is in step with the collection, which
    records [L], or what the operation makes of [L] if this was its point. *)
Definition synced (o : op) (cb : cbuckets) (L : ledger) (r : outcome) : Prop :=
  let '(did, p, cb') := r in
  pc_sync cb' o p /\ refines (view cb') (if (did : bool) then spec (cb_span cb) o L else L).

Definition absent (cb : cbuckets) (o : op) : Prop :=
  probe (view cb) (op_span cb o) (op_seq o) = None /\
  probe (view cb) (op_span cb o - 1) (op_seq o) = None.

Section sync.
Variables (cb : cbuckets) (o : op) (L : ledger).
Hypothesis H : cb_ok cb.
Hypothesis Ho : op_ok o.
Hypothesis Hr : forall i, o <> Remove i.
Hypothesis HR : refines (view cb) L.

Lemma sync_create l cb' w :
  (is_answer o = true -> absent cb o) -> get_or_create (op_span cb o) cb = (l, cb') ->
  synced o cb L (false, Write l, cb') /\ synced o cb L (false, Write l, set_writer w cb').
Proof using H Ho Hr HR.
  intros Ha E. pose proof (get_or_create_op cb o H Ho Hr) as Hg. rewrite E in Hg.
  destruct Hg as (H1 & H2 & H3 & H4 & H5). pose proof (grows_span _ _ o H2) as Hsp.
  assert (pc_sync cb' o (Write l)) as Hs.
  { cbn [pc_sync]. rewrite Hsp. split; [exact H3|]. intros Hans. rewrite !H5. by apply Ha. }
  assert (refines (view cb') L) as HR' by (by apply (refines_ext (view cb))).
  split; split; [exact Hs|exact HR'|exact Hs|exact HR'].
Qed.

Lemma sync_write l p :
  pc_sync cb o (Write l) -> p = Done \/ p = FixMark l ->
  synced o cb L (true, p, on_bucket l (bucket_write o) cb).
Proof using H Ho Hr HR.
  intros [Hl Ha] Hp. split; [by destruct Hp as [->| ->]|]. by apply write_refines.
Qed.

Lemma sync_look : synced o cb L (false, TryCur (cb_map cb !! op_span cb o) (cb_map cb !! (op_span cb o - 1)), cb).
Proof using HR.
  assert (Hsnap : forall i, snapshot cb (op_seq o) (cb_map cb !! i) i).
  { intros i. destruct (cb_map cb !! i) eqn:Em; [exact Em|]. cbn. unfold probe. by rewrite view_lookup, Em. }
  split; [split; apply Hsnap|exact HR].
Qed.

Lemma sync_try_cur b prev r :
  is_answer o = true -> pc_sync cb o (TryCur b prev) ->
  try_loc o b (TryPrev prev) cb = Some r -> synced o cb L r.
Proof using H HR.
  intros Ha [Hb Hprev] E. destruct r as [[did p] cb'].
  destruct (try_refines cb o b _ _ _ _ _ L H Ha Hb HR E) as [(-> & -> & -> & Hn)|(-> & -> & Hsm & HR')].
  - split; [split; [exact Hn|exact Hprev]|exact HR].
  - split; [exact I|]. rewrite (spec_located cb o L (op_span cb o, op_seq o) Ha); [exact HR'|].
    unfold locate. by rewrite decide_True by (by rewrite <- HR).
Qed.

Lemma sync_try_prev prev r :
  is_answer o = true -> pc_sync cb o (TryPrev prev) ->
  try_loc o prev Create cb = Some r -> synced o cb L r.
Proof using H HR.
  intros Ha [Hb Hprev] E. destruct r as [[did p] cb'].
  destruct (try_refines cb o prev _ _ _ _ _ L H Ha Hprev HR E) as [(-> & -> & -> & Hn)|(-> & -> & Hsm & HR')].
  - split; [split; [exact Hb|exact Hn]|exact HR].
  - split; [exact I|]. rewrite (spec_located cb o L (op_span cb o - 1, op_seq o) Ha); [exact HR'|].
    unfold locate. rewrite decide_False by (rewrite <- HR, Hb; apply is_Some_None).
    by rewrite decide_True by (by rewrite <- HR).
Qed.

Lemma sync_missing s t :
  o = Delete s t -> cb_map cb !! op_span cb o = None -> synced o cb L (true, Done, cb).
Proof using Ho Hr HR.
  intros -> Em. split; [exact I|]. cbn [spec]. intros j x. rewrite HR, lookup_delete.
  case_decide as Hd; [|done]. injection Hd as <- <-. rewrite <- HR. unfold probe.
  rewrite view_lookup. unfold op_span in Em. cbn [op_time] in Em. by rewrite Em.
Qed.

Lemma sync_meta l i f p w :
  has_id cb l i -> touches f -> (forall b, b_requests (f b) = b_requests b) ->
  p = FixLook \/ p = Done ->
  synced o cb L (false, p, set_writer w (on_bucket l f cb)) /\ synced o cb L (false, p, on_bucket l f cb).
Proof using H HR.
  intros Hl Hf Hq Hp. assert (refines (view (on_bucket l f cb)) L) as HR' by (by eapply meta_refines).
  split; (split; [by destruct Hp as [->| ->]|exact HR']).
Qed.
End sync.

#[local] Opaque get_or_create on_bucket view op_span spec.

Lemma op_step_sync k o p cb r L :
  cb_ok cb -> thread_ok cb o p -> pc_sync cb o p -> refines (view cb) L ->
  op_step k o p cb = Some r -> synced o cb L r.
Proof.
  intros H [Ho _ Hr Hp] Hs HR E. destruct (op_number cb o H Ho Hr) as (Hdiv & _ & Hi).
  unfold op_step in E. rewrite Hdiv in E. cbn [mbind option_bind] in E. rewrite Hi in E. clear Hdiv Hi.
  assert (Hcr : unlocked cb (let '(l, cb) := get_or_create (op_span cb o) cb in Some (false, Write l, cb)) = Some r ->
    (is_answer o = true -> absent cb o) -> synced o cb L r).
  { intros E1 Ha. apply unlocked_Some in E1 as [_ E1].
    destruct (get_or_create (op_span cb o) cb) as [l cb1] eqn:Eg. injection E1 as <-.
    apply (sync_create cb o L H Ho Hr HR l cb1 None Ha Eg). }
  destruct o, p; try discriminate E;
    match type of E with
    | try_loc ?o ?b (TryPrev ?q) _ = _ => exact (sync_try_cur cb o L H HR b q r eq_refl Hs E)
    | try_loc ?o ?q Create _ = _ => exact (sync_try_prev cb o L H HR q r eq_refl Hs E)
    | unlocked _ (let '(l, cb) := _ in Some (false, Write l, cb)) = _ =>
        apply (Hcr E); first [discriminate | intros _; exact Hs]
    | unlocked _ _ = _ => apply unlocked_Some in E as [_ E]
    | Some (true, _, _) = _ => injection E as <-; apply (sync_write cb _ L H Ho Hr HR); auto
    | _ => idtac
    end.
  - destruct (cb_map cb !! _) as [l|] eqn:El; injection E as <-; [|by eapply sync_missing].
    split; [split; [exact El|discriminate]|exact HR].
  - injection E as <-. by apply sync_look.
  - injection E as <-. by apply sync_look.
  - destruct (get_or_create _ _) as [l1 cb1] eqn:Eg. injection E as <-.
    apply (sync_create cb _ L H Ho Hr HR l1 cb1 (Some k)); [discriminate|exact Eg].
  - destruct Hp as (b & Hb & Hid). rewrite Hb in E. cbn [mbind option_bind] in E. injection E as <-.
    apply (sync_meta cb _ L H HR l (b_id b)); auto with nettools; [by exists b|].
    destruct (_ && _); [by left|by right].
  - injection E as <-. split; [by destruct (cb_map cb !! _)|exact HR].
  - injection E as <-. apply (sync_meta cb _ L H HR l _ (fix_count count sp dp) Done None Hp); auto with nettools.
Qed.
#[local] Transparent get_or_create on_bucket view op_span spec.

Definition in_flight (c : config) (k : nat) (o : op) : Prop :=
  exists p, c_threads c !! k = Some (o, p) /\ p <> Done.

Definition disciplined (lb : label) (c : config) : Prop :=
  match lb with
  | Call _ o => forall k o', in_flight c k o' -> op_seq o' <> op_seq o
  | Proc =>
      match c_proc c with
      | PDrop i | PRemove i =>
          forall k o, in_flight c k o -> op_span (c_cb c) o <> i /\ op_span (c_cb c) o <> i + 1
      | _ => True
      end
  | _ => True
  end.

Fixpoint disciplined_run (u0 : udpStat) (ls : list label) (c : config) : Prop :=
  match ls with
  | [] => True
  | lb :: ls => disciplined lb c /\ forall c', cstep u0 lb c = Some c' -> disciplined_run u0 ls c'
  end.

(** The ledger after the operations that have taken effect. *)
Definition replay_entry (span : Z) (L : ledger) (e : entry) : ledger :=
  match e with
  | Did _ o => spec span o L
  | Removed i => spec span (Remove i) L
  | Reported _ => L
  end.

Definition ledger_after (span : Z) (log : list entry) : ledger := foldl (replay_entry span) ∅ log.

Lemma ledger_after_snoc span log e : ledger_after span (log ++ [e]) = replay_entry span (ledger_after span log) e.
Proof. unfold ledger_after. by rewrite foldl_app. Qed.

Record sync_ok (u0 : udpStat) (c : config) : Prop := {
  sk_cfg : cfg_ok u0 c;
  sk_pc : forall k o p, c_threads c !! k = Some (o, p) -> pc_sync (c_cb c) o p;
  sk_seq : forall k k' o o', k <> k' -> in_flight c k o -> in_flight c k' o' -> op_seq o <> op_seq o';
  sk_ledger : refines (view (c_cb c)) (ledger_after (u_span u0) (c_log c))
}.

Lemma pc_sync_other cb cb' o p s :
  grows cb cb' -> (forall j x, x <> s -> probe (view cb') j x = probe (view cb) j x) ->
  p = Done \/ op_seq o <> s -> pc_sync cb o p -> pc_sync cb' o p.
Proof.
  intros Hg Hs Hne. destruct Hne as [->|Hne]; [done|].
  assert (Hsnap : forall l i, snapshot cb (op_seq o) l i -> snapshot cb' (op_seq o) l i).
  { intros [l|] i; cbn; [apply Hg|by rewrite Hs]. }
  unfold pc_sync. rewrite (grows_span _ _ o Hg). cbn zeta.
  destruct p; try done; rewrite ?Hs by done; try (intros [H1 H2]; split; auto).
  by apply Hg.
Qed.

Lemma pc_sync_remove cb i o p :
  cb_ok cb -> p = Done \/ op_span cb o <> i /\ op_span cb o <> i + 1 ->
  pc_sync cb o p -> pc_sync (remove_loc i cb) o p.
Proof.
  intros H Hi. destruct Hi as [->|[Hi Hi']]; [done|].
  destruct (remove_loc_ok i cb H) as (_ & He & Hm & Hp).
  assert (Hsnap : forall l j, j <> i -> snapshot cb (op_seq o) l j -> snapshot (remove_loc i cb) (op_seq o) l j).
  { intros [l|] j Hj; cbn [snapshot]; [by rewrite Hm, decide_False by done|by rewrite Hp, decide_False by done]. }
  unfold pc_sync. rewrite (op_span_eq _ _ o (ext_span _ _ He)). cbn zeta.
  assert (op_span cb o - 1 <> i) by lia.
  destruct p; try done; rewrite ?Hm, ?Hp, ?(decide_False (P := i = _)) by done; try done;
    intros [H1 H2]; split; auto.
Qed.

(** What a step of the processor may do to a configuration. *)
Lemma proc_only u0 c c' lb :
  sync_ok u0 c -> cfg_ok u0 c' -> lb = [] \/ (exists i, lb = [Reported i]) ->
  c_cb c' = c_cb c -> c_threads c' = c_threads c -> c_log c' = c_log c ++ lb -> sync_ok u0 c'.
Proof.
  intros [H1 H2 H3 H4] H Hlb Ecb Et El. split; [done|by rewrite Ecb, Et| |].
  - unfold in_flight. rewrite Et. apply H3.
  - rewrite Ecb, El. destruct Hlb as [->|[i ->]]; [by rewrite app_nil_r|by rewrite ledger_after_snoc].
Qed.

Lemma pick_shape l c c' :
  pick l c = Some c' -> c_cb c' = c_cb c /\ c_threads c' = c_threads c /\ c_log c' = c_log c ++ [].
Proof.
  unfold pick. rewrite app_nil_r. destruct l as [l|]; [|by intros [= <-]].
  destruct (cb_objs _ !! l); cbn [mbind option_bind]; [|done]. case_match; by intros [= <-].
Qed.

Lemma drop_sync u0 i p c c' :
  sync_ok u0 c -> cfg_ok u0 c' -> drop i p c = Some c' ->
  (forall k o, in_flight c k o -> op_span (c_cb c) o <> i /\ op_span (c_cb c) o <> i + 1) ->
  sync_ok u0 c'.
Proof.
  intros [H1 H2 H3 H4] H E Hd. apply unlocked_Some in E as [_ E]. injection E as <-.
  destruct (remove_loc_ok i (c_cb c) (ck_cb _ _ H1)) as (_ & _ & _ & Hp).
  split; [done| |apply H3|].
  - intros k o q Hk. cbn in Hk |- *. apply pc_sync_remove; [apply H1| |by apply (H2 k)].
    destruct q; auto; right; apply (Hd k o); by eexists.
  - cbn [c_cb c_log]. rewrite ledger_after_snoc. cbn [replay_entry spec]. intros j x.
    rewrite Hp, map_lookup_filter, H4. destruct (_ !! (j, x)) as [r|]; cbn; [|by case_decide].
    case_decide; case_guard; cbn in *; congruence.
Qed.

Lemma run_sync u0 k o p did p' cb' c :
  sync_ok u0 c -> c_threads c !! k = Some (o, p) -> op_step k o p (c_cb c) = Some (did, p', cb') ->
  sync_ok u0 (mkConfig cb' (c_lastID c) (c_proc c) (<[k := (o, p')]> (c_threads c)) (c_out c)
                (c_log c ++ if did then [Did k o] else [])).
Proof.
  intros [H1 H2 H3 H4] Hk E. pose proof (run_ok u0 k o p did p' cb' c H1 Hk E) as H.
  assert (Hth := ck_threads _ _ H1 k o p Hk).
  destruct (op_step_ok k o p (c_cb c) did p' cb') as [S1 S2 S3 S4]; [apply H1|apply Hth..|done|].
  destruct (op_step_sync k o p (c_cb c) _ _ (ck_cb _ _ H1) Hth (H2 _ _ _ Hk) H4 E) as [Hp HR].
  assert (Hlive : in_flight c k o).
  { exists p. split; [done|]. intros ->. destruct o; unfold op_step in E; destruct (go_div _ _); discriminate E. }
  assert (Hback : forall k1 o1, in_flight (mkConfig cb' (c_lastID c) (c_proc c) (<[k := (o, p')]> (c_threads c))
      (c_out c) (c_log c ++ if did then [Did k o] else [])) k1 o1 -> in_flight c k1 o1).
  { intros k1 o1 (q & Hq & Hd). cbn in Hq. rewrite lookup_insert in Hq. case_decide as Hkk.
    - subst k1. by injection Hq as <- <-.
    - by exists q. }
  split; [done| | |]; cbn [c_cb c_threads c_log].
  - intros k1 o1 q. rewrite lookup_insert. case_decide as Hd; [by intros [= <- <-]|]. intros Hk1.
    apply (pc_sync_other (c_cb c) cb' o1 q (op_seq o)); [done|done| |by apply (H2 k1)].
    assert (q = Done \/ q <> Done) as [Hq|Hq] by (destruct q; auto); [by left|right].
    apply (H3 k1 k); [congruence|by exists q|done].
  - intros k1 k2 o1 o2 Hne F1%Hback F2%Hback. by apply (H3 k1 k2).
  - rewrite (ck_span _ _ H1) in HR. destruct did; [by rewrite ledger_after_snoc|by rewrite app_nil_r].
Qed.

Lemma cstep_sync u0 lb c c' :
  sync_ok u0 c -> label_ok lb -> disciplined lb c -> cstep u0 lb c = Some c' -> sync_ok u0 c'.
Proof.
  intros H Hlb Hd E. assert (H' : cfg_ok u0 c') by (eapply cstep_ok; [apply H|done..]).
  destruct lb as [k o|k|now|]; cbn [cstep] in E.
  - destruct H as [H1 H2 H3 H4]. destruct (c_threads c !! k) as [op|] eqn:Hk; [done|]. injection E as <-.
    split; [done| | |done]; cbn [c_cb c_threads] in *.
    + intros k1 o1 q. rewrite lookup_insert. case_decide; [by intros [= <- <-]|]. apply H2.
    + assert (Hf : forall k1 o1, in_flight (mkConfig (c_cb c) (c_lastID c) (c_proc c)
          (<[k := (o, AtStart)]> (c_threads c)) (c_out c) (c_log c)) k1 o1 ->
          k1 = k /\ o1 = o \/ k1 <> k /\ in_flight c k1 o1).
      { intros k1 o1 (q & Hq & Hnd). cbn in Hq. rewrite lookup_insert in Hq. case_decide as Hkk.
        - injection Hq as <- <-. by left.
        - right. split; [congruence|by exists q]. }
      intros k1 k2 o1 o2 Hne [[-> ->]|[? F1]]%Hf [[-> ->]|[? F2]]%Hf; [done| | |by apply (H3 k1 k2)].
      * intros Heq. by apply (Hd k2 o2).
      * by apply (Hd k1 o1).
  - destruct (c_threads c !! k) as [[o p]|] eqn:Hk; cbn [mbind option_bind] in E; [|done].
    destruct (op_step k o p (c_cb c)) as [[[did p'] cb']|] eqn:Es; cbn [mbind option_bind] in E; [|done].
    injection E as <-. by apply (run_sync u0 k o p did p' cb').
  - unfold tick_step in E. destruct (c_proc c); try done. apply unlocked_Some in E as [_ E].
    destruct (udpStat.too_new _ _ _) as [[]|]; cbn [mbind option_bind] in E; [by injection E as <-| |done].
    apply pick_shape in E as (? & ? & ?). apply (proc_only u0 c c' [] H H'); auto.
  - unfold proc_step in E. cbn [disciplined] in Hd. destruct (c_proc c) as [|i| |l|l sr|l sr meta|i]; try done.
    + by eapply drop_sync.
    + apply unlocked_Some in E as [_ E]. apply pick_shape in E as (? & ? & ?). apply (proc_only u0 c c' [] H H'); auto.
    + destruct (cb_objs _ !! l) as [b|]; cbn [mbind option_bind] in E; [|done].
      apply (proc_only u0 c c' [Reported (b_id b)] H H'); [right; by eexists|..];
        destruct (u_serverSide u0); by injection E as <-.
    + destruct (cb_objs _ !! l) as [b|]; cbn [mbind option_bind] in E; [|done].
      apply (proc_only u0 c c' [] H H'); [by left|..]; destruct (no_loss_data b); injection E as <-; try done; cbn; by rewrite app_nil_r.
    + destruct (cb_objs _ !! l) as [b|]; cbn [mbind option_bind] in E; [|done].
      apply (proc_only u0 c c' [] H H'); [by left|..]; injection E as <-; done.
    + by eapply drop_sync.
Qed.

Lemma new_config_sync u0 rate :
  0 < u_span u0 -> 0 <= u_lastID u0 -> sync_ok u0 (new_config u0 rate (u_span u0)).
Proof.
  intros Hs Hl. split; [by apply new_config_ok| | |].
  - intros k o p. cbn. by rewrite lookup_empty.
  - intros k k' o o' _ (p & Hp & _). cbn in Hp. by rewrite lookup_empty in Hp.
  - intros j x. unfold probe. rewrite view_lookup. cbn. by rewrite !lookup_empty.
Qed.

Lemma csteps_sync u0 ls : forall c c',
  sync_ok u0 c -> Forall label_ok ls -> disciplined_run u0 ls c -> csteps u0 ls c = Some c' -> sync_ok u0 c'.
Proof.
  induction ls as [|lb ls IH]; intros c c' H Hls Hd E; cbn [csteps] in E; [by injection E as <-|].
  apply Forall_cons in Hls as [Hlb Hls]. destruct Hd as [Hd1 Hd].
  destruct (cstep u0 lb c) as [c1|] eqn:E1; cbn [mbind option_bind] in E; [|done].
  apply (IH c1 c'); [by eapply cstep_sync|done|by apply Hd|done].
Qed.

(** ** When the operations take effect *)

(** The method of this goroutine has taken effect. *)
Definition effective (p : pc) : bool :=
  match p with Done | FixMark _ | FixLook | FixPrev _ => true | _ => false end.

Definition did_id (e : entry) : option nat := match e with Did k _ => Some k | _ => None end.

(** Each call is in the order at most once, from the section in which it takes
    effect on. *)
Record log_ok (c : config) : Prop := {
  lg_did : forall k o, Did k o ∈ c_log c <-> exists p, c_threads c !! k = Some (o, p) /\ effective p = true;
  lg_once : NoDup (omap did_id (c_log c))
}.

Lemma op_step_effective k o p cb did p' cb' :
  op_step k o p cb = Some (did, p', cb') -> effective p' = effective p || did /\ effective p && did = false.
Proof.
  unfold op_step. destruct (go_div _ _) as [i|]; cbn [mbind option_bind]; [|done].
  assert (Ht : forall l next, effective next = false -> try_loc o l next cb = Some (did, p', cb') ->
    effective p' = did).
  { intros l next Hn. unfold try_loc. destruct l as [l|]; [|by intros [= <- <- <-]].
    destruct (cb_objs cb !! l); cbn [mbind option_bind]; [|done]. destruct (bucket_update o b) as [b' []];
      by intros [= <- <- <-]. }
  destruct o; try done; (destruct p; try done); intros E; try (apply unlocked_Some in E as [_ E]);
    try (apply Ht in E; [by rewrite E|done]).
  all: try (destruct (get_or_create i cb)); try (destruct (cb_objs cb !! l); cbn [mbind option_bind] in E; [|done]).
  all: repeat case_match; simplify_eq; done.
Qed.

Lemma did_ids_app l l' : omap did_id (l ++ l') = omap did_id l ++ omap did_id l'.
Proof. apply omap_app. Qed.

Lemma log_ok_same c c' l :
  log_ok c -> c_threads c' = c_threads c -> c_log c' = c_log c ++ l -> Forall (fun e => did_id e = None) l ->
  log_ok c'.
Proof.
  intros [H1 H2] Et El Hl. assert (Hn : omap did_id l = []).
  { clear El. induction Hl as [|e l He _ IH]; [done|]. cbn. by rewrite He. }
  split; rewrite El.
  - intros k o. rewrite elem_of_app, Et, <- H1. split; [|auto]. intros [|Hin]; [done|].
    rewrite Forall_forall in Hl. specialize (Hl _ Hin). by cbn in Hl.
  - by rewrite did_ids_app, Hn, app_nil_r.
Qed.

Lemma cstep_log u0 lb c c' :
  log_ok c -> cstep u0 lb c = Some c' -> log_ok c' /\ exists l, c_log c' = c_log c ++ l.
Proof.
  intros H E.
  assert (Hsame : forall l, c_threads c' = c_threads c -> c_log c' = c_log c ++ l ->
    Forall (fun e => did_id e = None) l -> log_ok c' /\ exists l, c_log c' = c_log c ++ l).
  { intros l Et El Hl. split; [by eapply log_ok_same|by exists l]. }
  assert (Hpick : forall l, pick l c = Some c' -> log_ok c' /\ exists l, c_log c' = c_log c ++ l).
  { intros l Ep. apply pick_shape in Ep as (_ & ? & ?). by apply (Hsame []). }
  destruct lb as [k o|k|now|]; cbn [cstep] in E.
  - destruct (c_threads c !! k) eqn:Hk; [done|]. injection E as <-. split; [|exists []; by rewrite app_nil_r].
    destruct H as [H1 H2]. split; [|done]. intros k1 o1. cbn [c_log c_threads]. rewrite H1, lookup_insert.
    destruct (decide (k = k1)) as [<-|]; [|done]. rewrite Hk.
    split; [by intros (? & ? & _)|by intros (? & [= <- <-] & ?)].
  - destruct (c_threads c !! k) as [[o p]|] eqn:Hk; cbn [mbind option_bind] in E; [|done].
    destruct (op_step k o p (c_cb c)) as [[[did p'] cb']|] eqn:Es; cbn [mbind option_bind] in E; [|done].
    injection E as <-. split; [|by eexists]. destruct (op_step_effective _ _ _ _ _ _ _ Es) as [He Hx].
    destruct H as [H1 H2]. split; cbn [c_log c_threads].
    + intros k1 o1. rewrite elem_of_app, H1, lookup_insert. destruct (decide (k = k1)) as [<-|Hne].
      * rewrite Hk. split.
        -- intros [(q & [= <- <-] & Hq)|Hin]; exists p'; [by rewrite He, Hq|].
           destruct did; [|by apply elem_of_nil in Hin]. apply list_elem_of_singleton in Hin as [= <-].
           by rewrite He, orb_true_r.
        -- intros (q & [= <- <-] & Hq). rewrite He in Hq. apply orb_true_iff in Hq as [Hq| ->]; [left; by exists p|].
           right. by apply list_elem_of_singleton.
      * split; [|by left]. intros [|Hin]; [done|]. destruct did; [|by apply elem_of_nil in Hin].
        by apply list_elem_of_singleton in Hin as [= <- <-].
    + rewrite did_ids_app. destruct did; cbn; [|by rewrite app_nil_r]. apply NoDup_app. split_and!; [done| |apply NoDup_singleton].
      intros k1 Hin ->%list_elem_of_singleton. apply list_elem_of_omap in Hin as ([k1 o1|?|?] & Hin & [= ->]).
      apply H1 in Hin as (q & Hq & Heff). rewrite Hk in Hq. injection Hq as <- <-. by rewrite Heff in Hx.
  - unfold tick_step in E. destruct (c_proc c); try done. apply unlocked_Some in E as [_ E].
    destruct (udpStat.too_new _ _ _) as [[]|]; cbn [mbind option_bind] in E; [|by eapply Hpick|done].
    injection E as <-. apply (Hsame []); [done|by rewrite app_nil_r|done].
  - unfold proc_step in E. destruct (c_proc c) as [|i| |l|l sr|l sr meta|i]; try done.
    + apply unlocked_Some in E as [_ [= <-]]. apply (Hsame [Removed i]); [done..|by repeat constructor].
    + apply unlocked_Some in E as [_ E]. by eapply Hpick.
    + destruct (cb_objs _ !! l) as [b|]; cbn [mbind option_bind] in E; [|done].
      apply (Hsame [Reported (b_id b)]); [..|by repeat constructor]; destruct (u_serverSide u0); by injection E as <-.
    + destruct (cb_objs _ !! l) as [b|]; cbn [mbind option_bind] in E; [|done].
      apply (Hsame []); [..|done]; destruct (no_loss_data b); injection E as <-; try done; cbn; by rewrite app_nil_r.
    + destruct (cb_objs _ !! l) as [b|]; cbn [mbind option_bind] in E; [|done].
      injection E as <-. by apply (Hsame []).
    + apply unlocked_Some in E as [_ [= <-]]. apply (Hsame [Removed i]); [done..|by repeat constructor].
Qed.

Lemma csteps_log u0 ls : forall c c',
  log_ok c -> csteps u0 ls c = Some c' -> log_ok c' /\ exists l, c_log c' = c_log c ++ l.
Proof.
  induction ls as [|lb ls IH]; intros c c' H E; cbn [csteps] in E.
  - injection E as <-. split; [done|]. exists []. by rewrite app_nil_r.
  - destruct (cstep u0 lb c) as [c1|] eqn:E1; cbn [mbind option_bind] in E; [|done].
    destruct (cstep_log u0 lb c c1 H E1) as [H1 [l1 L1]]. destruct (IH c1 c' H1 E) as [H' [l2 L2]].
    split; [done|]. exists (l1 ++ l2). by rewrite L2, L1, app_assoc.
Qed.

(** ** What the client reports *)

(** The probes the ledger has in span [i]. *)
Definition span_probes (L : ledger) (i : Z) : gmap Z request := default ∅ (map_curry (M1 := gmap Z) (M2 := gmap Z) L !! i).

Lemma lookup_span_probes L i s : span_probes L i !! s = L !! (i, s).
Proof.
  unfold span_probes. rewrite <- (lookup_map_curry (M1 := gmap Z) (M2 := gmap Z) L i s).
  by destruct (_ !! i).
Qed.

Section client.
Variable u0 : udpStat.
Hypothesis Hclient : u_serverSide u0 = false.

(** The report of the probes [m] of span [i]. *)
Definition span_report (i : Z) (m : gmap Z request) : StatResult :=
  udpStat.report u0 (set_requests m (newBucket i (u_span u0) 0 false)).

(** The reports that the operations, in the order they took effect, call for. *)
Fixpoint reports_due (log : list entry) (L : ledger) : list StatResult :=
  match log with
  | [] => []
  | Reported i :: log =>
      (if (0 <? i) && u_sender u0 then [span_report i (span_probes L i)] else []) ++ reports_due log L
  | e :: log => reports_due log (replay_entry (u_span u0) L e)
  end.

Lemma reports_due_snoc log e L :
  reports_due (log ++ [e]) L = reports_due log L ++ reports_due [e] (foldl (replay_entry (u_span u0)) L log).
Proof.
  revert L. induction log as [|x log IH]; intros L; [done|].
  destruct x; cbn [app reports_due foldl]; rewrite IH; [done| |done]. by rewrite app_assoc.
Qed.

Lemma report_of_requests b i :
  b_startNano b = i64 (i * u_span u0) -> b_serverSide b = false ->
  report_with u0 b (bucket.stat b) (sr_lossPorts (bucket.stat b), sr_lossPortsCount (bucket.stat b)) =
  span_report i (b_requests b).
Proof using Hclient.
  intros Hst Hs. unfold span_report, udpStat.report, report_with. rewrite Hclient.
  assert (bucket.stat (set_requests (b_requests b) (newBucket i (u_span u0) 0 false)) = bucket.stat b) as ->.
  { unfold bucket.stat, bucket.stat_over. cbn [set_requests b_requests b_serverSide newBucket]. by rewrite Hs. }
  cbn [fst snd set_requests newBucket b_startNano]. by rewrite Hst.
Qed.

Record out_ok (c : config) : Prop := {
  oo_out : c_out c = reports_due (c_log c) ∅;
  oo_proc : match c_proc c with PMeta _ _ | PPairs _ _ _ => False | _ => True end
}.

Lemma out_ok_same c c' l :
  out_ok c -> c_out c' = c_out c -> c_log c' = c_log c ++ l ->
  l = [] \/ (exists k o, l = [Did k o]) \/ (exists i, l = [Removed i]) ->
  match c_proc c' with PMeta _ _ | PPairs _ _ _ => False | _ => True end -> out_ok c'.
Proof using Type.
  intros [H1 H2] Eo El Hl Hp. split; [|done]. rewrite Eo, El, H1.
  destruct Hl as [->|[(k & o & ->)|(i & ->)]]; [by rewrite app_nil_r|..]; rewrite reports_due_snoc; cbn; by rewrite app_nil_r.
Qed.

Lemma pick_out l c c' :
  pick l c = Some c' -> c_out c' = c_out c /\ match c_proc c' with PMeta _ _ | PPairs _ _ _ => False | _ => True end.
Proof using Type.
  unfold pick. destruct l as [l|]; [|by intros [= <-]].
  destruct (cb_objs _ !! l); cbn [mbind option_bind]; [|done]. case_match; by intros [= <-].
Qed.

Lemma cstep_out lb c c' :
  sync_ok u0 c -> out_ok c -> cstep u0 lb c = Some c' -> out_ok c'.
Proof using Hclient.
  intros Hs H E.
  assert (Hpick : forall l, pick l c = Some c' -> out_ok c').
  { intros l Ep. pose proof (pick_shape _ _ _ Ep) as (_ & _ & ?). apply pick_out in Ep as [? ?].
    eapply out_ok_same; eauto. }
  destruct lb as [k o|k|now|]; cbn [cstep] in E.
  - destruct (c_threads c !! k); [done|]. injection E as <-.
    apply (out_ok_same c _ []); [done|done|by rewrite app_nil_r|by left|apply H].
  - destruct (c_threads c !! k) as [[o p]|] eqn:Hk; cbn [mbind option_bind] in E; [|done].
    destruct (op_step k o p (c_cb c)) as [[[did p'] cb']|]; cbn [mbind option_bind] in E; [|done].
    injection E as <-. eapply (out_ok_same c); [done|done|done| |apply H]. destruct did; eauto.
  - unfold tick_step in E. destruct (c_proc c); try done. apply unlocked_Some in E as [_ E].
    destruct (udpStat.too_new _ _ _) as [[]|]; cbn [mbind option_bind] in E; [by injection E as <-|by eapply Hpick|done].
  - assert (H' := H). destruct H as [H1 H2]. unfold proc_step in E.
    destruct (c_proc c) as [|i| |l|l sr|l sr meta|i] eqn:Hp; try done.
    + apply unlocked_Some in E as [_ [= <-]]. apply (out_ok_same c _ [Removed i] H'); [done|done|right; right; by eexists|done].
    + apply unlocked_Some in E as [_ E]. by eapply Hpick.
    + destruct (cb_objs _ !! l) as [b|] eqn:Hb; cbn [mbind option_bind] in E; [|done].
      rewrite Hclient in E. injection E as <-. split; [|done]. cbn [c_out c_log send_report].
      rewrite reports_due_snoc, H1. f_equal. cbn [reports_due].
      pose proof (sk_cfg _ _ Hs) as Hc. pose proof (ck_proc _ _ Hc) as Hpr. unfold proc_ok in Hpr. rewrite Hp in Hpr.
      assert (Hid : c_lastID c = b_id b) by (by apply (loc_span (c_cb c) _ l b (ck_cb _ _ Hc))).
      rewrite Hid, app_nil_r. destruct (_ && _); [|done]. f_equal.
      destruct (co_obj _ (ck_cb _ _ Hc) l b Hb) as [_ Hpos Hst Ht Hside _]. rewrite (ck_span _ _ Hc) in Hst, Ht.
      rewrite (ck_side _ _ Hc), Hclient in Hside.
      assert (Hn : b_startNano b = i64 (b_id b * u_span u0)).
      { rewrite Hst, i64_small; [done|]. pose proof (co_span _ (ck_cb _ _ Hc)) as Hsp.
        rewrite (ck_span _ _ Hc) in Hsp. unfold in_i64. nia. }
      rewrite (report_of_requests b _ Hn Hside). f_equal. apply map_eq. intros s.
      rewrite lookup_span_probes, <- Hid. rewrite <- (view_at (c_cb c) _ l b s Hpr Hb).
      apply (sk_ledger _ _ Hs).
    + apply unlocked_Some in E as [_ [= <-]]. apply (out_ok_same c _ [Removed i] H'); [done|done|right; right; by eexists|done].
Qed.

Lemma csteps_out ls : forall c c',
  sync_ok u0 c -> out_ok c -> Forall label_ok ls -> disciplined_run u0 ls c -> csteps u0 ls c = Some c' ->
  out_ok c'.
Proof using Hclient.
  induction ls as [|lb ls IH]; intros c c' Hs H Hls Hd E; cbn [csteps] in E; [by injection E as <-|].
  apply Forall_cons in Hls as [Hlb Hls]. destruct Hd as [Hd1 Hd].
  destruct (cstep u0 lb c) as [c1|] eqn:E1; cbn [mbind option_bind] in E; [|done].
  apply (IH c1 c'); [by eapply cstep_sync|by eapply cstep_out|done|by apply Hd|done].
Qed.

End client.

(** ** Properties *)

Lemma new_config_log u0 rate span : log_ok (new_config u0 rate span).
Proof.
  split; cbn; [|constructor]. intros k o. split; [by intros ?%elem_of_nil|].
  intros (p & Hp & _). by rewrite lookup_empty in Hp.
Qed.

Lemma new_config_out u0 rate span : out_ok u0 (new_config u0 rate span).
Proof. by split. Qed.

(** C2: the methods of [buckets] are linearizable: in every interleaving of
    their critical sections in which calls about one probe do not overlap and no
    bucket is removed under a call that works on it, each call takes effect at
    one of its own sections, once, before it returns and not before it starts,
    and the collection always records exactly the ledger of the calls and
    removals in that order; its invariant (in particular [minID]) holds between
    any two sections. *)
Theorem concurrent_linearizable :
  forall u0 rate ls1 ls2 c1 c,
    0 < u_span u0 -> 0 <= u_lastID u0 -> Forall label_ok (ls1 ++ ls2) ->
    disciplined_run u0 (ls1 ++ ls2) (new_config u0 rate (u_span u0)) ->
    csteps u0 ls1 (new_config u0 rate (u_span u0)) = Some c1 -> csteps u0 ls2 c1 = Some c ->
    buckets_ok (view (c_cb c)) /\
    refines (view (c_cb c)) (ledger_after (u_span u0) (c_log c)) /\
    NoDup (omap did_id (c_log c)) /\ (exists l2, c_log c = c_log c1 ++ l2) /\
    (forall k o, c_threads c1 !! k = Some (o, Done) -> Did k o ∈ c_log c1) /\
    (forall k o, c_threads c1 !! k = None -> Did k o ∉ c_log c1).
Proof.
  intros u0 rate ls1 ls2 c1 c Hsp Hl Hls Hd E1 E2. pose proof (new_config_sync u0 rate Hsp Hl) as H0.
  assert (E : csteps u0 (ls1 ++ ls2) (new_config u0 rate (u_span u0)) = Some c)
    by (rewrite csteps_app, E1; exact E2).
  pose proof (csteps_sync u0 _ _ _ H0 Hls Hd E) as H.
  destruct (csteps_log u0 ls1 _ _ (new_config_log u0 rate _) E1) as [G1 _].
  destruct (csteps_log u0 ls2 _ _ G1 E2) as [G2 Hlog].
  split_and!; [apply view_ok, H|apply H|apply G2|done| |].
  - intros k o Hk. apply (lg_did _ G1). by exists Done.
  - intros k o Hk (p & Hp & _)%(lg_did _ G1). by rewrite Hk in Hp.
Qed.

(** The number of probes of [m] that have been answered. *)
Definition answered (m : gmap Z request) : Z := n_received (map_to_list m).*2.

Lemma span_report_counts u0 i m :
  u_serverSide u0 = false ->
  let r := span_report u0 i m in
  Timestamp r = i64 (i * u_span u0) /\ Sent r = Z.of_nat (size m) /\ ReceivedN r = answered m /\
  Loss r = Z.of_nat (size m) - answered m.
Proof.
  intros Hc. cbn zeta. unfold span_report, udpStat.report. rewrite Hc.
  set (b := set_requests m _). cbn [Timestamp Sent ReceivedN Loss]. split; [done|].
  destruct (decide (m = ∅)) as [->|Hm]; [by split_and!|].
  destruct (stat_over_counts b (map_to_list m).*2 Hm eq_refl (request_order_self b)) as (H1 & H2 & _ & H4 & _).
  unfold bucket.stat. cbn [b set_requests b_requests] in *. rewrite H1, H2 in H4.
  unfold answered. rewrite H1, H2. split_and!; [done..|lia].
Qed.

Lemma reports_due_in u0 r log L :
  r ∈ reports_due u0 log L ->
  exists l1 l2 i, log = l1 ++ Reported i :: l2 /\ 0 < i /\
    r = span_report u0 i (span_probes (foldl (replay_entry (u_span u0)) L l1) i).
Proof.
  revert L. induction log as [|e log IH]; intros L Hr; [by apply elem_of_nil in Hr|].
  assert (Hrec : r ∈ reports_due u0 log (replay_entry (u_span u0) L e) ->
    exists l1 l2 i, e :: log = l1 ++ Reported i :: l2 /\ 0 < i /\
      r = span_report u0 i (span_probes (foldl (replay_entry (u_span u0)) L l1) i)).
  { intros Hin. destruct (IH _ Hin) as (l1 & l2 & i & -> & Hi & ->). by exists (e :: l1), l2, i. }
  destruct e as [k o|i|i]; cbn [reports_due] in Hr; [by apply Hrec| |by apply Hrec].
  apply elem_of_app in Hr as [Hr|Hr]; [|by apply Hrec]. exists [], log, i.
  destruct (Z.ltb_spec 0 i); [|by apply elem_of_nil in Hr]. destruct (u_sender u0); [|by apply elem_of_nil in Hr].
  by apply list_elem_of_singleton in Hr as ->.
Qed.

(** C3: a client's reports are exact under concurrency: in every disciplined
    interleaving each report is that of the ledger at the moment the
    processor reads the bucket: [Sent] is the number of probes of that span
    whose [Put] has taken effect and which have not been deleted, [Received]
    those of them answered by then, and the rest is lost; and a report is
    made whenever a bucket has been read, if there is a [Sender]. *)
Theorem concurrent_client_reports :
  forall u0 rate ls c,
    u_serverSide u0 = false -> 0 < u_span u0 -> 0 <= u_lastID u0 -> Forall label_ok ls ->
    disciplined_run u0 ls (new_config u0 rate (u_span u0)) ->
    csteps u0 ls (new_config u0 rate (u_span u0)) = Some c ->
    c_out c = reports_due u0 (c_log c) ∅ /\
    Forall (fun r => exists l1 l2 i, c_log c = l1 ++ Reported i :: l2 /\
      let m := span_probes (ledger_after (u_span u0) l1) i in
      Timestamp r = i64 (i * u_span u0) /\ Sent r = Z.of_nat (size m) /\ ReceivedN r = answered m /\
      Loss r = Z.of_nat (size m) - answered m) (c_out c).
Proof.
  intros u0 rate ls c Hc Hsp Hl Hls Hd E.
  destruct (csteps_out u0 Hc ls _ _ (new_config_sync u0 rate Hsp Hl) (new_config_out u0 rate _) Hls Hd E) as [Ho _].
  split; [done|]. apply Forall_forall. rewrite Ho.
  intros r (l1 & l2 & i & Hlog & _ & ->)%reports_due_in. exists l1, l2, i. split; [done|].
  by apply span_report_counts.
Qed.

(** ** What the discipline excludes *)

(** A section that writes to a bucket which has left the collection. *)
Lemma orphan_write u0 k o l c :
  cfg_ok u0 c -> c_threads c !! k = Some (o, Write l) -> fix_section o (Write l) = false ->
  (forall i, cb_map (c_cb c) !! i <> Some l) ->
  exists c', cstep u0 (Run k) c = Some c' /\ c_threads c' !! k = Some (o, Done) /\
    c_out c' = c_out c /\ c_log c' = c_log c ++ [Did k o] /\
    forall j x, probe (view (c_cb c')) j x = probe (view (c_cb c)) j x.
Proof.
  intros H Hk Hf Hl. destruct (ck_threads _ _ H k o _ Hk) as [Ho Hst Hr Hp].
  destruct (op_number _ _ (ck_cb _ _ H) Ho Hr) as (Hdiv & _ & _). cbn [cstep]. rewrite Hk. cbn [mbind option_bind].
  assert (op_step k o (Write l) (c_cb c) = Some (true, Done, on_bucket l (bucket_write o) (c_cb c))) as ->.
  { unfold op_step. rewrite Hdiv. by destruct o. }
  cbn [mbind option_bind]. eexists. split_and!; [done|cbn; by rewrite lookup_insert_eq|done|done|].
  cbn [c_cb]. destruct (on_bucket_ok (c_cb c) l _ (bucket_write o) (ck_cb _ _ H) Hp (bucket_write_touches o))
    as (_ & _ & b & _ & Hv). intros j x. by rewrite Hv, decide_False.
Qed.

(** The schedule: [Put] creates the bucket of its span, the processor reports
    and removes it, [Put] writes its request into it. *)
Definition race (o : op) (now : Z) : list label := [Call 1 o; Run 1; Tick now; Proc; Proc; Run 1].

Lemma race_before_write u0 rate cp sp s t now :
  u_serverSide u0 = false -> u_lastID u0 = 0 -> 0 < u_span u0 -> u_span u0 <= t < 2 ^ 63 ->
  exists c, csteps u0 (take 5 (race (Put cp sp s t) now)) (new_config u0 rate (u_span u0)) = Some c /\
    c_threads c = {[ 1%nat := (Put cp sp s t, Write 0) ]} /\ cb_map (c_cb c) = ∅ /\
    c_log c = [Reported (t / u_span u0); Removed (t / u_span u0)] /\
    c_out c = if u_sender u0 then [span_report u0 (t / u_span u0) ∅] else [].
Proof.
  intros Hc Hl Hs Ht. set (i := t / u_span u0).
  assert (Hi : 0 < i) by (apply Z.div_str_pos; lia).
  assert (Hdiv : go_div t (u_span u0) = Some i) by (apply go_div_pos; unfold in_i64; lia).
  unfold race, new_config. cbn [take csteps cstep c_threads]. rewrite lookup_empty. cbn [mbind option_bind csteps cstep c_threads].
  rewrite insert_empty, lookup_singleton_eq. cbn [mbind option_bind].
  unfold op_step, unlocked. cbn [c_cb cb_span new_cbuckets op_time cb_writer]. rewrite Hdiv. cbn [mbind option_bind].
  unfold get_or_create at 1. cbn [cb_map new_cbuckets]. rewrite lookup_empty. cbn [mbind option_bind csteps cstep].
  unfold tick_step, unlocked, oldest_loc. cbn [c_proc c_cb cb_writer cb_map cb_minID cb_objs c_lastID new_cbuckets].
  rewrite bool_decide_false by apply insert_non_empty. cbn.
  rewrite Hl, lookup_insert_eq. cbn. rewrite !lookup_insert_eq. cbn. rewrite (proj2 (Z.leb_gt i 0)) by done. cbn [mbind option_bind].
  unfold proc_step at 2, drop, unlocked. cbn [c_proc c_cb cb_objs]. rewrite lookup_insert_eq. cbn [mbind option_bind].
  rewrite Hc. cbn. eexists. split; [done|]. cbn [c_threads c_cb c_out cb_map remove_loc].
  split_and!; [apply insert_insert_eq|by rewrite delete_insert_eq|done|].
  rewrite (proj2 (Z.ltb_lt 0 i)) by done. destruct (u_sender u0); [|done]. cbn [andb app]. f_equal.
  by rewrite (report_of_requests u0 Hc _ i).
Qed.

(** C15: before the first report there is no delay, and the discipline can be
    broken: if the processor ticks between the two sections of a [Put] into a
    new span, it reports that span with nothing sent and removes it, and the
    probe is then written into a bucket nobody can reach: the [Put] returns, the
    probe is in no span, and since the span has been reported no later report
    contains it. *)
Theorem first_report_loses_put :
  forall u0 rate cp sp s t now,
    u_serverSide u0 = false -> u_lastID u0 = 0 -> 0 < u_span u0 -> u_span u0 <= t < 2 ^ 63 ->
    exists c, csteps u0 (race (Put cp sp s t) now) (new_config u0 rate (u_span u0)) = Some c /\
      c_threads c !! 1%nat = Some (Put cp sp s t, Done) /\
      (forall i x, probe (view (c_cb c)) i x = None) /\
      c_out c = (if u_sender u0 then [span_report u0 (t / u_span u0) ∅] else []) /\
      ~ disciplined_run u0 (race (Put cp sp s t) now) (new_config u0 rate (u_span u0)).
Proof.
  intros u0 rate cp sp s t now Hc Hl Hs Ht.
  destruct (race_before_write u0 rate cp sp s t now Hc Hl Hs Ht) as (c1 & E1 & Ht1 & Hm1 & Hl1 & Ho1).
  assert (Hlb : Forall label_ok (race (Put cp sp s t) now))
    by (repeat constructor; cbn; try done; unfold ts_ok; lia).
  assert (H1 : cfg_ok u0 c1) by (eapply csteps_ok; [apply new_config_ok; [done|lia]|by apply Forall_take|exact E1]).
  destruct (orphan_write u0 1 (Put cp sp s t) 0 c1 H1) as (c & E & Hk & Ho & Hlog & Hp);
    [by rewrite Ht1, lookup_singleton_eq|done|intros i; by rewrite Hm1, lookup_empty|].
  assert (Hrun : csteps u0 (race (Put cp sp s t) now) (new_config u0 rate (u_span u0)) = Some c).
  { change (race (Put cp sp s t) now) with (take 5 (race (Put cp sp s t) now) ++ [Run 1]).
    rewrite csteps_app, E1. cbn [mbind option_bind csteps]. by rewrite E. }
  assert (Hnone : forall i x, probe (view (c_cb c)) i x = None).
  { intros i x. rewrite Hp. unfold probe. by rewrite view_lookup, Hm1, lookup_empty. }
  exists c. split_and!; [done|done|done|by rewrite Ho, Ho1|]. intros Hd.
  pose proof (csteps_sync u0 _ _ _ (new_config_sync u0 rate Hs ltac:(lia)) Hlb Hd Hrun) as [_ _ _ HR].
  specialize (HR (t / u_span u0) s). rewrite Hnone, Hlog, ledger_after_snoc in HR. cbn [replay_entry spec] in HR.
  unfold upsert in HR. by rewrite lookup_insert_eq in HR.
Qed.

(** ** Witnesses *)

Definition is_done (p : pc) : bool := match p with Done => true | _ => false end.

(** [disciplined] as a check. *)
Definition disciplined_b (lb : label) (c : config) : bool :=
  match lb with
  | Call _ o =>
      forallb (fun kt => is_done kt.2.2 || negb (op_seq kt.2.1 =? op_seq o)) (map_to_list (c_threads c))
  | Proc =>
      match c_proc c with
      | PDrop i | PRemove i =>
          forallb (fun kt => is_done kt.2.2 ||
                             negb (op_span (c_cb c) kt.2.1 =? i) && negb (op_span (c_cb c) kt.2.1 =? i + 1))
            (map_to_list (c_threads c))
      | _ => true
      end
  | _ => true
  end.

Fixpoint run_disciplined (u0 : udpStat) (ls : list label) (c : config) : bool :=
  match ls with
  | [] => true
  | lb :: ls => disciplined_b lb c && match cstep u0 lb c with Some c' => run_disciplined u0 ls c' | None => true end
  end.

Lemma flight_check (f : op -> bool) c :
  forallb (fun kt => is_done kt.2.2 || f kt.2.1) (map_to_list (c_threads c)) = true ->
  forall k o, in_flight c k o -> f o = true.
Proof.
  intros H k o (p & Hp & Hd). rewrite forallb_forall in H.
  specialize (H (k, (o, p))). cbn in H. destruct p; try done; apply H;
    by apply list_elem_of_In, elem_of_map_to_list.
Qed.

Lemma disciplined_b_sound lb c : disciplined_b lb c = true -> disciplined lb c.
Proof.
  destruct lb as [k o|k|now|]; cbn; [|done|done|].
  - intros H k' o' Hf. pose proof (flight_check (fun o' => negb (op_seq o' =? op_seq o)) c H k' o' Hf) as Hn.
    cbn in Hn. apply negb_true_iff, Z.eqb_neq in Hn. done.
  - assert (Hi : forall i, forallb (fun kt => is_done kt.2.2 ||
        negb (op_span (c_cb c) kt.2.1 =? i) && negb (op_span (c_cb c) kt.2.1 =? i + 1))
        (map_to_list (c_threads c)) = true ->
      forall k o, in_flight c k o -> op_span (c_cb c) o <> i /\ op_span (c_cb c) o <> i + 1).
    { intros i H k o Hf. pose proof (flight_check (fun o => negb (op_span (c_cb c) o =? i) &&
        negb (op_span (c_cb c) o =? i + 1)) c H k o Hf) as Hn. cbn in Hn.
      apply andb_true_iff in Hn as [H1 H2]. by apply negb_true_iff, Z.eqb_neq in H1; apply negb_true_iff, Z.eqb_neq in H2. }
    by destruct (c_proc c); try done; apply Hi.
Qed.

Lemma run_disciplined_sound u0 ls : forall c, run_disciplined u0 ls c = true -> disciplined_run u0 ls c.
Proof.
  induction ls as [|lb ls IH]; intros c H; [done|]. apply andb_true_iff in H as [H1 H2].
  split; [by apply disciplined_b_sound|]. intros c' E. rewrite E in H2. by apply IH.
Qed.

Lemma concurrent_linearizable_witness :
  buckets_ok (view (c_cb sample_run)) /\
  refines (view (c_cb sample_run)) (ledger_after 1000 (c_log sample_run)) /\
  NoDup (omap did_id (c_log sample_run)) /\ (exists l2, c_log sample_run = c_log sample_run ++ l2) /\
  (forall k o, c_threads sample_run !! k = Some (o, Done) -> Did k o ∈ c_log sample_run) /\
  (forall k o, c_threads sample_run !! k = None -> Did k o ∉ c_log sample_run).
Proof.
  apply (concurrent_linearizable sample_stat 5000 sample_schedule [] sample_run sample_run);
    [reflexivity|discriminate| | |vm_compute; reflexivity|reflexivity].
  - repeat constructor; cbn; try discriminate; unfold ts_ok; lia.
  - apply run_disciplined_sound. vm_compute. reflexivity.
Defined.


Lemma concurrent_client_reports_witness :
  c_out sample_run = reports_due sample_stat (c_log sample_run) ∅ /\
  Forall (fun r => exists l1 l2 i, c_log sample_run = l1 ++ Reported i :: l2 /\
    let m := span_probes (ledger_after (u_span sample_stat) l1) i in
    Timestamp r = i64 (i * u_span sample_stat) /\ Sent r = Z.of_nat (size m) /\ ReceivedN r = answered m /\
    Loss r = Z.of_nat (size m) - answered m) (c_out sample_run).
Proof.
  apply (concurrent_client_reports sample_stat 5000 sample_schedule sample_run);
    [reflexivity|reflexivity|discriminate| | |vm_compute; reflexivity].
  - repeat constructor; cbn; try discriminate; unfold ts_ok; lia.
  - apply run_disciplined_sound. vm_compute. reflexivity.
Defined.

Lemma first_report_loses_put_witness :
  exists c, csteps sample_stat (race (Put 43500 43500 7 1500) 1600) (new_config sample_stat 5000 1000) = Some c /\
    c_threads c !! 1%nat = Some (Put 43500 43500 7 1500, Done) /\
    (forall i x, probe (view (c_cb c)) i x = None) /\
    c_out c = [span_report sample_stat 1 ∅] /\
    ~ disciplined_run sample_stat (race (Put 43500 43500 7 1500) 1600) (new_config sample_stat 5000 1000).
Proof.
  apply (first_report_loses_put sample_stat 5000 43500 43500 7 1500 1600);
    [reflexivity|reflexivity|reflexivity|split; [discriminate|reflexivity]].
Defined.
