(* ===== verification/Lifecycle.v ===== *)
(** * How a prober stops ([Run] of [ping/pinger.go], [ping6/pinger.go],
      [lidar/scanner.go])

    [Run] starts a send loop, a receive loop and the processor, which share the
    statistics. At a limit, or when the context is cancelled, the send loop
    closes [stopCh] and sleeps for [Delay]; the receive loop returns when it sees
    the channel closed; [Run] returns. Here these goroutines are a step relation
    over what the tool itself does in its loops, which is an interface with laws,
    and the theorems say what the protocol guarantees and what it does not. The
    tools are instances in PingRun.v and LidarRun.v.

    Each step carries the time at which it happens, and times do not decrease. *)

From stdpp Require Import relations.
From S2P Require Import Prelude UdpStat.
Local Open Scope Z_scope.

(** ** What a tool contributes *)

(** [S] is what the goroutines of the tool share, the position in the body of
    the send loop included; [W] the answers the send loop gets, [D] a datagram.
    [at_top]: the send loop is at its [select]; [limit]: one of the limits is
    reached, given the time since the start; [work]: the next piece of the send
    loop; [handle]: a datagram is processed; [tick]: the processor reports.
    [None] is a panic. *)
Class Prober (S W D : Type) := {
  at_top : S -> bool;
  limit : Z -> S -> bool;
  work : Z -> W -> S -> option S;
  handle : Z -> D -> S -> option S;
  tick : Z -> S -> option S;
  reports : S -> list StatResult;
  delay : Z;
  span : Z;
  (** [Run] returns the first result of either loop ([return <-done]), or else
      when the send loop returns. *)
  first_result : bool;
  (** An error of a read that is no timeout ends the receive loop. *)
  read_error_ends : bool
}.

(** Only the processor reports. *)
Class ProberLaws (S W D : Type) `{Prober S W D} : Prop := {
  work_reports : forall t a s s', work t a s = Some s' -> reports s' = reports s;
  handle_reports : forall t d s s', handle t d s = Some s' -> reports s' = reports s;
  delay_nonneg : 0 <= delay;
  span_nonneg : 0 <= span
}.

(** ** The goroutines *)

Inductive sender := Sending | Asleep (until : Z) | SendOver.

(** The receive loop: at its [select], in a read, or returned. *)
Inductive receiver := Looking | Reading | RecvOver.

(** [c_stop] is the time at which [stopCh] was closed; [c_proc] the earliest
    time of the next tick, [None] after the processor has returned; [c_results]
    the channel [done], where [true] is an error; [c_ret] what [Run] returned;
    [c_closed]: the connection has been closed; [c_late] counts the datagrams
    handled after [stopCh] was closed, and no step reads it. *)
Record ctl {S : Type} := mkCtl {
  c_state : S;
  c_start : Z;
  c_now : Z;
  c_ctx : bool;
  c_stop : option Z;
  c_send : sender;
  c_recv : receiver;
  c_proc : option Z;
  c_results : list bool;
  c_ret : option bool;
  c_closed : bool;
  c_late : nat
}.
Arguments ctl : clear implicits.
Arguments mkCtl {S}.

Section protocol.
Context {S W D : Type} `{HP : Prober S W D}.
Abbreviation ctl := (ctl S).

(** [Run] has opened its sockets and started its goroutines. *)
Definition started (s : S) (t : Z) : ctl :=
  mkCtl s t t false None Sending Looking (Some (t + delay)) [] None false 0.

(** A step of the send loop, of the receive loop, of the processor. *)
Definition on_send (t : Z) (s : S) (stop : option Z) (sn : sender) (c : ctl) : ctl :=
  mkCtl s (c_start c) t (c_ctx c) stop sn (c_recv c) (c_proc c) (c_results c) (c_ret c) (c_closed c) (c_late c).

Definition on_recv (t : Z) (s : S) (r : receiver) (late : nat) (c : ctl) : ctl :=
  mkCtl s (c_start c) t (c_ctx c) (c_stop c) (c_send c) r (c_proc c) (c_results c) (c_ret c) (c_closed c)
    (c_late c + late).

Definition on_proc (t : Z) (s : S) (next : option Z) (c : ctl) : ctl :=
  mkCtl s (c_start c) t (c_ctx c) (c_stop c) (c_send c) (c_recv c) next (c_results c) (c_ret c) (c_closed c)
    (c_late c).

(** A loop returns: if [Run] waits for either, its result goes to [done], after
    its deferred call has closed the connection. *)
Definition finish (result : bool) (c : ctl) : ctl :=
  mkCtl (c_state c) (c_start c) (c_now c) (c_ctx c) (c_stop c) (c_send c) (c_recv c) (c_proc c)
    (if first_result then c_results c ++ [result] else c_results c) (c_ret c) (first_result || c_closed c)
    (c_late c).

(** [Run] returns; its deferred calls close what is open. *)
Definition return_with (t : Z) (result : bool) (c : ctl) : ctl :=
  mkCtl (c_state c) (c_start c) t (c_ctx c) (c_stop c) (c_send c) (c_recv c) (c_proc c) (c_results c)
    (Some result) true (c_late c).

Definition is_stopped (c : ctl) : bool := bool_decide (c_stop c <> None).

Inductive move (t : Z) (c : ctl) : ctl -> Prop :=
| Cancel :
    move t c (mkCtl (c_state c) (c_start c) t true (c_stop c) (c_send c) (c_recv c) (c_proc c) (c_results c)
                (c_ret c) (c_closed c) (c_late c))
| Work a s :
    c_send c = Sending ->
    (at_top (c_state c) = true -> c_ctx c = false /\ limit (t - c_start c) (c_state c) = false) ->
    work t a (c_state c) = Some s ->
    move t c (on_send t s (c_stop c) Sending c)
| Stop :
    c_send c = Sending -> at_top (c_state c) = true ->
    c_ctx c = true \/ limit (t - c_start c) (c_state c) = true ->
    move t c (on_send t (c_state c) (Some t) (Asleep (t + delay)) c)
| Wake until :
    c_send c = Asleep until -> until <= t ->
    move t c (finish false (on_send t (c_state c) (c_stop c) SendOver c))
| Read :
    c_recv c = Looking -> c_stop c = None ->
    move t c (on_recv t (c_state c) Reading 0 c)
| SeeStop :
    c_recv c = Looking -> c_stop c <> None ->
    move t c (finish false (on_recv t (c_state c) RecvOver 0 c))
| ReadTimeout :
    c_recv c = Reading ->
    move t c (on_recv t (c_state c) Looking 0 c)
| ReadError :
    c_recv c = Reading ->
    move t c (if read_error_ends then finish true (on_recv t (c_state c) RecvOver 0 c)
              else on_recv t (c_state c) Looking 0 c)
| Handle d s :
    c_recv c = Reading -> handle t d (c_state c) = Some s ->
    move t c (on_recv t s Looking (if is_stopped c then 1 else 0) c)
| Tick next s :
    c_proc c = Some next -> next <= t -> tick t (c_state c) = Some s ->
    move t c (on_proc t s (Some (next + span)) c)
| ProcOver next :
    c_proc c = Some next -> c_start c + delay < next -> c_ctx c = true ->
    move t c (on_proc t (c_state c) None c)
| Return result :
    c_ret c = None ->
    (if first_result then head (c_results c) = Some result else c_send c = SendOver /\ result = false) ->
    move t c (return_with t result c).

Definition step (c c' : ctl) : Prop := exists t, c_now c <= t /\ move t c c'.

Definition reachable (s : S) (t : Z) (c : ctl) : Prop := rtc step (started s t) c.

(** ** Invariant *)

(** Times, and the datagrams handled after the stop. *)
Record time_ok (c : ctl) : Prop := {
  ct_time : c_start c <= c_now c;
  ct_send : match c_send c with
            | Sending => c_stop c = None
            | Asleep u => exists v, c_stop c = Some v /\ u = v + delay
            | SendOver => exists v, c_stop c = Some v /\ v + delay <= c_now c
            end;
  ct_stop : match c_stop c with Some u => u <= c_now c | None => True end;
  ct_late : match c_recv c, c_stop c with
            | Reading, _ | _, None => c_late c = 0%nat
            | _, Some _ => (c_late c <= 1)%nat
            end;
  ct_proc : match c_proc c with Some n => c_start c + delay <= n | None => True end
}.

Definition over (c : ctl) : Prop := c_send c = SendOver \/ c_recv c = RecvOver.

(** What the loops left in [done], and what [Run] did with it. *)
Record done_ok (c : ctl) : Prop := {
  cd_results : first_result = true -> (c_results c <> [] <-> over c);
  cd_nil : first_result = true -> false ∈ c_results c -> c_stop c <> None;
  cd_closed : first_result = true -> c_results c <> [] -> c_closed c = true;
  cd_ret : forall r, c_ret c = Some r -> c_closed c = true /\
    if first_result then head (c_results c) = Some r else c_send c = SendOver /\ r = false
}.

Lemma started_ok s t : 0 <= delay -> time_ok (started s t) /\ done_ok (started s t).
Proof.
  intros Hd. split; split; cbn; try done; try lia.
  - intros _. split; [done|by intros [|]].
  - intros _ H. by apply not_elem_of_nil in H.
Qed.

Lemma finish_time r c : time_ok c -> time_ok (finish r c).
Proof. by intros [H1 H2 H3 H4 H5]. Qed.

Lemma finish_done r c c' :
  done_ok c -> c_results c' = c_results c -> c_ret c' = c_ret c -> c_closed c' = c_closed c ->
  over c' -> (c_send c = SendOver -> c_send c' = SendOver) -> (c_stop c <> None -> c_stop c' <> None) ->
  (r = false -> c_stop c' <> None) -> done_ok (finish r c').
Proof.
  intros [H1 H2 H3 H4] Er Et Ec Ho Hs Hst Hr.
  split; cbn [finish c_results c_ret c_closed c_send c_stop]; rewrite ?Er, ?Et, ?Ec.
  - intros ->. split; [|intros _; by destruct (c_results c)]. intros _. destruct Ho; [left|right]; done.
  - intros E. rewrite E. intros [Hin|Hin]%elem_of_app; [auto|]. apply list_elem_of_singleton in Hin. auto.
  - intros ->. done.
  - intros r' Hr'. destruct (H4 r' Hr') as [Hc Hres]. split; [rewrite Hc; apply orb_true_r|].
    destruct first_result; [|naive_solver]. by destruct (c_results c).
Qed.

(** A step that ends no loop. *)
Lemma same_done c c' :
  done_ok c -> c_results c' = c_results c -> c_ret c' = c_ret c -> c_closed c' = c_closed c ->
  (over c' <-> over c) -> (c_send c = SendOver -> c_send c' = SendOver) -> (c_stop c <> None -> c_stop c' <> None) ->
  done_ok c'.
Proof.
  intros [H1 H2 H3 H4] Er Et Ec Ho Hs Hst. split; rewrite ?Er, ?Et, ?Ec; auto.
  - intros E. rewrite (H1 E). by rewrite Ho.
  - intros r Hr. destruct (H4 r Hr) as [Hc Hres]. split; [done|]. destruct first_result; naive_solver.
Qed.

Context `{HL : !ProberLaws S W D}.

Lemma send_later t c : c_now c <= t -> time_ok c ->
  match c_send c with
  | Sending => c_stop c = None
  | Asleep u => exists v, c_stop c = Some v /\ u = v + delay
  | SendOver => exists v, c_stop c = Some v /\ v + delay <= t
  end.
Proof. intros Ht [_ H _ _ _]. destruct (c_send c); [done|done|]. destruct H as (v & ? & ?). exists v. split; [done|lia]. Qed.

Lemma on_send_time t s sn c :
  time_ok c -> c_now c <= t ->
  match sn with
  | Sending => c_stop c = None
  | Asleep _ => False
  | SendOver => exists u, c_send c = Asleep u /\ u <= t
  end -> time_ok (on_send t s (c_stop c) sn c).
Proof.
  intros [H1 H2 H3 H4 H5] Ht Hsn. split; cbn; try done; [lia| |].
  - destruct sn; [done|done|]. destruct Hsn as (u & Hs & Hu). rewrite Hs in H2. destruct H2 as (v & ? & ->). eauto.
  - destruct (c_stop c); [lia|done].
Qed.

Lemma on_recv_time t s r late c :
  time_ok c -> c_now c <= t ->
  match r, c_recv c with
  | Reading, _ => c_stop c = None /\ late = 0%nat
  | _, Reading => (late <= if is_stopped c then 1 else 0)%nat
  | _, _ => late = 0%nat
  end -> time_ok (on_recv t s r late c).
Proof.
  intros H Ht Hr. pose proof (send_later t c Ht H) as Hs. destruct H as [H1 H2 H3 H4 H5].
  split; cbn; try done; [lia|destruct (c_stop c); [lia|done]|].
  unfold is_stopped in Hr. destruct r, (c_recv c), (c_stop c); cbn in Hr; naive_solver lia.
Qed.

Lemma move_time t c c' : time_ok c -> c_now c <= t -> move t c c' -> time_ok c'.
Proof.
  intros H Ht Hm. pose proof (delay_nonneg (ProberLaws := HL)) as Hd. pose proof (span_nonneg (ProberLaws := HL)) as Hsp.
  pose proof (send_later t c Ht H) as Hs. destruct Hm as [|a s Hsn _ _|Hsn Ht' _|u Hsn Hu|Hr Hst|Hr Hst|Hr|Hr|d s Hr _|n s Hp Hn _|n Hp Hn _|r _ _].
  - destruct H as [H1 H2 H3 H4 H5]. split; cbn; try done; [lia|destruct (c_stop c); [lia|done]].
  - apply on_send_time; [done..|]. by rewrite Hsn in Hs.
  - destruct H as [H1 H2 H3 H4 H5]. rewrite Hsn in Hs. rewrite Hs in H4. split; cbn; try done; try lia.
    + by exists t.
    + destruct (c_recv c); lia.
  - apply finish_time, on_send_time; [done..|]. by exists u.
  - by apply on_recv_time.
  - apply finish_time, on_recv_time; [done..|]. by rewrite Hr.
  - apply on_recv_time; [done..|]. rewrite Hr. destruct (is_stopped c); lia.
  - destruct read_error_ends; [apply finish_time|]; (apply on_recv_time; [done..|]; rewrite Hr; destruct (is_stopped c); lia).
  - apply on_recv_time; [done..|]. by rewrite Hr.
  - destruct H as [H1 H2 H3 H4 H5]. rewrite Hp in H5. split; cbn; try done; [lia|destruct (c_stop c); [lia|done]|lia].
  - destruct H as [H1 H2 H3 H4 H5]. split; cbn; try done; [lia|destruct (c_stop c); [lia|done]].
  - destruct H as [H1 H2 H3 H4 H5]. split; cbn; try done; [lia|destruct (c_stop c); [lia|done]].
Qed.

Lemma move_done t c c' : time_ok c -> done_ok c -> move t c c' -> done_ok c'.
Proof.
  intros Hc H Hm. pose proof (ct_send _ Hc) as Hs.
  destruct Hm as [|a s Hsn _ _|Hsn Ht' _|u Hsn Hu|Hr Hst|Hr Hst|Hr|Hr|d s Hr _|n s Hp Hn _|n Hp Hn _|r Hr Hres].
  1, 2, 3, 5, 7, 9, 10, 11: apply (same_done c); try done; unfold over; cbn; try congruence; intuition congruence.
  - apply (finish_done false c); try done; cbn; [by left|]. rewrite Hsn in Hs. destruct Hs as (v & -> & _). done.
  - apply (finish_done false c); try done; cbn. by right.
  - assert (Hsame : done_ok (on_recv t (c_state c) Looking 0 c))
      by (apply (same_done c); try done; unfold over; cbn; intuition congruence).
    destruct read_error_ends; [|done]. apply (finish_done true c); try done; cbn. by right.
  - destruct H as [H1 H2 H3 H4]. split; cbn; try done. intros r' [= <-]. split; [done|]. by destruct first_result.
Qed.

Lemma reachable_ok s t c : reachable s t c -> time_ok c /\ done_ok c /\ c_start c = t.
Proof.
  pose proof (delay_nonneg (ProberLaws := HL)) as Hd.
  intros Hr. unfold reachable in Hr. remember (started s t) as c0 eqn:E.
  assert (H0 : time_ok c0 /\ done_ok c0 /\ c_start c0 = t) by (subst; split_and!; [by apply started_ok..|done]).
  clear E. induction Hr as [|c0 c1 c2 (t1 & Ht & Hm) _ IH]; [done|]. apply IH. destruct H0 as (H1 & H2 & H3).
  split_and!; [by eapply move_time|by eapply move_done|]. rewrite <- H3. clear -Hm.
  destruct Hm; try done. by destruct read_error_ends.
Qed.

(** ** What the protocol gives *)

(** After the stop at most one more datagram is handled: the one whose read had
    begun. *)
Lemma at_most_one_late s t c : reachable s t c -> (c_late c <= 1)%nat.
Proof.
  intros (H & _)%reachable_ok. destruct H as [_ _ _ H _]. destruct (c_recv c), (c_stop c); lia.
Qed.

(** When [Run] returns, the connection is closed, one of the loops is over, and
    it returns nil only after the stop. *)
Lemma returned s t c r :
  reachable s t c -> c_ret c = Some r ->
  c_closed c = true /\ over c /\ (r = false -> c_stop c <> None).
Proof.
  intros (Hc & [H1 H2 H3 H4] & _)%reachable_ok Hr. destruct (H4 r Hr) as [Hcl Hres]. split; [done|].
  destruct first_result.
  - split; [apply H1; [done|]; by destruct (c_results c)|]. intros ->. apply H2; [done|].
    destruct (c_results c); [done|]. injection Hres as ->. by left.
  - destruct Hres as [Hs ->]. split; [by left|]. intros _. pose proof (ct_send _ Hc) as Hs'. rewrite Hs in Hs'.
    destruct Hs' as (v & -> & _). done.
Qed.

(** A tool whose [Run] is the send loop returns at least [delay] after the
    stop. *)
Lemma waits_for_delay s t c r :
  first_result = false -> reachable s t c -> c_ret c = Some r ->
  r = false /\ exists u, c_stop c = Some u /\ u + delay <= c_now c.
Proof.
  intros Hf (Hc & [_ _ _ H4] & _)%reachable_ok Hr. destruct (H4 r Hr) as [_ Hres]. rewrite Hf in Hres.
  destruct Hres as [Hs ->]. split; [done|]. pose proof (ct_send _ Hc) as Hs'. by rewrite Hs in Hs'.
Qed.

(** A tool whose [Run] takes the first result does not wait: from any state
    after the stop, before a loop has returned, [Run] can return at once,
    whatever the delay, while the send loop is asleep. *)
Lemma returns_at_once s t c :
  first_result = true -> reachable s t c -> c_stop c <> None -> c_send c <> SendOver -> c_recv c <> RecvOver ->
  c_ret c = None ->
  exists c', rtc step c c' /\ c_ret c' = Some false /\ c_now c' = c_now c /\ c_state c' = c_state c /\
    exists u, c_send c' = Asleep u.
Proof.
  intros Hf (Hc & Hd & _)%reachable_ok Hst Hsn Hrv Hret. pose proof (ct_send _ Hc) as Hs.
  assert (Has : exists u, c_send c = Asleep u) by (destruct (c_send c); [congruence|by eexists|done]).
  assert (Hres : c_results c = []).
  { destruct (c_results c) eqn:E; [done|]. destruct (proj1 (cd_results _ Hd Hf)); [by rewrite E|done|done]. }
  assert (Hlook : exists c1, rtc step c c1 /\ c_recv c1 = Looking /\ c_now c1 = c_now c /\ c_state c1 = c_state c /\
            c_send c1 = c_send c /\ c_stop c1 = c_stop c /\ c_results c1 = [] /\ c_ret c1 = None).
  { destruct (c_recv c) eqn:Hr; [by exists c| |done].
    exists (on_recv (c_now c) (c_state c) Looking 0 c). split_and!; try done.
    apply rtc_once. exists (c_now c). split; [lia|]. by apply ReadTimeout. }
  destruct Hlook as (c1 & R1 & Hr1 & Hn1 & Hs1 & Hsn1 & Hst1 & Hres1 & Hret1).
  set (c2 := finish false (on_recv (c_now c1) (c_state c1) RecvOver 0 c1)).
  exists (return_with (c_now c2) false c2). split_and!; try done; [|destruct Has as [u Hu]; exists u; cbn; congruence].
  etrans; [exact R1|]. eapply rtc_l; [|apply rtc_once].
  - exists (c_now c1). split; [lia|]. apply SeeStop; [done|congruence].
  - exists (c_now c2). split; [apply Z.le_refl|]. apply Return; [done|]. rewrite Hf. cbn. by rewrite Hf, Hres1.
Qed.

(** A step reports nothing, unless it is a tick, which comes [delay] after the
    start at the earliest. *)
Lemma step_reports_later c c' :
  time_ok c -> step c c' ->
  c_now c <= c_now c' /\ (reports (c_state c') = reports (c_state c) \/ c_start c + delay <= c_now c').
Proof.
  intros Hc (t & Ht & Hm). pose proof (ct_proc _ Hc) as Hp.
  destruct Hm as [| | | | | | | | |n s Hn Hnt _| |]; cbn; try (split; [done|by left]).
  - split; [done|]. left. by eapply work_reports.
  - by destruct read_error_ends; cbn; (split; [done|left]).
  - split; [done|]. left. by eapply handle_reports.
  - rewrite Hn in Hp. split; [done|]. right. lia.
Qed.

Lemma no_early_report s t c :
  reachable s t c -> reports (c_state c) = reports s \/ t + delay <= c_now c.
Proof.
  intros Hr. unfold reachable in Hr. remember (started s t) as c0 eqn:E.
  assert (H0 : reachable s t c0 /\ (reports (c_state c0) = reports s \/ t + delay <= c_now c0))
    by (subst; split; [apply rtc_refl|by left]).
  clear E. induction Hr as [|c0 c1 c2 Hs _ IH]; [apply H0|]. apply IH. destruct H0 as [R H0].
  split; [by eapply rtc_r|]. destruct (reachable_ok _ _ _ R) as (Hc & _ & <-).
  destruct (step_reports_later _ _ Hc Hs) as [Hn [Hrep|Hlate]]; [rewrite Hrep|by right].
  destruct H0; [by left|right; lia].
Qed.

(** Once the receive loop has returned after a stop, only the processor changes
    what is shared. *)
Definition tick_step (s s' : S) : Prop := exists t, tick t s = Some s'.

Lemma only_ticks c c' :
  rtc step c c' -> c_recv c = RecvOver -> c_send c <> Sending ->
  rtc tick_step (c_state c) (c_state c') /\ c_recv c' = RecvOver /\ c_send c' <> Sending.
Proof.
  intros R. induction R as [c|c c1 c2 (t & _ & Hm) _ IH]; intros Hr Hs; [by split|].
  assert (H : rtc tick_step (c_state c) (c_state c1) /\ c_recv c1 = RecvOver /\ c_send c1 <> Sending).
  { destruct Hm as [|a s Hsn _ _|Hsn Ht' _|u Hsn Hu|Hr1 Hst|Hr1 Hst|Hr1|Hr1|d s Hr1 _|n s Hp Hn Ht|n Hp Hn _|r Hr1 Hres];
      cbn; try (by split); try congruence. split; [|by split]. apply rtc_once. by exists t. }
  destruct H as (R1 & H1 & H2). destruct (IH H1 H2) as (R2 & ? & ?). split; [by etrans|by split].
Qed.

(** ** Running the relation *)

Inductive action :=
| DoCancel | DoWork (a : W) | DoStop | DoWake | DoRead | DoSeeStop | DoTimeout | DoError | DoHandle (d : D)
| DoTick | DoProcOver | DoReturn.

(** The move an action names, if it is possible. *)
Definition act (t : Z) (x : action) (c : ctl) : option ctl :=
  let when (b : bool) (r : ctl) := if b then Some r else None in
  match x with
  | DoCancel =>
      Some (mkCtl (c_state c) (c_start c) t true (c_stop c) (c_send c) (c_recv c) (c_proc c) (c_results c)
              (c_ret c) (c_closed c) (c_late c))
  | DoWork a =>
      match c_send c, at_top (c_state c) && (c_ctx c || limit (t - c_start c) (c_state c)) with
      | Sending, false => s ← work t a (c_state c); Some (on_send t s (c_stop c) Sending c)
      | _, _ => None
      end
  | DoStop =>
      match c_send c with
      | Sending => when (at_top (c_state c) && (c_ctx c || limit (t - c_start c) (c_state c)))
                     (on_send t (c_state c) (Some t) (Asleep (t + delay)) c)
      | _ => None
      end
  | DoWake =>
      match c_send c with
      | Asleep u => when (u <=? t) (finish false (on_send t (c_state c) (c_stop c) SendOver c))
      | _ => None
      end
  | DoRead => match c_recv c with Looking => when (negb (is_stopped c)) (on_recv t (c_state c) Reading 0 c) | _ => None end
  | DoSeeStop =>
      match c_recv c with
      | Looking => when (is_stopped c) (finish false (on_recv t (c_state c) RecvOver 0 c))
      | _ => None
      end
  | DoTimeout => match c_recv c with Reading => Some (on_recv t (c_state c) Looking 0 c) | _ => None end
  | DoError =>
      match c_recv c with
      | Reading => Some (if read_error_ends then finish true (on_recv t (c_state c) RecvOver 0 c)
                         else on_recv t (c_state c) Looking 0 c)
      | _ => None
      end
  | DoHandle d =>
      match c_recv c with
      | Reading => s ← handle t d (c_state c); Some (on_recv t s Looking (if is_stopped c then 1 else 0)%nat c)
      | _ => None
      end
  | DoTick =>
      next ← c_proc c;
      if next <=? t then s ← tick t (c_state c); Some (on_proc t s (Some (next + span)) c) else None
  | DoProcOver =>
      next ← c_proc c; when ((c_start c + delay <? next) && c_ctx c) (on_proc t (c_state c) None c)
  | DoReturn =>
      match c_ret c with
      | Some _ => None
      | None =>
          if first_result then r ← head (c_results c); Some (return_with t r c)
          else match c_send c with SendOver => Some (return_with t false c) | _ => None end
      end
  end.

Lemma act_sound t x c c' : act t x c = Some c' -> move t c c'.
Proof.
  destruct x; cbn [act].
  - intros [= <-]. apply Cancel.
  - destruct (c_send c) eqn:Hs; try done. destruct (_ && _) eqn:Hg; [done|].
    destruct (work t a (c_state c)) as [s|] eqn:Hw; cbn [mbind option_bind]; [|done]. intros [= <-].
    apply (Work t c a s); [done| |done]. intros Ht. rewrite Ht in Hg. cbn in Hg. by apply orb_false_elim in Hg.
  - destruct (c_send c) eqn:Hs; try done. destruct (_ && _) eqn:Hg; [|done]. intros [= <-].
    apply andb_true_iff in Hg as [Ht Hg]. apply orb_true_iff in Hg. by apply Stop.
  - destruct (c_send c) as [|u|] eqn:Hs; try done. destruct (Z.leb_spec u t); [|done]. intros [= <-]. by eapply Wake.
  - destruct (c_recv c) eqn:Hr; try done. unfold is_stopped. case_bool_decide as Hst; cbn [negb]; [done|]. intros [= <-].
    by apply Read.
  - destruct (c_recv c) eqn:Hr; try done. unfold is_stopped. case_bool_decide as Hst; [|done]. intros [= <-]. by apply SeeStop.
  - destruct (c_recv c) eqn:Hr; try done. intros [= <-]. by apply ReadTimeout.
  - destruct (c_recv c) eqn:Hr; try done. intros [= <-]. by apply ReadError.
  - destruct (c_recv c) eqn:Hr; try done. destruct (handle t d (c_state c)) as [s|] eqn:Hh; cbn [mbind option_bind]; [|done].
    intros [= <-]. by apply (Handle t c d).
  - destruct (c_proc c) as [n|] eqn:Hp; cbn [mbind option_bind]; [|done]. destruct (Z.leb_spec n t); [|done].
    destruct (tick t (c_state c)) as [s|] eqn:Hh; cbn [mbind option_bind]; [|done]. intros [= <-]. by apply Tick.
  - destruct (c_proc c) as [n|] eqn:Hp; cbn [mbind option_bind]; [|done]. destruct (Z.ltb_spec (c_start c + delay) n); [|done].
    destruct (c_ctx c) eqn:Hc; [|done]. intros [= <-]. by apply (ProcOver t c n).
  - destruct (c_ret c) eqn:Hret; [done|]. destruct first_result eqn:Hf.
    + destruct (head (c_results c)) as [r|] eqn:Hh; cbn [mbind option_bind]; [|done]. intros [= <-].
      apply Return; [done|]. by rewrite Hf.
    + destruct (c_send c) eqn:Hs; try done. intros [= <-]. apply Return; [done|]. by rewrite Hf.
Qed.

(** A schedule, as long as its times do not decrease. *)
Fixpoint acts (xs : list (Z * action)) (c : ctl) : option ctl :=
  match xs with
  | [] => Some c
  | (t, x) :: xs => if c_now c <=? t then c ← act t x c; acts xs c else None
  end.

Lemma acts_sound xs : forall c c', acts xs c = Some c' -> rtc step c c'.
Proof.
  induction xs as [|[t x] xs IH]; intros c c'; cbn [acts]; [by intros [= <-]|].
  destruct (Z.leb_spec (c_now c) t) as [Ht|]; [|done].
  destruct (act t x c) as [c1|] eqn:E; cbn [mbind option_bind]; [|done]. intros E'.
  eapply rtc_l; [|by apply IH]. exists t. split; [done|]. by apply (act_sound t x).
Qed.

End protocol.

Arguments action : clear implicits.
