(* ===== verification/Salts.v ===== *)
(** * Salt patterns and bit-flip detection ([util/salts.go])

    Probe payloads are padded with one of four fixed patterns, selected by the
    sequence number modulo 4; a reply whose padding differs from the pattern of
    its sequence number has suffered a bit flip. *)

From S2P Require Import Prelude.
Local Open Scope Z_scope.

(** [Salts]: the four patterns. *)
Record Salts := mkSalts {
  salts0 : bytes;
  salts1 : bytes;
  salts2 : bytes;
  salts3 : bytes;
  salts_msgLen : Z
}.

(** [ComplementaryBytes]; a negative length panics in [make]. *)
Definition ComplementaryBytes (n : Z) : option bytes :=
  if n <? 0 then None
  else Some (map (fun i => if Nat.even (Nat.div i 2) then 170 else 85) (seq 0 (Z.to_nat n))).

(** [bytes.Repeat([]byte{b}, n)]; a negative count panics. *)
Definition Repeat (b : Z) (n : Z) : option bytes :=
  if n <? 0 then None else Some (replicate (Z.to_nat n) b).

(** [NewSalts]. *)
Definition NewSalts (msgLen : Z) : option Salts :=
  s0 ← Repeat 255 msgLen;
  s1 ← Repeat 0 msgLen;
  s2 ← Repeat 90 msgLen;
  s3 ← ComplementaryBytes msgLen;
  Some (mkSalts s0 s1 s2 s3 msgLen).

Module Salts.

(** [Salts.Get]; the index [seq%4] is always in bounds. *)
Definition Get (s : Salts) (n : Z) : bytes :=
  let i := n mod 4 in
  if i =? 0 then salts0 s
  else if i =? 1 then salts1 s
  else if i =? 2 then salts2 s
  else salts3 s.

(** [Salts.CheckBitflip]. *)
Definition CheckBitflip (data salt : bytes) : bool := negb (bytes_equal data salt).

End Salts.

(** The loop of [detectBitflip]: the indices at which the payload differs from
    the salt; indexing past the salt panics. *)
Fixpoint mismatches (i : nat) (data salt : bytes) : option (list nat) :=
  match data, salt with
  | [], _ => Some []
  | v :: data, s :: salt =>
      l ← mismatches (S i) data salt; Some (if v =? s then l else i :: l)
  | _ :: _, [] => None
  end.

(** ** Faults *)

(** Bit [j] of byte [i] forced to [v], whatever was sent. *)
Definition force_bit (v : bool) (j x : Z) : Z :=
  if v then Z.setbit x j else Z.clearbit x j.
Definition stuck_at (i : nat) (j : Z) (v : bool) (data : bytes) : bytes := alter (force_bit v j) i data.

Lemma mismatches_total i data salt : length salt = length data -> is_Some (mismatches i data salt).
Proof.
  revert i salt. induction data as [|v data IH]; intros i [|s salt] Hl; [by eexists|done|done|].
  cbn [length mismatches] in *. destruct (IH (S i) salt) as [l ->]; [lia|]. by eexists.
Qed.

Lemma NewSalts_spec n :
  0 <= n ->
  exists s c, NewSalts n = Some s /\ ComplementaryBytes n = Some c /\
    salts0 s = replicate (Z.to_nat n) 255 /\ salts1 s = replicate (Z.to_nat n) 0 /\
    salts2 s = replicate (Z.to_nat n) 90 /\ salts3 s = c /\ length c = Z.to_nat n.
Proof.
  intros H. unfold NewSalts, Repeat, ComplementaryBytes.
  rewrite (proj2 (Z.ltb_ge n 0)) by lia. cbn [mbind option_bind].
  eexists _, _. split_and!; try reflexivity. by rewrite length_map, length_seq.
Qed.

Lemma NewSalts_length n s k : NewSalts n = Some s -> length (Salts.Get s k) = Z.to_nat n.
Proof.
  intros H. assert (0 <= n) as Hn.
  { unfold NewSalts, Repeat in H. destruct (Z.ltb_spec n 0); [done|lia]. }
  destruct (NewSalts_spec n Hn) as (s' & c & E & _ & H0 & H1 & H2 & H3 & Hc). simplify_eq.
  unfold Salts.Get. repeat case_match; rewrite ?H0, ?H1, ?H2; rewrite ?length_replicate; done.
Qed.

Lemma alter_replicate_ne {A} (f : A -> A) (n i : nat) (x : A) :
  (i < n)%nat -> f x <> x -> alter f i (replicate n x) <> replicate n x.
Proof.
  intros Hi Hf H. apply (f_equal (fun l => l !! i)) in H.
  rewrite list_lookup_alter_eq, lookup_replicate_2 in H by done. cbn in H. congruence.
Qed.

Lemma CheckBitflip_spec d s : Salts.CheckBitflip d s = true <-> d <> s.
Proof.
  unfold Salts.CheckBitflip, bytes_equal. rewrite negb_true_iff. apply bool_decide_eq_false.
Qed.

Lemma force_bit_changes v j : 0 <= j < 8 -> force_bit v j (if v then 0 else 255) <> (if v then 0 else 255).
Proof.
  intros Hj. assert (j = 0 \/ j = 1 \/ j = 2 \/ j = 3 \/ j = 4 \/ j = 5 \/ j = 6 \/ j = 7) as H
    by lia. by destruct v; destruct_or! H; subst.
Qed.

(** C38: a stuck bit cannot hide: whatever bit of the padding is forced to
    whatever value, among any four consecutive sequence numbers (with the
    wrap-around of [uint64]) there is a probe whose padding comes back
    different from its salt, and [CheckBitflip] reports it. *)
Theorem stuck_bit_detected :
  forall msgLen s n i j v,
    NewSalts msgLen = Some s -> (i < Z.to_nat msgLen)%nat -> 0 <= j < 8 ->
    exists k, 0 <= k < 4 /\
      let salt := Salts.Get s (u64 (n + k)) in
      Salts.CheckBitflip (stuck_at i j v salt) salt = true.
Proof.
  intros msgLen s n i j v Hs Hi Hj. assert (0 <= msgLen) as Hn by lia.
  destruct (NewSalts_spec msgLen Hn) as (s' & c & E & _ & H0 & H1 & _). simplify_eq.
  set (w := if v then 1 else 0).
  exists ((w - n) mod 4). split; [apply Z.mod_pos_bound; lia|]. cbn zeta.
  assert (Hm : u64 (n + (w - n) mod 4) mod 4 = w).
  { unfold u64.
    rewrite <- (Znumtheory.Zmod_div_mod 4 (2 ^ 64)) by (try lia; exists (2 ^ 62); lia).
    rewrite Zplus_mod_idemp_r. replace (n + (w - n)) with w by lia. by destruct v. }
  apply CheckBitflip_spec. unfold Salts.Get, stuck_at. rewrite Hm.
  destruct v; cbn; rewrite ?H0, ?H1; apply alter_replicate_ne; try done;
    [by apply (force_bit_changes true)|by apply (force_bit_changes false)].
Qed.

Lemma stuck_bit_detected_witness :
  exists k, 0 <= k < 4 /\
    let salt := Salts.Get (default (mkSalts [] [] [] [] 0) (NewSalts 16)) (u64 (18446744073709551615 + k)) in
    Salts.CheckBitflip (stuck_at 3 5 true salt) salt = true.
Proof.
  apply (stuck_bit_detected 16 (default (mkSalts [] [] [] [] 0) (NewSalts 16)) 18446744073709551615 3 5 true);
    [reflexivity|cbn; lia|lia].
Defined.
