(* ===== verification/SonarCodec.v ===== *)
(** * The sonar probe payload ([sonar/codec/packet.go])

    magic (8) | seq (8) | ts (8) | lastSentCount (4) | lastStartSrcPort (2) |
    lastStartDstPort (2) | salt, all integers big-endian. [sonar6/codec]
    re-exports these functions. *)

From S2P Require Import Prelude.
Local Open Scope Z_scope.

(** [magicFlagLen], [MsgHeaderLen] and [magicFlag] ("CHAOOAHC"). *)
Definition magicFlagLen : nat := 8.
Definition MsgHeaderLen : nat := magicFlagLen + 24.
Definition magicFlag : bytes := [67; 72; 65; 79; 79; 65; 72; 67].

(** The decoded header. *)
Record Header := mkHeader {
  h_seq : Z;
  h_ts : Z;
  h_lastSentCount : Z;
  h_lastStartSrcPort : Z;
  h_lastStartDstPort : Z
}.

Definition Header_zero : Header := mkHeader 0 0 0 0 0.

(** The fields as the Go types allow them. *)
Definition header_ok (h : Header) : Prop :=
  in_u64 (h_seq h) /\ in_i64 (h_ts h) /\ in_u32 (h_lastSentCount h) /\
  in_u16 (h_lastStartSrcPort h) /\ in_u16 (h_lastStartDstPort h).

(** [Encode]. *)
Definition Encode (sq : Z) (salt : bytes) (ts msgLen lastSentCount lastStartSrcPort
    lastStartDstPort : Z) : bytes :=
  let msgLen := if msgLen <? 32 then 32 else msgLen in
  let saltLen := msgLen - Z.of_nat MsgHeaderLen in
  let data := make_bytes (Z.to_nat msgLen) in
  let data := copy_at 0 magicFlag data in
  let data := copy_at magicFlagLen (put_be 8 sq) data in
  let data := copy_at (magicFlagLen + 8) (put_be 8 (u64 ts)) data in
  let data := copy_at (magicFlagLen + 16) (put_be 4 lastSentCount) data in
  let data := copy_at (magicFlagLen + 20) (put_be 2 lastStartSrcPort) data in
  let data := copy_at (magicFlagLen + 22) (put_be 2 lastStartDstPort) data in
  if 0 <? saltLen then copy_at (magicFlagLen + 24) salt data else data.

(** [Decode]. *)
Definition Decode (data : bytes) : Header :=
  if (length data <? MsgHeaderLen)%nat then Header_zero
  else
    mkHeader (get_be (slice magicFlagLen (magicFlagLen + 8) data))
      (i64 (get_be (slice (magicFlagLen + 8) (magicFlagLen + 16) data)))
      (get_be (slice (magicFlagLen + 16) (magicFlagLen + 20) data))
      (get_be (slice (magicFlagLen + 20) (magicFlagLen + 22) data))
      (get_be (slice (magicFlagLen + 22) (magicFlagLen + 24) data)).

(** [IsValid]. *)
Definition IsValid (data : bytes) : bool :=
  if (length data <? magicFlagLen + 24)%nat then false
  else bytes_equal magicFlag (slice 0 magicFlagLen data).

(** ** The layout in closed form *)

Definition header_bytes (h : Header) : bytes :=
  magicFlag ++ put_be 8 (h_seq h) ++ put_be 8 (u64 (h_ts h)) ++ put_be 4 (h_lastSentCount h) ++
  put_be 2 (h_lastStartSrcPort h) ++ put_be 2 (h_lastStartDstPort h).

Definition encode_header (h : Header) (salt : bytes) (msgLen : Z) : bytes :=
  Encode (h_seq h) salt (h_ts h) msgLen (h_lastSentCount h) (h_lastStartSrcPort h)
    (h_lastStartDstPort h).

Lemma sonar_length_header_bytes h : length (header_bytes h) = MsgHeaderLen.
Proof. unfold header_bytes. rewrite !length_app, !length_put_be. done. Qed.

Lemma sonar_Encode_layout h salt msgLen :
  encode_header h salt msgLen =
    header_bytes h ++ padding salt (Z.to_nat (Z.max 32 msgLen) - MsgHeaderLen).
Proof.
  unfold encode_header, Encode.
  replace (if msgLen <? 32 then 32 else msgLen) with (Z.max 32 msgLen) by (zcases; lia).
  remember (Z.to_nat (Z.max 32 msgLen)) as n eqn:Hn. rewrite (filled_nil n).
  assert (length magicFlag = 8%nat) as Hm by done.
  repeat (rewrite copy_at_filled_exact;
    [|rewrite ?length_app, ?length_put_be; reflexivity|rewrite ?length_put_be, ?Hm; lia]).
  rewrite !length_put_be, Hm, app_nil_l.
  replace (n - 8 - 8 - 8 - 4 - 2 - 2)%nat with (n - MsgHeaderLen)%nat
    by (unfold MsgHeaderLen, magicFlagLen; lia).
  case_match eqn:E.
  - rewrite copy_at_filled by (rewrite ?length_app, ?length_put_be; reflexivity).
    unfold filled, padding, header_bytes. by rewrite <- !app_assoc.
  - apply Z.ltb_ge in E. replace (n - MsgHeaderLen)%nat with 0%nat
      by (unfold MsgHeaderLen, magicFlagLen in *; lia).
    unfold filled, padding, header_bytes. rewrite take_0. by rewrite <- !app_assoc.
Qed.

(** ** Properties *)

Lemma sonar_Decode_header h rest : header_ok h -> Decode (header_bytes h ++ rest) = h.
Proof.
  intros (H1 & H2 & H3 & H4 & H5). unfold Decode.
  rewrite length_app, sonar_length_header_bytes, (proj2 (Nat.ltb_ge _ _)) by lia.
  unfold header_bytes. rewrite <- !app_assoc. slices.
  rewrite !get_put_be. destruct h; cbn in *. f_equal.
  - by apply u64_small.
  - rewrite Z.mod_small by apply u64_range. by apply i64_u64.
  - by apply u32_small.
  - by apply u16_small.
  - by apply u16_small.
Qed.

Lemma sonar_IsValid_header h rest : IsValid (header_bytes h ++ rest) = true.
Proof.
  unfold IsValid. rewrite length_app, sonar_length_header_bytes.
  rewrite (proj2 (Nat.ltb_ge _ _)) by (unfold MsgHeaderLen; lia).
  unfold header_bytes. rewrite <- !app_assoc. slices. by apply bytes_equal_true.
Qed.

Lemma sonar_IsValid_spec data :
  IsValid data = true <-> (MsgHeaderLen <= length data)%nat /\ slice 0 magicFlagLen data = magicFlag.
Proof.
  unfold IsValid. destruct (Nat.ltb_spec (length data) (magicFlagLen + 24)) as [H|H].
  - split; [done|]. intros [H' _]. unfold MsgHeaderLen in H'. lia.
  - rewrite bytes_equal_true. unfold MsgHeaderLen. naive_solver.
Qed.

Lemma Decode_bytes data :
  Forall is_byte data -> IsValid data = true ->
  header_ok (Decode data) /\ header_bytes (Decode data) ++ drop MsgHeaderLen data = data.
Proof.
  intros Hb [Hl Hm]%sonar_IsValid_spec. unfold MsgHeaderLen, magicFlagLen in Hl. unfold Decode.
  rewrite (proj2 (Nat.ltb_ge _ _)) by done.
  pose proof (get_slice_bound 8 data 8 16 Hb ltac:(lia) eq_refl) as B1.
  pose proof (get_slice_bound 8 data 16 24 Hb ltac:(lia) eq_refl) as B2.
  pose proof (get_slice_bound 4 data 24 28 Hb ltac:(lia) eq_refl) as B3.
  pose proof (get_slice_bound 2 data 28 30 Hb ltac:(lia) eq_refl) as B4.
  pose proof (get_slice_bound 2 data 30 32 Hb ltac:(lia) eq_refl) as B5.
  split.
  - split_and!; cbn; [done|apply i64_range|done..].
  - unfold header_bytes. cbn [h_seq h_ts h_lastSentCount h_lastStartSrcPort h_lastStartDstPort].
    rewrite u64_i64 by exact B2. rewrite !put_get_slice by first [exact Hb | unfold magicFlagLen; lia].
    rewrite <- Hm, <- !app_assoc. change MsgHeaderLen with (magicFlagLen + 24)%nat.
    by rewrite !slice_drop by (unfold magicFlagLen; lia).
Qed.

(** Encoding then decoding a probe: the buffer has the requested length (at
    least a header), is recognised, decodes to the very fields it was built
    from, and its tail is the salt cut or zero-padded to fit. *)
Theorem sonar_decode_encode :
  forall h salt msgLen,
    header_ok h ->
    let data := encode_header h salt msgLen in
    length data = Z.to_nat (Z.max 32 msgLen) /\ IsValid data = true /\ Decode data = h /\
    drop MsgHeaderLen data = padding salt (Z.to_nat (Z.max 32 msgLen) - MsgHeaderLen).
Proof.
  intros h salt msgLen H. cbn zeta. rewrite sonar_Encode_layout. split_and!.
  - rewrite length_app, sonar_length_header_bytes, length_padding. unfold MsgHeaderLen, magicFlagLen. lia.
  - apply sonar_IsValid_header.
  - by apply sonar_Decode_header.
  - by rewrite drop_app_length' by (by rewrite sonar_length_header_bytes).
Qed.

Lemma sonar_decode_encode_witness :
  let data := encode_header (mkHeader 18446744073709551615 (-5) 100 43500 65535) [255; 255] 37 in
  length data = 37%nat /\ IsValid data = true /\
  Decode data = mkHeader 18446744073709551615 (-5) 100 43500 65535 /\
  drop MsgHeaderLen data = [255; 255; 0; 0; 0].
Proof.
  apply (sonar_decode_encode (mkHeader 18446744073709551615 (-5) 100 43500 65535) [255; 255] 37).
  vm_compute. repeat split; discriminate.
Defined.

(** Decoding then encoding: every byte string [IsValid] accepts is the
    encoding of its decoded header with its own tail as the salt, so [Decode]
    loses nothing and no two payloads share a header and a tail. *)
Theorem sonar_encode_decode :
  forall data,
    Forall is_byte data -> IsValid data = true ->
    header_ok (Decode data) /\
    encode_header (Decode data) (drop MsgHeaderLen data) (Z.of_nat (length data)) = data.
Proof.
  intros data Hb Hv. destruct (Decode_bytes data Hb Hv) as [Hok Hd]. split; [done|].
  apply sonar_IsValid_spec in Hv as [Hl _]. rewrite sonar_Encode_layout. rewrite <- Hd at 4. f_equal.
  unfold MsgHeaderLen, magicFlagLen in *.
  replace (Z.to_nat (Z.max 32 (Z.of_nat (length data))) - (8 + 24))%nat
    with (length (drop (8 + 24) data)) by (rewrite length_drop; lia).
  apply padding_id.
Qed.

Lemma sonar_encode_decode_witness :
  let data := magicFlag ++ replicate 30 255 in
  header_ok (Decode data) /\ encode_header (Decode data) (drop MsgHeaderLen data) 38 = data.
Proof.
  apply (sonar_encode_decode (magicFlag ++ replicate 30 255)); [|reflexivity].
  apply Forall_app; split; repeat constructor; unfold is_byte; lia.
Defined.
