(* ===== verification/KuiniuCodec.v ===== *)
(** * The kuiniu probe payload ([kuiniu/codec/codec.go])

    magic (8) | seq (8) | ts (8) | lastSentCount (4) | srcIP (4) | dstIP (4) |
    srcPort (2) | dstPort (2) | lastStartSrcPort (2) | lastStartDstPort (2) |
    salt, all integers big-endian. *)

From S2P Require Import Prelude.
Local Open Scope Z_scope.

(** [magicFlagLen], [MsgHeaderLen] and [magicFlag] ("KUINIUTC"). *)
Definition magicFlagLen : nat := 8.
Definition MsgHeaderLen : nat := magicFlagLen + 8 + 8 + 4 + 4 + 4 + 2 + 2 + 2 + 2.
Definition magicFlag : bytes := [75; 85; 73; 78; 73; 85; 84; 67].

(** [DecodeResult]. *)
Record DecodeResult := mkDecodeResult {
  Seq : Z;
  Ts : Z;
  LastSentCount : Z;
  SrcIP : bytes;
  DstIP : bytes;
  SrcPort : Z;
  DstPort : Z;
  LastStartSrcPort : Z;
  LastStartDstPort : Z
}.

Definition DecodeResult_zero : DecodeResult := mkDecodeResult 0 0 0 [] [] 0 0 0 0.

(** [Encode]; the running offset [off] is written out. *)
Definition Encode (sq : Z) (salt : bytes) (ts msgLen : Z) (srcIP dstIP : bytes)
    (srcPort dstPort lastSentCount lastStartSrcPort lastStartDstPort : Z) : bytes :=
  let msgLen := if msgLen <? Z.of_nat MsgHeaderLen then Z.of_nat MsgHeaderLen else msgLen in
  let saltLen := msgLen - Z.of_nat MsgHeaderLen in
  let data := make_bytes (Z.to_nat msgLen) in
  let off := 0%nat in
  let data := copy_slice off (off + magicFlagLen) magicFlag data in
  let off := (off + magicFlagLen)%nat in
  let data := copy_at off (put_be 8 sq) data in
  let off := (off + 8)%nat in
  let data := copy_at off (put_be 8 (u64 ts)) data in
  let off := (off + 8)%nat in
  let data := copy_at off (put_be 4 lastSentCount) data in
  let off := (off + 4)%nat in
  let data := copy_slice off (off + 4) srcIP data in
  let off := (off + 4)%nat in
  let data := copy_slice off (off + 4) dstIP data in
  let off := (off + 4)%nat in
  let data := copy_at off (put_be 2 srcPort) data in
  let off := (off + 2)%nat in
  let data := copy_at off (put_be 2 dstPort) data in
  let off := (off + 2)%nat in
  let data := copy_at off (put_be 2 lastStartSrcPort) data in
  let off := (off + 2)%nat in
  let data := copy_at off (put_be 2 lastStartDstPort) data in
  if 0 <? saltLen then
    let n := Z.to_nat (Z.min saltLen (Z.of_nat (length salt))) in
    copy_slice MsgHeaderLen (MsgHeaderLen + n) (take n salt) data
  else data.

(** [Decode]. *)
Definition Decode (data : bytes) : DecodeResult :=
  if (length data <? MsgHeaderLen)%nat then DecodeResult_zero
  else
    let off := magicFlagLen in
    let sq := get_be (slice off (off + 8) data) in
    let off := (off + 8)%nat in
    let ts := i64 (get_be (slice off (off + 8) data)) in
    let off := (off + 8)%nat in
    let lastSentCount := get_be (slice off (off + 4) data) in
    let off := (off + 4)%nat in
    let srcIP := copy_at 0 (slice off (off + 4) data) (make_bytes 4) in
    let off := (off + 4)%nat in
    let dstIP := copy_at 0 (slice off (off + 4) data) (make_bytes 4) in
    let off := (off + 4)%nat in
    let srcPort := get_be (slice off (off + 2) data) in
    let off := (off + 2)%nat in
    let dstPort := get_be (slice off (off + 2) data) in
    let off := (off + 2)%nat in
    let lssp := get_be (slice off (off + 2) data) in
    let off := (off + 2)%nat in
    let lsdp := get_be (slice off (off + 2) data) in
    mkDecodeResult sq ts lastSentCount srcIP dstIP srcPort dstPort lssp lsdp.

(** [IsValid]. *)
Definition IsValid (data : bytes) : bool :=
  if (length data <? MsgHeaderLen)%nat then false
  else bytes_equal magicFlag (slice 0 magicFlagLen data).

(** ** The layout in closed form *)

(** The fields as the Go types allow them, with 4-byte addresses. *)
Definition result_ok (r : DecodeResult) : Prop :=
  in_u64 (Seq r) /\ in_i64 (Ts r) /\ in_u32 (LastSentCount r) /\
  length (SrcIP r) = 4%nat /\ length (DstIP r) = 4%nat /\ in_u16 (SrcPort r) /\
  in_u16 (DstPort r) /\ in_u16 (LastStartSrcPort r) /\ in_u16 (LastStartDstPort r).

Definition encode_result (r : DecodeResult) (salt : bytes) (msgLen : Z) : bytes :=
  Encode (Seq r) salt (Ts r) msgLen (SrcIP r) (DstIP r) (SrcPort r) (DstPort r)
    (LastSentCount r) (LastStartSrcPort r) (LastStartDstPort r).

Definition result_bytes (r : DecodeResult) : bytes :=
  magicFlag ++ put_be 8 (Seq r) ++ put_be 8 (u64 (Ts r)) ++ put_be 4 (LastSentCount r) ++
  padding (SrcIP r) 4 ++ padding (DstIP r) 4 ++ put_be 2 (SrcPort r) ++ put_be 2 (DstPort r) ++
  put_be 2 (LastStartSrcPort r) ++ put_be 2 (LastStartDstPort r).

Lemma length_result_bytes r : length (result_bytes r) = MsgHeaderLen.
Proof. unfold result_bytes. rewrite !length_app, !length_put_be, !length_padding. done. Qed.

Lemma padding_prefix k m salt :
  k = Nat.min m (length salt) ->
  padding (take k salt) (k - 0) ++ make_bytes (m - (k - 0)) = padding salt m.
Proof.
  intros ->. unfold padding. rewrite take_take, length_take.
  replace (Nat.min m (length salt) - 0 - _)%nat with 0%nat by lia.
  cbn [make_bytes replicate]. rewrite app_nil_r. f_equal; [|f_equal; lia].
  destruct (decide (m <= length salt)%nat); [f_equal; lia|]. by rewrite !take_ge by lia.
Qed.

Ltac field_length :=
  rewrite ?length_app, ?length_put_be, ?length_padding; reflexivity.

Lemma kuiniu_Encode_layout r salt msgLen :
  encode_result r salt msgLen =
    result_bytes r ++ padding salt (Z.to_nat (Z.max 44 msgLen) - MsgHeaderLen).
Proof.
  unfold encode_result, Encode. change (Z.of_nat MsgHeaderLen) with 44.
  replace (if msgLen <? 44 then 44 else msgLen) with (Z.max 44 msgLen) by (zcases; lia).
  remember (Z.to_nat (Z.max 44 msgLen)) as n eqn:Hn. rewrite (filled_nil n).
  assert (MsgHeaderLen = 44%nat) as -> by done. assert (magicFlagLen = 8%nat) as -> by done.
  assert (length magicFlag = 8%nat) as Hm by done. cbn zeta. cbn [Nat.add].
  repeat first
    [ rewrite copy_slice_padding; [|field_length|lia|rewrite ?length_put_be; lia]
    | rewrite copy_at_filled_exact; [|field_length|rewrite ?length_put_be; lia] ].
  rewrite !length_put_be, app_nil_l. cbn [Nat.sub].
  change (padding magicFlag 8) with magicFlag.
  replace (n - 8 - 8 - 8 - 4 - 4 - 4 - 2 - 2 - 2 - 2)%nat with (n - 44)%nat by lia.
  case_match eqn:E.
  - apply Z.ltb_lt in E. remember (n - 44)%nat as m eqn:Em.
    unfold filled, result_bytes. rewrite <- !app_assoc. by rewrite padding_prefix by lia.
  - apply Z.ltb_ge in E. replace (n - 44)%nat with 0%nat by lia.
    unfold filled, result_bytes. change (padding salt 0) with (@nil Z).
    rewrite <- !app_assoc. done.
Qed.

(** ** Properties *)

Lemma copy_into_fresh n l : length l = n -> copy_at 0 l (make_bytes n) = l.
Proof.
  intros <-. rewrite (filled_nil (length l)), copy_at_filled_exact by done.
  unfold filled. rewrite Nat.sub_diag. apply app_nil_r.
Qed.

Lemma padding_full l n : length l = n -> padding l n = l.
Proof. intros <-. apply padding_id. Qed.

Lemma Decode_result r rest : result_ok r -> Decode (result_bytes r ++ rest) = r.
Proof.
  intros (H1 & H2 & H3 & H4 & H5 & H6 & H7 & H8 & H9). unfold Decode.
  rewrite length_app, length_result_bytes, (proj2 (Nat.ltb_ge _ _)) by lia.
  unfold result_bytes. rewrite (padding_full (SrcIP r)), (padding_full (DstIP r)) by done.
  rewrite <- !app_assoc. cbn zeta. repeat first
    [ rewrite slice_head by (rewrite ?length_put_be, ?H4, ?H5; reflexivity)
    | rewrite slice_skip by (rewrite ?length_put_be, ?H4, ?H5; apply Nat.leb_le; reflexivity) ].
  rewrite !copy_into_fresh, !get_put_be by done. destruct r; cbn in *. f_equal;
    try (by apply u64_small); try (by apply u32_small); try (by apply u16_small).
  rewrite Z.mod_small by apply u64_range. by apply i64_u64.
Qed.

Lemma kuiniu_IsValid_spec data :
  IsValid data = true <-> (MsgHeaderLen <= length data)%nat /\ slice 0 magicFlagLen data = magicFlag.
Proof.
  unfold IsValid. destruct (Nat.ltb_spec (length data) MsgHeaderLen) as [H|H].
  - split; [done|]. intros [H' _]. lia.
  - rewrite bytes_equal_true. naive_solver.
Qed.

Lemma kuiniu_decode_encode_spec :
  forall r salt msgLen,
    result_ok r ->
    let data := encode_result r salt msgLen in
    length data = Z.to_nat (Z.max 44 msgLen) /\ IsValid data = true /\ Decode data = r /\
    drop MsgHeaderLen data = padding salt (Z.to_nat (Z.max 44 msgLen) - MsgHeaderLen).
Proof.
  intros r salt msgLen H. cbn zeta. rewrite kuiniu_Encode_layout. split_and!.
  - rewrite length_app, length_result_bytes, length_padding.
    change MsgHeaderLen with 44%nat. lia.
  - apply kuiniu_IsValid_spec. rewrite length_app, length_result_bytes. split; [lia|].
    unfold result_bytes. rewrite <- !app_assoc. by rewrite slice_head.
  - by apply Decode_result.
  - by rewrite drop_app_length' by (by rewrite length_result_bytes).
Qed.

(** Encoding then decoding a kuiniu probe with IPv4 addresses: the buffer
    has the requested length (at least a header), is recognised, decodes to the
    fields it was built from, and its tail is the salt cut or zero-padded. *)
Theorem kuiniu_decode_encode :
  forall r salt msgLen,
    result_ok r ->
    let data := encode_result r salt msgLen in
    length data = Z.to_nat (Z.max 44 msgLen) /\ IsValid data = true /\ Decode data = r /\
    drop MsgHeaderLen data = padding salt (Z.to_nat (Z.max 44 msgLen) - MsgHeaderLen).
Proof. exact kuiniu_decode_encode_spec. Qed.

Definition sample_result : DecodeResult :=
  mkDecodeResult 4294967296 1700000000000000000 5000 [10; 0; 0; 1] [10; 0; 0; 2] 43500 43501 1 65535.

Lemma kuiniu_decode_encode_witness :
  let data := encode_result sample_result [90; 90; 90] 46 in
  length data = 46%nat /\ IsValid data = true /\ Decode data = sample_result /\
  drop MsgHeaderLen data = [90; 90].
Proof.
  apply (kuiniu_decode_encode sample_result [90; 90; 90] 46).
  vm_compute. repeat split; discriminate.
Defined.

(** Decoding then encoding: every byte string [IsValid] accepts is the
    encoding of its decoded fields with its own tail as the salt. *)
Lemma kuiniu_encode_decode :
  forall data,
    Forall is_byte data -> IsValid data = true ->
    result_ok (Decode data) /\
    encode_result (Decode data) (drop MsgHeaderLen data) (Z.of_nat (length data)) = data.
Proof.
  intros data Hb [Hl Hm]%kuiniu_IsValid_spec. change MsgHeaderLen with 44%nat in *.
  change magicFlagLen with 8%nat in *.
  assert (Hlen : forall a b, (b <= 44)%nat -> length (slice a b data) = (b - a)%nat)
    by (intros; apply length_slice; lia).
  assert (Hget : forall n a b, (b <= 44)%nat -> n = (b - a)%nat ->
            0 <= get_be (slice a b data) < 256 ^ Z.of_nat n /\
            put_be n (get_be (slice a b data)) = slice a b data)
    by (intros; split; [apply get_slice_bound|apply put_get_slice]; (done || lia)).
  assert (HD : Decode data = mkDecodeResult (get_be (slice 8 16 data))
            (i64 (get_be (slice 16 24 data))) (get_be (slice 24 28 data)) (slice 28 32 data)
            (slice 32 36 data) (get_be (slice 36 38 data)) (get_be (slice 38 40 data))
            (get_be (slice 40 42 data)) (get_be (slice 42 44 data))).
  { unfold Decode. change MsgHeaderLen with 44%nat. rewrite (proj2 (Nat.ltb_ge _ _)) by lia.
    cbn zeta. by rewrite !copy_into_fresh by (apply Hlen; cbn; lia). }
  split.
  - rewrite HD. split_and!; cbn [Seq Ts LastSentCount SrcIP DstIP SrcPort DstPort LastStartSrcPort
      LastStartDstPort]; try (by apply Hlen; lia); try (apply i64_range).
    + by apply (Hget 8%nat); [lia|].
    + by apply (Hget 4%nat); [lia|].
    + by apply (Hget 2%nat); [lia|].
    + by apply (Hget 2%nat); [lia|].
    + by apply (Hget 2%nat); [lia|].
    + by apply (Hget 2%nat); [lia|].
  - rewrite kuiniu_Encode_layout, HD. change MsgHeaderLen with 44%nat.
    replace (Z.to_nat (Z.max 44 (Z.of_nat (length data))) - 44)%nat
      with (length (drop 44 data)) by (rewrite length_drop; lia).
    rewrite padding_id. unfold result_bytes. cbn [Seq Ts LastSentCount SrcIP DstIP SrcPort DstPort
      LastStartSrcPort LastStartDstPort].
    rewrite !padding_full by (apply Hlen; lia). rewrite u64_i64 by (apply (Hget 8%nat); lia).
    rewrite !(fun n a b H E => proj2 (Hget n a b H E)) by lia.
    rewrite <- Hm, <- !app_assoc. by rewrite !slice_drop by lia.
Qed.

Lemma kuiniu_encode_decode_witness :
  let data := magicFlag ++ replicate 40 200 in
  result_ok (Decode data) /\ encode_result (Decode data) (drop MsgHeaderLen data) 48 = data.
Proof.
  apply (kuiniu_encode_decode (magicFlag ++ replicate 40 200)); [|reflexivity].
  apply Forall_app; split; repeat constructor; unfold is_byte; lia.
Defined.
