(* ===== verification/ExtHeaders.v ===== *)
(** * The IPv6 extension-header walk ([sonar6/codec/simple.go])

    [ParseExtensionHeaders] follows the next-header chain of an IPv6 packet to
    the upper-layer header. *)

From S2P Require Import Prelude.
Local Open Scope Z_scope.

(** [ipv6HeaderLen]. *)
Definition ipv6HeaderLen : Z := 40.

(** [isUpperLayerProtocol]. *)
Definition isUpperLayerProtocol (proto : Z) : bool :=
  if proto =? 6 then true else if proto =? 17 then true else proto =? 58.

(** The errors, with the figures of their messages. *)
Inductive ext_error :=
| ErrTooShort (len : Z)
| ErrTruncated2 (offset have : Z)
| ErrTruncated (offset extLen have : Z)
| ErrFragment (offset have : Z).

Definition zlen (data : bytes) : Z := Z.of_nat (length data).

(** [parseStandardExtHeader]; [hdrExtLen+1] is computed in [uint8]. *)
Definition parseStandardExtHeader (data : bytes) (offset : Z) : Z * Z + ext_error :=
  if zlen data <? offset + 2 then inr (ErrTruncated2 offset (zlen data - offset))
  else
    let nh := byte_at data (Z.to_nat offset) in
    let hdrExtLen := byte_at data (Z.to_nat (offset + 1)) in
    let extLen := u8 (hdrExtLen + 1) * 8 in
    if zlen data <? offset + extLen then inr (ErrTruncated offset extLen (zlen data - offset))
    else inl (nh, offset + extLen).

(** One round of the loop: leave with a result, or go round again. *)
Inductive round :=
| Return (r : Z * Z + ext_error)
| Again (nextHeader offset : Z).

Definition continue (r : Z * Z + ext_error) : round :=
  match r with
  | inl (nh, off) => Again nh off
  | inr e => Return (inr e)
  end.

(** The switch inside the loop. *)
Definition ext_round (data : bytes) (nextHeader offset : Z) : round :=
  if (nextHeader =? 0) || (nextHeader =? 43) || (nextHeader =? 60)
  then continue (parseStandardExtHeader data offset)
  else if nextHeader =? 44 then
    if zlen data <? offset + 8 then Return (inr (ErrFragment offset (zlen data - offset)))
    else Again (byte_at data (Z.to_nat offset)) (offset + 8)
  else if nextHeader =? 59 then Return (inl (59, offset))
  else if isUpperLayerProtocol nextHeader then Return (inl (nextHeader, offset))
  else continue (parseStandardExtHeader data offset).

(** The loop, [fuel] rounds at most: [None] when the fuel is used up. *)
Fixpoint ext_loop (fuel : nat) (data : bytes) (nextHeader offset : Z) : option (Z * Z + ext_error) :=
  match fuel with
  | O => None
  | S fuel =>
      match ext_round data nextHeader offset with
      | Return r => Some r
      | Again nh off => ext_loop fuel data nh off
      end
  end.

(** [ParseExtensionHeaders]. *)
Definition ParseExtensionHeaders (fuel : nat) (data : bytes) : option (Z * Z + ext_error) :=
  if zlen data <? ipv6HeaderLen then Some (inr (ErrTooShort (zlen data)))
  else ext_loop fuel data (byte_at data 6) ipv6HeaderLen.

(** ** Building chains *)

(** An extension header: in the standard layout with [k] 8-byte units after
    the first and a body, or a fragment header. *)
Inductive ext :=
| Standard (type : Z) (body : bytes)
| Fragment (body : bytes).

Definition ext_type (e : ext) : Z := match e with Standard t _ => t | Fragment _ => 44 end.

(** The type is not an upper-layer protocol, the fragment type or "no next
    header", and the header fills [8 * (hdrExtLen + 1)] bytes with
    [hdrExtLen < 255]. *)
Definition ext_ok (e : ext) : Prop :=
  match e with
  | Standard t body =>
      isUpperLayerProtocol t = false /\ t <> 44 /\ t <> 59 /\
      exists k, 0 <= k < 255 /\ zlen body = 6 + 8 * k
  | Fragment body => zlen body = 7
  end.

Definition ext_bytes (next : Z) (e : ext) : bytes :=
  match e with
  | Standard _ body => [next; (zlen body - 6) / 8] ++ body
  | Fragment body => next :: body
  end.

(** The type of the first header of a chain, and the bytes of a chain. *)
Definition first_type (es : list ext) (upper : Z) : Z :=
  match es with [] => upper | e :: _ => ext_type e end.

Fixpoint chain_bytes (es : list ext) (upper : Z) : bytes :=
  match es with
  | [] => []
  | e :: es => ext_bytes (first_type es upper) e ++ chain_bytes es upper
  end.

Definition terminal (upper : Z) : Prop := isUpperLayerProtocol upper = true \/ upper = 59.

(** ** Lemmas *)

Lemma zlen_app a b : zlen (a ++ b) = zlen a + zlen b.
Proof. unfold zlen. rewrite length_app. lia. Qed.

Lemma zlen_nonneg a : 0 <= zlen a.
Proof. unfold zlen. lia. Qed.

Lemma byte_at_pre pre l i :
  0 <= i -> byte_at (pre ++ l) (Z.to_nat (zlen pre + i)) = byte_at l (Z.to_nat i).
Proof.
  intros H. unfold zlen. rewrite byte_at_app_r by lia. f_equal. lia.
Qed.

Lemma byte_at_pre0 pre l : byte_at (pre ++ l) (Z.to_nat (zlen pre)) = byte_at l 0.
Proof. etrans; [|exact (byte_at_pre pre l 0 ltac:(lia))]. do 2 f_equal. lia. Qed.

Lemma zlen_ext e nh :
  ext_ok e -> 8 <= zlen (ext_bytes nh e) /\ zlen (ext_bytes nh e) mod 8 = 0.
Proof.
  destruct e as [t body|body]; cbn [ext_ok ext_bytes].
  - intros (_ & _ & _ & k & Hk & Hb). rewrite zlen_app, Hb. change (zlen [nh; (6 + 8 * k - 6) / 8]) with 2.
    split; [lia|]. replace (2 + (6 + 8 * k)) with ((k + 1) * 8) by lia. apply Z_mod_mult.
  - intros Hb. unfold zlen in *. cbn [length]. rewrite Nat2Z.inj_succ, Hb. done.
Qed.

Lemma isUpper_spec p : isUpperLayerProtocol p = true -> p = 6 \/ p = 17 \/ p = 58.
Proof. unfold isUpperLayerProtocol. zcases; naive_solver. Qed.

(** One round skips one well-formed header. *)
Lemma ext_round_skip pre e nh rest :
  ext_ok e ->
  ext_round (pre ++ ext_bytes nh e ++ rest) (ext_type e) (zlen pre) =
    Again nh (zlen (pre ++ ext_bytes nh e)).
Proof.
  intros He. assert (Hl := zlen_ext e nh He). pose proof (zlen_nonneg rest).
  destruct e as [t body|body]; cbn [ext_ok ext_type] in *.
  - destruct He as (Hu & H44 & H59 & k & Hk & Hb).
    assert (Hk' : (zlen body - 6) / 8 = k)
      by (rewrite Hb; replace (6 + 8 * k - 6) with (k * 8) by lia; by rewrite Z.div_mul).
    assert (Hz : zlen (ext_bytes nh (Standard t body)) = (k + 1) * 8)
      by (cbn [ext_bytes]; rewrite zlen_app, Hb; change (zlen [_; _]) with 2; lia).
    assert (Hp : parseStandardExtHeader (pre ++ ext_bytes nh (Standard t body) ++ rest) (zlen pre) =
                   inl (nh, zlen (pre ++ ext_bytes nh (Standard t body)))).
    { unfold parseStandardExtHeader. rewrite !zlen_app, Hz.
      rewrite (proj2 (Z.ltb_ge _ _)), byte_at_pre by lia. rewrite byte_at_pre0. cbn [ext_bytes app].
      rewrite Hk'. change (byte_at (nh :: k :: body ++ rest) (Z.to_nat 1)) with k.
      change (byte_at (nh :: k :: body ++ rest) 0) with nh.
      rewrite u8_small by (unfold is_byte; lia). by rewrite (proj2 (Z.ltb_ge _ _)) by lia. }
    unfold ext_round. rewrite Hp. rewrite (proj2 (Z.eqb_neq t 44)), (proj2 (Z.eqb_neq t 59)), Hu by done.
    by case_match.
  - unfold ext_round. cbn [orb Z.eqb]. change ((44 =? 0) || (44 =? 43) || (44 =? 60)) with false.
    change (44 =? 44) with true. cbn iota.
    assert (zlen (ext_bytes nh (Fragment body)) = 8) as Hz
      by (unfold zlen in *; cbn [ext_bytes length]; lia).
    rewrite !zlen_app, Hz. rewrite (proj2 (Z.ltb_ge _ _)) by lia.
    by rewrite byte_at_pre0.
Qed.

Lemma ext_loop_chain es upper pre rest fuel :
  terminal upper -> Forall ext_ok es -> (length es < fuel)%nat ->
  ext_loop fuel (pre ++ chain_bytes es upper ++ rest) (first_type es upper) (zlen pre) =
    Some (inl (upper, zlen (pre ++ chain_bytes es upper))).
Proof.
  intros Hup Hes. revert pre fuel. induction Hes as [|e es He Hes IH]; intros pre fuel Hf;
    (destruct fuel as [|fuel]; [cbn [length] in Hf; lia|]); cbn [ext_loop chain_bytes first_type].
  - rewrite app_nil_r. by destruct Hup as [[->|[->| ->]]%isUpper_spec| ->].
  - rewrite <- app_assoc, ext_round_skip by done.
    specialize (IH (pre ++ ext_bytes (first_type es upper) e) fuel ltac:(cbn [length] in Hf; lia)).
    rewrite <- !app_assoc in IH. by rewrite IH.
Qed.

Lemma parseStandard_bounds data offset nh off :
  Forall is_byte data -> 0 <= offset -> parseStandardExtHeader data offset = inl (nh, off) ->
  nh = byte_at data (Z.to_nat offset) /\ off <= zlen data /\ (off = offset \/ offset + 8 <= off).
Proof.
  intros Hb Ho. unfold parseStandardExtHeader.
  destruct (Z.ltb_spec (zlen data) (offset + 2)) as [|H1]; [done|].
  set (x := byte_at data (Z.to_nat (offset + 1))).
  destruct (Z.ltb_spec (zlen data) (offset + u8 (x + 1) * 8)) as [|H2]; [done|].
  intros [= <- <-]. unfold u8 in *. pose proof (Z.mod_pos_bound (x + 1) (2 ^ 8) ltac:(lia)).
  split; [done|]. lia.
Qed.

(** What one round does to a position inside the packet. *)
Lemma ext_round_spec data nh off :
  Forall is_byte data -> 0 <= off <= zlen data ->
  match ext_round data nh off with
  | Return (inl (u, o)) => terminal u /\ o = off
  | Return (inr _) => True
  | Again nh' off' =>
      nh' = byte_at data (Z.to_nat off) /\ off' <= zlen data /\ (off' = off \/ off + 8 <= off')
  end.
Proof.
  intros Hb Ho. unfold ext_round, terminal.
  assert (Hstd : match continue (parseStandardExtHeader data off) with
    | Return (inl (u, o)) => terminal u /\ o = off
    | Return (inr _) => True
    | Again nh' off' =>
        nh' = byte_at data (Z.to_nat off) /\ off' <= zlen data /\ (off' = off \/ off + 8 <= off')
    end).
  { destruct (parseStandardExtHeader data off) as [[nh' off']|] eqn:E; [|done].
    by apply (parseStandard_bounds data off _ _ Hb ltac:(lia)). }
  destruct (_ || _ || _); [exact Hstd|].
  destruct (Z.eqb_spec nh 44) as [->|].
  { destruct (Z.ltb_spec (zlen data) (off + 8)); [done|]. split_and!; [done|lia|lia]. }
  destruct (Z.eqb_spec nh 59) as [->|]; [by auto|].
  destruct (isUpperLayerProtocol nh) eqn:E2; [by auto|exact Hstd].
Qed.

(** The positions the loop visits. *)
Inductive reach (data : bytes) : Z -> Z -> Prop :=
| reach_start : reach data (byte_at data 6) ipv6HeaderLen
| reach_step nh off nh' off' :
    reach data nh off -> ext_round data nh off = Again nh' off' -> reach data nh' off'.

(** A position the loop never leaves. *)
Definition self_loop (data : bytes) (nh off : Z) : Prop := ext_round data nh off = Again nh off.

Lemma ext_loop_total data nh off fuel :
  Forall is_byte data -> reach data nh off -> ipv6HeaderLen <= off <= zlen data ->
  2 * (zlen data - off) + (if nh =? byte_at data (Z.to_nat off) then 0 else 8) < 8 * Z.of_nat fuel ->
  (exists nh' off', reach data nh' off' /\ self_loop data nh' off') \/
  exists r, ext_loop fuel data nh off = Some r /\
    match r with
    | inl (u, o) => terminal u /\ off <= o <= zlen data
    | inr _ => True
    end.
Proof.
  intros Hb. revert nh off. induction fuel as [|fuel IH]; intros nh off Hr Ho Hf.
  { destruct (nh =? _); lia. }
  cbn [ext_loop]. unfold ipv6HeaderLen in Ho.
  pose proof (ext_round_spec data nh off Hb ltac:(lia)) as Hs.
  destruct (ext_round data nh off) as [[[u o]|e]|nh' off'] eqn:E.
  - destruct Hs as (Hu & ->). right. eexists. split; [done|]. split; [done|lia].
  - right. by eexists.
  - destruct Hs as (Hnh & Hle & Hoff). assert (Hr' := reach_step _ _ _ _ _ Hr E).
    destruct (Z.eqb_spec nh (byte_at data (Z.to_nat off))) as [Heq|Hne].
    + destruct Hoff as [->|Hoff].
      * left. exists nh, off. split; [done|]. unfold self_loop. congruence.
      * destruct (IH nh' off' Hr') as [|(r & Er & Hres)]; [unfold ipv6HeaderLen; lia| |by left|].
        { destruct (nh' =? _); lia. }
        right. exists r. split; [done|]. destruct r as [[u o]|]; [|done]. destruct Hres; split; [done|lia].
    + destruct (IH nh' off' Hr') as [|(r & Er & Hres)]; [unfold ipv6HeaderLen; lia| |by left|].
      { destruct Hoff as [->|Hoff]; [rewrite Hnh, Z.eqb_refl; lia|]. destruct (nh' =? _); lia. }
      right. exists r. split; [done|]. destruct r as [[u o]|]; [|done].
      destruct Hres; split; [done|lia].
Qed.

Lemma ext_loop_self data nh off fuel : self_loop data nh off -> ext_loop fuel data nh off = None.
Proof. intros H. induction fuel as [|fuel IH]; [done|]. cbn [ext_loop]. by rewrite H. Qed.

(** A reached self-loop exhausts any fuel. *)
Lemma reach_diverges data nh off :
  reach data nh off -> self_loop data nh off ->
  forall fuel, ext_loop fuel data (byte_at data 6) ipv6HeaderLen = None.
Proof.
  intros Hr Hs.
  assert (H : forall fuel, ext_loop fuel data nh off = None) by (intros; by apply ext_loop_self).
  clear Hs. induction Hr as [|nh off nh' off' _ IH E]; [done|]. apply IH.
  intros [|fuel]; [done|]. cbn [ext_loop]. by rewrite E.
Qed.

(** ** Properties *)

(** C39: parsing inverts building: on a packet whose fixed header names the
    first of any sequence of well-formed extension headers (standard layout of
    at most 2040 bytes, or fragment), [ParseExtensionHeaders] finds the
    protocol that ends the chain and the offset right after it. *)
Theorem ext_chain_roundtrip :
  forall fixed es upper payload fuel,
    zlen fixed = ipv6HeaderLen -> byte_at fixed 6 = first_type es upper ->
    terminal upper -> Forall ext_ok es -> (length es < fuel)%nat ->
    ParseExtensionHeaders fuel (fixed ++ chain_bytes es upper ++ payload) =
      Some (inl (upper, ipv6HeaderLen + zlen (chain_bytes es upper))).
Proof.
  intros fixed es upper payload fuel Hl H6 Hup Hes Hf. unfold ParseExtensionHeaders.
  pose proof (zlen_nonneg (chain_bytes es upper ++ payload)).
  rewrite zlen_app, (proj2 (Z.ltb_ge _ _)) by lia.
  rewrite byte_at_app_l by (unfold zlen, ipv6HeaderLen in Hl; lia).
  rewrite H6, <- Hl, ext_loop_chain by done. by rewrite zlen_app, Hl.
Qed.

(** A fixed header whose next-header byte is [nh]. *)
Definition sample_fixed (nh : Z) : bytes := [96; 0; 0; 0; 0; 0; nh] ++ make_bytes 33.

Lemma ext_chain_roundtrip_witness :
  ParseExtensionHeaders 3
    (sample_fixed 0 ++ chain_bytes [Standard 0 (make_bytes 14); Fragment (make_bytes 7)] 17 ++ [1; 2; 3])
  = Some (inl (17, 64)).
Proof.
  apply (ext_chain_roundtrip (sample_fixed 0)
           [Standard 0 (make_bytes 14); Fragment (make_bytes 7)] 17 [1; 2; 3] 3);
    [reflexivity|reflexivity|left; reflexivity| |cbn; lia].
  repeat constructor; try discriminate. exists 1. split; [lia|reflexivity].
Defined.

(** The walk terminates on every packet unless it reaches a position that
    leads back to itself: with fuel for a number of rounds linear in the packet
    length there is a verdict exactly when no such position is reached, and an
    accepted packet ends in a known upper-layer protocol or "no next header"
    at an offset inside the packet. *)
Theorem ext_headers_terminate :
  forall data fuel,
    Forall is_byte data -> zlen data < 4 * Z.of_nat fuel ->
    match ParseExtensionHeaders fuel data with
    | Some (inl (u, o)) => terminal u /\ ipv6HeaderLen <= o <= zlen data
    | Some (inr _) => True
    | None => exists nh off, reach data nh off /\ self_loop data nh off
    end /\
    (ParseExtensionHeaders fuel data = None ->
     forall fuel', ParseExtensionHeaders fuel' data = None).
Proof.
  intros data fuel Hb Hf. unfold ParseExtensionHeaders.
  destruct (Z.ltb_spec (zlen data) ipv6HeaderLen) as [H|H]; [done|].
  destruct (ext_loop_total data (byte_at data 6) ipv6HeaderLen fuel Hb (reach_start data))
    as [(nh & off & Hr & Hs)|(r & -> & Hr)]; [lia| | |].
  - unfold ipv6HeaderLen. destruct (_ =? _); lia.
  - rewrite (reach_diverges data nh off Hr Hs). split; [by exists nh, off|].
    intros _ fuel'. by apply (reach_diverges data nh off).
  - split; [|done]. by destruct r as [[u o]|].
Qed.

Definition sample_packet : bytes := sample_fixed 60 ++ [17; 0] ++ make_bytes 6 ++ replicate 12 255.

Lemma ext_headers_terminate_witness :
  (terminal 17 /\ ipv6HeaderLen <= 48 <= zlen sample_packet) /\
  (ParseExtensionHeaders 16 sample_packet = None ->
   forall fuel', ParseExtensionHeaders fuel' sample_packet = None).
Proof.
  apply (ext_headers_terminate sample_packet 16); [|vm_compute; reflexivity].
  repeat constructor; unfold is_byte; lia.
Defined.

(** Such packets exist: the length [int(hdrExtLen+1)*8] is 0 for
    [hdrExtLen = 255] ([uint8] wrap-around), so a packet whose first extension
    header names its own type as the next header and has length byte 255 keeps
    [ParseExtensionHeaders] at offset 40 for ever. *)
Theorem ext_headers_diverge :
  forall fixed nh rest fuel,
    zlen fixed = ipv6HeaderLen -> byte_at fixed 6 = nh ->
    isUpperLayerProtocol nh = false -> nh <> 44 -> nh <> 59 ->
    ParseExtensionHeaders fuel (fixed ++ [nh; 255] ++ rest) = None.
Proof.
  intros fixed nh rest fuel Hl H6 Hu H44 H59.
  assert (Hp : parseStandardExtHeader (fixed ++ [nh; 255] ++ rest) ipv6HeaderLen =
                 inl (nh, ipv6HeaderLen)).
  { unfold parseStandardExtHeader. pose proof (zlen_nonneg rest). rewrite <- Hl.
    rewrite !zlen_app, byte_at_pre, byte_at_pre0 by lia. change (zlen [nh; 255]) with 2.
    rewrite (proj2 (Z.ltb_ge _ _)) by lia. change (byte_at ([nh; 255] ++ rest) (Z.to_nat 1)) with 255.
    change (u8 (255 + 1) * 8) with 0. rewrite Z.add_0_r, (proj2 (Z.ltb_ge _ _)) by lia. done. }
  unfold ParseExtensionHeaders. pose proof (zlen_nonneg ([nh; 255] ++ rest)).
  rewrite zlen_app, (proj2 (Z.ltb_ge _ _)) by lia.
  rewrite byte_at_app_l, H6 by (unfold zlen, ipv6HeaderLen in Hl; lia).
  apply ext_loop_self. unfold self_loop, ext_round.
  rewrite Hp, (proj2 (Z.eqb_neq nh 44)), (proj2 (Z.eqb_neq nh 59)), Hu by done. by case_match.
Qed.

Lemma ext_headers_diverge_witness :
  ParseExtensionHeaders 100000 (sample_fixed 60 ++ [60; 255] ++ make_bytes 6) = None.
Proof.
  apply (ext_headers_diverge (sample_fixed 60) 60 (make_bytes 6) 100000);
    [reflexivity|reflexivity|reflexivity|discriminate|discriminate].
Defined.
