(* ===== verification/GoNet.v ===== *)
(** * What the program uses of Go's [net] package and its host

    [net.IP] values as byte lists ([nil] is the empty list), [ParseIP], [String]
    and the classification methods, and the answers of the host environment
    (host name, name lookup, interfaces) as a record the callers take as an
    argument. *)

From S2P Require Import Prelude GoStd.
Local Open Scope Z_scope.

Definition IP : Type := bytes.
Definition IPv4len : nat := 4.
Definition IPv6len : nat := 16.

(** ** Parsing *)

Definition char_code (c : ascii) : Z := Z.of_nat (Ascii.nat_of_ascii c).

(** One octet of a dotted address: digits, no leading zero, at most 255. *)
Definition parse_octet (s : string) : option Z :=
  match s with
  | String "0" (String _ _) => None
  | _ => v ← parse_decimal s; if v <=? 255 then Some v else None
  end.

(** Dotted decimal with exactly four octets. *)
Definition parse_ipv4 (s : string) : option bytes :=
  match Split s "." with
  | [a; b; c; d] =>
      a ← parse_octet a; b ← parse_octet b; c ← parse_octet c; d ← parse_octet d;
      Some [a; b; c; d]
  | _ => None
  end.

Definition hex_value (c : ascii) : option Z :=
  let n := char_code c in
  if (48 <=? n) && (n <=? 57) then Some (n - 48)
  else if (97 <=? n) && (n <=? 102) then Some (n - 87)
  else if (65 <=? n) && (n <=? 70) then Some (n - 55)
  else None.

(** The leading hex digits of a group: their number, value, and the rest. *)
Fixpoint hex_group (acc : Z) (n : nat) (s : string) : nat * Z * string :=
  match s with
  | EmptyString => (n, acc, s)
  | String c s' =>
      match hex_value c with
      | Some d => hex_group (16 * acc + d) (S n) s'
      | None => (n, acc, s)
      end
  end.

(** The group loop of [netip.parseIPv6]: [ip] holds the bytes parsed so far,
    [ell] the position of the ellipsis; the result is the final pair. Every
    round consumes a character, so [fuel] above the length is enough. *)
Fixpoint ipv6_loop (fuel : nat) (s : string) (ip : bytes) (ell : option nat) :
    option (bytes * option nat) :=
  match fuel with
  | O => None
  | S fuel =>
      if (16 <=? length ip)%nat then (if decide (s = "") then Some (ip, ell) else None)
      else
        let '(n, acc, rest) := hex_group 0 0 s in
        if (n =? 0)%nat || (4 <? n)%nat then None
        else
          match rest with
          | String "." _ =>
              if bool_decide (ell = None) && negb (length ip =? 12)%nat then None
              else if (16 <? length ip + 4)%nat then None
              else v4 ← parse_ipv4 s; Some (ip ++ v4, ell)
          | _ =>
              let ip := ip ++ [acc / 256; acc mod 256] in
              match rest with
              | EmptyString => Some (ip, ell)
              | String ":" EmptyString => None
              | String ":" (String ":" rest) =>
                  match ell with
                  | Some _ => None
                  | None =>
                      if decide (rest = "") then Some (ip, Some (length ip))
                      else ipv6_loop fuel rest ip (Some (length ip))
                  end
              | String ":" rest => ipv6_loop fuel rest ip ell
              | _ => None
              end
          end
  end.

Definition ipv6_expand (ip : bytes) (ell : option nat) : option bytes :=
  if (length ip <? 16)%nat then
    e ← ell; Some (take e ip ++ make_bytes (16 - length ip) ++ drop e ip)
  else match ell with Some _ => None | None => Some ip end.

Definition parse_ipv6 (s : string) : option bytes :=
  match s with
  | String ":" (String ":" EmptyString) => Some (make_bytes 16)
  | String ":" (String ":" s') =>
      '(ip, ell) ← ipv6_loop (S (String.length s)) s' [] (Some 0%nat); ipv6_expand ip ell
  | _ => '(ip, ell) ← ipv6_loop (S (String.length s)) s [] None; ipv6_expand ip ell
  end.

(** The first of the characters ['.'], [':'], ['%'] decides the syntax. *)
Fixpoint address_kind (s : string) : option ascii :=
  match s with
  | EmptyString => None
  | String c s => if bool_decide (c = "."%char \/ c = ":"%char \/ c = "%"%char) then Some c else address_kind s
  end.

Definition v4InV6Prefix : bytes := [0; 0; 0; 0; 0; 0; 0; 0; 0; 0; 255; 255].

(** [net.ParseIP]: always 16 bytes; an address with a zone is refused. *)
Definition ParseIP (s : string) : option IP :=
  match address_kind s with
  | Some "."%char => v ← parse_ipv4 s; Some (v4InV6Prefix ++ v)
  | Some ":"%char => match cut_byte s "%" with Some _ => None | None => parse_ipv6 s end
  | _ => None
  end.

(** ** Methods of [net.IP] *)

(** [IP.To4]; [None] is [nil]. *)
Definition To4 (ip : IP) : option IP :=
  if (length ip =? IPv4len)%nat then Some ip
  else if (length ip =? IPv6len)%nat && bytes_equal (take 12 ip) v4InV6Prefix then Some (drop 12 ip)
  else None.

(** Both as a [net.IP], where [nil] is the empty list. *)
Definition ParseIP_or_nil (s : string) : IP := default [] (ParseIP s).
Definition To4_or_nil (ip : IP) : IP := default [] (To4 ip).

(** [IP.To16]. *)
Definition To16 (ip : IP) : option IP :=
  if (length ip =? IPv4len)%nat then Some (v4InV6Prefix ++ ip)
  else if (length ip =? IPv6len)%nat then Some ip
  else None.

(** [IP.Equal]. *)
Definition Equal (ip x : IP) : bool :=
  if (length ip =? length x)%nat then bytes_equal ip x
  else if (length ip =? IPv4len)%nat && (length x =? IPv6len)%nat then
    bytes_equal (take 12 x) v4InV6Prefix && bytes_equal ip (drop 12 x)
  else if (length ip =? IPv6len)%nat && (length x =? IPv4len)%nat then
    bytes_equal (take 12 ip) v4InV6Prefix && bytes_equal (drop 12 ip) x
  else false.

Definition IPv6loopback : IP := make_bytes 15 ++ [1].

(** [IP.IsLoopback]. *)
Definition IsLoopback (ip : IP) : bool :=
  match To4 ip with
  | Some ip4 => byte_at ip4 0 =? 127
  | None => Equal ip IPv6loopback
  end.

(** [IP.IsLinkLocalUnicast]. *)
Definition IsLinkLocalUnicast (ip : IP) : bool :=
  match To4 ip with
  | Some ip4 => (byte_at ip4 0 =? 169) && (byte_at ip4 1 =? 254)
  | None => (length ip =? IPv6len)%nat && (byte_at ip 0 =? 254) && (Z.land (byte_at ip 1) 192 =? 128)
  end.

(** The remaining classification methods. *)
Definition IsMulticast (ip : IP) : bool :=
  match To4 ip with
  | Some ip4 => Z.land (byte_at ip4 0) 240 =? 224
  | None => (length ip =? IPv6len)%nat && (byte_at ip 0 =? 255)
  end.

Definition IsUnspecified (ip : IP) : bool :=
  Equal ip (v4InV6Prefix ++ make_bytes 4) || Equal ip (make_bytes 16).

(** [IP.IsGlobalUnicast]. *)
Definition IsGlobalUnicast (ip : IP) : bool :=
  ((length ip =? IPv4len)%nat || (length ip =? IPv6len)%nat) &&
  negb (Equal ip (v4InV6Prefix ++ [255; 255; 255; 255])) && negb (IsUnspecified ip) &&
  negb (IsLoopback ip) && negb (IsMulticast ip) && negb (IsLinkLocalUnicast ip).

(** ** Printing *)

Definition hex_digit (d : Z) : ascii :=
  Ascii.ascii_of_nat (Z.to_nat (if d <? 10 then 48 + d else 87 + d)).

Definition hex_byte (b : Z) : string := String (hex_digit (b / 16)) (String (hex_digit (b mod 16)) "").

(** A 16-bit group without leading zeros. *)
Definition hex_u16 (x : Z) : string :=
  let d i := hex_digit (x / 16 ^ i mod 16) in
  if x <? 16 then String (d 0) ""
  else if x <? 256 then String (d 1) (String (d 0) "")
  else if x <? 4096 then String (d 2) (String (d 1) (String (d 0) ""))
  else String (d 3) (String (d 2) (String (d 1) (String (d 0) ""))).

Definition dotted (ip : bytes) : string := Join (map itoa ip) ".".

Fixpoint groups (l : bytes) : list Z :=
  match l with
  | a :: b :: l => 256 * a + b :: groups l
  | _ => []
  end.

(** The length of the run of zero groups at the front. *)
Fixpoint zero_run (l : list Z) : nat :=
  match l with
  | x :: l => if x =? 0 then S (zero_run l) else 0
  | [] => 0
  end.

(** The first longest run of at least two zero groups: start and end. *)
Fixpoint longest_run (i : nat) (l : list Z) (best : nat * nat) : nat * nat :=
  match l with
  | [] => best
  | _ :: l' =>
      let n := zero_run l in
      let best := if (2 <=? n)%nat && (best.2 - best.1 <? n)%nat then (i, (i + n)%nat) else best in
      longest_run (S i) l' best
  end.

Definition ipv6_string (ip : bytes) : string :=
  let g := groups ip in
  let '(s, e) := longest_run 0 g (0, 0)%nat in
  if (s =? e)%nat then Join (map hex_u16 g) ":"
  else Join (map hex_u16 (take s g)) ":" +:+ "::" +:+ Join (map hex_u16 (drop e g)) ":".

(** [IP.String]. *)
Definition IP_String (ip : IP) : string :=
  match ip with
  | [] => "<nil>"
  | _ =>
      match To4 ip with
      | Some p4 => dotted p4
      | None =>
          if (length ip =? IPv6len)%nat then ipv6_string ip
          else "?" +:+ String.concat "" (map hex_byte ip)
      end
  end.

(** ** The host *)

(** An interface: its name, the result of [Addrs], of which only the
    [*net.IPNet] entries matter to the callers, and its [Flags]. *)
Record Interface := mkInterface {
  if_name : string;
  if_addrs : option (list IP);
  if_flags : Z
}.

(** [net.FlagUp] and [net.FlagLoopback]; [iface.Flags & f != 0]. *)
Definition FlagUp : Z := 1.
Definition FlagLoopback : Z := 4.
Definition has_flag (f : Z) (i : Interface) : bool := negb (Z.land (if_flags i) f =? 0).

(** Whether one of the addresses satisfies [ok]; an error of [Addrs] skips the
    interface. *)
Definition owns (ok : IP -> bool) (i : Interface) : bool :=
  match if_addrs i with Some ips => existsb ok ips | None => false end.

(** What the host answers: [os.Hostname], [net.LookupHost], [net.Interfaces];
    [None] is an error. *)
Record Host := mkHost {
  Hostname : option string;
  LookupHost : string -> option (list string);
  Interfaces : option (list Interface)
}.

Example parse_v4 : ParseIP "10.0.0.1" = Some (v4InV6Prefix ++ [10; 0; 0; 1]).
Proof. reflexivity. Qed.
Example parse_v4_bad : ParseIP "10.0.0.01" = None /\ ParseIP "10.0.0" = None /\ ParseIP "256.0.0.1" = None.
Proof. repeat split. Qed.
Example parse_v6 : ParseIP "fe80::1:0:2" = Some [254; 128; 0; 0; 0; 0; 0; 0; 0; 0; 0; 1; 0; 0; 0; 2].
Proof. reflexivity. Qed.
Example parse_v6_v4 : ParseIP "::ffff:10.0.0.1" = ParseIP "10.0.0.1" /\ ParseIP "fe80::1%eth0" = None.
Proof. repeat split. Qed.
Example print_v6 :
  IP_String [254; 128; 0; 0; 0; 0; 0; 0; 0; 0; 0; 1; 0; 0; 0; 2] = "fe80::1:0:2" /\
  IP_String IPv6loopback = "::1" /\ IP_String (make_bytes 16) = "::" /\
  IP_String [10; 0; 0; 1] = "10.0.0.1" /\ IP_String (v4InV6Prefix ++ [10; 0; 0; 1]) = "10.0.0.1".
Proof. repeat split. Qed.

(** ** Parsed addresses are bytes *)

Lemma hex_value_range c d : hex_value c = Some d -> 0 <= d < 16.
Proof. unfold hex_value. repeat case_match; intros [= <-]; bools; lia. Qed.

Lemma hex_group_range acc n s m v rest :
  hex_group acc n s = (m, v, rest) -> 0 <= acc < 16 ^ Z.of_nat n -> 0 <= v < 16 ^ Z.of_nat m.
Proof.
  revert acc n. induction s as [|c s IH]; intros acc n; cbn [hex_group]; [by intros [= <- <- _]|].
  destruct (hex_value c) as [d|] eqn:Ed; [|by intros [= <- <- _]].
  intros H Ha. eapply IH; [exact H|]. apply hex_value_range in Ed.
  rewrite Nat2Z.inj_succ, Z.pow_succ_r by lia. lia.
Qed.

Lemma parse_octet_byte s v : parse_octet s = Some v -> is_byte v.
Proof.
  intros H. assert (exists w, parse_decimal s = Some w /\ (w <=? 255) = true /\ w = v) as (w & Hw & Hle & ->).
  { unfold parse_octet in H. destruct s as [|c s]; [done|].
    destruct (parse_decimal (String c s)) as [w|] eqn:E.
    - repeat case_match; simplify_eq/=; eauto; repeat case_match; simplify_eq; eauto.
    - repeat case_match; simplify_eq/=. }
  apply Z.leb_le in Hle. pose proof (parse_decimal_nonneg s v Hw). unfold is_byte. lia.
Qed.

Lemma parse_ipv4_bytes s v : parse_ipv4 s = Some v -> length v = 4%nat /\ Forall is_byte v.
Proof.
  unfold parse_ipv4. destruct (Split s ".") as [|a [|b [|c [|d [|]]]]]; try done.
  destruct (parse_octet a) eqn:E1, (parse_octet b) eqn:E2, (parse_octet c) eqn:E3,
    (parse_octet d) eqn:E4; try done. intros [= <-]. split; [done|].
  repeat constructor; by eapply parse_octet_byte.
Qed.

Lemma ipv6_loop_bytes fuel s ip ell r e :
  ipv6_loop fuel s ip ell = Some (r, e) -> Forall is_byte ip -> Forall is_byte r.
Proof.
  revert s ip ell. induction fuel as [|fuel IH]; intros s ip ell; cbn [ipv6_loop]; [done|].
  destruct (16 <=? length ip)%nat; [case_decide; [by intros [= <- _]|done]|].
  destruct (hex_group 0 0 s) as [[n acc] rest] eqn:Eg.
  destruct ((n =? 0)%nat || (4 <? n)%nat) eqn:En; [done|]. intros H Hip.
  apply orb_false_elim in En as [_ En%Nat.ltb_ge].
  assert (Hacc : 0 <= acc < 65536).
  { eapply hex_group_range in Eg; [|cbn; lia].
    assert (16 ^ Z.of_nat n <= 16 ^ 4) by (apply Z.pow_le_mono_r; lia). lia. }
  assert (Hip' : Forall is_byte (ip ++ [acc / 256; acc mod 256])).
  { apply Forall_app. split; [done|]. pose proof (Z.mod_pos_bound acc 256).
    repeat constructor; unfold is_byte; try lia; [apply Z.div_pos; lia|apply Z.div_lt_upper_bound; lia]. }
  assert (Hv4 : forall v4, parse_ipv4 s = Some v4 -> Forall is_byte (ip ++ v4))
    by (intros v4 Hv; apply Forall_app; split; [done|by eapply parse_ipv4_bytes]).
  destruct (parse_ipv4 s) as [v4|] eqn:E4; repeat (case_match; try done); simplify_eq/=; eauto.
Qed.

Lemma ipv6_expand_bytes ip e r : ipv6_expand ip e = Some r -> Forall is_byte ip -> Forall is_byte r.
Proof.
  unfold ipv6_expand. intros H Hip. destruct (_ <? _)%nat; [|by destruct e; simplify_eq].
  destruct e as [e|]; [cbn [mbind option_bind] in H; injection H as <-|done].
  apply Forall_app; split; [by apply Forall_take|]. apply Forall_app; split; [|by apply Forall_drop].
  apply Forall_replicate. unfold is_byte. lia.
Qed.

Lemma parse_ipv6_bytes s r : parse_ipv6 s = Some r -> Forall is_byte r.
Proof.
  assert (Hgen : forall fuel s' e0 r,
    ('(ip, ell) ← ipv6_loop fuel s' [] e0; ipv6_expand ip ell) = Some r -> Forall is_byte r).
  { intros fuel s' e0 r'. destruct (ipv6_loop fuel s' [] e0) as [[ip ell]|] eqn:E; [cbn|done].
    intros H. eapply ipv6_expand_bytes; [exact H|]. eapply ipv6_loop_bytes; [exact E|constructor]. }
  unfold parse_ipv6. repeat case_match; try apply Hgen.
  intros [= <-]. apply Forall_replicate. unfold is_byte. lia.
Qed.

Lemma ParseIP_bytes s ip : ParseIP s = Some ip -> Forall is_byte ip.
Proof.
  unfold ParseIP. intros H. repeat case_match; try done; try (by eapply parse_ipv6_bytes).
  destruct (parse_ipv4 s) as [v|] eqn:E; simplify_eq/=. apply parse_ipv4_bytes in E as [_ E].
  repeat (constructor; [unfold is_byte; lia|]). exact E.
Qed.

(** An address that passes the checks [ip != nil] and [ip.To4() != nil]. *)
Lemma To4_bytes s ip ip4 :
  ParseIP s = Some ip -> To4 ip = Some ip4 -> length ip4 = 4%nat /\ Forall is_byte ip4.
Proof.
  intros Hb%ParseIP_bytes. unfold To4. destruct (Nat.eqb_spec (length ip) IPv4len) as [H4|_].
  { intros [= <-]. done. }
  destruct (Nat.eqb_spec (length ip) IPv6len) as [H6|_]; cbn [andb]; [|done].
  case_match; [|done]. intros [= <-]. split; [|by apply Forall_drop].
  rewrite length_drop, H6. done.
Qed.

Lemma To4_length ip ip4 : To4 ip = Some ip4 -> length ip4 = 4%nat.
Proof.
  unfold To4. destruct (Nat.eqb_spec (length ip) IPv4len) as [H4|_]; [by intros [= <-]|].
  destruct (Nat.eqb_spec (length ip) IPv6len) as [H6|_]; cbn [andb]; [|done].
  case_match; [|done]. intros [= <-]. by rewrite length_drop, H6.
Qed.

(** An address equals its 4-byte form. *)
Lemma Equal_To4 ip ip4 : To4 ip = Some ip4 -> Equal ip ip4 = true.
Proof.
  intros H. pose proof (To4_length _ _ H) as Hl. unfold To4, Equal in *. rewrite Hl.
  destruct (Nat.eqb_spec (length ip) IPv4len) as [H4|H4].
  - injection H as <-. rewrite H4. by apply bytes_equal_true.
  - destruct (Nat.eqb_spec (length ip) IPv6len) as [H6|_]; cbn [andb] in H; [|done].
    rewrite H6. cbn. destruct (bytes_equal (take 12 ip) v4InV6Prefix); [|done].
    injection H as <-. by apply bytes_equal_true.
Qed.

(** [ip == nil || ip.To4() == nil] for the parsed address, as the [Validate]
    methods write it. *)
Definition not_ipv4 (a : string) : bool :=
  match ParseIP a with None => true | Some ip => bool_decide (To4 ip = None) end.

Definition ipv4_addr (a : string) : Prop := exists ip, ParseIP a = Some ip /\ is_Some (To4 ip).

Lemma not_ipv4_false a : not_ipv4 a = false -> ipv4_addr a.
Proof.
  unfold not_ipv4, ipv4_addr. destruct (ParseIP a) as [ip|]; [|done]. intros H. bools. eauto.
Qed.
