(* ===== verification/EvrCodec.v ===== *)
(** * The EVR probe payload ([evr/codec/packet.go])

    magic (8) | seq (8) | ts (8) | inner source IP (4) | salt, big-endian. *)

From S2P Require Import Prelude GoNet.
Local Open Scope Z_scope.

(** [MagicFlagLen], [MsgHeaderLen] and [magicFlag] ("EVRCHECK"). *)
Definition MagicFlagLen : nat := 8.
Definition MsgHeaderLen : nat := MagicFlagLen + 20.
Definition magicFlag : bytes := [69; 86; 82; 67; 72; 69; 67; 75].

(** [EncodeWithSrcIP]. *)
Definition EncodeWithSrcIP (sq : Z) (salt : bytes) (ts msgLen srcIP : Z) : bytes :=
  let msgLen := if msgLen <? Z.of_nat MsgHeaderLen then Z.of_nat MsgHeaderLen else msgLen in
  let saltLen := msgLen - Z.of_nat MsgHeaderLen in
  let data := make_bytes (Z.to_nat msgLen) in
  let data := copy_at 0 magicFlag data in
  let data := copy_at MagicFlagLen (put_be 8 sq) data in
  let data := copy_at (MagicFlagLen + 8) (put_be 8 (u64 ts)) data in
  let data := copy_at (MagicFlagLen + 16) (put_be 4 srcIP) data in
  if 0 <? saltLen then copy_at (MagicFlagLen + 20) salt data else data.

(** [DecodeWithSrcIP]; a short payload gives zeros and a nil address. *)
Definition DecodeWithSrcIP (data : bytes) : Z * Z * IP :=
  if (length data <? MsgHeaderLen)%nat then (0, 0, [])
  else
    (get_be (slice MagicFlagLen (MagicFlagLen + 8) data),
     i64 (get_be (slice (MagicFlagLen + 8) (MagicFlagLen + 16) data)),
     put_be 4 (get_be (slice (MagicFlagLen + 16) (MagicFlagLen + 20) data))).

(** [IsValid]. *)
Definition IsValid (data : bytes) : bool :=
  if (length data <? MsgHeaderLen)%nat then false
  else bytes_equal magicFlag (slice 0 MagicFlagLen data).

(** ** The layout in closed form *)

Definition header_bytes (sq ts srcIP : Z) : bytes :=
  magicFlag ++ put_be 8 sq ++ put_be 8 (u64 ts) ++ put_be 4 srcIP.

Lemma evr_length_header_bytes sq ts srcIP : length (header_bytes sq ts srcIP) = MsgHeaderLen.
Proof. unfold header_bytes. rewrite !length_app, !length_put_be. done. Qed.

Lemma evr_Encode_layout sq salt ts msgLen srcIP :
  EncodeWithSrcIP sq salt ts msgLen srcIP =
    header_bytes sq ts srcIP ++ padding salt (Z.to_nat (Z.max 28 msgLen) - MsgHeaderLen).
Proof.
  unfold EncodeWithSrcIP. change (Z.of_nat MsgHeaderLen) with 28.
  replace (if msgLen <? 28 then 28 else msgLen) with (Z.max 28 msgLen) by (zcases; lia).
  remember (Z.to_nat (Z.max 28 msgLen)) as n eqn:Hn. rewrite (filled_nil n).
  assert (length magicFlag = 8%nat) as Hm by done.
  repeat (rewrite copy_at_filled_exact;
    [|rewrite ?length_app, ?length_put_be; reflexivity|rewrite ?length_put_be, ?Hm; lia]).
  rewrite !length_put_be, Hm, app_nil_l.
  replace (n - 8 - 8 - 8 - 4)%nat with (n - MsgHeaderLen)%nat
    by (unfold MsgHeaderLen, MagicFlagLen; lia).
  case_match eqn:E.
  - rewrite copy_at_filled by (rewrite ?length_app, ?length_put_be; reflexivity).
    unfold filled, padding, header_bytes. by rewrite <- !app_assoc.
  - apply Z.ltb_ge in E. replace (n - MsgHeaderLen)%nat with 0%nat
      by (unfold MsgHeaderLen, MagicFlagLen in *; lia).
    unfold filled, padding, header_bytes. rewrite take_0. by rewrite <- !app_assoc.
Qed.

Lemma evr_Decode_header sq ts srcIP rest :
  in_u64 sq -> in_i64 ts -> in_u32 srcIP ->
  DecodeWithSrcIP (header_bytes sq ts srcIP ++ rest) = (sq, ts, put_be 4 srcIP).
Proof.
  intros H1 H2 H3. unfold DecodeWithSrcIP.
  rewrite length_app, evr_length_header_bytes, (proj2 (Nat.ltb_ge _ _)) by lia.
  unfold header_bytes. rewrite <- !app_assoc. slices. rewrite !get_put_be.
  change (256 ^ Z.of_nat 8) with (2 ^ 64). change (256 ^ Z.of_nat 4) with (2 ^ 32).
  rewrite (Z.mod_small sq) by exact H1. rewrite (Z.mod_small srcIP) by exact H3.
  rewrite (Z.mod_small (u64 ts)) by apply u64_range. by rewrite i64_u64.
Qed.

Lemma evr_IsValid_header sq ts srcIP rest : IsValid (header_bytes sq ts srcIP ++ rest) = true.
Proof.
  unfold IsValid. rewrite length_app, evr_length_header_bytes.
  rewrite (proj2 (Nat.ltb_ge _ _)) by lia.
  unfold header_bytes. rewrite <- !app_assoc. slices. by apply bytes_equal_true.
Qed.

(** The address bytes of the numeric form the agent embeds. *)
Lemma put_get_ip4 ip : length ip = 4%nat -> Forall is_byte ip -> put_be 4 (get_be ip) = ip.
Proof. intros Hl Hb. rewrite <- Hl. by apply put_get_be. Qed.

Lemma evr_decode_encode_spec :
  forall sq ts ip salt msgLen,
    in_u64 sq -> in_i64 ts -> length ip = 4%nat -> Forall is_byte ip ->
    let data := EncodeWithSrcIP sq salt ts msgLen (get_be ip) in
    length data = Z.to_nat (Z.max 28 msgLen) /\ IsValid data = true /\
    DecodeWithSrcIP data = (sq, ts, ip) /\
    drop MsgHeaderLen data = padding salt (Z.to_nat (Z.max 28 msgLen) - MsgHeaderLen).
Proof.
  intros sq ts ip salt msgLen H1 H2 Hl Hb. cbn zeta. rewrite evr_Encode_layout.
  assert (H3 : in_u32 (get_be ip)).
  { unfold in_u32, get_be. change (2 ^ 32) with (256 ^ Z.of_nat 4). rewrite <- Hl, <- length_reverse.
    by apply get_le_bound, Forall_reverse. }
  split_and!.
  - rewrite length_app, evr_length_header_bytes, length_padding. change MsgHeaderLen with 28%nat. lia.
  - apply evr_IsValid_header.
  - rewrite evr_Decode_header by done. by rewrite put_get_ip4.
  - by rewrite drop_app_length' by (by rewrite evr_length_header_bytes).
Qed.

(** Encoding then decoding an EVR probe for a 4-byte address: the buffer
    has the requested length (at least a header), is recognised, decodes to
    the sequence number, the time and that very address, and its tail is the
    salt cut or zero-padded to fit. *)
Theorem evr_decode_encode :
  forall sq ts ip salt msgLen,
    in_u64 sq -> in_i64 ts -> length ip = 4%nat -> Forall is_byte ip ->
    let data := EncodeWithSrcIP sq salt ts msgLen (get_be ip) in
    length data = Z.to_nat (Z.max 28 msgLen) /\ IsValid data = true /\
    DecodeWithSrcIP data = (sq, ts, ip) /\
    drop MsgHeaderLen data = padding salt (Z.to_nat (Z.max 28 msgLen) - MsgHeaderLen).
Proof. exact evr_decode_encode_spec. Qed.

Lemma evr_decode_encode_witness :
  let data := EncodeWithSrcIP 7 [90; 90; 90] 1700000000000000000 30 (get_be [10; 1; 0; 254]) in
  length data = 30%nat /\ IsValid data = true /\
  DecodeWithSrcIP data = (7, 1700000000000000000, [10; 1; 0; 254]) /\
  drop MsgHeaderLen data = [90; 90].
Proof.
  apply (evr_decode_encode 7 1700000000000000000 [10; 1; 0; 254] [90; 90; 90] 30);
    [split; [discriminate|reflexivity]|split; [discriminate|reflexivity]|reflexivity|].
  repeat constructor; unfold is_byte; lia.
Defined.
