(* ===== verification/GoDuration.v ===== *)
(** * [time.ParseDuration]

    Durations are nanosecond counts ([int64]). The decimal fraction of a value
    goes through [float64], as in the library. *)

From Stdlib Require Import Floats.SpecFloat.
From S2P Require Import Prelude GoStd GoNet.
Local Open Scope Z_scope.

Definition Nanosecond : Z := 1.
Definition Microsecond : Z := 1000.
Definition Millisecond : Z := 1000000.
Definition Second : Z := 1000000000.

Definition float64_mul (a b : float64) : float64 := SFmul 53 1024 a b.

(** Conversion of a non-negative finite [float64] to an integer, truncating. *)
Definition float64_trunc (f : float64) : Z :=
  match f with
  | S754_finite _ m e => Z.shiftl (Z.pos m) e
  | _ => 0
  end.

(** [leadingInt]: the value and the rest; [None] on overflow. *)
Fixpoint leadingInt (x : Z) (s : string) : option (Z * string) :=
  match s with
  | EmptyString => Some (x, s)
  | String c s' =>
      match digit_value c with
      | None => Some (x, s)
      | Some d =>
          if 2 ^ 63 / 10 <? x then None
          else if 2 ^ 63 <? x * 10 + d then None
          else leadingInt (x * 10 + d) s'
      end
  end.

(** [leadingFraction]: the digits kept, the scale, and the rest. *)
Fixpoint leadingFraction (x : Z) (scale : float64) (overflow : bool) (s : string) : Z * float64 * string :=
  match s with
  | EmptyString => (x, scale, s)
  | String c s' =>
      match digit_value c with
      | None => (x, scale, s)
      | Some d =>
          if overflow || ((2 ^ 63 - 1) / 10 <? x) || (2 ^ 63 <? x * 10 + d)
          then leadingFraction x scale true s'
          else leadingFraction (x * 10 + d) (float64_mul scale (float64_of_int 10)) false s'
      end
  end.

(** The unit: everything up to the next digit or period. *)
Fixpoint leadingUnit (s : string) : string * string :=
  match s with
  | EmptyString => ("", "")
  | String c s' =>
      if bool_decide (c = "."%char) || bool_decide (is_Some (digit_value c)) then ("", s)
      else let '(u, r) := leadingUnit s' in (String c u, r)
  end.

(** [unitMap]; the micro signs are U+00B5 and U+03BC in UTF-8. *)
Definition micro (a b : nat) : string :=
  String (Ascii.ascii_of_nat a) (String (Ascii.ascii_of_nat b) "s").
Definition unitMap (u : string) : option Z :=
  if decide (u = "ns") then Some 1
  else if decide (u = "us" \/ u = micro 194 181 \/ u = micro 206 188) then Some 1000
  else if decide (u = "ms") then Some Millisecond
  else if decide (u = "s") then Some Second
  else if decide (u = "m") then Some (60 * Second)
  else if decide (u = "h") then Some (3600 * Second)
  else None.

(** The loop over the terms; each round consumes a character at least. *)
Fixpoint duration_terms (fuel : nat) (d : Z) (s : string) : option Z :=
  match fuel with
  | O => None
  | S fuel =>
      match s with
      | EmptyString => Some d
      | String c _ =>
          if negb (bool_decide (c = "."%char) || bool_decide (is_Some (digit_value c))) then None
          else
            '(v, s1) ← leadingInt 0 s;
            let pre := negb (String.length s1 =? String.length s)%nat in
            let '(f, scale, s2, post) :=
              match s1 with
              | String "." s1 =>
                  let '(f, scale, s2) := leadingFraction 0 (float64_of_int 1) false s1 in
                  (f, scale, s2, negb (String.length s2 =? String.length s1)%nat)
              | _ => (0, float64_of_int 1, s1, false)
              end in
            if negb pre && negb post then None
            else
              let '(u, s3) := leadingUnit s2 in
              unit ← unitMap u;
              if 2 ^ 63 / unit <? v then None
              else
                let v := v * unit in
                let v := if 0 <? f
                         then v + float64_trunc (float64_mul (float64_of_int f)
                                    (float64_div (float64_of_int unit) scale))
                         else v in
                if 2 ^ 63 <? v then None
                else if 2 ^ 63 <? d + v then None
                else duration_terms fuel (d + v) s3
      end
  end.

(** [time.ParseDuration]. *)
Definition ParseDuration (s : string) : option Z :=
  let '(neg, s) :=
    match s with
    | String "-" s => (true, s)
    | String "+" s => (false, s)
    | _ => (false, s)
    end in
  if decide (s = "0") then Some 0
  else if decide (s = "") then None
  else
    d ← duration_terms (S (String.length s)) 0 s;
    if (neg : bool) then Some (- d)
    else if 2 ^ 63 - 1 <? d then None
    else Some d.

Example parse_durations :
  ParseDuration "1s" = Some Second /\ ParseDuration "1m30.5s" = Some 90500000000 /\
  ParseDuration "-1.5ms" = Some (-1500000) /\ ParseDuration "0" = Some 0 /\
  ParseDuration "0s" = Some 0 /\ ParseDuration "3" = None /\ ParseDuration "1.0.0s" = None /\
  ParseDuration ".s" = None /\ ParseDuration "9223372036854775808ns" = None.
Proof. vm_compute. repeat split. Qed.

(** ** [Duration.String] *)

(** A number below [10^n] with [n] digits. *)
Fixpoint digits (n : nat) (z : Z) : string :=
  match n with
  | O => ""
  | S n => digits n (z / 10) +:+ String (Ascii.ascii_of_nat (Z.to_nat (48 + z mod 10))) ""
  end.

(** A fraction without its trailing zeros, with its period; nothing for 0. *)
Fixpoint drop_zeros (l : list ascii) : list ascii :=
  match l with
  | "0"%char :: l => drop_zeros l
  | _ => l
  end.

Definition fmtFrac (v : Z) (prec : nat) : string :=
  if v =? 0 then ""
  else "." +:+ String.string_of_list_ascii (reverse (drop_zeros (reverse (String.list_ascii_of_string (digits prec v))))).

Definition Duration_String (d : Z) : string :=
  let u := Z.abs d in
  (if d <? 0 then "-" else "") +:+
  (if u =? 0 then "0s"
   else if u <? Microsecond then itoa u +:+ "ns"
   else if u <? Millisecond then itoa (u / Microsecond) +:+ fmtFrac (u mod Microsecond) 3 +:+ micro 194 181
   else if u <? Second then itoa (u / Millisecond) +:+ fmtFrac (u mod Millisecond) 6 +:+ "ms"
   else
     let s := u / Second in
     let m := s / 60 in
     (if 0 <? m / 60 then itoa (m / 60) +:+ "h" else "") +:+
     (if 0 <? m then itoa (m mod 60) +:+ "m" else "") +:+
     itoa (s mod 60) +:+ fmtFrac (u mod Second) 9 +:+ "s").

Example duration_texts :
  map Duration_String [0; 7; -1500; 1500000; Second; 90500000000; 3600 * Second; 5425 * Second + 40] =
    ["0s"; "7ns"; "-1.5" +:+ micro 194 181; "1.5ms"; "1s"; "1m30.5s"; "1h0m0s"; "1h30m25.00000004s"] /\
  map (fun d => ParseDuration (Duration_String d)) [7; -1500; 1500000; 90500000000; 5425 * Second + 40] =
    map Some [7; -1500; 1500000; 90500000000; 5425 * Second + 40].
Proof. vm_compute. split; reflexivity. Qed.
