(* ===== verification/StateErr.v ===== *)
(** * A state-and-error monad

    Go methods that fill in a struct and may return an error part-way: the
    state reached so far is kept when an error is returned. *)

From S2P Require Import Prelude.

Definition SE (S E A : Type) : Type := S -> S * (A + E).

Section monad.
Context {S E : Type}.

Definition ret {A} (a : A) : SE S E A := fun s => (s, inl a).
Definition throw {A} (e : E) : SE S E A := fun s => (s, inr e).
Definition get : SE S E S := fun s => (s, inl s).
Definition modify (f : S -> S) : SE S E unit := fun s => (f s, inl tt).

Definition bind {A B} (m : SE S E A) (k : A -> SE S E B) : SE S E B := fun s =>
  match m s with
  | (s', inl a) => k a s'
  | (s', inr e) => (s', inr e)
  end.

(** [if b { return e }]. *)
Definition check (b : bool) (e : E) : SE S E unit := if b then throw e else ret tt.

(** [if b { ... }]. *)
Definition when (b : bool) (m : SE S E unit) : SE S E unit := if b then m else ret tt.

(** [x, err := f(); if err != nil { return wrap(err) }]. *)
Definition try {A E'} (r : A + E') (wrap : E' -> E) : SE S E A :=
  match r with inl a => ret a | inr e => throw (wrap e) end.

(** [for _, x := range l { ... }]. *)
Fixpoint for_each {A} (l : list A) (f : A -> SE S E unit) : SE S E unit :=
  match l with
  | [] => ret tt
  | x :: l => bind (f x) (fun _ => for_each l f)
  end.

(** The loop of a check that leaves the state alone. *)
Lemma for_each_check {A} (l : list A) (bad : A -> bool) (err : A -> E) s :
  for_each l (fun x => check (bad x) (err x)) s =
    (s, match List.find bad l with Some x => inr (err x) | None => inl tt end).
Proof.
  induction l as [|x l IH]; [done|]. cbn [for_each List.find]. unfold bind, check at 1.
  destruct (bad x); [done|]. exact IH.
Qed.

(** Inversion of a successful run. *)
Lemma bind_inl {A B} (m : SE S E A) (k : A -> SE S E B) s s' b :
  bind m k s = (s', inl b) -> exists s1 a, m s = (s1, inl a) /\ k a s1 = (s', inl b).
Proof. unfold bind. destruct (m s) as [s1 [a|e]]; [eauto|done]. Qed.

Lemma get_inl (s s' a : S) : (get : SE S E S) s = (s', inl a) -> s' = s /\ a = s.
Proof. unfold get. naive_solver. Qed.

Lemma check_inl b e (s s' : S) u : (check b e : SE S E unit) s = (s', inl u) -> b = false /\ s' = s.
Proof. unfold check. destruct b; [done|]. unfold ret. naive_solver. Qed.

Lemma modify_inl f (s s' : S) u : (modify f : SE S E unit) s = (s', inl u) -> s' = f s.
Proof. unfold modify. naive_solver. Qed.

Lemma try_inl {A E'} (r : A + E') wrap (s s' : S) a :
  (try r wrap : SE S E A) s = (s', inl a) -> r = inl a /\ s' = s.
Proof. unfold try, ret, throw. destruct r; naive_solver. Qed.

Lemma when_inl b (m : SE S E unit) s s' u :
  when b m s = (s', inl u) -> b = true /\ m s = (s', inl u) \/ b = false /\ s' = s.
Proof. unfold when, ret. destruct b; naive_solver. Qed.

(** And evaluation of one. *)
Lemma bind_eval {A B} (m : SE S E A) (k : A -> SE S E B) s s1 a :
  m s = (s1, inl a) -> bind m k s = k a s1.
Proof. unfold bind. by intros ->. Qed.

Lemma check_eval (e : E) (s : S) : check false e s = (s, inl tt).
Proof. done. Qed.

Lemma for_each_check_inl {A} (l : list A) (bad : A -> bool) (err : A -> E) s s' u :
  for_each l (fun x => check (bad x) (err x)) s = (s', inl u) ->
  s' = s /\ Forall (fun x => bad x = false) l.
Proof.
  rewrite for_each_check. destruct (List.find bad l) eqn:Hf; [done|]. intros [= <- _].
  split; [done|]. apply Forall_forall. intros x Hx. apply (List.find_none _ _ Hf).
  by apply list_elem_of_In.
Qed.

Lemma for_each_try_inl {A E'} (l : list A) (f : A -> unit + E') (wrap : E' -> E) s s' u :
  for_each l (fun x => try (f x) wrap) s = (s', inl u) ->
  s' = s /\ Forall (fun x => f x = inl tt) l.
Proof.
  induction l as [|x l IH]; cbn [for_each]; intros H; [by injection H as <- _|].
  apply bind_inl in H as (s1 & [] & H1 & H2). apply try_inl in H1 as [Hx ->].
  destruct (IH H2) as [-> Hl]. auto.
Qed.

End monad.

(** Take a successful run apart. *)
Ltac se_inv :=
  repeat match goal with
  | H : bind _ _ _ = (_, inl _) |- _ => apply bind_inl in H as (? & ? & ? & H)
  | H : get _ = (_, inl _) |- _ => apply get_inl in H as [? ?]; subst
  | H : check _ _ _ = (_, inl _) |- _ => apply check_inl in H as [? ?]; subst
  | H : modify _ _ = (_, inl _) |- _ => apply modify_inl in H; subst
  | H : try _ _ _ = (_, inl _) |- _ => apply try_inl in H as [? ?]; subst
  | H : for_each _ (fun x => check _ _) _ = (_, inl _) |- _ =>
      apply for_each_check_inl in H as [? ?]; subst
  | H : for_each _ (fun x => try _ _) _ = (_, inl _) |- _ =>
      apply for_each_try_inl in H as [? ?]; subst
  end.

Declare Scope se_scope.
Delimit Scope se_scope with se.
Notation "x <-- m ;; k" := (bind m (fun x => k))
  (at level 100, m at next level, k at level 200, right associativity) : se_scope.
Notation "m ;;; k" := (bind m (fun _ => k))
  (at level 100, k at level 200, right associativity) : se_scope.
