(* ===== verification/PortRangeText.v ===== *)
(** * The textual form of a port range ([ParsePortRange] of the four [config]
    packages)

    The packages [sonar/config], [sonar6/config], [kuiniu/config] and
    [evr/config] contain the same function. *)

From S2P Require Import Prelude GoStd GoText Ports.
Local Open Scope Z_scope.

(** The errors, with the text they quote. *)
Inductive range_error :=
| ErrFormat (s : string)
| ErrMin (s : string)
| ErrMax (s : string)
| ErrOrder (s : string)
| ErrBounds (s : string).

(** [ParsePortRange]. *)
Definition ParsePortRange (s : string) : PortRange + range_error :=
  let s := TrimSpace s in
  match Split s "," with
  | [p0; p1] =>
      match Atoi (TrimSpace p0) with
      | None => inr (ErrMin s)
      | Some portMin =>
          match Atoi (TrimSpace p1) with
          | None => inr (ErrMax s)
          | Some portMax =>
              if portMax <? portMin then inr (ErrOrder s)
              else if (portMin <? 1) || (65535 <? portMax) then inr (ErrBounds s)
              else inl (mkPortRange portMin portMax)
          end
      end
  | _ => inr (ErrFormat s)
  end.

Module sonar_config.
Definition ParsePortRange := ParsePortRange.
End sonar_config.
Module sonar6_config.
Definition ParsePortRange := ParsePortRange.
End sonar6_config.
Module kuiniu_config.
Definition ParsePortRange := ParsePortRange.
End kuiniu_config.
Module evr_config.
Definition ParsePortRange := ParsePortRange.
End evr_config.

(** ** Properties *)

Definition print_range (r : PortRange) : string := itoa (Min r) +:+ "," +:+ itoa (Max r).

Lemma ParsePortRange_sound s r : ParsePortRange s = inl r -> valid_range r.
Proof.
  unfold ParsePortRange. repeat case_match; try discriminate. intros [= <-].
  match goal with H : _ || _ = false |- _ => apply orb_false_elim in H as [? ?] end.
  unfold valid_range; cbn [Min Max]. rewrite Z.ltb_ge in *. lia.
Qed.

Lemma ParsePortRange_print r : valid_range r -> ParsePortRange (print_range r) = inl r.
Proof.
  destruct r as [mn mx]. intros [H1 [H2 H3]]. cbn [Min Max] in *.
  unfold ParsePortRange, print_range. cbn [Min Max]. rewrite TrimSpace_visible.
  2: { rewrite !visible_app.
       split; [|split]; [by apply itoa_visible; lia|split; [vm_compute; lia|done]
                        |by apply itoa_visible; lia]. }
  change ("," +:+ itoa mx) with (String "," (itoa mx)).
  rewrite Split_app, Split_no_char by (apply itoa_no_comma; lia).
  rewrite !TrimSpace_visible, !Atoi_itoa by first [lia | apply itoa_visible; lia].
  rewrite (proj2 (Z.ltb_ge mx mn)), (proj2 (Z.ltb_ge mn 1)), (proj2 (Z.ltb_ge 65535 mx)) by lia. done.
Qed.

(** [ParsePortRange] accepts exactly valid ranges: what it returns is a
    range with [1 <= Min <= Max <= 65535], and every such range, printed as
    "min,max", parses back to itself. *)
Theorem ParsePortRange_valid :
  (forall s r, ParsePortRange s = inl r -> valid_range r) /\
  (forall r, valid_range r -> ParsePortRange (print_range r) = inl r).
Proof. split; [exact ParsePortRange_sound|exact ParsePortRange_print]. Qed.
