(* ===== verification/SonarConfig.v ===== *)
(** * Configuration of the sonar tool ([sonar/config/config.go]) *)

From S2P Require Import Prelude GoStd GoText GoNet GoDuration StateErr Ports PortRangeText.
Local Open Scope Z_scope.
Local Open Scope se_scope.

Module sonar_config.

Definition RoleServer : string := "server".
Definition RoleClient : string := "client".

(** [Config]. *)
Record Config := mkConfig {
  Role : string;
  ClientAddr : string;
  ClientAddrs : list string;
  ServerAddrs : list string;
  TOS : Z;
  ClientPortRange : PortRange;
  ServerPortRange : PortRange;
  RateInSpan : Z;
  Span : Z;
  Delay : Z;
  MsgLen : Z;
  Count : Z;
  SendDuration : Z;
  Verbose : bool
}.

Definition set_addrs (client : string) (servers : list string) (c : Config) : Config :=
  mkConfig (Role c) client (ClientAddrs c) servers (TOS c) (ClientPortRange c) (ServerPortRange c)
    (RateInSpan c) (Span c) (Delay c) (MsgLen c) (Count c) (SendDuration c) (Verbose c).

Definition set_ranges (cr sr : PortRange) (c : Config) : Config :=
  mkConfig (Role c) (ClientAddr c) (ClientAddrs c) (ServerAddrs c) (TOS c) cr sr
    (RateInSpan c) (Span c) (Delay c) (MsgLen c) (Count c) (SendDuration c) (Verbose c).

Definition set_timing (rate span delay : Z) (c : Config) : Config :=
  mkConfig (Role c) (ClientAddr c) (ClientAddrs c) (ServerAddrs c) (TOS c) (ClientPortRange c)
    (ServerPortRange c) rate span delay (MsgLen c) (Count c) (SendDuration c) (Verbose c).

Definition set_MsgLen (n : Z) (c : Config) : Config :=
  mkConfig (Role c) (ClientAddr c) (ClientAddrs c) (ServerAddrs c) (TOS c) (ClientPortRange c)
    (ServerPortRange c) (RateInSpan c) (Span c) (Delay c) n (Count c) (SendDuration c) (Verbose c).

Inductive resolve_error :=
| ErrHostname
| ErrLookup (host : string)
| ErrNoAddress (host : string).

Inductive error :=
| ErrRole (r : string)
| ErrServerResolve (e : resolve_error)
| ErrServerAddr (a : string)
| ErrClientResolve (e : resolve_error)
| ErrMsgLen (n : Z).

(** [resolveLocalIP]. *)
Definition resolveLocalIP (h : Host) : string + resolve_error :=
  match Hostname h with
  | None => inr ErrHostname
  | Some hostname =>
      match LookupHost h hostname with
      | None => inr (ErrLookup hostname)
      | Some addrs =>
          match List.find (fun addr => match ParseIP addr with
                                       | Some ip => negb (IsLoopback ip)
                                       | None => false
                                       end) addrs with
          | Some addr => inl addr
          | None => match addrs with
                    | addr :: _ => inl addr
                    | [] => inr (ErrNoAddress hostname)
                    end
          end
      end
  end.

(** [Config.ServerAddr]. *)
Definition ServerAddr (c : Config) : string := match ServerAddrs c with a :: _ => a | [] => "" end.

Definition is_role (r : string) (c : Config) : bool := bool_decide (Role c = r).

(** The defaulting assignments of [Validate]. *)
Definition default_range (r d : PortRange) : PortRange :=
  if (Min r =? 0) && (Max r =? 0) then d else r.
Definition default_int (n d : Z) : Z := if n =? 0 then d else n.

Definition fill_defaults (c : Config) : Config :=
  set_timing (default_int (RateInSpan c) 5000) (default_int (Span c) Second)
    (default_int (Delay c) (3 * Second))
    (set_ranges (default_range (ClientPortRange c) (mkPortRange 43500 43599))
       (default_range (ServerPortRange c) (mkPortRange 43500 43509)) c).

(** The parts of [Validate]: the server address, the client address, the
    message length. *)
Definition fill_server_addr (h : Host) : SE Config error unit :=
  c <-- get;;
  when (is_role RoleServer c)
    (when (bool_decide (ServerAddr c = ""))
       (ip <-- try (resolveLocalIP h) ErrServerResolve;;
        modify (set_addrs (ClientAddr c) [ip]));;;
     c <-- get;;
     check (bool_decide (ParseIP (ServerAddr c) = None)) (ErrServerAddr (ServerAddr c))).

Definition fill_client_addr (h : Host) : SE Config error unit :=
  c <-- get;;
  when (bool_decide (ClientAddr c = ""))
    (ip <-- try (resolveLocalIP h) ErrClientResolve;;
     modify (set_addrs ip (ServerAddrs c))).

Definition check_msglen : SE Config error unit :=
  c <-- get;;
  check (is_role RoleClient c && (MsgLen c <=? 0)) (ErrMsgLen (MsgLen c));;;
  when (is_role RoleServer c && (MsgLen c <=? 0)) (modify (set_MsgLen 1024)).

(** [Config.Validate]. *)
Definition Validate (h : Host) : SE Config error unit :=
  c <-- get;;
  check (negb (is_role RoleServer c) && negb (is_role RoleClient c)) (ErrRole (Role c));;;
  fill_server_addr h;;;
  fill_client_addr h;;;
  modify fill_defaults;;;
  check_msglen.

End sonar_config.
Import sonar_config.

(** ** Properties *)

(** What a validated configuration guarantees. *)
Record config_ok (c : Config) : Prop := {
  ok_role : Role c = RoleServer \/ Role c = RoleClient;
  ok_server : Role c = RoleServer -> is_Some (ParseIP (ServerAddr c));
  ok_cr : ~ (Min (ClientPortRange c) = 0 /\ Max (ClientPortRange c) = 0);
  ok_sr : ~ (Min (ServerPortRange c) = 0 /\ Max (ServerPortRange c) = 0);
  ok_rate : RateInSpan c <> 0;
  ok_span : Span c <> 0;
  ok_delay : Delay c <> 0;
  ok_msglen : 0 < MsgLen c
}.

Lemma default_int_idem n d : d <> 0 -> default_int (default_int n d) d = default_int n d.
Proof. intros H. unfold default_int. zcases; congruence. Qed.

Lemma default_int_ne n d : d <> 0 -> default_int n d <> 0.
Proof. intros H. unfold default_int. zcases; congruence. Qed.

Lemma default_range_ne r d :
  Min d <> 0 -> ~ (Min (default_range r d) = 0 /\ Max (default_range r d) = 0).
Proof.
  intros H. unfold default_range. destruct (_ && _) eqn:E; [tauto|].
  apply andb_false_iff in E as [E%Z.eqb_neq|E%Z.eqb_neq]; tauto.
Qed.

Lemma default_range_idem r d :
  Min d <> 0 -> default_range (default_range r d) d = default_range r d.
Proof.
  intros H. unfold default_range at 1. pose proof (default_range_ne r d H).
  destruct (_ && _) eqn:E; [|done]. apply andb_true_iff in E as [E1%Z.eqb_eq E2%Z.eqb_eq]. tauto.
Qed.

Lemma fill_defaults_idem c : fill_defaults (fill_defaults c) = fill_defaults c.
Proof.
  unfold fill_defaults; cbn. by rewrite !default_int_idem, !default_range_idem.
Qed.

Lemma set_addrs_same c : set_addrs (ClientAddr c) (ServerAddrs c) c = c.
Proof. by destruct c. Qed.

Lemma fill_server_addr_inv h c c1 u :
  fill_server_addr h c = (c1, inl u) ->
  c1 = set_addrs (ClientAddr c) (ServerAddrs c1) c /\
  (Role c = RoleServer -> is_Some (ParseIP (ServerAddr c1))) /\
  (ServerAddr c <> "" -> c1 = c).
Proof.
  unfold fill_server_addr. intros H. se_inv. unfold is_role in H.
  apply when_inl in H as [[Hr H]|[Hr ->]]; se_inv.
  - match goal with H : when _ _ _ = _ |- _ => apply when_inl in H as [[Ha H]|[Ha ->]] end;
      se_inv; bools; [done|]. by rewrite set_addrs_same.
  - bools. by rewrite set_addrs_same.
Qed.

Lemma fill_server_addr_ok h c :
  (Role c = RoleServer -> is_Some (ParseIP (ServerAddr c))) -> fill_server_addr h c = (c, inl tt).
Proof.
  intros H. unfold fill_server_addr, bind, get. unfold is_role. case_bool_decide as Hr; [|done].
  specialize (H Hr). cbn [when]. rewrite (bool_decide_eq_false_2 (ServerAddr c = "")).
  - cbn. by rewrite bool_decide_eq_false_2 by (intros E; rewrite E in H; by apply is_Some_None in H).
  - intros E. rewrite E in H. by apply is_Some_None in H.
Qed.

Lemma fill_client_addr_inv h c c1 u :
  fill_client_addr h c = (c1, inl u) ->
  c1 = set_addrs (ClientAddr c1) (ServerAddrs c) c /\
  (ClientAddr c1 <> "" \/ resolveLocalIP h = inl (ClientAddr c1)) /\
  (ClientAddr c <> "" -> c1 = c).
Proof.
  unfold fill_client_addr. intros H. se_inv. apply when_inl in H as [[Ha H]|[Ha ->]]; se_inv.
  - bools. cbn. split_and!; [done|by right|done].
  - bools. rewrite set_addrs_same. auto.
Qed.

Lemma fill_client_addr_ok h c :
  ClientAddr c <> "" \/ resolveLocalIP h = inl (ClientAddr c) -> fill_client_addr h c = (c, inl tt).
Proof.
  intros H. unfold fill_client_addr, bind, get. case_bool_decide as Ha; [|done].
  destruct H as [H| ->]; [done|]. cbn. unfold modify. by rewrite set_addrs_same.
Qed.

Lemma check_msglen_inv c c1 u :
  Role c = RoleServer \/ Role c = RoleClient ->
  check_msglen c = (c1, inl u) -> c1 = set_MsgLen (MsgLen c1) c /\ 0 < MsgLen c1 /\ (0 < MsgLen c -> c1 = c).
Proof.
  unfold check_msglen, is_role. intros Hr H. se_inv.
  apply when_inl in H as [[Ha H]|[Ha ->]]; se_inv; cbn.
  - apply andb_true_iff in Ha as [_ Ha%Z.leb_le]. split_and!; [done|lia|lia].
  - split; [by destruct c|]. split; [|done].
    apply Z.leb_gt. destruct Hr as [Hr|Hr]; rewrite !Hr in *;
      rewrite bool_decide_eq_true_2 in * by done; done.
Qed.

Lemma check_msglen_ok c : 0 < MsgLen c -> check_msglen c = (c, inl tt).
Proof.
  intros H. unfold check_msglen, bind, get. rewrite (proj2 (Z.leb_gt _ _)) by done.
  by rewrite !andb_false_r.
Qed.

(** Whatever was configured explicitly is left as it was. *)
Record keeps (c c' : Config) : Prop := {
  keeps_client : ClientAddr c <> "" -> ClientAddr c' = ClientAddr c;
  keeps_server : ServerAddr c <> "" -> ServerAddrs c' = ServerAddrs c;
  keeps_cr : Min (ClientPortRange c) <> 0 -> ClientPortRange c' = ClientPortRange c;
  keeps_sr : Min (ServerPortRange c) <> 0 -> ServerPortRange c' = ServerPortRange c;
  keeps_rate : RateInSpan c <> 0 -> RateInSpan c' = RateInSpan c;
  keeps_span : Span c <> 0 -> Span c' = Span c;
  keeps_delay : Delay c <> 0 -> Delay c' = Delay c;
  keeps_msglen : 0 < MsgLen c -> MsgLen c' = MsgLen c;
  keeps_rest : Role c' = Role c /\ ClientAddrs c' = ClientAddrs c /\ TOS c' = TOS c /\
               Count c' = Count c /\ SendDuration c' = SendDuration c /\ Verbose c' = Verbose c
}.

Lemma default_range_keep r d : Min r <> 0 -> default_range r d = r.
Proof. intros H. unfold default_range. by rewrite (proj2 (Z.eqb_neq _ _)). Qed.

Lemma default_int_keep n d : n <> 0 -> default_int n d = n.
Proof. intros H. unfold default_int. by rewrite (proj2 (Z.eqb_neq _ _)). Qed.

(** The phases of a successful run. *)
Lemma Validate_phases h c c' :
  Validate h c = (c', inl tt) ->
  exists c1 c2,
    (Role c = RoleServer \/ Role c = RoleClient) /\
    fill_server_addr h c = (c1, inl tt) /\ fill_client_addr h c1 = (c2, inl tt) /\
    check_msglen (fill_defaults c2) = (c', inl tt).
Proof.
  unfold Validate. intros H. se_inv.
  repeat match goal with u : () |- _ => destruct u end.
  eexists _, _. split; [|split; [eassumption|split; eassumption]].
  unfold is_role in *.
  match goal with H : negb _ && negb _ = false |- _ => apply andb_false_iff in H as [?|?] end;
    bools; auto.
Qed.

(** A successful [Validate] of sonar leaves a usable configuration (a
    known role, a server's address that parses, port ranges, rate, span and
    delay that are set, a positive message length), keeps everything that was
    configured explicitly, and is idempotent: validating the result again on
    the same host succeeds and changes nothing. *)
Theorem sonar_Validate_spec :
  forall h c c',
    Validate h c = (c', inl tt) ->
    config_ok c' /\ keeps c c' /\ Validate h c' = (c', inl tt).
Proof.
  intros h c c' H. apply Validate_phases in H as (c1 & c2 & Hr & H1 & H2 & H3).
  apply fill_server_addr_inv in H1 as (E1 & Hs & Hk1).
  apply fill_client_addr_inv in H2 as (E2 & Hc & Hk2).
  assert (Role c2 = Role c) as Hr2 by (rewrite E2, E1; done).
  apply check_msglen_inv in H3 as (E3 & Hn & Hk3); [|cbn; congruence].
  assert (ServerAddrs c2 = ServerAddrs c1) as Hsa by (rewrite E2; done).
  assert (ClientAddr c1 = ClientAddr c) as Hca by (rewrite E1; done).
  assert (Hrest : c' = set_MsgLen (MsgLen c') (fill_defaults
            (set_addrs (ClientAddr c2) (ServerAddrs c1) c))).
  { rewrite E3 at 1. do 2 f_equal. rewrite E2 at 1. rewrite E1 at 2. rewrite <- Hsa. reflexivity. }
  assert (Hcn : MsgLen c2 = MsgLen c) by (rewrite E2, E1; done).
  split_and!.
  - rewrite Hrest. split; cbn; try (by apply default_int_ne); try (by apply default_range_ne); done.
  - rewrite Hrest. split; cbn.
    + intros Hne. rewrite Hk2 by congruence. done.
    + intros Hne. by rewrite Hk1.
    + intros. by apply default_range_keep.
    + intros. by apply default_range_keep.
    + intros. by apply default_int_keep.
    + intros. by apply default_int_keep.
    + intros. by apply default_int_keep.
    + intros. rewrite Hk3 by (cbn; congruence). done.
    + done.
  - assert (Hrole : Role c' = Role c) by (rewrite Hrest; done).
    unfold Validate. rewrite (bind_eval _ _ _ c' c') by done.
    rewrite (bind_eval _ _ _ c' tt).
    2: { unfold is_role. rewrite Hrole. destruct Hr as [->| ->]; reflexivity. }
    rewrite (bind_eval _ _ _ c' tt).
    2: { apply fill_server_addr_ok. rewrite Hrole. intros Hx. rewrite Hrest. by apply Hs. }
    rewrite (bind_eval _ _ _ c' tt).
    2: { apply fill_client_addr_ok. rewrite Hrest. exact Hc. }
    rewrite (bind_eval _ _ _ c' tt); [by apply check_msglen_ok|].
    unfold modify. do 2 f_equal. rewrite Hrest at 2.
    rewrite <- (fill_defaults_idem (set_addrs _ _ c)). rewrite Hrest at 1. reflexivity.
Qed.

Definition sample_host : Host :=
  mkHost (Some "node1") (fun n => if decide (n = "node1") then Some ["127.0.0.1"; "10.0.0.7"] else None) None.

Definition sample_config : Config :=
  mkConfig "server" "" [] [] 0 (mkPortRange 0 0) (mkPortRange 43600 43605) 0 0 0 0 0 0 false.

Definition sample_validated : Config :=
  mkConfig "server" "10.0.0.7" [] ["10.0.0.7"] 0 (mkPortRange 43500 43599) (mkPortRange 43600 43605)
    5000 Second (3 * Second) 1024 0 0 false.

Lemma sonar_Validate_spec_witness :
  config_ok sample_validated /\ keeps sample_config sample_validated /\
  Validate sample_host sample_validated = (sample_validated, inl tt).
Proof. apply (sonar_Validate_spec sample_host sample_config). reflexivity. Defined.
