(* ===== verification/Sonar6Config.v ===== *)
(** * Configuration of the sonar6 tool ([sonar6/config/config.go]) *)

From S2P Require Import Prelude GoStd GoText GoNet GoDuration StateErr Ports PortRangeText.
Local Open Scope Z_scope.
Local Open Scope se_scope.

Module sonar6_config.

Definition RoleServer : string := "server".
Definition RoleClient : string := "client".

(** [Config]. *)
Record Config := mkConfig {
  Role : string;
  ClientAddr : string;
  ClientAddrs : list string;
  ServerAddrs : list string;
  TOS : Z;
  ClientPortRange : PortRange;
  ServerPortRange : PortRange;
  RateInSpan : Z;
  Span : Z;
  Delay : Z;
  MsgLen : Z;
  Count : Z;
  SendDuration : Z;
  ServerZone : string;
  ClientZone : string;
  Verbose : bool
}.

Definition set_server (servers : list string) (zone : string) (c : Config) : Config :=
  mkConfig (Role c) (ClientAddr c) (ClientAddrs c) servers (TOS c) (ClientPortRange c)
    (ServerPortRange c) (RateInSpan c) (Span c) (Delay c) (MsgLen c) (Count c) (SendDuration c)
    zone (ClientZone c) (Verbose c).

Definition set_client (client zone : string) (c : Config) : Config :=
  mkConfig (Role c) client (ClientAddrs c) (ServerAddrs c) (TOS c) (ClientPortRange c)
    (ServerPortRange c) (RateInSpan c) (Span c) (Delay c) (MsgLen c) (Count c) (SendDuration c)
    (ServerZone c) zone (Verbose c).

Definition set_ranges (cr sr : PortRange) (c : Config) : Config :=
  mkConfig (Role c) (ClientAddr c) (ClientAddrs c) (ServerAddrs c) (TOS c) cr sr (RateInSpan c)
    (Span c) (Delay c) (MsgLen c) (Count c) (SendDuration c) (ServerZone c) (ClientZone c) (Verbose c).

Definition set_timing (rate span delay : Z) (c : Config) : Config :=
  mkConfig (Role c) (ClientAddr c) (ClientAddrs c) (ServerAddrs c) (TOS c) (ClientPortRange c)
    (ServerPortRange c) rate span delay (MsgLen c) (Count c) (SendDuration c) (ServerZone c)
    (ClientZone c) (Verbose c).

Definition set_MsgLen (n : Z) (c : Config) : Config :=
  mkConfig (Role c) (ClientAddr c) (ClientAddrs c) (ServerAddrs c) (TOS c) (ClientPortRange c)
    (ServerPortRange c) (RateInSpan c) (Span c) (Delay c) n (Count c) (SendDuration c)
    (ServerZone c) (ClientZone c) (Verbose c).

Inductive ipv6_error :=
| ErrInvalid (addr : string)
| ErrIPv4 (addr : string)
| ErrNotIPv6 (addr : string).

Inductive zone_error :=
| ErrZoneAddr (addr : string)
| ErrInterfaces
| ErrNoInterface (addr : string).

Inductive resolve_error :=
| ErrHostname
| ErrLookup (host : string)
| ErrNoAddress (host : string).

Inductive error :=
| ErrRole (r : string)
| ErrServerResolve (e : resolve_error)
| ErrAddr (e : ipv6_error)
| ErrServerZone (addr : string) (e : zone_error)
| ErrClientResolve (e : resolve_error)
| ErrClientZone (addr : string) (e : zone_error)
| ErrMsgLen (n : Z).

(** [validateIPv6]. *)
Definition validateIPv6 (addr : string) : unit + ipv6_error :=
  match ParseIP addr with
  | None => inr (ErrInvalid addr)
  | Some ip =>
      if bool_decide (is_Some (To4 ip)) then inr (ErrIPv4 addr)
      else if bool_decide (To16 ip = None) then inr (ErrNotIPv6 addr)
      else inl tt
  end.

(** The interface of [resolveLinkLocalZone]'s double loop: the first that owns
    [ip]; one whose addresses cannot be listed is skipped. *)
Definition owner (ip : IP) (ifaces : list Interface) : option Interface :=
  List.find (fun iface => match if_addrs iface with
                          | Some addrs => existsb (fun a => Equal a ip) addrs
                          | None => false
                          end) ifaces.

(** [resolveLinkLocalZone]. *)
Definition resolveLinkLocalZone (h : Host) (addr : string) : string + zone_error :=
  match ParseIP addr with
  | None => inr (ErrZoneAddr addr)
  | Some ip =>
      if negb (IsLinkLocalUnicast ip) then inl ""
      else
        match Interfaces h with
        | None => inr ErrInterfaces
        | Some ifaces =>
            match owner ip ifaces with
            | Some iface => inl (if_name iface)
            | None => inr (ErrNoInterface addr)
            end
        end
  end.

(** [resolveLocalIPv6]. *)
Definition resolveLocalIPv6 (h : Host) : string + resolve_error :=
  match Hostname h with
  | None => inr ErrHostname
  | Some hostname =>
      match LookupHost h hostname with
      | None => inr (ErrLookup hostname)
      | Some addrs =>
          match List.find (fun addr => match ParseIP addr with
                                       | Some ip => bool_decide (To4 ip = None) &&
                                                    bool_decide (is_Some (To16 ip)) && negb (IsLoopback ip)
                                       | None => false
                                       end) addrs with
          | Some addr => inl addr
          | None => inr (ErrNoAddress hostname)
          end
      end
  end.

(** [Config.ServerAddr]. *)
Definition ServerAddr (c : Config) : string := match ServerAddrs c with a :: _ => a | [] => "" end.

Definition is_role (r : string) (c : Config) : bool := bool_decide (Role c = r).

Definition default_range (r d : PortRange) : PortRange :=
  if (Min r =? 0) && (Max r =? 0) then d else r.
Definition default_int (n d : Z) : Z := if n =? 0 then d else n.

Definition fill_defaults (c : Config) : Config :=
  set_timing (default_int (RateInSpan c) 5000) (default_int (Span c) Second)
    (default_int (Delay c) (3 * Second))
    (set_ranges (default_range (ClientPortRange c) (mkPortRange 43500 43599))
       (default_range (ServerPortRange c) (mkPortRange 43500 43509)) c).

(** The parts of [Validate]: server addresses and zone, client address and
    zone, message length. *)
Definition fill_server (h : Host) : SE Config error unit :=
  c <-- get;;
  when (is_role RoleServer c && bool_decide (ServerAddr c = ""))
    (ip <-- try (resolveLocalIPv6 h) ErrServerResolve;;
     modify (set_server [ip] (ServerZone c)));;;
  c <-- get;;
  for_each (ServerAddrs c) (fun addr => try (validateIPv6 addr) ErrAddr);;;
  when (bool_decide (ServerAddr c <> ""))
    (zone <-- try (resolveLinkLocalZone h (ServerAddr c)) (ErrServerZone (ServerAddr c));;
     modify (set_server (ServerAddrs c) zone)).

Definition fill_client (h : Host) : SE Config error unit :=
  c <-- get;;
  when (is_role RoleClient c && bool_decide (ClientAddr c = ""))
    (ip <-- try (resolveLocalIPv6 h) ErrClientResolve;;
     modify (set_client ip (ClientZone c)));;;
  c <-- get;;
  when (bool_decide (ClientAddr c <> ""))
    (try (validateIPv6 (ClientAddr c)) ErrAddr;;;
     zone <-- try (resolveLinkLocalZone h (ClientAddr c)) (ErrClientZone (ClientAddr c));;
     modify (set_client (ClientAddr c) zone)).

Definition check_msglen : SE Config error unit :=
  c <-- get;;
  check (is_role RoleClient c && (MsgLen c <=? 0)) (ErrMsgLen (MsgLen c));;;
  when (is_role RoleServer c && (MsgLen c <=? 0)) (modify (set_MsgLen 1024)).

(** [Config.Validate]. *)
Definition Validate (h : Host) : SE Config error unit :=
  c <-- get;;
  check (negb (is_role RoleServer c) && negb (is_role RoleClient c)) (ErrRole (Role c));;;
  fill_server h;;;
  fill_client h;;;
  modify fill_defaults;;;
  check_msglen.

End sonar6_config.
Import sonar6_config.

(** ** Properties *)

(** An IPv6 address, in the sense of [validateIPv6]: 16 bytes, not IPv4-mapped. *)
Definition ipv6_addr (a : string) : Prop := exists ip, ParseIP a = Some ip /\ To4 ip = None.

(** A link-local address is usable only with the zone of an interface that
    owns it; any other address has no zone. *)
Definition zone_ok (h : Host) (a zone : string) : Prop :=
  forall ip, ParseIP a = Some ip ->
    if IsLinkLocalUnicast ip then
      exists iface ifaces addrs b, Interfaces h = Some ifaces /\ In iface ifaces /\
        if_name iface = zone /\ if_addrs iface = Some addrs /\ In b addrs /\ Equal b ip = true
    else zone = "".

Lemma validateIPv6_ok a : validateIPv6 a = inl tt -> ipv6_addr a.
Proof.
  unfold validateIPv6, ipv6_addr. destruct (ParseIP a) as [ip|]; [|done].
  case_bool_decide as H; [done|]. intros _. exists ip. split; [done|]. by apply eq_None_not_Some.
Qed.

Lemma resolveLinkLocalZone_ok h a zone : resolveLinkLocalZone h a = inl zone -> zone_ok h a zone.
Proof.
  unfold resolveLinkLocalZone, zone_ok. intros H ip Hip. rewrite Hip in H.
  destruct (IsLinkLocalUnicast ip); cbn [negb] in H; [|congruence].
  destruct (Interfaces h) as [ifaces|]; [|done]. destruct (owner ip ifaces) as [iface|] eqn:E; [|done].
  unfold owner in E. apply List.find_some in E as [Hin Hf].
  destruct (if_addrs iface) as [addrs|] eqn:Ha; [|done].
  apply existsb_exists in Hf as (b & Hb & Heq). exists iface, ifaces, addrs, b. naive_solver.
Qed.

Lemma resolveLocalIPv6_ok h a : resolveLocalIPv6 h = inl a -> ipv6_addr a.
Proof.
  unfold resolveLocalIPv6. repeat case_match; try discriminate. intros [= <-].
  match goal with H : List.find _ _ = Some _ |- _ => apply List.find_some in H as [_ H] end.
  unfold ipv6_addr. destruct (ParseIP s0) as [ip|]; [|done]. bools. by exists ip.
Qed.

Lemma ParseIP_empty : ParseIP "" = None.
Proof. reflexivity. Qed.

Lemma ipv6_addr_nonempty a : ipv6_addr a -> a <> "".
Proof. intros (ip & H & _) ->. by rewrite ParseIP_empty in H. Qed.

(** What [fill_server] leaves behind. *)
Lemma fill_server_inv h c c1 u :
  fill_server h c = (c1, inl u) ->
  c1 = set_server (ServerAddrs c1) (ServerZone c1) c /\
  Forall ipv6_addr (ServerAddrs c1) /\
  (Role c = RoleServer -> ServerAddrs c1 <> []) /\
  (ServerAddrs c1 <> [] -> zone_ok h (ServerAddr c1) (ServerZone c1)) /\
  (ServerAddr c <> "" -> ServerAddrs c1 = ServerAddrs c).
Proof.
  unfold fill_server. intros H. se_inv.
  match goal with H : Forall _ (ServerAddrs ?x), H1 : when _ _ c = (?x, _) |- _ =>
    rename x into x1, H1 into Hw, H into Hall end.
  assert (Hv : Forall ipv6_addr (ServerAddrs x1))
    by (eapply Forall_impl; [exact Hall|]; exact validateIPv6_ok).
  assert (Hne : ServerAddrs x1 <> [] -> ServerAddr x1 <> "").
  { unfold ServerAddr. destruct Hv as [|a l Ha _]; [done|]. intros _. by apply ipv6_addr_nonempty. }
  assert (H1 : x1 = set_server (ServerAddrs x1) (ServerZone c) c /\
               (Role c = RoleServer -> ServerAddrs x1 <> []) /\
               (ServerAddr c <> "" -> ServerAddrs x1 = ServerAddrs c)).
  { apply when_inl in Hw as [[Hb Hw]|[Hb ->]]; se_inv; bools; [done|].
    split; [by destruct c|]. split; [|done]. intros Hr. unfold is_role in Hb.
    rewrite bool_decide_eq_true_2 in Hb by done. cbn [andb] in Hb. bools.
    unfold ServerAddr in Hb. by destruct (ServerAddrs c). }
  destruct H1 as (E1 & Hsrv & Hkeep).
  apply when_inl in H as [[Hb H]|[Hb ->]]; se_inv; bools.
  - cbn. split_and!; [by rewrite E1|done|done| |done].
    intros _. by apply resolveLinkLocalZone_ok.
  - assert (ServerAddrs x1 = []) as Hnil.
    { destruct (decide (ServerAddrs x1 = [])) as [|n]; [done|]. by apply Hne in n. }
    split_and!; [by rewrite E1|done|done|by rewrite Hnil|done].
Qed.

(** What [fill_client] leaves behind. *)
Lemma fill_client_inv h c c1 u :
  fill_client h c = (c1, inl u) ->
  c1 = set_client (ClientAddr c1) (ClientZone c1) c /\
  (ClientAddr c1 <> "" -> ipv6_addr (ClientAddr c1) /\ zone_ok h (ClientAddr c1) (ClientZone c1)) /\
  (Role c = RoleClient -> ClientAddr c1 <> "") /\
  (ClientAddr c <> "" -> ClientAddr c1 = ClientAddr c).
Proof.
  unfold fill_client. intros H. se_inv.
  match goal with H1 : when _ _ c = (?x, _) |- _ => rename x into x1, H1 into Hw end.
  assert (H1 : x1 = set_client (ClientAddr x1) (ClientZone c) c /\
               (Role c = RoleClient -> ClientAddr x1 <> "") /\
               (ClientAddr c <> "" -> ClientAddr x1 = ClientAddr c)).
  { apply when_inl in Hw as [[Hb Hw]|[Hb ->]]; se_inv; bools.
    - cbn. split_and!; [done| |done]. intros _. eapply ipv6_addr_nonempty, resolveLocalIPv6_ok. eassumption.
    - split; [by destruct c|]. split; [|done]. intros Hr. unfold is_role in Hb.
      rewrite bool_decide_eq_true_2 in Hb by done. cbn [andb] in Hb. bools. done. }
  destruct H1 as (E1 & Hcl & Hkeep).
  apply when_inl in H as [[Hb H]|[Hb ->]]; se_inv; bools.
  - cbn. split_and!; [by rewrite E1| |done|done]. intros _. split.
    + apply validateIPv6_ok. by match goal with H : validateIPv6 _ = inl ?u |- _ => destruct u end.
    + by apply resolveLinkLocalZone_ok.
  - apply dec_stable in Hb. split_and!; [by rewrite E1|done|done|done].
Qed.

Lemma sonar6_check_msglen_inv c c1 u :
  Role c = RoleServer \/ Role c = RoleClient ->
  check_msglen c = (c1, inl u) -> c1 = set_MsgLen (MsgLen c1) c /\ 0 < MsgLen c1.
Proof.
  unfold check_msglen, is_role. intros Hr H. se_inv.
  apply when_inl in H as [[Ha H]|[Ha ->]]; se_inv; cbn.
  - done.
  - split; [by destruct c|]. apply Z.leb_gt. destruct Hr as [Hr|Hr]; rewrite !Hr in *;
      rewrite bool_decide_eq_true_2 in * by done; done.
Qed.

(** What a validated configuration guarantees on host [h]. *)
Record config_ok (h : Host) (c : Config) : Prop := {
  ok_role : Role c = RoleServer \/ Role c = RoleClient;
  ok_servers : Forall ipv6_addr (ServerAddrs c);
  ok_server : Role c = RoleServer -> ServerAddrs c <> [];
  ok_server_zone : ServerAddrs c <> [] -> zone_ok h (ServerAddr c) (ServerZone c);
  ok_client : Role c = RoleClient -> ClientAddr c <> "";
  ok_client_addr : ClientAddr c <> "" ->
    ipv6_addr (ClientAddr c) /\ zone_ok h (ClientAddr c) (ClientZone c);
  ok_times : RateInSpan c <> 0 /\ Span c <> 0 /\ Delay c <> 0;
  ok_msglen : 0 < MsgLen c
}.

Lemma sonar6_default_int_ne n d : d <> 0 -> default_int n d <> 0.
Proof. intros H. unfold default_int. zcases; congruence. Qed.

(** A successful [Validate] of sonar6 admits IPv6 only: every server
    address and the client address are 16-byte addresses that are not
    IPv4-mapped, a server has an address to listen on and a client one to send
    from, a link-local address comes with the name of an interface that owns
    it and any other with the empty zone, rate, span and delay are set, the
    message length is positive, and explicitly given addresses are kept. *)
Theorem sonar6_Validate_spec :
  forall h c c',
    Validate h c = (c', inl tt) ->
    config_ok h c' /\
    (ServerAddr c <> "" -> ServerAddrs c' = ServerAddrs c) /\
    (ClientAddr c <> "" -> ClientAddr c' = ClientAddr c).
Proof.
  unfold Validate. intros h c c' H. se_inv.
  match goal with H1 : fill_server _ _ = (?x, _), H2 : fill_client _ _ = (?y, _),
      H3 : negb _ && _ = false |- _ =>
    apply fill_server_inv in H1 as (E1 & Hs1 & Hs2 & Hs3 & Hs4);
    apply fill_client_inv in H2 as (E2 & Hc1 & Hc2 & Hc3); rename x into c1, y into c2, H3 into Hr end.
  assert (Hrole : Role c = RoleServer \/ Role c = RoleClient).
  { unfold is_role in Hr. apply andb_false_iff in Hr as [?|?]; bools; auto. }
  assert (R1 : Role c1 = Role c) by (rewrite E1; done).
  assert (R2 : Role c2 = Role c) by (rewrite E2, <- R1; done).
  apply sonar6_check_msglen_inv in H as [E3 Hn]; [|cbn; by rewrite R2].
  assert (A1 : ServerAddrs c2 = ServerAddrs c1 /\ ServerZone c2 = ServerZone c1) by (rewrite E2; done).
  assert (A2 : ClientAddr c1 = ClientAddr c) by (rewrite E1; done).
  destruct A1 as [A1 A1'].
  split; [|split; intros; rewrite E3; cbn; rewrite ?A1; auto; rewrite Hc3; congruence].
  rewrite E3. split; unfold ServerAddr; cbn; rewrite ?R2, ?A1, ?A1'; auto.
  - rewrite <- R1. auto.
  - split_and!; by apply sonar6_default_int_ne.
Qed.

Definition sample_host : Host :=
  mkHost (Some "node1") (fun _ => Some ["10.0.0.7"; "fe80::7"])
    (Some [mkInterface "lo" (Some [IPv6loopback]) 5;
           mkInterface "eth0" (Some [[254; 128; 0; 0; 0; 0; 0; 0; 0; 0; 0; 0; 0; 0; 0; 7]]) 3]).

Definition sample_config : Config :=
  mkConfig "client" "" [] ["2001:db8::1"] 0 (mkPortRange 0 0) (mkPortRange 43600 43605) 0 0 0 64 0 0
    "" "" false.

Definition sample_validated : Config :=
  mkConfig "client" "fe80::7" [] ["2001:db8::1"] 0 (mkPortRange 43500 43599) (mkPortRange 43600 43605)
    5000 Second (3 * Second) 64 0 0 "" "eth0" false.

Lemma sonar6_Validate_spec_witness :
  config_ok sample_host sample_validated /\
  (ServerAddr sample_config <> "" -> ServerAddrs sample_validated = ServerAddrs sample_config) /\
  (ClientAddr sample_config <> "" -> ClientAddr sample_validated = ClientAddr sample_config).
Proof. apply (sonar6_Validate_spec sample_host sample_config). reflexivity. Defined.
