(* ===== verification/KuiniuConfig.v ===== *)
(** * Configuration of the kuiniu tool ([kuiniu/config/config.go]) *)

From S2P Require Import Prelude GoStd GoText GoNet GoDuration StateErr Ports PortRangeText Buckets UdpStat.
Local Open Scope Z_scope.
Local Open Scope se_scope.

Module kuiniu_config.

Definition RoleServer : string := "server".
Definition RoleClient : string := "client".
Definition RoleBoth : string := "both".

(** [Config]. *)
Record Config := mkConfig {
  PprofAddr : string;
  LogDir : string;
  LogMaxAgeDays : Z;
  Role : string;
  LocalGPUAddrs : list string;
  RemoteGPUAddrs : list string;
  TOS : Z;
  ClientPortRange : PortRange;
  ServerPortRange : PortRange;
  ClientPortRangeStr : string;
  ServerPortRangeStr : string;
  RateInSpan : Z;
  Span : Z;
  SpanStr : string;
  Delay : Z;
  DelayStr : string;
  MsgLen : Z;
  Count : Z;
  SendDuration : Z;
  SendDurStr : string;
  Verbose : bool
}.

Definition set_ranges (cr sr : PortRange) (c : Config) : Config :=
  mkConfig (PprofAddr c) (LogDir c) (LogMaxAgeDays c) (Role c) (LocalGPUAddrs c) (RemoteGPUAddrs c)
    (TOS c) cr sr (ClientPortRangeStr c) (ServerPortRangeStr c) (RateInSpan c) (Span c) (SpanStr c)
    (Delay c) (DelayStr c) (MsgLen c) (Count c) (SendDuration c) (SendDurStr c) (Verbose c).

Definition set_timing (rate span delay sendDuration : Z) (c : Config) : Config :=
  mkConfig (PprofAddr c) (LogDir c) (LogMaxAgeDays c) (Role c) (LocalGPUAddrs c) (RemoteGPUAddrs c)
    (TOS c) (ClientPortRange c) (ServerPortRange c) (ClientPortRangeStr c) (ServerPortRangeStr c)
    rate span (SpanStr c) delay (DelayStr c) (MsgLen c) (Count c) sendDuration (SendDurStr c)
    (Verbose c).

Definition set_MsgLen (n : Z) (c : Config) : Config :=
  mkConfig (PprofAddr c) (LogDir c) (LogMaxAgeDays c) (Role c) (LocalGPUAddrs c) (RemoteGPUAddrs c)
    (TOS c) (ClientPortRange c) (ServerPortRange c) (ClientPortRangeStr c) (ServerPortRangeStr c)
    (RateInSpan c) (Span c) (SpanStr c) (Delay c) (DelayStr c) n (Count c) (SendDuration c)
    (SendDurStr c) (Verbose c).

Inductive error :=
| ErrRole (r : string)
| ErrLocalRequired
| ErrRemoteRequired
| ErrCount (locals remotes : Z)
| ErrLocalAddr (a : string)
| ErrRemoteAddr (a : string)
| ErrClientRange (e : range_error)
| ErrServerRange (e : range_error)
| ErrSpan (s : string)
| ErrDelay (s : string)
| ErrSendDuration (s : string).

(** The range named by a string, or the default for the empty string. *)
Definition range_of (s : string) (d : PortRange) (wrap : range_error -> error) : SE Config error PortRange :=
  if decide (s = "") then ret d else try (kuiniu_config.ParsePortRange s) wrap.

(** The duration named by a string, or the default for the empty string. *)
Definition duration_of (s : string) (d : Z) (wrap : string -> error) : SE Config error Z :=
  if decide (s = "") then ret d
  else match ParseDuration s with Some v => ret v | None => throw (wrap s) end.

Definition is_role (r : string) (c : Config) : bool := bool_decide (Role c = r).

(** The address checks of [Validate]. *)
Definition check_addrs (c : Config) : SE Config error unit :=
  check (bool_decide (LocalGPUAddrs c = [])) ErrLocalRequired;;;
  check (bool_decide (RemoteGPUAddrs c = [])) ErrRemoteRequired;;;
  check (negb (length (LocalGPUAddrs c) =? length (RemoteGPUAddrs c))%nat)
    (ErrCount (Z.of_nat (length (LocalGPUAddrs c))) (Z.of_nat (length (RemoteGPUAddrs c))));;;
  for_each (LocalGPUAddrs c) (fun a => check (not_ipv4 a) (ErrLocalAddr a));;;
  for_each (RemoteGPUAddrs c) (fun a => check (not_ipv4 a) (ErrRemoteAddr a)).

(** [Config.Validate]. *)
Definition Validate : SE Config error unit :=
  c <-- get;;
  check (negb (is_role RoleServer c) && negb (is_role RoleClient c) && negb (is_role RoleBoth c))
    (ErrRole (Role c));;;
  let needsClient := is_role RoleClient c || is_role RoleBoth c in
  let needsServer := is_role RoleServer c || is_role RoleBoth c in
  when (needsClient || needsServer) (check_addrs c);;;
  cr <-- range_of (ClientPortRangeStr c) (mkPortRange 43600 43699) ErrClientRange;;
  modify (fun c => set_ranges cr (ServerPortRange c) c);;;
  sr <-- range_of (ServerPortRangeStr c) (mkPortRange 43600 43609) ErrServerRange;;
  modify (fun c => set_ranges (ClientPortRange c) sr c);;;
  modify (fun c => set_timing (if RateInSpan c =? 0 then 5000 else RateInSpan c) (Span c) (Delay c)
                     (SendDuration c) c);;;
  span <-- duration_of (SpanStr c) Second ErrSpan;;
  modify (fun c => set_timing (RateInSpan c) span (Delay c) (SendDuration c) c);;;
  delay <-- duration_of (DelayStr c) (3 * Second) ErrDelay;;
  modify (fun c => set_timing (RateInSpan c) (Span c) delay (SendDuration c) c);;;
  sd <-- duration_of (SendDurStr c) (SendDuration c) ErrSendDuration;;
  modify (fun c => set_timing (RateInSpan c) (Span c) (Delay c) sd c);;;
  modify (fun c => if MsgLen c <=? 0 then set_MsgLen 1024 c else c).

(** [Config.GPUPairCount]. *)
Definition GPUPairCount (c : Config) : Z := Z.of_nat (length (LocalGPUAddrs c)).

End kuiniu_config.
Import kuiniu_config.

(** ** Properties *)

(** What a validated configuration guarantees. *)
Record config_ok (c : Config) : Prop := {
  ok_role : Role c = RoleServer \/ Role c = RoleClient \/ Role c = RoleBoth;
  ok_pairs : length (LocalGPUAddrs c) = length (RemoteGPUAddrs c) /\ LocalGPUAddrs c <> [];
  ok_local : Forall ipv4_addr (LocalGPUAddrs c);
  ok_remote : Forall ipv4_addr (RemoteGPUAddrs c);
  ok_cr : valid_range (ClientPortRange c);
  ok_sr : valid_range (ServerPortRange c);
  ok_rate : RateInSpan c <> 0;
  ok_span : if decide (SpanStr c = "") then Span c = Second else ParseDuration (SpanStr c) = Some (Span c);
  ok_delay : if decide (DelayStr c = "") then Delay c = 3 * Second else ParseDuration (DelayStr c) = Some (Delay c);
  ok_msglen : 0 < MsgLen c
}.

Lemma range_of_inl s d wrap c c' r :
  valid_range d -> range_of s d wrap c = (c', inl r) -> c' = c /\ valid_range r.
Proof.
  intros Hd. unfold range_of. case_decide.
  - intros [= <- <-]. done.
  - intros [Hp ->]%try_inl. split; [done|]. by eapply ParsePortRange_sound.
Qed.

Lemma duration_of_inl s d wrap c c' v :
  duration_of s d wrap c = (c', inl v) ->
  c' = c /\ if decide (s = "") then v = d else ParseDuration s = Some v.
Proof.
  unfold duration_of. case_decide; [by intros [= <- <-]|].
  destruct (ParseDuration s); [by intros [= <- <-]|done].
Qed.

Lemma check_addrs_inl c s s' u :
  check_addrs c s = (s', inl u) ->
  s' = s /\ LocalGPUAddrs c <> [] /\ length (LocalGPUAddrs c) = length (RemoteGPUAddrs c) /\
  Forall ipv4_addr (LocalGPUAddrs c) /\ Forall ipv4_addr (RemoteGPUAddrs c).
Proof.
  unfold check_addrs. intros H. se_inv. bools.
  match goal with H : (_ =? _)%nat = true |- _ => apply Nat.eqb_eq in H end.
  split_and!; try done; eapply Forall_impl; try eassumption; exact not_ipv4_false.
Qed.

(** The settings a successful run computes. *)
Lemma Validate_inv c c' :
  Validate c = (c', inl tt) ->
  (Role c = RoleServer \/ Role c = RoleClient \/ Role c = RoleBoth) /\
  (length (LocalGPUAddrs c) = length (RemoteGPUAddrs c) /\ LocalGPUAddrs c <> [] /\
   Forall ipv4_addr (LocalGPUAddrs c) /\ Forall ipv4_addr (RemoteGPUAddrs c)) /\
  exists cr sr span delay sd,
    valid_range cr /\ valid_range sr /\
    (if decide (SpanStr c = "") then span = Second else ParseDuration (SpanStr c) = Some span) /\
    (if decide (DelayStr c = "") then delay = 3 * Second else ParseDuration (DelayStr c) = Some delay) /\
    c' = set_MsgLen (if MsgLen c <=? 0 then 1024 else MsgLen c)
           (set_timing (if RateInSpan c =? 0 then 5000 else RateInSpan c) span delay sd
              (set_ranges cr sr c)).
Proof.
  unfold Validate. intros H. se_inv.
  repeat match goal with
  | H : range_of _ _ _ _ = _ |- _ =>
      apply range_of_inl in H as [? ?]; [|unfold valid_range; cbn; lia]; subst
  | H : duration_of _ _ _ _ = _ |- _ => apply duration_of_inl in H as [? ?]; subst
  end.
  match goal with H : negb _ && _ && _ = false |- _ => rename H into Hr end.
  match goal with H : when _ _ _ = _ |- _ => rename H into Hw end.
  assert (Hrole : Role c = RoleServer \/ Role c = RoleClient \/ Role c = RoleBoth).
  { unfold is_role in Hr. rewrite !andb_false_iff in Hr. destruct_or! Hr; bools; auto. }
  split; [done|].
  apply when_inl in Hw as [[_ Hw]|[Hf _]].
  - apply check_addrs_inl in Hw as (-> & Hne & Hlen & Hl & Hr'). split; [done|].
    do 5 eexists. split_and!.
    5: { cbn. destruct (Z.leb_spec (MsgLen c) 0); reflexivity. }
    all: eassumption.
  - exfalso. unfold is_role in Hf. bools. destruct_or! Hrole; contradiction.
Qed.

(** A successful [Validate] of kuiniu pairs the GPUs: as many local as
    remote addresses, at least one, all of them IPv4; both port ranges are
    valid; the rate is set and the message length positive; the span and the
    delay are what their strings say, or the defaults. *)
Theorem kuiniu_Validate_spec :
  forall c c', Validate c = (c', inl tt) -> config_ok c'.
Proof.
  intros c c' H. apply Validate_inv in H as (Hr & (Hlen & Hne & Hl & Hr') & H).
  destruct H as (cr & sr & span & delay & sd & Hcr & Hsr & Hspan & Hdelay & ->).
  split; cbn; try done; zcases; lia.
Qed.

Definition sample_config (span : string) : Config :=
  mkConfig "" "" 3 "both" ["10.0.0.1"; "10.0.1.1"] ["10.0.0.2"; "10.0.1.2"] 0 (mkPortRange 0 0)
    (mkPortRange 0 0) "" " 43600, 43605 " 0 0 span 0 "500ms" 64 0 0 "" false.

Definition sample_validated (span : string) (d : Z) : Config :=
  mkConfig "" "" 3 "both" ["10.0.0.1"; "10.0.1.1"] ["10.0.0.2"; "10.0.1.2"] 0 (mkPortRange 43600 43699)
    (mkPortRange 43600 43605) "" " 43600, 43605 " 5000 d span 500000000 "500ms" 64 0 0 "" false.

Lemma kuiniu_Validate_spec_witness : config_ok (sample_validated "" Second).
Proof. apply (kuiniu_Validate_spec (sample_config "")). reflexivity. Defined.

(** Nothing stops a span of zero: a configuration with span "0s" that
    passes [Validate] has [Span] 0, and the first [Put] on a [Stat] created
    with it divides by zero and panics. *)
Lemma kuiniu_zero_span_panics :
  forall c c' client server cr sr sender cp sp s t,
    SpanStr c = "0s" -> Validate c = (c', inl tt) ->
    Span c' = 0 /\
    udpStat.Put cp sp s t
      (NewStat client server cr sr (RateInSpan c') (Span c') (Delay c') sender) = None.
Proof.
  intros c c' client server cr sr sender cp sp s t Hs H.
  apply Validate_inv in H as (_ & _ & cr' & sr' & span & delay & sd & _ & _ & Hspan & _ & ->).
  rewrite Hs in Hspan. cbn in Hspan. injection Hspan as <-. split; reflexivity.
Qed.

Lemma kuiniu_zero_span_panics_witness :
  Span (sample_validated "0s" 0) = 0 /\
  udpStat.Put 43600 43600 1 1500
    (NewStat "10.0.0.1" "10.0.0.2" (mkPortRange 43600 43699) (mkPortRange 43600 43605) 5000
       (Span (sample_validated "0s" 0)) 500000000 true) = None.
Proof.
  apply (kuiniu_zero_span_panics (sample_config "0s") (sample_validated "0s" 0)); reflexivity.
Defined.
