(* ===== verification/EvrConfig.v ===== *)
(** * Configuration of the EVR probing agent ([evr/config/config.go]) *)

From S2P Require Import Prelude GoStd GoText GoNet GoDuration StateErr Ports PortRangeText.
Local Open Scope Z_scope.
Local Open Scope se_scope.

(** [net.ParseMAC]: 6, 8 or 20 octets as two-digit groups separated by [':']
    or ['-'], or as four-digit groups separated by ['.']. *)
Definition all_hex (n : nat) (s : string) : bool :=
  (String.length s =? n)%nat &&
  forallb (fun c => bool_decide (is_Some (hex_value c))) (String.list_ascii_of_string s).

Definition mac_groups (sep : ascii) (width : nat) (counts : list nat) (s : string) : bool :=
  let gs := Split s sep in
  forallb (all_hex width) gs && existsb (Nat.eqb (length gs)) counts.

Definition ParseMAC (s : string) : bool :=
  if (String.length s <? 14)%nat then false
  else
    let third := String.get 2 s in
    if bool_decide (third = Some ":"%char) then mac_groups ":" 2 [6; 8; 20]%nat s
    else if bool_decide (third = Some "-"%char) then mac_groups "-" 2 [6; 8; 20]%nat s
    else if bool_decide (String.get 4 s = Some "."%char) then mac_groups "." 4 [3; 4; 10]%nat s
    else false.

Module evr_config.

(** [Target]. *)
Record Target := mkTarget {
  VTEPAddr : string;
  EVRSrcAddr : string;
  MockSrcAddr : string
}.

(** [Target.String]. *)
Definition Target_String (t : Target) : string :=
  if decide (MockSrcAddr t = "") then VTEPAddr t +:+ "#" +:+ EVRSrcAddr t
  else VTEPAddr t +:+ "#" +:+ EVRSrcAddr t +:+ "#" +:+ MockSrcAddr t.

Inductive target_error :=
| ErrTarget (s : string)
| ErrTargetShape (s : string)
| ErrTargetsEmpty.

(** [ParseTarget]. *)
Definition ParseTarget (s : string) : Target + target_error :=
  match Split (TrimSpace s) "#" with
  | [i0; i1] =>
      if bool_decide (i0 = "") || bool_decide (i1 = "") then inr (ErrTarget s)
      else inl (mkTarget i0 i1 "")
  | [i0; i1; i2] =>
      if bool_decide (i0 = "") || bool_decide (i1 = "") then inr (ErrTarget s)
      else inl (mkTarget i0 i1 i2)
  | _ => inr (ErrTargetShape s)
  end.

(** The loop of [ParseTargets]. *)
Fixpoint parse_targets (raws : list string) : list Target + target_error :=
  match raws with
  | [] => inl []
  | raw :: raws =>
      let raw := TrimSpace raw in
      if decide (raw = "") then parse_targets raws
      else
        match ParseTarget raw with
        | inr e => inr e
        | inl t => match parse_targets raws with inr e => inr e | inl ts => inl (t :: ts) end
        end
  end.

(** [ParseTargets]. *)
Definition ParseTargets (s : string) : list Target + target_error :=
  if decide (s = "") then inr ErrTargetsEmpty
  else
    match parse_targets (Split s ",") with
    | inr e => inr e
    | inl [] => inr ErrTargetsEmpty
    | inl ts => inl ts
    end.

(** [Config]. *)
Record Config := mkConfig {
  ID : string;
  ClientAddr : string;
  Targets : list Target;
  DstPort : Z;
  InnerDstPort : Z;
  SrcMAC : string;
  DstMAC : string;
  VNI : Z;
  TOS : Z;
  TTL : Z;
  ClientPortRange : PortRange;
  RateInSpan : Z;
  Span : Z;
  Delay : Z;
  MsgLen : Z;
  PprofAddr : string;
  LogDir : string;
  LogMaxAgeDays : Z;
  Verbose : bool
}.

Definition set_ClientAddr (a : string) (c : Config) : Config :=
  mkConfig (ID c) a (Targets c) (DstPort c) (InnerDstPort c) (SrcMAC c) (DstMAC c) (VNI c) (TOS c)
    (TTL c) (ClientPortRange c) (RateInSpan c) (Span c) (Delay c) (MsgLen c) (PprofAddr c) (LogDir c)
    (LogMaxAgeDays c) (Verbose c).

Definition set_link (dst inner : Z) (smac dmac : string) (c : Config) : Config :=
  mkConfig (ID c) (ClientAddr c) (Targets c) dst inner smac dmac (VNI c) (TOS c)
    (TTL c) (ClientPortRange c) (RateInSpan c) (Span c) (Delay c) (MsgLen c) (PprofAddr c) (LogDir c)
    (LogMaxAgeDays c) (Verbose c).

Definition set_VNI (vni : Z) (c : Config) : Config :=
  mkConfig (ID c) (ClientAddr c) (Targets c) (DstPort c) (InnerDstPort c) (SrcMAC c) (DstMAC c) vni
    (TOS c) (TTL c) (ClientPortRange c) (RateInSpan c) (Span c) (Delay c) (MsgLen c) (PprofAddr c)
    (LogDir c) (LogMaxAgeDays c) (Verbose c).

Definition set_TTL_range (ttl : Z) (pr : PortRange) (c : Config) : Config :=
  mkConfig (ID c) (ClientAddr c) (Targets c) (DstPort c) (InnerDstPort c) (SrcMAC c) (DstMAC c)
    (VNI c) (TOS c) ttl pr (RateInSpan c) (Span c) (Delay c) (MsgLen c) (PprofAddr c)
    (LogDir c) (LogMaxAgeDays c) (Verbose c).

Definition set_timing (rate span delay : Z) (c : Config) : Config :=
  mkConfig (ID c) (ClientAddr c) (Targets c) (DstPort c) (InnerDstPort c) (SrcMAC c) (DstMAC c)
    (VNI c) (TOS c) (TTL c) (ClientPortRange c) rate span delay (MsgLen c) (PprofAddr c)
    (LogDir c) (LogMaxAgeDays c) (Verbose c).

Definition set_LogMaxAgeDays (n : Z) (c : Config) : Config :=
  mkConfig (ID c) (ClientAddr c) (Targets c) (DstPort c) (InnerDstPort c) (SrcMAC c) (DstMAC c)
    (VNI c) (TOS c) (TTL c) (ClientPortRange c) (RateInSpan c) (Span c) (Delay c) (MsgLen c)
    (PprofAddr c) (LogDir c) n (Verbose c).

Inductive resolve_error :=
| ErrHostname
| ErrLookup (host : string)
| ErrNoAddress (host : string).

Inductive error :=
| ErrResolve (e : resolve_error)
| ErrClientAddr (a : string)
| ErrNoTargets
| ErrVTEP (a : string)
| ErrEVRSrc (a : string)
| ErrMockSrc (a : string)
| ErrSrcMAC (m : string)
| ErrDstMAC (m : string)
| ErrVNI (v : Z)
| ErrRange (pr : PortRange)
| ErrMsgLen.

(** [resolveLocalIP]. *)
Definition resolveLocalIP (h : Host) : string + resolve_error :=
  match Hostname h with
  | None => inr ErrHostname
  | Some hostname =>
      match LookupHost h hostname with
      | None => inr (ErrLookup hostname)
      | Some addrs =>
          match List.find (fun addr => match ParseIP addr with
                                       | Some ip => negb (IsLoopback ip) && bool_decide (is_Some (To4 ip))
                                       | None => false
                                       end) addrs with
          | Some addr => inl addr
          | None => match addrs with
                    | addr :: _ => inl addr
                    | [] => inr (ErrNoAddress hostname)
                    end
          end
      end
  end.

(** The checks of one target. *)
Definition check_target (t : Target) : SE Config error unit :=
  check (not_ipv4 (VTEPAddr t)) (ErrVTEP (VTEPAddr t));;;
  check (not_ipv4 (EVRSrcAddr t)) (ErrEVRSrc (EVRSrcAddr t));;;
  when (bool_decide (MockSrcAddr t <> ""))
    (check (not_ipv4 (MockSrcAddr t)) (ErrMockSrc (MockSrcAddr t))).

Definition or_default (n d : Z) : Z := if n =? 0 then d else n.
Definition or_default_string (s d : string) : string := if decide (s = "") then d else s.
Definition positive_or (n d : Z) : Z := if n <=? 0 then d else n.

(** [Config.Validate]. *)
Definition Validate (h : Host) : SE Config error unit :=
  c <-- get;;
  when (bool_decide (ClientAddr c = ""))
    (addr <-- try (resolveLocalIP h) ErrResolve;; modify (set_ClientAddr addr));;;
  c <-- get;;
  check (not_ipv4 (ClientAddr c)) (ErrClientAddr (ClientAddr c));;;
  check (bool_decide (Targets c = [])) ErrNoTargets;;;
  for_each (Targets c) check_target;;;
  modify (fun c => set_link (or_default (DstPort c) 4789) (or_default (InnerDstPort c) 8972)
                     (or_default_string (SrcMAC c) "00:00:00:00:ff:ff")
                     (or_default_string (DstMAC c) "00:00:5e:00:01:ff") c);;;
  c <-- get;;
  check (negb (ParseMAC (SrcMAC c))) (ErrSrcMAC (SrcMAC c));;;
  check (negb (ParseMAC (DstMAC c))) (ErrDstMAC (DstMAC c));;;
  modify (fun c => set_VNI (or_default (VNI c) 15990000) c);;;
  c <-- get;;
  check (16777215 <? VNI c) (ErrVNI (VNI c));;;
  modify (fun c => set_TTL_range (or_default (TTL c) 64)
                     (if decide (ClientPortRange c = mkPortRange 0 0) then mkPortRange 9981 9981
                      else ClientPortRange c) c);;;
  c <-- get;;
  check ((Min (ClientPortRange c) <? 1) || (65535 <? Max (ClientPortRange c)) ||
         (Max (ClientPortRange c) <? Min (ClientPortRange c))) (ErrRange (ClientPortRange c));;;
  modify (fun c => set_timing (positive_or (RateInSpan c) 1) (positive_or (Span c) (100 * Millisecond))
                     (positive_or (Delay c) (100 * Millisecond)) c);;;
  c <-- get;;
  check (MsgLen c <=? 0) ErrMsgLen;;;
  modify (fun c => set_LogMaxAgeDays (positive_or (LogMaxAgeDays c) 3) c).

End evr_config.
Import evr_config.

(** ** Properties of targets *)

(** A target as the parser can produce it. *)
Definition target_ok (t : Target) : Prop :=
  VTEPAddr t <> "" /\ EVRSrcAddr t <> "" /\
  (visible (VTEPAddr t) /\ visible (EVRSrcAddr t) /\ visible (MockSrcAddr t)) /\
  (no_char "#" (VTEPAddr t) /\ no_char "#" (EVRSrcAddr t) /\ no_char "#" (MockSrcAddr t)) /\
  (no_char "," (VTEPAddr t) /\ no_char "," (EVRSrcAddr t) /\ no_char "," (MockSrcAddr t)).

Lemma no_char_app c a b : no_char c (a +:+ b) <-> no_char c a /\ no_char c b.
Proof.
  induction a as [|d a IH]; [cbn; tauto|].
  change (String d a +:+ b) with (String d (a +:+ b)). cbn [no_char]. rewrite IH. tauto.
Qed.

Lemma Target_String_visible t : target_ok t -> visible (Target_String t).
Proof.
  intros (_ & _ & (H1 & H2 & H3) & _). unfold Target_String.
  assert (visible "#") by (split; [vm_compute; lia|done]).
  case_decide; rewrite !visible_app; tauto.
Qed.

Lemma Target_String_no_comma t : target_ok t -> no_char "," (Target_String t).
Proof.
  intros (_ & _ & _ & _ & (H1 & H2 & H3)). unfold Target_String.
  assert (no_char "," "#") by (split; [discriminate|done]).
  case_decide; rewrite !no_char_app; tauto.
Qed.

Lemma ParseTarget_print t : target_ok t -> ParseTarget (Target_String t) = inl t.
Proof.
  intros Ht. unfold ParseTarget. rewrite TrimSpace_visible by by apply Target_String_visible.
  destruct Ht as (Hv & He & _ & (N1 & N2 & N3) & _). destruct t as [v e m]; cbn in *.
  unfold Target_String; cbn. case_decide as Hm.
  - subst. change ("#" +:+ e) with (String "#" e). rewrite Split_app, Split_no_char by done.
    by rewrite !bool_decide_eq_false_2 by done.
  - change ("#" +:+ e +:+ "#" +:+ m) with (String "#" (e +:+ String "#" m)).
    rewrite !Split_app, Split_no_char by done. by rewrite !bool_decide_eq_false_2 by done.
Qed.

Lemma Split_Join l :
  l <> [] -> Forall (no_char ",") l -> Split (Join l ",") "," = l.
Proof.
  intros Hne H. induction H as [|s l Hs Hl IH]; [done|]. destruct l as [|s' l].
  - cbn [Join]. by apply Split_no_char.
  - change (Join (s :: s' :: l) ",") with (s +:+ String "," (Join (s' :: l) ",")).
    rewrite Split_app by done. by rewrite IH.
Qed.

Lemma Target_String_nonempty t : target_ok t -> Target_String t <> "".
Proof.
  intros (Hv & _). unfold Target_String. destruct (VTEPAddr t); [done|]. by case_decide.
Qed.

(** Printing targets and parsing them back: every well-formed target is
    recovered from its own text, and every non-empty list of them from their
    texts joined by commas. *)
Theorem ParseTargets_print :
  forall ts,
    ts <> [] -> Forall target_ok ts ->
    ParseTargets (Join (map Target_String ts) ",") = inl ts /\
    Forall (fun t => ParseTarget (Target_String t) = inl t) ts.
Proof.
  intros ts Hne H. split; [|eapply Forall_impl; [exact H|]; exact ParseTarget_print].
  unfold ParseTargets. rewrite decide_False.
  2: { destruct H as [|t l Ht _]; [done|]. pose proof (Target_String_nonempty t Ht).
       destruct l; cbn; destruct (Target_String t); done. }
  rewrite Split_Join; [| |].
  - assert (parse_targets (map Target_String ts) = inl ts) as ->; [|by destruct ts].
    clear Hne. induction H as [|t l Ht _ IH]; [done|]. cbn [map parse_targets].
    rewrite TrimSpace_visible by by apply Target_String_visible.
    rewrite decide_False by by apply Target_String_nonempty.
    by rewrite ParseTarget_print, IH.
  - by destruct ts.
  - apply Forall_map. eapply Forall_impl; [exact H|]. exact Target_String_no_comma.
Qed.

Lemma ParseTargets_print_witness :
  ParseTargets "10.0.0.1#10.1.0.1,10.0.0.2#10.1.0.2#10.2.0.2" =
    inl [mkTarget "10.0.0.1" "10.1.0.1" ""; mkTarget "10.0.0.2" "10.1.0.2" "10.2.0.2"] /\
  Forall (fun t => ParseTarget (Target_String t) = inl t)
    [mkTarget "10.0.0.1" "10.1.0.1" ""; mkTarget "10.0.0.2" "10.1.0.2" "10.2.0.2"].
Proof.
  apply (ParseTargets_print [mkTarget "10.0.0.1" "10.1.0.1" ""; mkTarget "10.0.0.2" "10.1.0.2" "10.2.0.2"]);
    [discriminate|].
  assert (H : forall v e m, (v, e, m) = ("10.0.0.1", "10.1.0.1", "") \/
                            (v, e, m) = ("10.0.0.2", "10.1.0.2", "10.2.0.2") ->
                            target_ok (mkTarget v e m)).
  { intros v e m [[= -> -> ->]|[= -> -> ->]];
      unfold target_ok; cbn [VTEPAddr EVRSrcAddr MockSrcAddr visible no_char]; split_and!;
      first [discriminate | done | vm_compute; lia]. }
  constructor; [apply H; by left|constructor; [apply H; by right|constructor]].
Defined.

(** ** Properties of [Validate] *)

Definition target_valid (t : Target) : Prop :=
  ipv4_addr (VTEPAddr t) /\ ipv4_addr (EVRSrcAddr t) /\
  (MockSrcAddr t <> "" -> ipv4_addr (MockSrcAddr t)).

(** What a validated configuration guarantees. *)
Record config_ok (c : Config) : Prop := {
  ok_client : ipv4_addr (ClientAddr c);
  ok_targets : Targets c <> [] /\ Forall target_valid (Targets c);
  ok_ports : DstPort c <> 0 /\ InnerDstPort c <> 0;
  ok_macs : ParseMAC (SrcMAC c) = true /\ ParseMAC (DstMAC c) = true;
  ok_vni : VNI c <> 0 /\ VNI c <= 16777215;
  ok_ttl : TTL c <> 0;
  ok_range : valid_range (ClientPortRange c);
  ok_times : 0 < RateInSpan c /\ 0 < Span c /\ 0 < Delay c;
  ok_msglen : 0 < MsgLen c;
  ok_log : 0 < LogMaxAgeDays c
}.

Lemma check_target_inl t c c' u : check_target t c = (c', inl u) -> c' = c /\ target_valid t.
Proof.
  unfold check_target, target_valid. intros H. se_inv.
  apply when_inl in H as [[Hb H]|[Hb ->]]; se_inv; bools.
  - split_and!; auto using not_ipv4_false.
  - apply dec_stable in Hb. split_and!; auto using not_ipv4_false. by rewrite Hb.
Qed.

Lemma check_targets_inl ts c c' u :
  for_each ts check_target c = (c', inl u) -> c' = c /\ Forall target_valid ts.
Proof.
  revert c u. induction ts as [|t ts IH]; intros c u; cbn [for_each]; intros H;
    [by injection H as <- _|].
  se_inv. match goal with H1 : check_target _ _ = _ |- _ => apply check_target_inl in H1 as [-> Ht] end.
  apply IH in H as [-> Hts]. auto.
Qed.

Lemma or_default_ne n d : d <> 0 -> or_default n d <> 0.
Proof. intros H. unfold or_default. zcases; congruence. Qed.

Lemma positive_or_pos n d : 0 < d -> 0 < positive_or n d.
Proof. intros H. unfold positive_or. zcases; lia. Qed.

(** A successful [Validate] of evr leaves a configuration the agent can
    run on: an IPv4 client address, at least one target and all addresses of
    all targets IPv4, non-zero ports, parseable MAC addresses, a VNI of 24
    bits, a valid source-port range, and positive rate, span, delay, message
    length and log age. *)
Theorem evr_Validate_spec :
  forall h c c', Validate h c = (c', inl tt) -> config_ok c' /\ Targets c' = Targets c.
Proof.
  unfold Validate. intros h c c' H. se_inv.
  match goal with H : for_each _ _ _ = _ |- _ => apply check_targets_inl in H as [? Hts]; subst end.
  match goal with H : when _ _ c = (?x, _) |- _ => rename H into Hw, x into c1 end.
  assert (Ht : Targets c1 = Targets c)
    by (apply when_inl in Hw as [[_ Hw]|[_ ->]]; se_inv; done).
  cbn in *. bools. split; [|done].
  split; cbn.
  - by apply not_ipv4_false.
  - done.
  - split; by apply or_default_ne.
  - done.
  - split; [by apply or_default_ne|done].
  - by apply or_default_ne.
  - unfold valid_range. lia.
  - unfold Millisecond. split_and!; apply positive_or_pos; lia.
  - done.
  - by apply positive_or_pos.
Qed.

Definition sample_config : Config :=
  mkConfig "agent" "10.0.0.9" [mkTarget "10.0.0.1" "10.1.0.1" ""] 0 0 "" "" 0 0 0 (mkPortRange 0 0)
    0 0 0 64 "" "" 0 false.

Definition sample_validated : Config :=
  mkConfig "agent" "10.0.0.9" [mkTarget "10.0.0.1" "10.1.0.1" ""] 4789 8972 "00:00:00:00:ff:ff"
    "00:00:5e:00:01:ff" 15990000 0 64 (mkPortRange 9981 9981) 1 100000000 100000000 64 "" "" 3 false.

Lemma evr_Validate_spec_witness :
  config_ok sample_validated /\ Targets sample_validated = [mkTarget "10.0.0.1" "10.1.0.1" ""].
Proof.
  apply (evr_Validate_spec (mkHost None (fun _ => None) None) sample_config). vm_compute. reflexivity.
Defined.
