(* ===== verification/Goscapy.v ===== *)
(** * The packet library the program calls ([smallnest/goscapy])

    The library is not part of the repository: its types and functions are the
    operations of a class, and the definitions that call it take an instance.
    [dissects] states the documented behaviour the properties rely on. *)

From S2P Require Import Prelude GoStd GoNet.
Local Open Scope Z_scope.

(** A field value, an [interface{}] holding one of the types the callers
    assert; [VNil] is [nil]. *)
Inductive GoVal :=
| VNil
| VBytes (b : bytes)
| VUint8 (n : Z)
| VUint16 (n : Z)
| VUint32 (n : Z)
| VIP (ip : IP)
| VString (s : string).

(** The layers the callers stack with the packet builders, with the fields
    they set; [tos] is the field set afterwards with [Set("tos", ...)]. *)
Inductive build_layer :=
| BIP (src dst : string) (ttl : Z) (proto : option Z) (tos : option Z)
| BIPv6 (src dst : string) (tc hlim : Z)
| BUDP (sport dport : Z)
| BTCP (sport dport flags seqno window : Z)
| BVXLAN (vni : Z)
| BEthernet (src dst : string) (type : Z)
| BRaw (load : bytes)
(** The ICMP echo, the two ICMPv6 layers, and the header layers whose fields
    the callers set one by one: an option is a field set only on a condition. *)
| BICMP (type code id seqno : Z)
| BICMPv6 (type code : option Z)
| BICMPv6Echo (id seqno : Z) (data : option bytes)
| BIP6 (src dst : string) (hlim : Z) (tc : option Z)
| BIPv4Hdr (src dst : IP) (ttl proto : Z) (tos : option Z)
| BIPv6Hdr (src dst : IP) (hlim nh : Z) (tc : option Z)
| BTCPSeg (sport dport flags seqno : Z).

(** [IPProtoICMP], [IPProtoTCP], [IPProtoUDP], [IPv6NextHdrICMP] and
    [EtherTypeIPv4]; the ICMP and ICMPv6 types the callers name. *)
Definition IPProtoICMP : Z := 1.
Definition IPProtoTCP : Z := 6.
Definition IPProtoUDP : Z := 17.
Definition IPv6NextHdrICMP : Z := 58.
Definition EtherTypeIPv4 : Z := 2048.
Definition ICMPEchoRequest : Z := 8.
Definition ICMPv6DestUnreach : Z := 1.
Definition ICMPv6TimeExceed : Z := 3.
Definition ICMPv6EchoRequest : Z := 128.
Definition ICMPv6EchoReply : Z := 129.

Class Goscapy := {
  Packet : Type;
  Layer : Type;
  (** [packet.DissectByProto]; [None] is an error. *)
  DissectByProto : bytes -> string -> option Packet;
  (** [Packet.GetLayer]; [None] is [nil]. *)
  GetLayer : Packet -> string -> option Layer;
  (** [Layer.Get]: the value and whether there was no error. *)
  Get : Layer -> string -> GoVal * bool;
  (** [Packet.BuildFrom(1)] on the stacked layers: the bytes of the layers
      after the first, the checksums computed with the first. *)
  BuildFrom1 : list build_layer -> option bytes;
  (** [PacketBuilder.Build]: the bytes of all the layers. *)
  Build : list build_layer -> option bytes;
  (** The packet with the stacked layers ([Layer.Over], [Packet.Push]). *)
  NewPacket : list build_layer -> Packet;
  (** [layers.TCPSyn], [TCPRst] and [TCPAck]: the flag bits of a TCP header. *)
  TCPSyn : Z;
  TCPRst : Z;
  TCPAck : Z
}.

(** [payload, _ := v.([]byte)] and [ip, _ := v.(net.IP)]; [nil] is empty. *)
Definition as_bytes (v : GoVal) : bytes := match v with VBytes b => b | _ => [] end.
Definition as_ip (v : GoVal) : IP := match v with VIP ip => ip | _ => [] end.

(** The assertions of the integer types: [None] is [ok = false], or a panic
    where the caller does not take [ok]. *)
Definition as_uint8 (v : GoVal) : option Z := match v with VUint8 n => Some n | _ => None end.
Definition as_uint16 (v : GoVal) : option Z := match v with VUint16 n => Some n | _ => None end.
Definition as_uint32 (v : GoVal) : option Z := match v with VUint32 n => Some n | _ => None end.

Section payload.
Context `{Goscapy}.

(** The beginning of every [handlePacket]: dissect as UDP and take the load of
    the raw layer; [None] is an early return. *)
Definition udp_payload (pkt : bytes) : option bytes :=
  parsed ← DissectByProto pkt "UDP";
  rawLayer ← GetLayer parsed "Raw";
  let '(loadVal, _) := Get rawLayer "load" in
  let payload := as_bytes loadVal in
  if (length payload =? 0)%nat then None else Some payload.

(** The datagram [pkt] dissects into one with the non-empty load [payload]. *)
Definition dissects (pkt payload : bytes) : Prop :=
  payload <> [] /\
  exists p l, DissectByProto pkt "UDP" = Some p /\ GetLayer p "Raw" = Some l /\
              Get l "load" = (VBytes payload, true).

Lemma udp_payload_dissects pkt payload : dissects pkt payload -> udp_payload pkt = Some payload.
Proof.
  intros (Hne & p & l & Hp & Hl & Hg). unfold udp_payload. rewrite Hp. cbn [mbind option_bind].
  rewrite Hl. cbn [mbind option_bind]. rewrite Hg. by destruct payload.
Qed.

(** [sonar/codec.EncodeUDPPacket] and [kuiniu/transport.encodeUDPPacket]. *)
Definition EncodeUDPPacket (localIP remoteIP : IP) (localPort remotePort ttl : Z) (payload : bytes) :
    option bytes :=
  BuildFrom1 [BIP (IP_String localIP) (IP_String remoteIP) (u8 ttl) None None;
              BUDP localPort remotePort; BRaw payload].

(** [evr/codec.EncodeUDPOnly], which repeats it. *)
Definition EncodeUDPOnly := EncodeUDPPacket.

(** [sonar6/codec.EncodeUDPPacket]; [None] also for addresses that are not 16
    bytes long. *)
Definition EncodeUDPPacket6 (localIP remoteIP : IP) (localPort remotePort trafficClass hopLimit : Z)
    (payload : bytes) : option bytes :=
  if negb (length localIP =? IPv6len)%nat || negb (length remoteIP =? IPv6len)%nat then None
  else
    BuildFrom1 [BIPv6 (IP_String localIP) (IP_String remoteIP) trafficClass (u8 hopLimit);
                BUDP localPort remotePort; BRaw payload].

(** [evr/codec.EncodeVxlanInner]; [tos] is set only when it is not 0. *)
Definition EncodeVxlanInner (vni : Z) (srcMAC dstMAC : string) (innerSrcIP innerDstIP : IP)
    (innerSrcPort innerDstPort tos ttl : Z) (payload : bytes) : option bytes :=
  Build [BVXLAN vni; BEthernet srcMAC dstMAC EtherTypeIPv4;
         BIP (IP_String innerSrcIP) (IP_String innerDstIP) (u8 ttl) (Some IPProtoUDP)
           (if tos =? 0 then None else Some tos);
         BUDP innerSrcPort innerDstPort; BRaw payload].

(** [evr/codec.EncodeOuterUDP]. *)
Definition EncodeOuterUDP (srcIP dstIP : IP) (srcPort dstPort tos ttl : Z) (payload : bytes) :
    option bytes :=
  Build [BIP (IP_String srcIP) (IP_String dstIP) (u8 ttl) (Some IPProtoUDP)
           (if tos =? 0 then None else Some tos);
         BUDP srcPort dstPort; BRaw payload].

End payload.

(** ** Stacked packets *)

Definition assoc {A} (k : string) (l : list (string * A)) : option A :=
  snd <$> List.find (fun p => bool_decide (p.1 = k)) l.

(** The name of a layer, and the fields the callers set in it. *)
Definition layer_fields (l : build_layer) : string * list (string * GoVal) :=
  match l with
  | BIP _ _ ttl _ _ => ("IP", [("ttl", VUint8 ttl)])
  | BIPv4Hdr src dst ttl proto _ =>
      ("IP", [("src", VIP src); ("dst", VIP dst); ("ttl", VUint8 ttl); ("proto", VUint8 proto)])
  | BIPv6 _ _ _ hlim | BIP6 _ _ hlim _ => ("IPv6", [("hlim", VUint8 hlim)])
  | BIPv6Hdr src dst hlim nh _ =>
      ("IPv6", [("src", VIP src); ("dst", VIP dst); ("hlim", VUint8 hlim); ("nh", VUint8 nh)])
  | BICMP t c id sq => ("ICMP", [("type", VUint8 t); ("code", VUint8 c); ("id", VUint16 id); ("seq", VUint16 sq)])
  | BICMPv6 t c =>
      ("ICMPv6", (match t with Some t => [("type", VUint8 t)] | None => [] end) ++
                 (match c with Some c => [("code", VUint8 c)] | None => [] end))
  | BICMPv6Echo id sq data =>
      ("ICMPv6 Echo", [("id", VUint16 id); ("seq", VUint16 sq)] ++
                      match data with Some d => [("data", VBytes d)] | None => [] end)
  | BUDP sp dp => ("UDP", [("sport", VUint16 sp); ("dport", VUint16 dp)])
  | BTCP sp dp f sq _ | BTCPSeg sp dp f sq =>
      ("TCP", [("sport", VUint16 sp); ("dport", VUint16 dp); ("flags", VUint8 f); ("seq", VUint32 sq)])
  | BRaw load => ("Raw", [("load", VBytes load)])
  | BVXLAN vni => ("VXLAN", [("vni", VUint32 vni)])
  | BEthernet _ _ t => ("Ethernet", [("type", VUint16 t)])
  end.

(** The documented behaviour of [GetLayer] and [Get] on a packet the callers
    stacked themselves: the first layer with the name, the value that was set. *)
Definition keeps_fields `{Goscapy} : Prop :=
  forall ls name,
    match assoc name (map layer_fields ls) with
    | Some fs => exists l, GetLayer (NewPacket ls) name = Some l /\
                           forall f v, assoc f fs = Some v -> Get l f = (v, true)
    | None => GetLayer (NewPacket ls) name = None
    end.

(** ** A small instance

    Datagrams are the 8 bytes of a UDP header followed by the payload: enough
    to show that the hypotheses on the library can hold. *)
Module Toy.

Definition toy_build (ls : list build_layer) : option bytes :=
  match List.rev ls with
  | BRaw load :: BUDP sp dp :: _ => Some (put_be 2 sp ++ put_be 2 dp ++ make_bytes 4 ++ load)
  | _ => None
  end.

#[export] Instance toy : Goscapy := {|
  Packet := bytes;
  Layer := bytes;
  DissectByProto := fun pkt _ => if (length pkt <? 8)%nat then None else Some (drop 8 pkt);
  GetLayer := fun p _ => Some p;
  Get := fun l _ => (VBytes l, true);
  BuildFrom1 := toy_build;
  Build := toy_build;
  NewPacket := fun ls => default [] (toy_build ls);
  TCPSyn := 2;
  TCPRst := 4;
  TCPAck := 16
|}.

(** A second one, with named layers and fields, for the ICMP tools: a stacked
    packet keeps its fields, ICMP and ICMPv6 echo messages are laid out as on
    the wire, and dissection reads them back. *)
Definition net_icmp (raw : bytes) : list (string * list (string * GoVal)) :=
  [("ICMP", [("type", VUint8 (byte_at raw 0)); ("id", VUint16 (get_be (slice 4 6 raw)));
             ("seq", VUint16 (get_be (slice 6 8 raw)))]);
   ("Raw", [("load", VBytes (drop 8 raw))])].

Definition net_icmp6 (raw : bytes) : list (string * list (string * GoVal)) :=
  [("ICMPv6", [("type", VUint8 (byte_at raw 0))]);
   ("ICMPv6 Echo Reply", [("id", VUint16 (get_be (slice 4 6 raw))); ("seq", VUint16 (get_be (slice 6 8 raw)));
                          ("data", VBytes (drop 8 raw))])].

Definition net_dissect (raw : bytes) (proto : string) : option (list (string * list (string * GoVal))) :=
  if bool_decide (proto = "IP") && (28 <=? length raw)%nat then
    Some (("IP", [("src", VIP (slice 12 16 raw)); ("ttl", VUint8 (byte_at raw 8))]) :: net_icmp (drop 20 raw))
  else if bool_decide (proto = "ICMPv6") && (8 <=? length raw)%nat then Some (net_icmp6 raw)
  else None.

Definition net_build (ls : list build_layer) : option bytes :=
  match ls with
  | [_; BICMP t c id sq; BRaw load] => Some ([t; c; 0; 0] ++ put_be 2 id ++ put_be 2 sq ++ load)
  | [_; BICMPv6 t c; BICMPv6Echo id sq data] =>
      Some ([default 128 t; default 0 c; 0; 0] ++ put_be 2 id ++ put_be 2 sq ++ default [] data)
  | _ => None
  end.

Definition net : Goscapy := {|
  Packet := list (string * list (string * GoVal));
  Layer := list (string * GoVal);
  DissectByProto := net_dissect;
  GetLayer := fun p name => assoc name p;
  Get := fun l field => match assoc field l with Some v => (v, true) | None => (VNil, false) end;
  BuildFrom1 := net_build;
  Build := net_build;
  NewPacket := map layer_fields;
  TCPSyn := 2;
  TCPRst := 4;
  TCPAck := 16
|}.

Lemma net_keeps_fields : keeps_fields (H := net).
Proof.
  intros ls name. cbn. destruct (assoc name (map layer_fields ls)) as [fs|] eqn:E; [|done].
  exists fs. split; [done|]. intros f v Hf. by rewrite Hf.
Qed.

End Toy.
