(* ===== verification/World.v ===== *)
(** * The shared state of a running tool

    The [Stat] objects of a process live in a store; clients, servers and the
    [Processor] hold pointers to them. [World] is that store, the next unused
    location, and the processor every tool creates once. *)

From S2P Require Import Prelude GoStd Ports Bucket Buckets UdpStat.
Local Open Scope Z_scope.

Record World := mkWorld {
  w_stats : stat_store;
  w_next : nat;
  w_proc : Processor
}.

(** [st := stat.New...Stat(...); statProcessor.AddStat(st)]. *)
Definition register (u : udpStat) (w : World) : nat * World :=
  (w_next w, mkWorld (<[w_next w := u]> (w_stats w)) (S (w_next w)) (Processor.AddStat (w_next w) (w_proc w))).

(** A method call on the [Stat] at [l]. *)
Definition call (l : nat) (f : udpStat -> option udpStat) (w : World) : option World :=
  σ ← on_stat l f (w_stats w); Some (mkWorld σ (w_next w) (w_proc w)).

(** Every registered [Stat] is allocated and well formed, and the processor
    reports exactly the allocated ones, each once. *)
Record world_ok (w : World) : Prop := {
  wok_stats : map_Forall (fun l u => udpStat_ok u) (w_stats w);
  wok_dom : forall l, is_Some (w_stats w !! l) <-> (l < w_next w)%nat;
  wok_proc : p_stats (w_proc w) = seq 0 (w_next w)
}.

Lemma world_ok_empty span delay : world_ok (mkWorld ∅ 0 (NewProcessor span delay)).
Proof.
  split; cbn; [apply map_Forall_empty| |done].
  intros l. rewrite lookup_empty. split; [by intros [? ?]|lia].
Qed.
#[export] Hint Resolve world_ok_empty : nettools.

Lemma register_ok u w :
  udpStat_ok u -> world_ok w ->
  world_ok (register u w).2 /\ w_stats (register u w).2 !! (register u w).1 = Some u /\
  (forall l, (l < w_next w)%nat -> w_stats (register u w).2 !! l = w_stats w !! l).
Proof.
  intros Hu [H1 H2 H3]. cbn. split_and!.
  - split; cbn.
    + by apply map_Forall_insert_2.
    + intros l. destruct (decide (l = w_next w)) as [->|Hl].
      * rewrite lookup_insert_eq. split; [lia|by eexists].
      * rewrite lookup_insert_ne, H2 by done. lia.
    + rewrite H3, <- seq_S. done.
  - apply lookup_insert_eq.
  - intros l Hl. by rewrite lookup_insert_ne by lia.
Qed.

Lemma call_spec l f w u u' :
  w_stats w !! l = Some u -> f u = Some u' ->
  call l f w = Some (mkWorld (<[l := u']> (w_stats w)) (w_next w) (w_proc w)).
Proof. intros Hl Hf. unfold call, on_stat. rewrite Hl. cbn [mbind option_bind]. by rewrite Hf. Qed.

Lemma update_ok l u' w :
  world_ok w -> is_Some (w_stats w !! l) -> udpStat_ok u' ->
  world_ok (mkWorld (<[l := u']> (w_stats w)) (w_next w) (w_proc w)).
Proof.
  intros [H1 H2 H3] Hl Hu. split; cbn; [by apply map_Forall_insert_2| |done].
  intros l'. rewrite lookup_insert_is_Some, H2. split; [|intros Hn; destruct (decide (l = l')); auto].
  intros [<-|[_ Hn]]; [by apply H2|done].
Qed.
