(* ===== verification/UdpClient.v ===== *)
(** * The UDP probe client ([sonar/client/client.go], [sonar6/client/client.go])

    The two clients are the same program up to the address family: the class
    [Family] holds what differs (the key of a peer in the [peers] map, the key
    a sender's address is looked up under, the packet encoder, the grace
    period); everything else is defined once and instantiated in
    [SonarClient] and [Sonar6Client]. *)

From S2P Require Import Prelude GoStd GoNet Ports Bucket Buckets UdpStat Salts SonarCodec Goscapy World.
Local Open Scope Z_scope.

(** The fields of [config.Config] the client reads. *)
Record UdpConf := mkUdpConf {
  uc_ClientAddr : string;
  uc_ServerAddrs : list string;
  uc_ServerZone : string;
  uc_TOS : Z;
  uc_ClientPortRange : PortRange;
  uc_ServerPortRange : PortRange;
  uc_RateInSpan : Z;
  uc_Span : Z;
  uc_Delay : Z;
  uc_MsgLen : Z;
  uc_Count : Z;
  uc_SendDuration : Z
}.

Definition set_conf_MsgLen (n : Z) (c : UdpConf) : UdpConf :=
  mkUdpConf (uc_ClientAddr c) (uc_ServerAddrs c) (uc_ServerZone c) (uc_TOS c) (uc_ClientPortRange c)
    (uc_ServerPortRange c) (uc_RateInSpan c) (uc_Span c) (uc_Delay c) n (uc_Count c)
    (uc_SendDuration c).

(** The source address of a packet: a [*net.IPAddr] or another [net.Addr]. *)
Inductive Addr :=
| IPAddr (ip : IP) (zone : string)
| OtherAddr (text : string).

(** [Addr.String]. *)
Definition Addr_String (a : Addr) : string :=
  match a with
  | IPAddr ip zone =>
      let s := match ip with [] => "" | _ => IP_String ip end in
      if decide (zone = "") then s else s +:+ "%" +:+ zone
  | OtherAddr s => s
  end.

(** What differs between the two clients. *)
Class Family `{Goscapy} := {
  peer_key : string -> string;
  remote_key : Addr -> string;
  encode_packet : IP -> IP -> Z -> Z -> Z -> bytes -> option bytes;
  delayBitflip : Z
}.

(** [peer]; [pe_stat] is the location of its [Stat]. *)
Record peer := mkPeer {
  pe_serverAddr : string;
  pe_serverZone : string;
  pe_stat : nat;
  pe_seq : Z;
  pe_localIP : IP;
  pe_serverIP : IP;
  pe_msgLen : Z;
  pe_clientPortRange : PortRange;
  pe_serverPortRange : PortRange;
  pe_ports : Z
}.

Definition advance_peer (sq ports : Z) (p : peer) : peer :=
  mkPeer (pe_serverAddr p) (pe_serverZone p) (pe_stat p) sq (pe_localIP p) (pe_serverIP p)
    (pe_msgLen p) (pe_clientPortRange p) (pe_serverPortRange p) ports.

(** [Client]. *)
Record Client := mkClient {
  cl_conf : UdpConf;
  cl_peers : gmap string peer;
  cl_salts : Salts
}.

(** The bookkeeping of [serveWrite] for one peer: the entries of its seven
    maps. *)
Record book := mkBook {
  bk_bucketID : Z;
  bk_lastSent : Z;
  bk_curSent : Z;
  bk_lastStartSrcPort : Z;
  bk_lastStartDstPort : Z;
  bk_curStartSrcPort : Z;
  bk_curStartDstPort : Z
}.

(** The entries before the first probe. *)
Definition initial_book (c : UdpConf) : book :=
  mkBook 0 0 (u32 (uc_RateInSpan c)) 0 0 (u16 (Min (uc_ClientPortRange c)))
    (u16 (Min (uc_ServerPortRange c))).

(** The update of the entries for a probe at time [ts]. *)
Definition book_step (span ts localPort serverPort : Z) (b : book) : option book :=
  bucketID ← go_div ts span;
  Some (if negb (bucketID =? bk_bucketID b)
        then mkBook bucketID (bk_curSent b) 1 (bk_curStartSrcPort b) (bk_curStartDstPort b)
               localPort serverPort
        else mkBook (bk_bucketID b) (bk_lastSent b) (u32 (bk_curSent b + 1))
               (bk_lastStartSrcPort b) (bk_lastStartDstPort b)
               (bk_curStartSrcPort b) (bk_curStartDstPort b)).

(** What the outside answers while one probe is sent: the clock, the time
    since the start of [serveWrite], and whether the two socket calls
    succeed. *)
Record Outside := mkOutside {
  o_ts : Z;
  o_elapsed : Z;
  o_deadline_ok : bool;
  o_write_ok : bool
}.

(** The state of the send loop; [ws_out] lists what was written, oldest first:
    destination, zone and packet. *)
Record WState := mkWState {
  ws_peers : gmap string peer;
  ws_books : gmap string book;
  ws_count : Z;
  ws_world : World;
  ws_out : list (IP * string * bytes)
}.

Section client.
Context `{HG : Goscapy} `{HF : !Family}.

(** [initPeers], one address; [seed] is [rand.Int63()]. *)
Definition initPeer (conf : UdpConf) (addr : string) (seed : Z) (ps : gmap string peer) (w : World) :
    gmap string peer * World :=
  let ports := sonar_client.packPorts (u16 (Min (uc_ClientPortRange conf)))
                 (u16 (Min (uc_ServerPortRange conf))) in
  let '(l, w) := register (NewStat (uc_ClientAddr conf) addr (uc_ClientPortRange conf)
                   (uc_ServerPortRange conf) (uc_RateInSpan conf) (uc_Span conf) (uc_Delay conf) true) w in
  let p := mkPeer addr (uc_ServerZone conf) l seed (ParseIP_or_nil (uc_ClientAddr conf))
             (ParseIP_or_nil addr) (uc_MsgLen conf) (uc_ClientPortRange conf)
             (uc_ServerPortRange conf) ports in
  (<[peer_key addr := p]> ps, w).

(** [initPeers]; the seeds are drawn one per address. *)
Fixpoint initPeers (conf : UdpConf) (addrs : list string) (seed : nat -> Z) (ps : gmap string peer)
    (w : World) : gmap string peer * World :=
  match addrs with
  | [] => (ps, w)
  | addr :: addrs =>
      let '(ps, w) := initPeer conf addr (seed (length addrs)) ps w in
      initPeers conf addrs seed ps w
  end.

(** [NewClient]: the message length is raised to a header, salts are made for
    the rest of the message, peers are set up. *)
Definition NewClient (conf : UdpConf) (seed : nat -> Z) (w : World) : option (Client * World) :=
  let conf := if uc_MsgLen conf <? Z.of_nat MsgHeaderLen
              then set_conf_MsgLen (Z.of_nat MsgHeaderLen) conf else conf in
  salts ← NewSalts (uc_MsgLen conf - Z.of_nat MsgHeaderLen);
  let '(ps, w) := initPeers conf (uc_ServerAddrs conf) seed ∅ w in
  Some (mkClient conf ps salts, w).

(** ** Sending *)

(** The body of the inner loop of [serveWrite] for the peer under [key]: the
    new state and whether a limit was reached; [None] is a panic. *)
Definition send_probe (conf : UdpConf) (salts : Salts) (key : string) (o : Outside) (st : WState) :
    option (WState * bool) :=
  p ← ws_peers st !! key;
  b ← ws_books st !! key;
  let bizSeq := u64 (pe_seq p + 1) in
  let '(localPort, serverPort) := sonar_client.unpackPorts (pe_ports p) in
  let '(localPort, serverPort) :=
    sonar_config.GetNextPorts localPort serverPort (pe_clientPortRange p) (pe_serverPortRange p) in
  let p := advance_peer bizSeq (sonar_client.packPorts localPort serverPort) p in
  b ← book_step (uc_Span conf) (o_ts o) localPort serverPort b;
  let peers := <[key := p]> (ws_peers st) in
  let books := <[key := b]> (ws_books st) in
  let payload := Encode bizSeq (Salts.Get salts bizSeq) (o_ts o) (pe_msgLen p) (bk_lastSent b)
                   (bk_lastStartSrcPort b) (bk_lastStartDstPort b) in
  match encode_packet (pe_localIP p) (pe_serverIP p) localPort serverPort (u8 (uc_TOS conf)) payload with
  | None => Some (mkWState peers books (ws_count st) (ws_world st) (ws_out st), false)
  | Some data =>
      let count := ws_count st + 1 in
      if ((0 <? uc_Count conf) && (uc_Count conf <? count)) ||
         ((0 <? uc_SendDuration conf) && (uc_SendDuration conf <? o_elapsed o))
      then Some (mkWState peers books count (ws_world st) (ws_out st), true)
      else
        w ← call (pe_stat p) (udpStat.Put localPort serverPort bizSeq (o_ts o)) (ws_world st);
        if negb (o_deadline_ok o) then Some (mkWState peers books count w (ws_out st), false)
        else if o_write_ok o then
          Some (mkWState peers books count w (ws_out st ++ [(pe_serverIP p, pe_serverZone p, data)]), false)
        else
          w ← call (pe_stat p) (udpStat.Delete bizSeq (o_ts o)) w;
          Some (mkWState peers books count w (ws_out st), false)
  end.

(** The inner loop over the peers, in the order of [keys]; each probe has its
    own answers from outside. *)
Fixpoint send_round (conf : UdpConf) (salts : Salts) (keys : list (string * Outside)) (st : WState) :
    option (WState * bool) :=
  match keys with
  | [] => Some (st, false)
  | (key, o) :: keys =>
      '(st, stop) ← send_probe conf salts key o st;
      if (stop : bool) then Some (st, true) else send_round conf salts keys st
  end.

(** The outer loop of [serveWrite]: one round per element of [rounds], until a
    limit is reached or the context is cancelled (the list ends). *)
Fixpoint send_rounds (conf : UdpConf) (salts : Salts) (rounds : list (list (string * Outside)))
    (st : WState) : option (WState * bool) :=
  match rounds with
  | [] => Some (st, false)
  | keys :: rounds =>
      '(st, stop) ← send_round conf salts keys st;
      if (stop : bool) then Some (st, true) else send_rounds conf salts rounds st
  end.

(** [serveWrite] once its socket is open. *)
Definition serveWrite (c : Client) (rounds : list (list (string * Outside))) (w : World) :
    option (WState * bool) :=
  send_rounds (cl_conf c) (cl_salts c) rounds
    (mkWState (cl_peers c) ((fun _ => initial_book (cl_conf c)) <$> cl_peers c) 0 w []).

(** ** Receiving *)

(** [detectBitflip]. *)
Definition detectBitflip (sinceStartup : Z) (payload salt : bytes) : option bool :=
  if sinceStartup <=? delayBitflip then Some false
  else _ ← mismatches MsgHeaderLen (drop MsgHeaderLen payload) salt; Some true.

(** [handlePacket] at time [now]: the new world; [None] is a panic. *)
Definition handlePacket (c : Client) (now sinceStartup : Z) (remote : Addr) (pkt : bytes) (w : World) :
    option World :=
  match udp_payload pkt with
  | None => Some w
  | Some payload =>
      if negb (IsValid payload) then Some w
      else
        let h := Decode payload in
        match cl_peers c !! remote_key remote with
        | None => Some w
        | Some p =>
            let salt := Salts.Get (cl_salts c) (h_seq h) in
            hasBitflip ←
              if (Z.of_nat (length payload) =? uc_MsgLen (cl_conf c)) &&
                 negb (bytes_equal salt (drop MsgHeaderLen payload))
              then detectBitflip sinceStartup payload salt
              else Some false;
            if (hasBitflip : bool) then Some w
            else call (pe_stat p) (udpStat.Received (h_seq h) (h_ts h) (i64 (now - h_ts h)) hasBitflip) w
        end
  end.

(** What [ReadFrom] delivers, with the two clocks [handlePacket] reads. *)
Record Read := mkRead { rd_remote : Addr; rd_pkt : bytes; rd_now : Z; rd_since : Z }.

(** [readLoop]: over the results of [ReadFrom], [None] an error; the loop gives
    up after 10 errors in a row, which the boolean tells. *)
Fixpoint readLoop (c : Client) (errCount : nat) (reads : list (option Read)) (w : World) : option (World * bool) :=
  match reads with
  | [] => Some (w, false)
  | None :: reads =>
      let errCount := S errCount in
      if (10 <=? errCount)%nat then Some (w, true) else readLoop c errCount reads w
  | Some r :: reads =>
      w ← handlePacket c (rd_now r) (rd_since r) (rd_remote r) (rd_pkt r) w;
      readLoop c 0 reads w
  end.

End client.

(** ** What the header announces *)

(** The entries after a list of probes (time, local port, server port). *)
Fixpoint book_run (span : Z) (l : list (Z * Z * Z)) (b : book) : option book :=
  match l with
  | [] => Some b
  | (ts, lp, sp) :: l => b ← book_step span ts lp sp b; book_run span l b
  end.

Lemma book_run_app span l l' b :
  book_run span (l ++ l') b = (b ← book_run span l b; book_run span l' b).
Proof.
  revert b. induction l as [|[[ts lp] sp] l IH]; intros b; [done|].
  cbn [app book_run]. destruct (book_step span ts lp sp b); cbn [mbind option_bind]; auto.
Qed.

Definition in_span (span i : Z) (a : Z * Z * Z) : Prop := ts_ok a.1.1 /\ a.1.1 / span = i.

Lemma book_step_span span ts lp sp b :
  0 < span -> ts_ok ts ->
  book_step span ts lp sp b =
    Some (if negb (ts / span =? bk_bucketID b)
          then mkBook (ts / span) (bk_curSent b) 1 (bk_curStartSrcPort b) (bk_curStartDstPort b) lp sp
          else mkBook (bk_bucketID b) (bk_lastSent b) (u32 (bk_curSent b + 1))
                 (bk_lastStartSrcPort b) (bk_lastStartDstPort b)
                 (bk_curStartSrcPort b) (bk_curStartDstPort b)).
Proof.
  intros Hs Ht. unfold book_step, ts_ok in *.
  rewrite go_div_pos by (unfold in_i64; lia). done.
Qed.

(** Further probes of the current span only count up. *)
Lemma book_run_same span i l b :
  0 < span -> bk_bucketID b = i -> Forall (in_span span i) l -> bk_curSent b = u32 (bk_curSent b) ->
  book_run span l b =
    Some (mkBook i (bk_lastSent b) (u32 (bk_curSent b + Z.of_nat (length l)))
            (bk_lastStartSrcPort b) (bk_lastStartDstPort b)
            (bk_curStartSrcPort b) (bk_curStartDstPort b)).
Proof.
  intros Hs Hi Hl. revert b Hi. induction Hl as [|[[ts lp] sp] l [Ht Hx] _ IH]; intros b Hi Hc.
  { cbn [book_run length]. rewrite Z.add_0_r, <- Hc. subst i. by destruct b. }
  cbn [book_run fst] in *. rewrite book_step_span by done.
  rewrite Hx, Hi, Z.eqb_refl. cbn [negb mbind option_bind].
  rewrite IH; cbn; [|done|unfold u32; by rewrite Zmod_mod].
  do 2 f_equal. unfold u32. rewrite Zplus_mod_idemp_l. f_equal. lia.
Qed.

(** The first probe of a new span rolls the entries over. *)
Lemma book_run_new span i ts lp sp l b :
  0 < span -> bk_bucketID b <> i -> Forall (in_span span i) ((ts, lp, sp) :: l) ->
  book_run span ((ts, lp, sp) :: l) b =
    Some (mkBook i (bk_curSent b) (u32 (1 + Z.of_nat (length l)))
            (bk_curStartSrcPort b) (bk_curStartDstPort b) lp sp).
Proof.
  intros Hs Hi Hl. apply Forall_cons in Hl as [[Ht Hx] Hl]. cbn [fst] in *. cbn [book_run].
  rewrite book_step_span by done. rewrite Hx, (proj2 (Z.eqb_neq _ _)) by done.
  cbn [negb mbind option_bind]. by rewrite (book_run_same span i).
Qed.

(** What the client announces: when the probes of one peer's last two spans
    are [prev] (span number [i]) and [cur] (span number [j]), the header of
    the last probe carries the number of probes of [prev] and the ports of the
    first of them, and the next span will announce [cur] in the same way. So
    the announced start pair is the first pair of the span. *)
Theorem header_announces_previous_span :
  forall span old b0 b1 i j p cp prev c prev_cur cur,
    0 < span -> book_run span old b0 = Some b1 -> bk_bucketID b1 <> i -> i <> j ->
    Forall (in_span span i) ((p, cp.1, cp.2) :: prev) ->
    Forall (in_span span j) ((c, prev_cur.1, prev_cur.2) :: cur) ->
    exists b,
      book_run span (old ++ ((p, cp.1, cp.2) :: prev) ++ (c, prev_cur.1, prev_cur.2) :: cur) b0 = Some b /\
      bk_lastSent b = u32 (Z.of_nat (S (length prev))) /\
      (bk_lastStartSrcPort b, bk_lastStartDstPort b) = cp /\
      bk_curSent b = u32 (Z.of_nat (S (length cur))) /\
      (bk_curStartSrcPort b, bk_curStartDstPort b) = prev_cur.
Proof.
  intros span old b0 b1 i j p cp prev c pc cur Hs H0 Hi Hij Hp Hc.
  rewrite book_run_app, H0. cbn [mbind option_bind]. rewrite book_run_app.
  rewrite (book_run_new span i) by done. cbn [mbind option_bind].
  rewrite (book_run_new span j) by done. eexists. split; [done|]. cbn.
  rewrite !Nat2Z.inj_succ. split_and!; [f_equal; lia|by destruct cp|f_equal; lia|by destruct pc].
Qed.

Lemma header_announces_previous_span_witness :
  exists b,
    book_run 1000 [(1500, 43500, 43501); (1600, 43500, 43502); (2100, 43500, 43503)]
      (mkBook 0 0 5000 0 0 43500 43500) = Some b /\
    bk_lastSent b = u32 2 /\ (bk_lastStartSrcPort b, bk_lastStartDstPort b) = (43500, 43501) /\
    bk_curSent b = u32 1 /\ (bk_curStartSrcPort b, bk_curStartDstPort b) = (43500, 43503).
Proof.
  apply (header_announces_previous_span 1000 [] (mkBook 0 0 5000 0 0 43500 43500)
           (mkBook 0 0 5000 0 0 43500 43500) 1 2 1500 (43500, 43501) [(1600, 43500, 43502)]
           2100 (43500, 43503) []);
    [lia|reflexivity|discriminate|discriminate| |];
    repeat constructor; cbn; unfold ts_ok; try reflexivity; lia.
Defined.

(** ** The packet limit *)

Section limits.
Context `{HG : Goscapy} `{HF : !Family}.

(** Packets written never outnumber the probes counted, nor the limit. *)
Definition within_limit (conf : UdpConf) (st : WState) : Prop :=
  Z.of_nat (length (ws_out st)) <= ws_count st /\
  Z.of_nat (length (ws_out st)) <= uc_Count conf.

Lemma send_probe_limit conf salts key o st st' stop :
  0 < uc_Count conf -> within_limit conf st ->
  send_probe conf salts key o st = Some (st', stop) -> within_limit conf st'.
Proof.
  unfold within_limit, send_probe. intros Hc [B1 B2].
  destruct (ws_peers st !! key) as [p|]; [cbn [mbind option_bind]|done].
  destruct (ws_books st !! key) as [b|]; [cbn [mbind option_bind]|done].
  destruct (sonar_client.unpackPorts _) as [l0 s0].
  destruct (sonar_config.GetNextPorts _ _ _ _) as [lp sp].
  destruct (book_step _ _ _ _ _) as [b'|]; [cbn [mbind option_bind]|done].
  destruct (encode_packet _ _ _ _ _ _) as [data|]; [|by intros [= <- <-]; cbn].
  rewrite (proj2 (Z.ltb_lt 0 (uc_Count conf))) by done. cbn [andb].
  destruct (Z.ltb_spec (uc_Count conf) (ws_count st + 1)) as [Hlt|Hle]; cbn [orb].
  { intros [= <- <-]; cbn. lia. }
  destruct (_ && _); [intros [= <- <-]; cbn; lia|].
  destruct (call _ _ _) as [w|]; [cbn [mbind option_bind]|done].
  destruct (o_deadline_ok o); cbn [negb]; [|intros [= <- <-]; cbn; lia].
  destruct (o_write_ok o); [intros [= <- <-]; cbn; rewrite length_app; cbn [length]; lia|].
  destruct (call _ _ _) as [w'|]; [cbn [mbind option_bind]|done]. intros [= <- <-]; cbn; lia.
Qed.

Lemma send_round_limit conf salts keys st st' stop :
  0 < uc_Count conf -> within_limit conf st ->
  send_round conf salts keys st = Some (st', stop) -> within_limit conf st'.
Proof.
  intros Hc. revert st. induction keys as [|[key o] keys IH]; intros st H1; cbn [send_round];
    [by intros [= <- _]|].
  destruct (send_probe _ _ _ _ _) as [[st1 stop1]|] eqn:E; [cbn [mbind option_bind]|done].
  assert (H1' := send_probe_limit _ _ _ _ _ _ _ Hc H1 E). destruct stop1; [by intros [= <- _]|eauto].
Qed.

(** The [Count] option is a hard limit: however long [serveWrite] runs, in
    whatever order it visits the peers and whatever the clock and the socket
    answer, it never writes more than [Count] packets. *)
Theorem serveWrite_Count :
  forall c rounds w st stop,
    0 < uc_Count (cl_conf c) -> serveWrite c rounds w = Some (st, stop) ->
    Z.of_nat (length (ws_out st)) <= uc_Count (cl_conf c).
Proof.
  intros c rounds w st stop Hc. unfold serveWrite.
  assert (within_limit (cl_conf c) (mkWState (cl_peers c)
            ((fun _ => initial_book (cl_conf c)) <$> cl_peers c) 0 w [])) as Hw
    by (split; cbn; lia).
  revert Hw. generalize (mkWState (cl_peers c) ((fun _ => initial_book (cl_conf c)) <$> cl_peers c) 0 w []).
  induction rounds as [|keys rounds IH]; intros st0 H1; cbn [send_rounds].
  { intros [= <- _]. apply H1. }
  destruct (send_round _ _ _ _) as [[st1 stop1]|] eqn:E; [cbn [mbind option_bind]|done].
  assert (H1' := send_round_limit _ _ _ _ _ _ Hc H1 E).
  destruct stop1; [intros [= <- _]; apply H1'|by apply IH].
Qed.

End limits.

(** ** A client and its store *)

Section correct.
Context `{HG : Goscapy} `{HF : !Family}.

(** The client belongs to the world [w]: its salts fit its messages, and its
    peers hold allocated, well-formed [Stat]s over the configured span. *)
Record client_ok (c : Client) (w : World) : Prop := {
  cok_msglen : Z.of_nat MsgHeaderLen <= uc_MsgLen (cl_conf c);
  cok_salts : NewSalts (uc_MsgLen (cl_conf c) - Z.of_nat MsgHeaderLen) = Some (cl_salts c);
  cok_span : 0 < uc_Span (cl_conf c);
  cok_peers : map_Forall (fun key p =>
      pe_msgLen p = uc_MsgLen (cl_conf c) /\ in_u64 (pe_seq p) /\
      exists u, w_stats w !! pe_stat p = Some u /\ udpStat_ok u /\ u_span u = uc_Span (cl_conf c))
    (cl_peers c)
}.

(** [handlePacket] once it has a payload for a known peer. *)
Lemma handlePacket_payload c now since remote pkt payload p w :
  udp_payload pkt = Some payload -> IsValid payload = true ->
  cl_peers c !! remote_key remote = Some p -> client_ok c w ->
  let h := Decode payload in
  let bad := Z.of_nat (length payload) = uc_MsgLen (cl_conf c) /\
             Salts.Get (cl_salts c) (h_seq h) <> drop MsgHeaderLen payload in
  (~ bad \/ since <= delayBitflip ->
   handlePacket c now since remote pkt w =
     call (pe_stat p) (udpStat.Received (h_seq h) (h_ts h) (i64 (now - h_ts h)) false) w) /\
  (bad -> delayBitflip < since -> handlePacket c now since remote pkt w = Some w).
Proof.
  intros Hpl Hv Hp [Hm Hs Hspan _]. cbn zeta. unfold handlePacket. rewrite Hpl, Hv. cbn [negb].
  rewrite Hp. set (salt := Salts.Get _ _).
  destruct ((Z.of_nat (length payload) =? uc_MsgLen (cl_conf c)) &&
            negb (bytes_equal salt (drop MsgHeaderLen payload))) eqn:E.
  - assert (Hbad : Z.of_nat (length payload) = uc_MsgLen (cl_conf c) /\
                   salt <> drop MsgHeaderLen payload) by (unfold bytes_equal in E; bools; done).
    unfold detectBitflip. destruct (Z.leb_spec since delayBitflip) as [Hle|Hgt].
    + split; [done|lia].
    + split; [intros [?|?]; [tauto|lia]|]. intros _ _.
      assert (Hlen : length salt = length (drop MsgHeaderLen payload)).
      { unfold salt. rewrite (NewSalts_length _ _ _ Hs), length_drop. lia. }
      assert (is_Some (mismatches MsgHeaderLen (drop MsgHeaderLen payload) salt)) as [l ->]; [|done].
      by apply mismatches_total.
  - assert (~ (Z.of_nat (length payload) = uc_MsgLen (cl_conf c) /\
               salt <> drop MsgHeaderLen payload)) as Hok.
    { intros [H1 H2]. rewrite (proj2 (Z.eqb_eq _ _)) in E by done. cbn [andb] in E.
      unfold bytes_equal in E. bools. done. }
    cbn [mbind option_bind]. tauto.
Qed.

(** Replacing a [Stat] of the client by a well-formed one over the same span. *)
Lemma client_ok_update c w l u' :
  client_ok c w -> udpStat_ok u' -> u_span u' = uc_Span (cl_conf c) ->
  client_ok c (mkWorld (<[l := u']> (w_stats w)) (w_next w) (w_proc w)).
Proof.
  intros [H1 H2 H3 H4] Hu Hs. split; [done..|]. intros key p Hp.
  destruct (H4 key p Hp) as (Hm & Hq & u & Hl & Hok & Hsp). split_and!; [done|done|]. cbn.
  destruct (decide (pe_stat p = l)) as [->|Hne].
  - exists u'. by rewrite lookup_insert_eq.
  - exists u. by rewrite lookup_insert_ne.
Qed.

(** What a datagram may do to the statistics: nothing, or one reply recorded
    without a bit flip. *)
Definition reply_outcome (c : Client) (now since : Z) (pkt : bytes) (w w' : World) : Prop :=
  w' = w \/
  exists key p payload, cl_peers c !! key = Some p /\ udp_payload pkt = Some payload /\
    IsValid payload = true /\
    call (pe_stat p) (udpStat.Received (h_seq (Decode payload)) (h_ts (Decode payload))
      (i64 (now - h_ts (Decode payload))) false) w = Some w' /\
    (delayBitflip < since -> Z.of_nat (length payload) = uc_MsgLen (cl_conf c) ->
     drop MsgHeaderLen payload = Salts.Get (cl_salts c) (h_seq (Decode payload))).

(** The timestamp in the datagram, if it is a probe, is a time. *)
Definition payload_ts_ok (pkt : bytes) : Prop :=
  forall payload, udp_payload pkt = Some payload -> IsValid payload = true -> ts_ok (h_ts (Decode payload)).

Lemma handlePacket_step c now since remote pkt w :
  client_ok c w -> payload_ts_ok pkt ->
  exists w', handlePacket c now since remote pkt w = Some w' /\ client_ok c w' /\ reply_outcome c now since pkt w w'.
Proof.
  intros Hok Hts.
  assert (Hnone : handlePacket c now since remote pkt w = Some w ->
    exists w', handlePacket c now since remote pkt w = Some w' /\ client_ok c w' /\ reply_outcome c now since pkt w w').
  { intros E. exists w. split_and!; [done|done|by left]. }
  destruct (udp_payload pkt) as [payload|] eqn:Hpl.
  2: { apply Hnone. unfold handlePacket. by rewrite Hpl. }
  destruct (IsValid payload) eqn:Hv.
  2: { apply Hnone. unfold handlePacket. by rewrite Hpl, Hv. }
  destruct (cl_peers c !! remote_key remote) as [p|] eqn:Hp.
  2: { apply Hnone. unfold handlePacket. by rewrite Hpl, Hv, Hp. }
  destruct (handlePacket_payload c now since remote pkt payload p w Hpl Hv Hp Hok) as [Hgood Hbad].
  specialize (Hts payload Hpl Hv).
  set (bad := Z.of_nat (length payload) = uc_MsgLen (cl_conf c) /\
              Salts.Get (cl_salts c) (h_seq (Decode payload)) <> drop MsgHeaderLen payload) in *.
  assert (Decision bad) as Hdec by (unfold bad; apply _).
  destruct (decide (bad /\ delayBitflip < since)) as [[Hb Hs]|Hn]; [by apply Hnone, Hbad|].
  rewrite Hgood by (destruct (decide bad); [right; apply Z.nlt_ge; tauto|by left]).
  destruct (cok_peers _ _ Hok _ _ Hp) as (_ & _ & u & Hu & Huok & Hsp).
  destruct (op_step (Buckets.Received (h_seq (Decode payload)) (h_ts (Decode payload))
              (i64 (now - h_ts (Decode payload))) false) u Huok Hts) as (bs & E & Hbs).
  assert (Hcall : call (pe_stat p) (udpStat.Received (h_seq (Decode payload)) (h_ts (Decode payload))
      (i64 (now - h_ts (Decode payload))) false) w =
    Some (mkWorld (<[pe_stat p := set_bkts bs u]> (w_stats w)) (w_next w) (w_proc w))).
  { eapply call_spec; [done|]. unfold udpStat.Received. cbn [exec] in E. by rewrite E. }
  eexists. split_and!; [exact Hcall|apply client_ok_update; [done|apply Hbs|done]|].
  right. exists (remote_key remote), p, payload. split_and!; try done.
  intros Hs Hl. destruct (decide (Salts.Get (cl_salts c) (h_seq (Decode payload)) = drop MsgHeaderLen payload))
    as [->|Hne]; [done|]. exfalso. apply Hn. split; [split; done|done].
Qed.

Definition read_ok (r : option Read) : Prop := match r with Some r => payload_ts_ok (rd_pkt r) | None => True end.

(** Ten errors in a row. *)
Definition ten_errors (reads : list (option Read)) : Prop :=
  exists k, take 10 (drop k reads) = replicate 10 None.

Lemma replicate_None_cons {A} n (l : list (option A)) :
  replicate n None ++ None :: l = replicate (S n) None ++ l.
Proof. change (None :: l) with (replicate 1 None ++ l). rewrite app_assoc, <- replicate_add. by rewrite Nat.add_comm. Qed.

Lemma ten_errors_some n r reads : (n < 10)%nat -> ten_errors (replicate n None ++ Some r :: reads) <-> ten_errors reads.
Proof.
  intros Hn. split; intros [k Hk].
  - destruct (decide (k <= n)%nat) as [Hle|].
    + assert (H : take 10 (drop k (replicate n None ++ Some r :: reads)) !! (n - k)%nat = Some (Some r)).
      { rewrite lookup_take_lt by lia. rewrite lookup_drop, lookup_app_r by (rewrite length_replicate; lia).
        rewrite length_replicate. by replace (k + (n - k) - n)%nat with 0%nat by lia. }
      rewrite Hk in H. by apply lookup_replicate in H as [? _].
    + exists (k - S n)%nat. rewrite <- Hk. f_equal. rewrite drop_app_ge by (rewrite length_replicate; lia).
      rewrite length_replicate. by replace (k - n)%nat with (S (k - S n))%nat by lia.
  - exists (n + S k)%nat. rewrite <- Hk. f_equal. rewrite drop_app_ge by (rewrite length_replicate; lia).
    rewrite length_replicate. by replace (n + S k - n)%nat with (S k) by lia.
Qed.

(** The receive loop: it keeps the invariant, and gives up exactly when there
    are ten errors in a row, counting those before. *)
Lemma readLoop_ok c reads : forall errs w,
  (errs < 10)%nat -> client_ok c w -> Forall read_ok reads ->
  exists w' e, readLoop c errs reads w = Some (w', e) /\ client_ok c w' /\
    (e = true <-> ten_errors (replicate errs None ++ reads)).
Proof.
  induction reads as [|[r|] reads IH]; intros errs w He Hok Hr; cbn [readLoop].
  - exists w, false. split_and!; [done|done|]. split; [done|]. intros [k Hk]. apply (f_equal length) in Hk.
    rewrite app_nil_r, length_take, length_drop, !length_replicate in Hk. lia.
  - inv Hr. destruct (handlePacket_step c (rd_now r) (rd_since r) (rd_remote r) (rd_pkt r) w Hok)
      as (w1 & -> & Hok1 & _); [done|]. cbn [mbind option_bind].
    destruct (IH 0%nat w1) as (w' & e & -> & Hok' & Hx); [lia|done..|].
    exists w', e. split_and!; [done|done|]. rewrite Hx, ten_errors_some by done. done.
  - inv Hr. rewrite replicate_None_cons. destruct (10 <=? S errs)%nat eqn:E.
    + exists w, true. split_and!; [done|done|]. apply Nat.leb_le in E. split; [|done]. intros _. exists 0%nat.
      replace (S errs) with 10%nat by lia. by rewrite drop_0, take_app_length'.
    + apply Nat.leb_gt in E. apply IH; [lia|done..].
Qed.

(** The receive path of a client: no datagram makes it panic; each leaves
    the statistics alone or is recorded as one reply {e without} a bit flip. A
    full-length reply whose padding is not its salt is dropped once the grace
    period is over, so a corrupted reply is accounted as a lost packet. Over
    any sequence of datagrams and errors the loop keeps the invariant of the
    client and gives up exactly when ten errors follow each other. *)
Theorem handlePacket_outcome :
  forall c w,
    client_ok c w ->
    (forall now since remote pkt, payload_ts_ok pkt ->
       exists w', handlePacket c now since remote pkt w = Some w' /\ reply_outcome c now since pkt w w') /\
    (forall reads, Forall read_ok reads ->
       exists w' e, readLoop c 0 reads w = Some (w', e) /\ client_ok c w' /\ (e = true <-> ten_errors reads)).
Proof.
  intros c w Hok. split.
  - intros now since remote pkt Hts. destruct (handlePacket_step c now since remote pkt w Hok Hts) as (w' & ? & _ & ?).
    eauto.
  - intros reads Hr. exact (readLoop_ok c reads 0 w ltac:(lia) Hok Hr).
Qed.

Definition book_ok (b : book) : Prop :=
  in_u32 (bk_lastSent b) /\ in_u32 (bk_curSent b) /\
  in_u16 (bk_lastStartSrcPort b) /\ in_u16 (bk_lastStartDstPort b) /\
  in_u16 (bk_curStartSrcPort b) /\ in_u16 (bk_curStartDstPort b).

Lemma initial_book_ok conf : book_ok (initial_book conf).
Proof. split_and!; cbn; try (by auto with nettools); unfold in_u32, in_u16; lia. Qed.

Lemma book_step_ok span ts lp sp b b' :
  in_u16 lp -> in_u16 sp -> book_ok b -> book_step span ts lp sp b = Some b' -> book_ok b'.
Proof.
  intros Hlp Hsp (H1 & H2 & H3 & H4 & H5 & H6). unfold book_step.
  destruct (go_div ts span); cbn [mbind option_bind]; [|done]. intros [= <-].
  destruct (negb _); split_and!; cbn; try done; try (by auto with nettools); unfold in_u32; lia.
Qed.

Lemma next_ports_u16 v cr sr :
  let '(l, s) := sonar_client.unpackPorts v in
  let '(l, s) := sonar_config.GetNextPorts l s cr sr in in_u16 l /\ in_u16 s.
Proof.
  unfold sonar_client.unpackPorts, sonar_config.GetNextPorts.
  repeat case_match; simplify_eq; split; auto with nettools.
Qed.

(** What one successful write leaves behind. *)
Lemma send_probe_written conf salts key o st st' p b u :
  ws_peers st !! key = Some p -> ws_books st !! key = Some b -> book_ok b ->
  w_stats (ws_world st) !! pe_stat p = Some u -> udpStat_ok u ->
  ts_ok (o_ts o) -> o_deadline_ok o = true -> o_write_ok o = true ->
  probe (u_bkts u) (o_ts o / u_span u) (u64 (pe_seq p + 1)) = None ->
  send_probe conf salts key o st = Some (st', false) ->
  ws_out st' = ws_out st /\ ws_world st' = ws_world st \/
  exists lp sp b' data u',
    in_u16 lp /\ in_u16 sp /\ book_ok b' /\
    encode_packet (pe_localIP p) (pe_serverIP p) lp sp (u8 (uc_TOS conf))
      (Encode (u64 (pe_seq p + 1)) (Salts.Get salts (u64 (pe_seq p + 1))) (o_ts o) (pe_msgLen p)
         (bk_lastSent b') (bk_lastStartSrcPort b') (bk_lastStartDstPort b')) = Some data /\
    ws_out st' = ws_out st ++ [(pe_serverIP p, pe_serverZone p, data)] /\
    ws_world st' = mkWorld (<[pe_stat p := u']> (w_stats (ws_world st))) (w_next (ws_world st))
                     (w_proc (ws_world st)) /\
    udpStat_ok u' /\ u_span u' = u_span u /\
    forall i x, probe (u_bkts u') i x =
      if decide ((i, x) = (o_ts o / u_span u, u64 (pe_seq p + 1)))
      then Some (fresh_request lp sp (u64 (pe_seq p + 1)) (o_ts o)) else probe (u_bkts u) i x.
Proof.
  intros Hp Hb Hbok Hu Huok Ht Hd Hw Hn. unfold send_probe. rewrite Hp, Hb. cbn [mbind option_bind].
  pose proof (next_ports_u16 (pe_ports p) (pe_clientPortRange p) (pe_serverPortRange p)) as Hports.
  destruct (sonar_client.unpackPorts _) as [l0 s0].
  destruct (sonar_config.GetNextPorts _ _ _ _) as [lp sp]. destruct Hports as [Hlp Hsp].
  destruct (book_step _ _ _ _ _) as [b'|] eqn:Eb; [cbn [mbind option_bind]|done].
  cbn [pe_localIP pe_serverIP pe_msgLen pe_stat pe_serverZone advance_peer].
  destruct (encode_packet _ _ _ _ _ _) as [data|] eqn:Ee; [|intros [= <-]; by left].
  destruct (_ || _); [done|]. set (q := u64 (pe_seq p + 1)) in *.
  destruct (put_unused (u_bkts u) lp sp q (o_ts o)) as (bs & Ep & Hpr);
    [apply Huok|done|by rewrite <- (uok_span _ Huok)|].
  destruct (op_step (Buckets.Put lp sp q (o_ts o)) u Huok Ht) as (bs' & Ep' & Hok' & Hcfg & _).
  cbn [exec] in Ep'. assert (bs' = bs) as -> by congruence.
  rewrite (call_spec _ _ _ u (set_bkts bs u)); [|done|unfold udpStat.Put; by rewrite Ep].
  cbn [mbind option_bind]. rewrite Hd, Hw. cbn [negb]. intros [= <-]. right.
  exists lp, sp, b', data, (set_bkts bs u). cbn [ws_out ws_world u_bkts set_bkts u_span].
  refine (conj Hlp (conj Hsp (conj (book_step_ok _ _ _ _ _ _ Hlp Hsp Hbok Eb) _))).
  split_and!; try done.
  intros i x. rewrite Hpr. by rewrite <- (uok_span _ Huok).
Qed.

(** What [handlePacket] does with an unmodified reply to a pending probe. *)
Lemma handlePacket_echo c now since remote pkt w p h u r :
  client_ok c w -> cl_peers c !! remote_key remote = Some p ->
  w_stats w !! pe_stat p = Some u -> udpStat_ok u -> u_span u = uc_Span (cl_conf c) ->
  header_ok h -> ts_ok (h_ts h) ->
  dissects pkt (encode_header h (Salts.Get (cl_salts c) (h_seq h)) (uc_MsgLen (cl_conf c))) ->
  probe (u_bkts u) (h_ts h / u_span u) (h_seq h) = Some r ->
  exists bs,
    handlePacket c now since remote pkt w =
      Some (mkWorld (<[pe_stat p := set_bkts bs u]> (w_stats w)) (w_next w) (w_proc w)) /\
    forall i x, probe bs i x =
      if decide ((i, x) = (h_ts h / u_span u, h_seq h))
      then Some (bucket.mark_received (i64 (now - h_ts h)) false r) else probe (u_bkts u) i x.
Proof.
  intros Hok Hp Hu Huok Hspan Hh Ht Hd Hr.
  set (payload := encode_header h _ _) in *.
  assert (HL : payload = header_bytes h ++ padding (Salts.Get (cl_salts c) (h_seq h))
            (Z.to_nat (Z.max 32 (uc_MsgLen (cl_conf c))) - MsgHeaderLen)) by apply sonar_Encode_layout.
  assert (Hdec : Decode payload = h) by (rewrite HL; by apply sonar_Decode_header).
  assert (Hsalt : drop MsgHeaderLen payload = Salts.Get (cl_salts c) (h_seq h)).
  { rewrite HL, drop_app_length' by (by rewrite sonar_length_header_bytes).
    pose proof (cok_msglen _ _ Hok) as Hm.
    replace (Z.to_nat _ - MsgHeaderLen)%nat with (length (Salts.Get (cl_salts c) (h_seq h)));
      [apply padding_id|]. rewrite (NewSalts_length _ _ _ (cok_salts _ _ Hok)).
    unfold MsgHeaderLen, magicFlagLen in *. lia. }
  destruct (handlePacket_payload c now since remote pkt payload p w) as [Hgood _];
    [by apply udp_payload_dissects|rewrite HL; apply sonar_IsValid_header|done|done|].
  rewrite Hdec, Hsalt in Hgood. rewrite Hgood by tauto.
  destruct (received_recorded (u_bkts u) (h_seq h) (h_ts h) (i64 (now - h_ts h)) false r)
    as (bs & E & Hpr); [apply Huok|done|by rewrite <- (uok_span _ Huok)|].
  exists bs. split; [|by rewrite <- (uok_span _ Huok) in Hpr].
  eapply call_spec; [done|]. unfold udpStat.Received. by rewrite E.
Qed.

(** C10: a probe and its echo: when the send loop writes a probe (with a fresh
    sequence number) and the server's unmodified payload comes back from the
    peer's address, [handlePacket] completes exactly that probe's record, with
    the ports it was sent between, the RTT, and no bit flip, and leaves every
    other record alone. *)
Theorem echo_completes_probe :
  forall c st st' key o p b u remote,
    client_ok c (ws_world st) ->
    ws_peers st !! key = Some p -> cl_peers c !! key = Some p ->
    ws_books st !! key = Some b -> book_ok b ->
    w_stats (ws_world st) !! pe_stat p = Some u ->
    ts_ok (o_ts o) -> o_deadline_ok o = true -> o_write_ok o = true ->
    probe (u_bkts u) (o_ts o / u_span u) (u64 (pe_seq p + 1)) = None ->
    send_probe (cl_conf c) (cl_salts c) key o st = Some (st', false) ->
    remote_key remote = key ->
    ws_out st' = ws_out st \/
    exists lp sp payload data,
      encode_packet (pe_localIP p) (pe_serverIP p) lp sp (u8 (uc_TOS (cl_conf c))) payload = Some data /\
      ws_out st' = ws_out st ++ [(pe_serverIP p, pe_serverZone p, data)] /\
      forall pkt now since, dissects pkt payload ->
        exists w' u',
          handlePacket c now since remote pkt (ws_world st') = Some w' /\
          w_stats w' !! pe_stat p = Some u' /\
          (forall l, l <> pe_stat p -> w_stats w' !! l = w_stats (ws_world st) !! l) /\
          forall i x, probe (u_bkts u') i x =
            if decide ((i, x) = (o_ts o / u_span u, u64 (pe_seq p + 1)))
            then Some (mkRequest lp sp (u64 (pe_seq p + 1)) (o_ts o) (i64 (now - o_ts o)) false false)
            else probe (u_bkts u) i x.
Proof.
  intros c st st' key o p b u remote Hok Hp Hcp Hb Hbok Hu Ht Hd Hw Hn Hsend Hkey.
  destruct (cok_peers _ _ Hok key p Hcp) as (Hm & Hq & u0 & Hu0 & Huok & Hspan).
  assert (u0 = u) as -> by congruence.
  destruct (send_probe_written _ _ _ _ _ _ _ _ _ Hp Hb Hbok Hu Huok Ht Hd Hw Hn Hsend)
    as [[? _]|(lp & sp & b' & data & u1 & Hlp & Hsp & Hb' & He & Hout & Hw1 & Huok1 & Hs1 & Hpr)];
    [by left|right].
  set (h := mkHeader (u64 (pe_seq p + 1)) (o_ts o) (bk_lastSent b') (bk_lastStartSrcPort b')
              (bk_lastStartDstPort b')).
  exists lp, sp, (encode_header h (Salts.Get (cl_salts c) (h_seq h)) (uc_MsgLen (cl_conf c))), data.
  split_and!; [unfold encode_header; cbn; by rewrite <- Hm|done|]. intros pkt now since Hdis.
  assert (Hok1 : client_ok c (ws_world st')) by (rewrite Hw1; apply client_ok_update; [done|done|congruence]).
  destruct (handlePacket_echo c now since remote pkt (ws_world st') p h u1
              (fresh_request lp sp (u64 (pe_seq p + 1)) (o_ts o))) as (bs & E & Hpr');
    [done|by rewrite Hkey|rewrite Hw1; cbn; apply lookup_insert_eq|done|congruence| |done|done| |].
  - destruct Hb' as (B1 & _ & B3 & B4 & _). split_and!; cbn; try done; [auto with nettools|].
    unfold ts_ok, in_i64 in *. lia.
  - cbn. rewrite Hpr, Hs1. by rewrite decide_True.
  - eexists _, _. split_and!; [exact E|cbn; apply lookup_insert_eq| |].
    + intros l Hl. rewrite Hw1. cbn. by rewrite !lookup_insert_ne by done.
    + intros i x. cbn [u_bkts set_bkts]. rewrite Hpr', Hs1, Hpr. cbn [h_seq h_ts h]. by case_decide.
Qed.

End correct.

(** ** The two families *)

(** [sonar/client]: peers are looked up by the textual source address. *)
Definition sonar_family `{Goscapy} : Family := {|
  peer_key := fun addr => addr;
  remote_key := Addr_String;
  encode_packet := fun local remote lp sp _ payload => EncodeUDPPacket local remote lp sp 64 payload;
  delayBitflip := 10 * 1000000000
|}.

(** [sonar6/client]: both keys are canonical addresses without a zone. *)
Definition sonar6_family `{Goscapy} : Family := {|
  peer_key := fun addr => IP_String (ParseIP_or_nil addr);
  remote_key := fun a =>
    match a with
    | IPAddr (_ :: _ as ip) _ => IP_String ip
    | _ => Addr_String a
    end;
  encode_packet := fun local remote lp sp tc payload => EncodeUDPPacket6 local remote lp sp tc 64 payload;
  delayBitflip := 30 * 1000000000
|}.

(** ** Witnesses *)

Module samples.

Import Toy.

#[local] Instance fam : @Family Toy.toy := @sonar_family Toy.toy.

Definition conf : UdpConf :=
  mkUdpConf "10.0.0.1" ["10.0.0.2"] "" 0 (mkPortRange 43500 43502) (mkPortRange 43500 43501) 5 1000
    3000 36 1 0.

Definition setup : Client * World :=
  default (mkClient conf ∅ (mkSalts [] [] [] [] 0), mkWorld ∅ 0 (NewProcessor 1000 3000))
    (NewClient conf (fun _ => 41) (mkWorld ∅ 0 (NewProcessor 1000 3000))).

Definition client : Client := setup.1.
Definition world : World := setup.2.
Definition start : WState :=
  mkWState (cl_peers client) ((fun _ => initial_book (cl_conf client)) <$> cl_peers client) 0 world [].
Definition outside : Outside := mkOutside 5000 0 true true.
Definition the_peer : peer :=
  default (mkPeer "" "" 0 0 [] [] 0 (mkPortRange 0 0) (mkPortRange 0 0) 0) (cl_peers client !! "10.0.0.2").
Definition the_stat : udpStat :=
  NewStat "10.0.0.1" "10.0.0.2" (mkPortRange 43500 43502) (mkPortRange 43500 43501) 5 1000 3000 true.

Lemma the_client_ok : client_ok client world.
Proof.
  split; [vm_compute; discriminate|reflexivity|reflexivity|].
  intros key p Hp. unfold client, setup, cl_peers in Hp. vm_compute in Hp.
  change (({["10.0.0.2" := the_peer]} : gmap string peer) !! key = Some p) in Hp.
  apply lookup_singleton_Some in Hp as [_ <-].
  split; [reflexivity|]. split; [vm_compute; split; [discriminate|reflexivity]|].
  exists the_stat. split; [reflexivity|]. split; [by auto with nettools|reflexivity].
Qed.

End samples.

Lemma serveWrite_Count_witness :
  let run := serveWrite (HF := samples.fam) samples.client
    [[("10.0.0.2", samples.outside)]; [("10.0.0.2", samples.outside)]] samples.world in
  run = Some (default (samples.start, false) run) /\
  Z.of_nat (length (ws_out (default (samples.start, false) run).1)) <= 1.
Proof.
  split; [vm_compute; reflexivity|].
  apply (serveWrite_Count (HF := samples.fam) samples.client
    [[("10.0.0.2", samples.outside)]; [("10.0.0.2", samples.outside)]] samples.world _
    (default (samples.start, false) (serveWrite (HF := samples.fam) samples.client
    [[("10.0.0.2", samples.outside)]; [("10.0.0.2", samples.outside)]] samples.world)).2);
    vm_compute; reflexivity.
Defined.

Lemma handlePacket_outcome_witness :
  let reads := replicate 10 None in
  exists w' e, readLoop (HF := samples.fam) samples.client 0
      (Some (mkRead (IPAddr [10; 0; 0; 2] "") (make_bytes 8 ++ magicFlag ++ make_bytes 28) 9000 20000000000) :: reads)
      samples.world = Some (w', e) /\
    client_ok samples.client w' /\ e = true.
Proof.
  cbn zeta.
  destruct (handlePacket_outcome (HF := samples.fam) samples.client samples.world samples.the_client_ok) as [_ H].
  edestruct H as (w' & e & E & Hok & Hx); [|exists w', e; split_and!; [exact E|exact Hok|]].
  - apply Forall_cons. split; [|by apply Forall_replicate]. intros pl Hp _. vm_compute in Hp. injection Hp as <-. vm_compute.
    split; [discriminate|reflexivity].
  - apply Hx. by exists 1%nat.
Defined.

Definition sample_sent : WState :=
  (default (samples.start, false)
     (send_probe (HF := samples.fam) (cl_conf samples.client) (cl_salts samples.client) "10.0.0.2"
        samples.outside samples.start)).1.

Lemma echo_completes_probe_witness :
  ws_out sample_sent = ws_out samples.start \/
  exists lp sp payload data,
    encode_packet (Family := samples.fam) (pe_localIP samples.the_peer) (pe_serverIP samples.the_peer)
      lp sp (u8 0) payload = Some data /\
    ws_out sample_sent = ws_out samples.start ++ [(pe_serverIP samples.the_peer, "", data)] /\
    forall pkt now since, dissects (H := Toy.toy) pkt payload ->
      exists w' u',
        handlePacket (HF := samples.fam) samples.client now since (IPAddr [10; 0; 0; 2] "") pkt
          (ws_world sample_sent) = Some w' /\
        w_stats w' !! 0%nat = Some u' /\
        (forall l, l <> 0%nat -> w_stats w' !! l = w_stats samples.world !! l) /\
        forall i x, probe (u_bkts u') i x =
          if decide ((i, x) = (5, 42))
          then Some (mkRequest lp sp 42 5000 (i64 (now - 5000)) false false)
          else probe (u_bkts samples.the_stat) i x.
Proof.
  apply (echo_completes_probe (HF := samples.fam) samples.client samples.start sample_sent "10.0.0.2"
    samples.outside samples.the_peer (initial_book samples.conf) samples.the_stat (IPAddr [10; 0; 0; 2] ""));
    [exact samples.the_client_ok|reflexivity|reflexivity|reflexivity|apply initial_book_ok|reflexivity
    |split; [discriminate|reflexivity]|reflexivity|reflexivity|reflexivity|vm_compute; reflexivity|reflexivity].
Defined.
