(* ===== verification/UdpServer.v ===== *)
(** * The UDP echo server ([sonar/server/server.go], [sonar6/server/server.go])

    Every port of the server range has a goroutine that reads datagrams,
    checks them, echoes them and records them in the [Stat] of the client; the
    map from client address to [Stat] is shared and grown under a lock. The two
    servers differ in the key a configured client address is stored under. *)

From S2P Require Import Prelude GoStd GoNet Ports Bucket Buckets UdpStat Salts SonarCodec World.
Local Open Scope Z_scope.

(** The fields of [config.Config] the server reads. *)
Record ServerConf := mkServerConf {
  sc_ServerAddr : string;
  sc_ClientAddrs : list string;
  sc_ClientPortRange : PortRange;
  sc_ServerPortRange : PortRange;
  sc_RateInSpan : Z;
  sc_Span : Z;
  sc_Delay : Z;
  sc_MsgLen : Z
}.

Definition set_server_MsgLen (n : Z) (c : ServerConf) : ServerConf :=
  mkServerConf (sc_ServerAddr c) (sc_ClientAddrs c) (sc_ClientPortRange c) (sc_ServerPortRange c)
    (sc_RateInSpan c) (sc_Span c) (sc_Delay c) n.

(** [Server]: what is fixed after [New]. *)
Record Server := mkServer {
  sv_conf : ServerConf;
  sv_localIP : IP;
  sv_salts : Salts
}.

(** What the goroutines share: the [stats] map and the store. *)
Record SState := mkSState {
  ss_stats : gmap string nat;
  ss_world : World
}.

(** How the two servers differ: [client_key] is the key of a configured client
    address, [need_localIP] whether [New] refuses an unparseable address. *)
Class ServerFamily := {
  client_key : string -> string;
  need_localIP : bool
}.

Definition sonar_server_family : ServerFamily :=
  {| client_key := fun addr => addr; need_localIP := false |}.

Definition sonar6_server_family : ServerFamily :=
  {| client_key := fun addr => IP_String (default [] (ParseIP addr)); need_localIP := true |}.

(** [stat.NewServerStat] for one client, registered with the processor. *)
Definition new_stat (conf : ServerConf) (clientIP : string) (w : World) : nat * World :=
  register (NewServerStat clientIP (sc_ServerAddr conf) (sc_ClientPortRange conf)
              (sc_ServerPortRange conf) (sc_RateInSpan conf) (sc_Span conf) (sc_Delay conf) true) w.

(** [getOrCreateStat], first critical section (read lock). *)
Definition read_stat (clientIP : string) (s : SState) : option nat := ss_stats s !! clientIP.

(** [getOrCreateStat], second critical section (write lock): look again, then
    create. *)
Definition create_stat (conf : ServerConf) (clientIP : string) (s : SState) : nat * SState :=
  match ss_stats s !! clientIP with
  | Some l => (l, s)
  | None =>
      let '(l, w) := new_stat conf clientIP (ss_world s) in
      (l, mkSState (<[clientIP := l]> (ss_stats s)) w)
  end.

(** [getOrCreateStat] run without interference. *)
Definition getOrCreateStat (conf : ServerConf) (clientIP : string) (s : SState) : nat * SState :=
  match read_stat clientIP s with
  | Some l => (l, s)
  | None => create_stat conf clientIP s
  end.

(** The loop of [New] over the configured clients. *)
Fixpoint prepare_clients `{ServerFamily} (conf : ServerConf) (addrs : list string) (s : SState) : SState :=
  match addrs with
  | [] => s
  | addr :: addrs =>
      let '(l, w) := new_stat conf addr (ss_world s) in
      prepare_clients conf addrs (mkSState (<[client_key addr := l]> (ss_stats s)) w)
  end.

(** [New]: [None] is a panic, [Some (None, _)] the [nil] sonar6 returns for a
    bad server address. *)
Definition New `{ServerFamily} (conf : ServerConf) (w : World) : option (option Server * SState) :=
  let conf := if sc_MsgLen conf <? Z.of_nat MsgHeaderLen
              then set_server_MsgLen (Z.of_nat MsgHeaderLen) conf else conf in
  if need_localIP && bool_decide (ParseIP (sc_ServerAddr conf) = None)
  then Some (None, mkSState ∅ w)
  else
    salts ← NewSalts (sc_MsgLen conf - Z.of_nat MsgHeaderLen);
    Some (Some (mkServer conf (default [] (ParseIP (sc_ServerAddr conf))) salts),
          prepare_clients conf (sc_ClientAddrs conf) (mkSState ∅ w)).

(** The ports [Run] starts a goroutine for. *)
Definition Run_ports (conf : ServerConf) : list Z :=
  map (fun i => Min (sc_ServerPortRange conf) + Z.of_nat i)
    (seq 0 (Z.to_nat (Max (sc_ServerPortRange conf) - Min (sc_ServerPortRange conf) + 1))).

(** The loop over the padding: the indices that differ; indexing past the salt
    panics. *)
Fixpoint mismatches (i : nat) (data salt : bytes) : option (list nat) :=
  match data, salt with
  | [], _ => Some []
  | v :: data, x :: salt => l ← mismatches (S i) data salt; Some (if v =? x then l else i :: l)
  | _ :: _, [] => None
  end.

(** The datagram check of [readPackets]: whether a bit flip is flagged. *)
Definition check_bitflip (s : Server) (sq : Z) (data : bytes) : option bool :=
  if Z.of_nat (length data) =? sc_MsgLen (sv_conf s) then
    let salt := Salts.Get (sv_salts s) sq in
    if negb (bytes_equal salt (drop MsgHeaderLen data))
    then _ ← mismatches MsgHeaderLen (drop MsgHeaderLen data) salt; Some true
    else Some false
  else Some false.

(** One round of the loop of [readPackets] on [port] for the datagram [data]
    from [remote]: the new state and what is written back, to whom. *)
Definition readPacket (s : Server) (port now : Z) (remote : IP * Z) (data : bytes) (st : SState) :
    option (SState * list ((IP * Z) * bytes)) :=
  if (length data <? MsgHeaderLen)%nat || negb (IsValid data) then Some (st, [])
  else
    let h := Decode data in
    hasBitflip ← check_bitflip s (h_seq h) data;
    let '(l, st) := getOrCreateStat (sv_conf s) (IP_String remote.1) st in
    w ← call l (udpStat.Put (u16 remote.2) (u16 port) (h_seq h) (h_ts h)) (ss_world st);
    w ← call l (udpStat.ReceivedAndFix (h_seq h) (h_ts h) (i64 (now - h_ts h)) (h_lastSentCount h)
                  (h_lastStartSrcPort h) (h_lastStartDstPort h) hasBitflip) w;
    Some (mkSState (ss_stats st) w, [(remote, data)]).

(** ** Invariant *)

(** Every entry of [stats] is an allocated, well-formed [Stat] over the
    configured span, and no two clients share one. *)
Record server_ok (conf : ServerConf) (s : SState) : Prop := {
  sok_world : world_ok (ss_world s);
  sok_stats : map_Forall (fun _ l => exists u, w_stats (ss_world s) !! l = Some u /\
                            u_span u = sc_Span conf) (ss_stats s);
  sok_inj : forall k k' l, ss_stats s !! k = Some l -> ss_stats s !! k' = Some l -> k = k'
}.

Lemma new_stat_ok conf a k s :
  0 < sc_Span conf -> server_ok conf s ->
  let '(l, w) := new_stat conf a (ss_world s) in
  server_ok conf (mkSState (<[k := l]> (ss_stats s)) w).
Proof.
  intros Hs [H1 H2 H3]. unfold new_stat.
  set (u := NewServerStat _ _ _ _ _ _ _ _).
  destruct (register_ok u (ss_world s)) as (Hw & Hl & Hold); [by auto with nettools|done|].
  destruct (register u (ss_world s)) as [l w] eqn:E. cbn [fst snd] in *.
  assert (l = w_next (ss_world s)) as -> by (by injection E as <- _).
  assert (Hlt : forall k' l', ss_stats s !! k' = Some l' -> (l' < w_next (ss_world s))%nat).
  { intros k' l' Hk'. destruct (H2 k' l' Hk') as (u' & Hu' & _).
    apply (wok_dom _ H1). by eexists. }
  split; cbn; [done| |].
  - intros k' l' [[-> <-]|[Hne Hk']]%lookup_insert_Some; [by exists u|].
    destruct (H2 k' l' Hk') as (u' & Hu' & Hsp). exists u'. split; [|done].
    rewrite Hold; [done|by eapply Hlt].
  - intros k1 k2 l' [[-> <-]|[Hn1 Hk1]]%lookup_insert_Some [[-> E2]|[Hn2 Hk2]]%lookup_insert_Some;
      try done; [apply Hlt in Hk2; lia|subst; apply Hlt in Hk1; lia|by eapply H3].
Qed.

Lemma create_stat_ok conf k s :
  0 < sc_Span conf -> server_ok conf s ->
  let '(l, s') := create_stat conf k s in
  server_ok conf s' /\ ss_stats s' !! k = Some l /\
  (forall k', k' <> k -> ss_stats s' !! k' = ss_stats s !! k') /\
  (is_Some (ss_stats s !! k) -> s' = s).
Proof.
  intros Hs Hok. unfold create_stat. destruct (ss_stats s !! k) as [l|] eqn:E; [done|].
  pose proof (new_stat_ok conf k k s Hs Hok) as Hn.
  destruct (new_stat conf k (ss_world s)) as [l w]. split_and!; cbn.
  - done.
  - apply lookup_insert_eq.
  - intros k' Hk. by rewrite lookup_insert_ne.
  - by intros [? ?].
Qed.

Lemma getOrCreateStat_create conf k s : getOrCreateStat conf k s = create_stat conf k s.
Proof. unfold getOrCreateStat, read_stat, create_stat. by destruct (ss_stats s !! k). Qed.

Lemma prepare_clients_ok `{ServerFamily} conf addrs s :
  0 < sc_Span conf -> server_ok conf s -> server_ok conf (prepare_clients conf addrs s).
Proof.
  intros Hs. revert s. induction addrs as [|a addrs IH]; intros s Hok; [done|].
  cbn [prepare_clients]. pose proof (new_stat_ok conf a (client_key a) s Hs Hok) as Hn.
  destruct (new_stat conf a (ss_world s)) as [l w]. by apply IH.
Qed.

Lemma server_ok_empty conf w : world_ok w -> server_ok conf (mkSState ∅ w).
Proof. intros Hw. split; cbn; [done|apply map_Forall_empty|intros ? ? ? Hk; by rewrite lookup_empty in Hk]. Qed.

(** Replacing a [Stat] by a well-formed one over the same span. *)
Lemma server_ok_update conf s l u u' :
  server_ok conf s -> w_stats (ss_world s) !! l = Some u -> udpStat_ok u' -> u_span u' = u_span u ->
  server_ok conf (mkSState (ss_stats s)
    (mkWorld (<[l := u']> (w_stats (ss_world s))) (w_next (ss_world s)) (w_proc (ss_world s)))).
Proof.
  intros [H1 H2 H3] Hl Hu Hsp. split; cbn; [|intros k l' Hk|done].
  - apply update_ok; [done|by eexists|done].
  - destruct (H2 k l' Hk) as (u0 & Hu0 & Hs0). destruct (decide (l = l')) as [->|Hne].
    + exists u'. rewrite lookup_insert_eq. split; [done|congruence].
    + exists u0. by rewrite lookup_insert_ne.
Qed.

(** What is left of the invariant when timestamps are arbitrary: every entry of
    [stats] is an allocated [Stat] whose collection has the configured span,
    and no two clients share one. *)
Record server_wf (conf : ServerConf) (s : SState) : Prop := {
  swf_old : forall k l, ss_stats s !! k = Some l -> (l < w_next (ss_world s))%nat;
  swf_stats : map_Forall (fun _ l => exists u, w_stats (ss_world s) !! l = Some u /\
                            bs_span (u_bkts u) = sc_Span conf) (ss_stats s);
  swf_inj : forall k k' l, ss_stats s !! k = Some l -> ss_stats s !! k' = Some l -> k = k'
}.

Lemma server_ok_wf conf s : server_ok conf s -> server_wf conf s.
Proof.
  intros [H1 H2 H3]. split; [| |done]; intros k l Hk; destruct (H2 k l Hk) as (u & Hu & Hsp).
  - apply (wok_dom _ H1). by eexists.
  - exists u. split; [done|]. by rewrite <- (uok_span _ (wok_stats _ H1 _ _ Hu)).
Qed.

Lemma create_stat_wf conf k s :
  server_wf conf s ->
  let '(l, s') := create_stat conf k s in
  server_wf conf s' /\ ss_stats s' !! k = Some l /\
  (forall k', k' <> k -> ss_stats s' !! k' = ss_stats s !! k').
Proof.
  intros [H1 H2 H3]. unfold create_stat. destruct (ss_stats s !! k) as [l|] eqn:E; [done|].
  unfold new_stat, register. cbn. split_and!; [|apply lookup_insert_eq|intros k' Hk; by rewrite lookup_insert_ne].
  split; cbn.
  - intros k' l' [[-> <-]|[_ Hk]]%lookup_insert_Some; [lia|]. apply H1 in Hk. lia.
  - intros k' l' [[-> <-]|[_ Hk]]%lookup_insert_Some; [eexists; split; [apply lookup_insert_eq|done]|].
    apply H1 in Hk as Hlt. rewrite lookup_insert_ne by lia. by apply (H2 k').
  - intros k1 k2 l' [[-> <-]|[_ Hk1]]%lookup_insert_Some [[-> E2]|[_ Hk2]]%lookup_insert_Some;
      try done; [apply H1 in Hk2; lia|subst; apply H1 in Hk1; lia|by eapply H3].
Qed.

(** Creating touches no allocated [Stat]. *)
Lemma create_stat_store conf k s :
  (ss_stats s !! k = None /\
   forall l, (l < w_next (ss_world s))%nat ->
     w_stats (ss_world (create_stat conf k s).2) !! l = w_stats (ss_world s) !! l) \/
  ((create_stat conf k s).2 = s /\ is_Some (ss_stats s !! k)).
Proof.
  unfold create_stat. destruct (ss_stats s !! k) as [l|]; [by right|left].
  cbn. split; [done|]. intros l Hl. by rewrite lookup_insert_ne by lia.
Qed.

Lemma server_wf_update conf s l u u' :
  server_wf conf s -> w_stats (ss_world s) !! l = Some u -> bs_span (u_bkts u') = bs_span (u_bkts u) ->
  server_wf conf (mkSState (ss_stats s)
    (mkWorld (<[l := u']> (w_stats (ss_world s))) (w_next (ss_world s)) (w_proc (ss_world s)))).
Proof.
  intros [H1 H2 H3] Hl Hsp. split; cbn; [done|intros k l' Hk|done].
  destruct (H2 k l' Hk) as (u0 & Hu0 & Hs0). destruct (decide (l = l')) as [->|Hne].
  - exists u'. rewrite lookup_insert_eq. split; [done|congruence].
  - exists u0. by rewrite lookup_insert_ne.
Qed.

(** ** One datagram *)

(** The record of an echoed probe. *)
Definition echoed (cp sp sq t rt : Z) (bf : bool) (r : request) : Prop :=
  r_clientPort r = cp /\ r_serverPort r = sp /\ r_ts r = t /\ r_rtt r = rt /\ r_hasBitflip r = bf.

(** [Put] followed by [ReceivedAndFix] on the same probe, for any timestamp:
    only the invariant of the [Stat] needs one from the clock. *)
Lemma put_then_fix u cp sp sq t rt cnt lsp ldp bf i :
  go_div t (bs_span (u_bkts u)) = Some i ->
  exists u1 u2,
    udpStat.Put cp sp sq t u = Some u1 /\
    udpStat.ReceivedAndFix sq t rt cnt lsp ldp bf u1 = Some u2 /\
    u_span u2 = u_span u /\ bs_span (u_bkts u2) = bs_span (u_bkts u) /\
    (udpStat_ok u -> ts_ok t -> udpStat_ok u2) /\
    (exists r, probe (u_bkts u2) i sq = Some r /\ echoed cp sp sq t rt bf r) /\
    forall j x, (j, x) <> (i, sq) -> probe (u_bkts u2) j x = probe (u_bkts u) j x.
Proof.
  intros Hi. destruct (put_any cp sp sq t (u_bkts u) i Hi) as (bs1 & E1 & S1 & P1).
  destruct (receivedAndFix_any sq t rt cnt lsp ldp bf bs1 i) as (bs2 & E2 & S2 & P2); [by rewrite S1|].
  exists (set_bkts bs1 u), (set_bkts bs2 (set_bkts bs1 u)).
  unfold udpStat.Put, udpStat.ReceivedAndFix. rewrite E1. cbn [mbind option_bind u_bkts set_bkts].
  rewrite E2. split_and!; [done|done|done|cbn; congruence| | |].
  - intros Hu Ht. destruct (op_step (Buckets.Put cp sp sq t) u Hu Ht) as (bs1' & E1' & Hu1 & _).
    assert (bs1' = bs1) as -> by (cbn [exec] in E1'; congruence).
    destruct (op_step (Buckets.ReceivedAndFix sq t rt cnt lsp ldp bf) (set_bkts bs1 u) Hu1 Ht)
      as (bs2' & E2' & Hu2 & _).
    by assert (bs2' = bs2) as -> by (cbn [exec u_bkts set_bkts] in E2'; congruence).
  - cbn [u_bkts set_bkts]. rewrite P2, P1, !decide_True by done. eexists. split; [done|].
    destruct (probe (u_bkts u) i sq) as [r|]; cbn; repeat split.
  - intros j x Hne. cbn [u_bkts set_bkts]. rewrite P2, decide_False by congruence.
    rewrite P1. by rewrite decide_False by congruence.
Qed.

Lemma server_mismatches_total i data salt : length salt = length data -> is_Some (mismatches i data salt).
Proof.
  revert i salt. induction data as [|v data IH]; intros i [|x salt] Hl; [by eexists|done|done|].
  cbn [length mismatches] in *. destruct (IH (S i) salt) as [l ->]; [lia|]. by eexists.
Qed.

(** The server's salts fit its message length. *)
Definition salts_ok (s : Server) : Prop :=
  Z.of_nat MsgHeaderLen <= sc_MsgLen (sv_conf s) /\
  NewSalts (sc_MsgLen (sv_conf s) - Z.of_nat MsgHeaderLen) = Some (sv_salts s).

(** A full-length probe whose padding is not its salt. *)
Definition corrupted (s : Server) (data : bytes) : Prop :=
  Z.of_nat (length data) = sc_MsgLen (sv_conf s) /\
  drop MsgHeaderLen data <> Salts.Get (sv_salts s) (h_seq (Decode data)).

Lemma check_bitflip_spec s data :
  salts_ok s ->
  exists bf, check_bitflip s (h_seq (Decode data)) data = Some bf /\ (bf = true <-> corrupted s data).
Proof.
  intros [Hm Hs]. unfold check_bitflip, corrupted. set (salt := Salts.Get _ _).
  destruct (Z.eqb_spec (Z.of_nat (length data)) (sc_MsgLen (sv_conf s))) as [Hl|Hl].
  2: { exists false. split; [done|]. split; [done|tauto]. }
  unfold bytes_equal. case_bool_decide as Heq; cbn [negb].
  { exists false. split; [done|]. split; [done|]. intros [_ Hne]. by rewrite Heq in Hne. }
  destruct (server_mismatches_total MsgHeaderLen (drop MsgHeaderLen data) salt) as [l ->].
  { unfold salt. rewrite (NewSalts_length _ _ _ Hs), length_drop. lia. }
  exists true. split; [done|]. split; [|done]. intros _. split; [done|congruence].
Qed.

(** The span of a send time taken from a datagram, when it is one of a clock. *)
Lemma span_of_ts t span i : 0 < span -> ts_ok t -> go_div t span = Some i -> i = t / span.
Proof.
  intros Hs [Ht Ht'] Hi. rewrite go_div_pos in Hi by (unfold in_i64; lia). by injection Hi.
Qed.

(** C11: one datagram at a server with a positive span and salts that fit its
    message length, whatever bytes it holds: nothing panics, and the map of
    clients stays well formed (a distinct, allocated [Stat] of the configured
    span per client). A datagram that is not a probe changes nothing and gets
    no answer; a probe is echoed unmodified to its sender, and recorded as
    received in the [Stat] of the sender's address under its sequence number
    and send time, between the ports it travelled, with the bit-flip flag
    telling exactly whether its padding was corrupted; the other records of
    that [Stat] and the other clients keep what they have. The send time is
    taken from the datagram: if it is not negative, the record is in the span
    of that time and the full invariant of the statistics is kept; a negative
    one, which [IsValid] lets pass, is recorded too but may break the order of
    the buckets ([negative_timestamp_hides_span]). *)
Theorem readPacket_echoes_and_records :
  forall s port now remote data st,
    salts_ok s -> 0 < sc_Span (sv_conf s) -> server_wf (sv_conf s) st ->
    exists st' out,
      readPacket s port now remote data st = Some (st', out) /\ server_wf (sv_conf s) st' /\
      (server_ok (sv_conf s) st -> (IsValid data = true -> ts_ok (h_ts (Decode data))) ->
       server_ok (sv_conf s) st') /\
      if IsValid data then
        out = [(remote, data)] /\
        exists l u i r,
          ss_stats st' !! IP_String remote.1 = Some l /\ w_stats (ss_world st') !! l = Some u /\
          go_div (h_ts (Decode data)) (sc_Span (sv_conf s)) = Some i /\
          (ts_ok (h_ts (Decode data)) -> i = h_ts (Decode data) / sc_Span (sv_conf s)) /\
          probe (u_bkts u) i (h_seq (Decode data)) = Some r /\
          (exists bf, echoed (u16 remote.2) (u16 port) (h_seq (Decode data)) (h_ts (Decode data))
                        (i64 (now - h_ts (Decode data))) bf r /\ (bf = true <-> corrupted s data)) /\
          (forall u0 j x, ss_stats st !! IP_String remote.1 = Some l -> w_stats (ss_world st) !! l = Some u0 ->
             (j, x) <> (i, h_seq (Decode data)) -> probe (u_bkts u) j x = probe (u_bkts u0) j x) /\
          (forall k, k <> IP_String remote.1 -> ss_stats st' !! k = ss_stats st !! k) /\
          (forall l', l' <> l -> (l' < w_next (ss_world st))%nat ->
             w_stats (ss_world st') !! l' = w_stats (ss_world st) !! l')
      else out = [] /\ st' = st.
Proof.
  intros s port now remote data st Hsalts Hspan Hwf. unfold readPacket.
  destruct (IsValid data) eqn:Hv.
  2: { rewrite orb_true_r. exists st, []. done. }
  apply sonar_IsValid_spec in Hv as Hlen. destruct Hlen as [Hlen _].
  rewrite (proj2 (Nat.ltb_ge _ _)) by done. cbn [orb negb].
  destruct (check_bitflip_spec s data Hsalts) as (bf & -> & Hbf). cbn [mbind option_bind].
  set (h := Decode data) in *. rewrite getOrCreateStat_create.
  pose proof (create_stat_wf (sv_conf s) (IP_String remote.1) st Hwf) as Hc.
  pose proof (create_stat_ok (sv_conf s) (IP_String remote.1) st Hspan) as Hok.
  pose proof (create_stat_store (sv_conf s) (IP_String remote.1) st) as Hst.
  destruct (create_stat _ _ _) as [l st1]. cbn [snd] in Hst. destruct Hc as (Hwf1 & Hl & Hother).
  destruct (swf_stats _ _ Hwf1 _ _ Hl) as (u & Hu & Hsp).
  pose proof (go_div_total (h_ts h) _ Hspan) as Hi. set (i := i64 _) in Hi.
  destruct (put_then_fix u (u16 remote.2) (u16 port) (h_seq h) (h_ts h) (i64 (now - h_ts h))
              (h_lastSentCount h) (h_lastStartSrcPort h) (h_lastStartDstPort h) bf i)
    as (u1 & u2 & E1 & E2 & Hcf & Hsp2 & Hu2 & (r & Hr & Hech) & Hrest); [by rewrite Hsp|].
  rewrite (call_spec _ _ _ u u1) by done. cbn [mbind option_bind].
  rewrite (call_spec _ _ _ u1 u2); [|cbn; apply lookup_insert_eq|done]. cbn [mbind option_bind].
  cbn [w_stats w_next w_proc]. rewrite insert_insert_eq. eexists _, _.
  split; [done|]. split; [by eapply server_wf_update|]. split.
  { intros Hs Hts. destruct (Hok Hs) as (Hok1 & _). eapply server_ok_update; [done|done| |done].
    apply Hu2; [|by apply Hts]. apply (wok_stats _ (sok_world _ _ Hok1) _ _ Hu). }
  split; [done|]. exists l, u2, i, r. cbn [ss_stats ss_world w_stats].
  split_and!; [done|apply lookup_insert_eq|done|intros Ht; by apply span_of_ts|done|by exists bf| |done|].
  - intros u0 j x Hl0 Hu0 Hne. rewrite Hrest by done. destruct Hst as [[Hn _]|[-> _]]; congruence.
  - intros l' Hne Hlt. rewrite lookup_insert_ne by done. destruct Hst as [[_ Hst]|[-> _]]; [by apply Hst|done].
Qed.

(** ** Concurrent lookups *)

(** A goroutine inside [getOrCreateStat]: before the read lock, after a miss,
    returned. *)
Inductive thread :=
| Enter (k : string)
| Missed (k : string)
| Returned (k : string) (l : nat).

(** One critical section of one goroutine, or a step of the rest of the program
    that leaves the map alone. *)
Inductive get_step (conf : ServerConf) : SState * list thread -> SState * list thread -> Prop :=
| step_hit st ts i k l :
    ts !! i = Some (Enter k) -> read_stat k st = Some l ->
    get_step conf (st, ts) (st, <[i := Returned k l]> ts)
| step_miss st ts i k :
    ts !! i = Some (Enter k) -> read_stat k st = None ->
    get_step conf (st, ts) (st, <[i := Missed k]> ts)
| step_create st ts i k l st' :
    ts !! i = Some (Missed k) -> create_stat conf k st = (l, st') ->
    get_step conf (st, ts) (st', <[i := Returned k l]> ts)
| step_other st ts w :
    server_ok conf (mkSState (ss_stats st) w) -> w_next w = w_next (ss_world st) ->
    get_step conf (st, ts) (mkSState (ss_stats st) w, ts).

(** What every interleaving keeps, relative to the initial state [st0]. *)
Record get_inv (conf : ServerConf) (st0 st : SState) (ts : list thread) : Prop := {
  gi_ok : server_ok conf st;
  gi_old : ss_stats st0 ⊆ ss_stats st;
  gi_returned : forall i k l, ts !! i = Some (Returned k l) -> ss_stats st !! k = Some l;
  gi_count : (w_next (ss_world st) + size (ss_stats st0) =
              w_next (ss_world st0) + size (ss_stats st))%nat
}.

Lemma create_stat_grows conf k st l st' :
  create_stat conf k st = (l, st') ->
  ss_stats st ⊆ ss_stats st' /\ ss_stats st' !! k = Some l /\
  (w_next (ss_world st') + size (ss_stats st) = w_next (ss_world st) + size (ss_stats st'))%nat.
Proof.
  unfold create_stat. destruct (ss_stats st !! k) as [l0|] eqn:E.
  - intros [= -> ->]. split_and!; done.
  - unfold new_stat. cbn. intros [= <- <-]. cbn. split_and!.
    + by apply insert_subseteq.
    + apply lookup_insert_eq.
    + rewrite map_size_insert_None by done. lia.
Qed.

Lemma get_step_inv conf st0 st ts st' ts' :
  0 < sc_Span conf -> get_inv conf st0 st ts -> get_step conf (st, ts) (st', ts') ->
  get_inv conf st0 st' ts'.
Proof.
  intros Hs [H1 H2 H3 H4] Hstep.
  inversion Hstep as [? ? i k l Hi Hr|? ? i k Hi Hr|? ? i k l ? Hi Hc|? ? w Hw Hn]; subst.
  - split; [done|done| |done]. intros j k' l' Hj.
    apply list_lookup_insert_Some in Hj as [(-> & [= -> ->] & _)|[_ Hj]]; [done|by eapply H3].
  - split; [done|done| |done]. intros j k' l' Hj.
    apply list_lookup_insert_Some in Hj as [(_ & ? & _)|[_ Hj]]; [done|by eapply H3].
  - pose proof (create_stat_ok conf k st Hs H1) as Hok. rewrite Hc in Hok.
    destruct Hok as (Hok & _). destruct (create_stat_grows _ _ _ _ _ Hc) as (G1 & G2 & G3).
    split; [done|by etrans| |lia]. intros j k' l' Hj.
    apply list_lookup_insert_Some in Hj as [(-> & [= -> ->] & _)|[_ Hj]]; [done|].
    eapply lookup_weaken; [by eapply H3|done].
  - split; cbn; [done|done|done|lia].
Qed.

(** C12: the double-checked lookup of [getOrCreateStat] is race-free: in every
    interleaving of the critical sections of any number of goroutines, two
    goroutines asking for the same client get the same [Stat] and for
    different clients different ones, a client registered before keeps its
    [Stat], and exactly one [Stat] is created per new entry of the map, so the
    processor never reports a client twice. *)
Theorem getOrCreateStat_race_free :
  forall conf st ts st' ts',
    0 < sc_Span conf -> server_ok conf st ->
    Forall (fun t => exists k, t = Enter k) ts ->
    rtc (get_step conf) (st, ts) (st', ts') ->
    server_ok conf st' /\ ss_stats st ⊆ ss_stats st' /\
    (forall i j k k' l l',
       ts' !! i = Some (Returned k l) -> ts' !! j = Some (Returned k' l') -> (k = k' <-> l = l')) /\
    (w_next (ss_world st') + size (ss_stats st) = w_next (ss_world st) + size (ss_stats st'))%nat.
Proof.
  intros conf st ts st' ts' Hs Hok Hts Hrtc.
  assert (H0 : get_inv conf st st ts).
  { split; [done|done| |done]. intros i k l Hi. rewrite Forall_forall in Hts.
    apply list_elem_of_lookup_2, Hts in Hi as [? ?]. done. }
  assert (Hinv : get_inv conf st st' ts').
  { clear Hok Hts. remember (st, ts) as a eqn:Ea. remember (st', ts') as b eqn:Eb.
    revert H0. generalize st at 1 3. intros st0. revert st ts Ea.
    induction Hrtc as [a|a [stm tsm] b Hstep Hrtc IH]; intros st ts -> H0; [by simplify_eq|].
    eapply IH; [done|done|]. by eapply get_step_inv. }
  destruct Hinv as [I1 I2 I3 I4]. split_and!; [done|done| |done].
  intros i j k k' l l' Hi Hj. apply I3 in Hi, Hj. split; [intros ->; congruence|].
  intros ->. by eapply (sok_inj _ _ I1).
Qed.

(** ** Witnesses *)

Module samples.

Definition conf : ServerConf :=
  mkServerConf "10.0.0.2" ["10.0.0.1"] (mkPortRange 43500 43502) (mkPortRange 43500 43501) 5 1000 3000 36.
Definition setup : option Server * SState :=
  default (None, mkSState ∅ (mkWorld ∅ 0 (NewProcessor 1000 3000)))
    (New (H := sonar_server_family) conf (mkWorld ∅ 0 (NewProcessor 1000 3000))).
Definition server : Server := default (mkServer conf [] (mkSalts [] [] [] [] 0)) setup.1.
Definition state : SState := setup.2.
Definition data : bytes := encode_header (mkHeader 8 5000 5 43500 43500) [255; 255; 255; 254] 36.

Lemma state_ok : server_ok conf state.
Proof.
  unfold state, setup. change (server_ok conf (prepare_clients (H := sonar_server_family) conf
    ["10.0.0.1"] (mkSState ∅ (mkWorld ∅ 0 (NewProcessor 1000 3000))))).
  apply prepare_clients_ok; [done|]. apply server_ok_empty, world_ok_empty.
Qed.

End samples.

Lemma readPacket_echoes_and_records_witness :
  exists st' out,
    readPacket samples.server 43501 5600 ([10; 0; 0; 9], 43502) samples.data samples.state =
      Some (st', out) /\
    server_wf samples.conf st' /\
    (server_ok samples.conf samples.state -> (true = true -> ts_ok 5000) -> server_ok samples.conf st') /\
    out = [(([10; 0; 0; 9], 43502), samples.data)] /\
    exists l u i r,
      ss_stats st' !! "10.0.0.9" = Some l /\ w_stats (ss_world st') !! l = Some u /\
      go_div 5000 1000 = Some i /\ (ts_ok 5000 -> i = 5000 / 1000) /\
      probe (u_bkts u) i 8 = Some r /\
      (exists bf, echoed 43502 43501 8 5000 600 bf r /\ (bf = true <-> corrupted samples.server samples.data)) /\
      (forall u0 j x, ss_stats samples.state !! "10.0.0.9" = Some l ->
         w_stats (ss_world samples.state) !! l = Some u0 ->
         (j, x) <> (i, 8) -> probe (u_bkts u) j x = probe (u_bkts u0) j x) /\
      (forall k, k <> "10.0.0.9" -> ss_stats st' !! k = ss_stats samples.state !! k) /\
      (forall l', l' <> l -> (l' < w_next (ss_world samples.state))%nat ->
         w_stats (ss_world st') !! l' = w_stats (ss_world samples.state) !! l').
Proof.
  apply (readPacket_echoes_and_records samples.server 43501 5600 ([10; 0; 0; 9], 43502) samples.data
           samples.state).
  - split; [vm_compute; discriminate|reflexivity].
  - reflexivity.
  - exact (server_ok_wf _ _ samples.state_ok).
Defined.

(** Two goroutines miss the same new client before either creates it. *)
Definition raced : SState := (create_stat samples.conf "10.0.0.9" samples.state).2.

Lemma getOrCreateStat_race_free_witness :
  server_ok samples.conf raced /\ ss_stats samples.state ⊆ ss_stats raced /\
  (forall i j k k' l l',
     [Returned "10.0.0.9" 1; Returned "10.0.0.9" 1] !! i = Some (Returned k l) ->
     [Returned "10.0.0.9" 1; Returned "10.0.0.9" 1] !! j = Some (Returned k' l') -> (k = k' <-> l = l')) /\
  (w_next (ss_world raced) + size (ss_stats samples.state) =
   w_next (ss_world samples.state) + size (ss_stats raced))%nat.
Proof.
  apply (getOrCreateStat_race_free samples.conf samples.state [Enter "10.0.0.9"; Enter "10.0.0.9"] raced
           [Returned "10.0.0.9" 1; Returned "10.0.0.9" 1]); [reflexivity|exact samples.state_ok| |].
  - repeat constructor; by eexists.
  - eapply rtc_l; [apply (step_miss _ _ _ 0 "10.0.0.9"); reflexivity|].
    eapply rtc_l; [apply (step_miss _ _ _ 1 "10.0.0.9"); reflexivity|].
    eapply rtc_l; [apply (step_create _ _ _ 1 "10.0.0.9" 1 raced); reflexivity|].
    eapply rtc_l; [apply (step_create _ _ _ 0 "10.0.0.9" 1 raced); vm_compute; reflexivity|].
    apply rtc_refl.
Defined.
