(* ===== verification/Sonar.v ===== *)
(** * The sonar and sonar6 tools

    The client and the server of [UdpClient] and [UdpServer], instantiated for
    the IPv4 tool ([sonar]) and the IPv6 tool ([sonar6]). *)

From S2P Require Import Prelude GoStd GoNet GoDuration Ports UdpStat Salts SonarCodec Goscapy World SonarConfig Sonar6Config UdpClient UdpServer.
Local Open Scope Z_scope.

Section tools.
Context `{Goscapy}.

Definition sonar_client_conf (c : sonar_config.Config) : UdpConf :=
  mkUdpConf (sonar_config.ClientAddr c) (sonar_config.ServerAddrs c) "" (sonar_config.TOS c)
    (sonar_config.ClientPortRange c) (sonar_config.ServerPortRange c) (sonar_config.RateInSpan c)
    (sonar_config.Span c) (sonar_config.Delay c) (sonar_config.MsgLen c) (sonar_config.Count c)
    (sonar_config.SendDuration c).

Definition sonar6_client_conf (c : sonar6_config.Config) : UdpConf :=
  mkUdpConf (sonar6_config.ClientAddr c) (sonar6_config.ServerAddrs c) (sonar6_config.ServerZone c)
    (sonar6_config.TOS c) (sonar6_config.ClientPortRange c) (sonar6_config.ServerPortRange c)
    (sonar6_config.RateInSpan c) (sonar6_config.Span c) (sonar6_config.Delay c)
    (sonar6_config.MsgLen c) (sonar6_config.Count c) (sonar6_config.SendDuration c).

Definition sonar_server_conf (c : sonar_config.Config) : ServerConf :=
  mkServerConf (sonar_config.ServerAddr c) (sonar_config.ClientAddrs c) (sonar_config.ClientPortRange c)
    (sonar_config.ServerPortRange c) (sonar_config.RateInSpan c) (sonar_config.Span c)
    (sonar_config.Delay c) (sonar_config.MsgLen c).

Definition sonar6_server_conf (c : sonar6_config.Config) : ServerConf :=
  mkServerConf (sonar6_config.ServerAddr c) (sonar6_config.ClientAddrs c)
    (sonar6_config.ClientPortRange c) (sonar6_config.ServerPortRange c) (sonar6_config.RateInSpan c)
    (sonar6_config.Span c) (sonar6_config.Delay c) (sonar6_config.MsgLen c).

End tools.

Module sonar_client.
Section sonar_client.
Context `{Goscapy}.
Definition NewClient (c : sonar_config.Config) (seed : nat -> Z) (w : World) :=
  UdpClient.NewClient (HF := sonar_family) (sonar_client_conf c) seed w.
Definition serveWrite := UdpClient.serveWrite (HF := sonar_family).
Definition handlePacket := UdpClient.handlePacket (HF := sonar_family).
Definition detectBitflip := UdpClient.detectBitflip (HF := sonar_family).
Definition readLoop := UdpClient.readLoop (HF := sonar_family).
End sonar_client.
End sonar_client.

Module sonar6_client.
Section sonar6_client.
Context `{Goscapy}.
Definition initPeers := UdpClient.initPeers (HF := sonar6_family).
Definition NewClient (c : sonar6_config.Config) (seed : nat -> Z) (w : World) :=
  UdpClient.NewClient (HF := sonar6_family) (sonar6_client_conf c) seed w.
Definition serveWrite := UdpClient.serveWrite (HF := sonar6_family).
Definition handlePacket := UdpClient.handlePacket (HF := sonar6_family).
Definition detectBitflip := UdpClient.detectBitflip (HF := sonar6_family).
Definition readLoop := UdpClient.readLoop (HF := sonar6_family).
Definition peer := UdpClient.peer.
Definition Client := UdpClient.Client.

(** [localAddr]: the address the raw sockets are opened on. *)
Definition localAddr (c : sonar6_config.Config) : string :=
  if decide (sonar6_config.ClientZone c <> "")
  then sonar6_config.ClientAddr c +:+ "%" +:+ sonar6_config.ClientZone c
  else sonar6_config.ClientAddr c.
End sonar6_client.
End sonar6_client.

Module sonar_server.
Definition New (c : sonar_config.Config) (w : World) :=
  UdpServer.New (H := sonar_server_family) (sonar_server_conf c) w.
End sonar_server.

Module sonar6_server.
Definition New (c : sonar6_config.Config) (w : World) :=
  UdpServer.New (H := sonar6_server_family) (sonar6_server_conf c) w.
Definition Server := UdpServer.Server.
Definition Run (c : sonar6_config.Config) : list Z := UdpServer.Run_ports (sonar6_server_conf c).
Definition readPackets := UdpServer.readPacket.
Definition getOrCreateStat := UdpServer.getOrCreateStat.
End sonar6_server.

(** ** Properties of the instances *)

Section peers.
Context `{HG : Goscapy} `{HF : !Family}.

(** What [initPeers] has set up after some addresses, from an empty map. *)
Record peers_ok (conf : UdpConf) (ps : gmap string peer) (w : World) : Prop := {
  pok_world : world_ok w;
  pok_peers : map_Forall (fun key p =>
      pe_msgLen p = uc_MsgLen conf /\ key = peer_key (pe_serverAddr p) /\ in_u64 (pe_seq p) /\
      exists u, w_stats w !! pe_stat p = Some u /\ u_span u = uc_Span conf) ps
}.

Lemma initPeer_ok conf addr seed ps w :
  0 < uc_Span conf -> in_u64 seed -> peers_ok conf ps w ->
  let '(ps', w') := initPeer conf addr seed ps w in
  peers_ok conf ps' w' /\ is_Some (ps' !! peer_key addr) /\ (forall k, is_Some (ps !! k) -> is_Some (ps' !! k)).
Proof.
  intros Hs Hseed [H1 H2]. unfold initPeer. set (u := NewStat _ _ _ _ _ _ _ _).
  destruct (register_ok u w) as (Hw & Hl & Hold); [by auto with nettools|done|].
  destruct (register u w) as [l w'] eqn:E. cbn [fst snd] in *.
  assert (l = w_next w) as -> by (by injection E as <- _). split_and!.
  - split; [done|]. apply map_Forall_insert_2.
    + split_and!; [done|done|done|]. by exists u.
    + intros k p Hk. destruct (H2 k p Hk) as (A & B & C & u' & D & F).
      split_and!; [done|done|done|]. exists u'. split; [|done]. rewrite Hold; [done|].
      apply (wok_dom _ H1). by eexists.
  - rewrite lookup_insert_eq. by eexists.
  - intros k Hk. destruct (decide (peer_key addr = k)) as [->|]; [rewrite lookup_insert_eq; by eexists|].
    by rewrite lookup_insert_ne.
Qed.

Lemma initPeers_ok conf addrs seed ps w :
  0 < uc_Span conf -> (forall n, in_u64 (seed n)) -> peers_ok conf ps w ->
  let '(ps', w') := initPeers conf addrs seed ps w in
  peers_ok conf ps' w' /\ (forall a, a ∈ addrs -> is_Some (ps' !! peer_key a)) /\
  (forall k, is_Some (ps !! k) -> is_Some (ps' !! k)).
Proof.
  intros Hs Hseed. revert ps w. induction addrs as [|a addrs IH]; intros ps w Hok; cbn [initPeers].
  { split_and!; [done| |done]. set_solver. }
  pose proof (initPeer_ok conf a (seed (length addrs)) ps w Hs (Hseed _) Hok) as Hp.
  destruct (initPeer _ _ _ _ _) as [ps1 w1]. destruct Hp as (Hok1 & Ha & Hk).
  specialize (IH ps1 w1 Hok1). destruct (initPeers _ _ _ _ _) as [ps2 w2].
  destruct IH as (Hok2 & Has & Hk2). split_and!; [done| |eauto].
  intros b [->|Hb]%elem_of_cons; eauto.
Qed.

(** [NewClient] always succeeds for a positive span and establishes what
    the send and receive paths rely on: the message length is at least a
    header, the salts fill the rest of it, every configured server has a peer
    under its own key, and every peer holds a registered [Stat] of its own
    configuration, in a store the processor reports completely. *)
Theorem NewClient_ok :
  forall conf seed w,
    0 < uc_Span conf -> (forall n, in_u64 (seed n)) -> world_ok w ->
    exists c w', NewClient conf seed w = Some (c, w') /\ client_ok c w' /\ world_ok w' /\
      forall a, a ∈ uc_ServerAddrs conf ->
        exists p, cl_peers c !! peer_key a = Some p /\ peer_key (pe_serverAddr p) = peer_key a.
Proof.
  intros conf seed w Hs Hseed Hw. unfold NewClient.
  set (conf' := if uc_MsgLen conf <? Z.of_nat MsgHeaderLen
                then set_conf_MsgLen (Z.of_nat MsgHeaderLen) conf else conf).
  assert (Hc : uc_Span conf' = uc_Span conf /\ uc_ServerAddrs conf' = uc_ServerAddrs conf /\
               Z.of_nat MsgHeaderLen <= uc_MsgLen conf')
    by (unfold conf'; destruct (Z.ltb_spec (uc_MsgLen conf) (Z.of_nat MsgHeaderLen)); cbn; auto with lia).
  destruct Hc as (Hs' & Ha' & Hm').
  destruct (NewSalts_spec (uc_MsgLen conf' - Z.of_nat MsgHeaderLen)) as (salts & _ & E & _); [lia|].
  rewrite E. cbn [mbind option_bind].
  pose proof (initPeers_ok conf' (uc_ServerAddrs conf') seed ∅ w ltac:(lia) Hseed) as Hp.
  destruct (initPeers _ _ _ _ _) as [ps w']. destruct Hp as ([P1 P2] & Hall & _);
    [split; [done|apply map_Forall_empty]|].
  exists (mkClient conf' ps salts), w'. split_and!; [done| |done|].
  - split; cbn; [done|done|lia|]. intros k p Hk. destruct (P2 k p Hk) as (A & _ & C & u & D & F).
    split_and!; [done|done|]. exists u. split_and!; [done|by apply (wok_stats _ P1 _ _ D)|done].
  - rewrite <- Ha'. intros a Ha. destruct (Hall a Ha) as [p Hpa]. exists p. split; [done|].
    destruct (P2 _ _ Hpa) as (_ & -> & _). done.
Qed.

End peers.

Lemma NewClient_ok_witness :
  exists c w', NewClient (HF := UdpClient.samples.fam) UdpClient.samples.conf (fun _ => 41)
                 (mkWorld ∅ 0 (NewProcessor 1000 3000)) = Some (c, w') /\
    client_ok c w' /\ world_ok w' /\
    forall a, a ∈ ["10.0.0.2"] ->
      exists p, cl_peers c !! a = Some p /\ pe_serverAddr p = a.
Proof.
  apply (NewClient_ok (HF := UdpClient.samples.fam) UdpClient.samples.conf (fun _ => 41)
    (mkWorld ∅ 0 (NewProcessor 1000 3000))); [reflexivity| |apply world_ok_empty].
  intros _. split; [discriminate|reflexivity].
Defined.
