(* ===== verification/EvrAgent.v ===== *)
(** * The EVR probing agent ([evr/agent/agent.go])

    One process sends VXLAN probes to a list of EVR targets and receives the
    frames they reflect. A reply carries no trace of the target in its headers:
    the agent finds the peer by the source address embedded in the payload. *)

From S2P Require Import Prelude GoStd GoNet Ports Bucket Buckets UdpStat Salts EvrCodec EvrConfig Goscapy World.
Import evr_config.
Local Open Scope Z_scope.

(** [conf.MsgLen = n]. *)
Definition set_conf_MsgLen (n : Z) (c : Config) : Config :=
  mkConfig (ID c) (ClientAddr c) (Targets c) (DstPort c) (InnerDstPort c) (SrcMAC c) (DstMAC c)
    (VNI c) (TOS c) (TTL c) (ClientPortRange c) (RateInSpan c) (Span c) (Delay c) n
    (PprofAddr c) (LogDir c) (LogMaxAgeDays c) (Verbose c).

(** [peer]; [pe_stat] is the location of its [Stat], [pe_srcPort] the value of
    the atomic [uint32]. *)
Record peer := mkPeer {
  pe_target : Target;
  pe_mockSrcIP : IP;
  pe_srcIP : IP;
  pe_dstIP : IP;
  pe_srcPort : Z;
  pe_dstPort : Z;
  pe_innerSrcIP : IP;
  pe_innerDstIP : IP;
  pe_seq : Z;
  pe_msgLen : Z;
  pe_stat : nat
}.

Definition advance_peer (sq port : Z) (p : peer) : peer :=
  mkPeer (pe_target p) (pe_mockSrcIP p) (pe_srcIP p) (pe_dstIP p) port (pe_dstPort p)
    (pe_innerSrcIP p) (pe_innerDstIP p) sq (pe_msgLen p) (pe_stat p).

(** [Agent]: the peers in order, and the map by embedded address, whose values
    point into the list. *)
Record Agent := mkAgent {
  ag_conf : Config;
  ag_peers : list peer;
  ag_peerByEVRSrc : gmap string nat;
  ag_salts : Salts
}.

(** The peer [initPeers] builds for a target; [seed] is [rand.Int63()]. *)
Definition make_peer (conf : Config) (t : Target) (seed : Z) (l : nat) : peer :=
  let mockSrc := if decide (MockSrcAddr t = "") then ClientAddr conf else MockSrcAddr t in
  mkPeer t (To4_or_nil (ParseIP_or_nil mockSrc)) (To4_or_nil (ParseIP_or_nil (ClientAddr conf)))
    (To4_or_nil (ParseIP_or_nil (VTEPAddr t))) (u32 (Min (ClientPortRange conf))) (DstPort conf)
    (To4_or_nil (ParseIP_or_nil (EVRSrcAddr t))) (To4_or_nil (ParseIP_or_nil (ClientAddr conf)))
    seed (MsgLen conf) l.

(** [initPeers]; the seeds are drawn one per target. *)
Fixpoint initPeers (conf : Config) (targets : list Target) (seed : nat -> Z) (ps : list peer)
    (by_src : gmap string nat) (w : World) : list peer * gmap string nat * World :=
  match targets with
  | [] => (ps, by_src, w)
  | t :: targets =>
      let '(l, w) := register (NewStat (ClientAddr conf) (EVRSrcAddr t) (ClientPortRange conf)
                       (ClientPortRange conf) (RateInSpan conf) (Span conf) (Delay conf) true) w in
      let p := make_peer conf t (seed (length ps)) l in
      initPeers conf targets seed (ps ++ [p]) (<[EVRSrcAddr t := length ps]> by_src) w
  end.

(** [New]. *)
Definition New (conf : Config) (seed : nat -> Z) (w : World) : option (Agent * World) :=
  let conf := if MsgLen conf <? Z.of_nat MsgHeaderLen
              then set_conf_MsgLen (Z.of_nat MsgHeaderLen) conf else conf in
  salts ← NewSalts (MsgLen conf - Z.of_nat MsgHeaderLen);
  let '(ps, by_src, w) := initPeers conf (Targets conf) seed [] ∅ w in
  Some (mkAgent conf ps by_src salts, w).

(** [binary.BigEndian.Uint32]; it panics on fewer than 4 bytes. *)
Definition BigEndian_Uint32 (b : bytes) : option Z :=
  if (length b <? 4)%nat then None else Some (get_be (take 4 b)).

(** The clock and the two socket calls while one probe is sent. *)
Record Outside := mkOutside {
  o_ts : Z;
  o_deadline_ok : bool;
  o_write_ok : bool
}.

Section agent.
Context `{HG : Goscapy}.

(** The body of the loop over the peers of [serveWrite]: the peer afterwards,
    the world, and what was written, to whom; [None] is a panic. *)
Definition send_probe (conf : Config) (salts : Salts) (o : Outside) (p : peer) (w : World) :
    option (peer * World * list (IP * bytes)) :=
  let bizSeq := u64 (pe_seq p + 1) in
  let oldPort := u16 (pe_srcPort p) in
  let newPort := Ports.evr_config.GetNextPort oldPort (ClientPortRange conf) in
  let p := advance_peer bizSeq newPort p in
  innerSrcIPNum ← BigEndian_Uint32 (pe_innerSrcIP p);
  let payload := EncodeWithSrcIP bizSeq (Salts.Get salts bizSeq) (o_ts o) (pe_msgLen p) innerSrcIPNum in
  match EncodeVxlanInner (VNI conf) (SrcMAC conf) (DstMAC conf) (pe_innerDstIP p) (pe_innerDstIP p)
          newPort (InnerDstPort conf) (u8 (TOS conf)) (TTL conf) payload with
  | None => Some (p, w, [])
  | Some inner =>
      match EncodeOuterUDP (pe_mockSrcIP p) (pe_dstIP p) newPort (pe_dstPort p) (u8 (TOS conf))
              (TTL conf) inner with
      | None => Some (p, w, [])
      | Some data =>
          w ← call (pe_stat p) (udpStat.Put newPort (pe_dstPort p) bizSeq (o_ts o)) w;
          if negb (o_deadline_ok o) then
            w ← call (pe_stat p) (udpStat.Delete bizSeq (o_ts o)) w; Some (p, w, [])
          else if o_write_ok o then Some (p, w, [(pe_dstIP p, data)])
          else w ← call (pe_stat p) (udpStat.Delete bizSeq (o_ts o)) w; Some (p, w, [])
      end
  end.

(** The loop over the peers; [outs] holds the answers of the outside, one per
    peer. *)
Fixpoint send_round (conf : Config) (salts : Salts) (outs : list Outside) (ps : list peer) (w : World) :
    option (list peer * World * list (IP * bytes)) :=
  match ps, outs with
  | p :: ps, o :: outs =>
      '(p, w, out) ← send_probe conf salts o p w;
      '(ps, w, out') ← send_round conf salts outs ps w;
      Some (p :: ps, w, out ++ out')
  | ps, _ => Some (ps, w, [])
  end.

(** [serveWrite] once its sockets are open: one round per element of [rounds],
    until the context is cancelled. *)
Fixpoint serveWrite (a : Agent) (rounds : list (list Outside)) (w : World) :
    option (Agent * World * list (IP * bytes)) :=
  match rounds with
  | [] => Some (a, w, [])
  | outs :: rounds =>
      '(ps, w, out) ← send_round (ag_conf a) (ag_salts a) outs (ag_peers a) w;
      '(a, w, out') ← serveWrite (mkAgent (ag_conf a) ps (ag_peerByEVRSrc a) (ag_salts a)) rounds w;
      Some (a, w, out ++ out')
  end.

End agent.

(** [handlePacket] at time [now]; [None] is a panic. *)
Definition handlePacket (a : Agent) (now : Z) (pkt : bytes) (w : World) : option World :=
  if (length pkt <? 8)%nat then Some w
  else
    let payload := drop 8 pkt in
    if negb (IsValid payload) then Some w
    else
      let '(sq, ts, srcIP) := DecodeWithSrcIP payload in
      match ag_peerByEVRSrc a !! IP_String srcIP with
      | None => Some w
      | Some i =>
          p ← ag_peers a !! i;
          if (Z.of_nat (length payload) =? pe_msgLen p) &&
             negb (bytes_equal (Salts.Get (ag_salts a) sq) (drop MsgHeaderLen payload))
          then call (pe_stat p) (udpStat.Received sq ts (i64 (now - ts)) true) w
          else call (pe_stat p) (udpStat.Received sq ts (i64 (now - ts)) false) w
      end.

(** The errors [readLoop] counts: it gives up after 20 in a row. [reads] are
    the results of [ReadFrom], [None] an error; the result is the datagrams
    handled and whether the loop has exited. *)
Fixpoint readLoop (errCount : nat) (reads : list (option bytes)) : list bytes * bool :=
  match reads with
  | [] => ([], false)
  | None :: reads =>
      let errCount := S errCount in
      if (20 <=? errCount)%nat then ([], true) else readLoop errCount reads
  | Some pkt :: reads => let '(l, e) := readLoop 0 reads in (pkt :: l, e)
  end.

(** ** Invariant *)

(** A peer of an agent over the world [w]. *)
Definition peer_ok (conf : Config) (w : World) (p : peer) : Prop :=
  pe_msgLen p = MsgLen conf /\ in_u64 (pe_seq p) /\
  pe_innerSrcIP p = To4_or_nil (ParseIP_or_nil (EVRSrcAddr (pe_target p))) /\
  exists u, w_stats w !! pe_stat p = Some u /\ udpStat_ok u /\ u_span u = Span conf.

(** [peerByEVRSrc] holds, for each configured address, the last peer that has
    it. *)
Definition indexed (ps : list peer) (by_src : gmap string nat) : Prop :=
  forall k i, by_src !! k = Some i <->
    (exists p, ps !! i = Some p /\ EVRSrcAddr (pe_target p) = k) /\
    forall j q, ps !! j = Some q -> EVRSrcAddr (pe_target q) = k -> (j <= i)%nat.

Record agent_ok (a : Agent) (w : World) : Prop := {
  aok_msglen : Z.of_nat MsgHeaderLen <= MsgLen (ag_conf a);
  aok_salts : NewSalts (MsgLen (ag_conf a) - Z.of_nat MsgHeaderLen) = Some (ag_salts a);
  aok_span : 0 < Span (ag_conf a);
  aok_peers : Forall (peer_ok (ag_conf a) w) (ag_peers a);
  aok_index : indexed (ag_peers a) (ag_peerByEVRSrc a)
}.

Lemma indexed_snoc ps by_src p :
  indexed ps by_src -> indexed (ps ++ [p]) (<[EVRSrcAddr (pe_target p) := length ps]> by_src).
Proof.
  intros H k i. rewrite lookup_insert_Some, (H k i). split.
  - intros [[<- <-]|[Hne [(q & Hq & Hk) Hl]]].
    + split; [exists p; split; [by rewrite list_lookup_middle|done]|].
      intros j q Hj%lookup_lt_Some _. rewrite length_app in Hj. cbn [length] in Hj. lia.
    + split; [exists q; split; [by apply lookup_app_l_Some|done]|].
      intros j q' [Hj|[_ Hj]]%lookup_app_Some Hk'; [by eapply Hl|].
      apply list_lookup_singleton_Some in Hj as [_ <-]. congruence.
  - intros [(q & [Hq|[Hi Hq]]%lookup_app_Some & Hk) Hl].
    + destruct (decide (EVRSrcAddr (pe_target p) = k)) as [Hp|Hp].
      * exfalso. apply lookup_lt_Some in Hq.
        specialize (Hl (length ps) p ltac:(by rewrite list_lookup_middle) Hp). lia.
      * right. split; [done|]. split; [by exists q|]. intros j q' Hj. apply Hl. by apply lookup_app_l_Some.
    + left. apply list_lookup_singleton_Some in Hq as [Hz <-]. split; [done|lia].
Qed.

Lemma peer_ok_register conf u w p :
  world_ok w -> peer_ok conf w p -> peer_ok conf (register u w).2 p.
Proof.
  intros Hw (A & B & C & u' & D & E & F). split_and!; [done..|]. exists u'. split_and!; [|done..].
  cbn. rewrite lookup_insert_ne; [done|].
  assert (pe_stat p < w_next w)%nat by (apply (wok_dom _ Hw); by eexists). lia.
Qed.

Lemma evr_initPeers_ok conf targets seed ps by_src w :
  0 < Span conf -> (forall n, in_u64 (seed n)) -> world_ok w ->
  Forall (peer_ok conf w) ps -> indexed ps by_src ->
  let '(ps', by_src', w') := initPeers conf targets seed ps by_src w in
  world_ok w' /\ Forall (peer_ok conf w') ps' /\ indexed ps' by_src' /\
  pe_target <$> ps' = (pe_target <$> ps) ++ targets.
Proof.
  intros Hs Hseed. revert ps by_src w. induction targets as [|t targets IH]; intros ps by_src w Hw Hps Hix.
  { cbn [initPeers]. split_and!; [done..|]. by rewrite app_nil_r. }
  cbn [initPeers]. set (u := NewStat _ _ _ _ _ _ _ _).
  destruct (register_ok u w) as (Hw' & Hl & _); [by auto with nettools|done|].
  assert (Hps' : Forall (peer_ok conf (register u w).2) ps)
    by (eapply Forall_impl; [exact Hps|intros q; by apply peer_ok_register]).
  destruct (register u w) as [l w1] eqn:E. cbn [fst snd] in *.
  set (p := make_peer conf t (seed (length ps)) l).
  specialize (IH (ps ++ [p]) (<[EVRSrcAddr t := length ps]> by_src) w1 Hw').
  destruct (initPeers _ _ _ _ _ _) as [[ps' by_src'] w'].
  destruct IH as (H1 & H2 & H3 & H4).
  - apply Forall_app. split; [done|]. apply Forall_singleton. split_and!; [done|apply Hseed|done|].
    exists u. split_and!; [done|by apply NewStat_ok|done].
  - by apply (indexed_snoc ps by_src p).
  - split_and!; [done..|]. by rewrite H4, fmap_app, <- app_assoc.
Qed.

(** [New] establishes the invariant, with one peer per target, in order. *)
Lemma evr_New_ok conf seed w :
  0 < Span conf -> (forall n, in_u64 (seed n)) -> world_ok w ->
  exists a w', New conf seed w = Some (a, w') /\ agent_ok a w' /\ world_ok w' /\
    pe_target <$> ag_peers a = Targets conf.
Proof.
  intros Hs Hseed Hw. unfold New.
  set (conf' := if MsgLen conf <? Z.of_nat MsgHeaderLen
                then set_conf_MsgLen (Z.of_nat MsgHeaderLen) conf else conf).
  assert (Span conf' = Span conf /\ Targets conf' = Targets conf /\
          Z.of_nat MsgHeaderLen <= MsgLen conf') as (Hs' & <- & Hm)
    by (unfold conf'; destruct (Z.ltb_spec (MsgLen conf) (Z.of_nat MsgHeaderLen)); cbn; auto with lia).
  destruct (NewSalts_spec (MsgLen conf' - Z.of_nat MsgHeaderLen)) as (salts & _ & E & _); [lia|].
  rewrite E. cbn [mbind option_bind].
  pose proof (evr_initPeers_ok conf' (Targets conf') seed [] ∅ w ltac:(lia) Hseed Hw) as Hp.
  destruct (initPeers _ _ _ _ _ _) as [[ps by_src] w'].
  destruct Hp as (H1 & H2 & H3 & H4); [constructor| |].
  { intros k i. rewrite lookup_empty. split; [done|]. by intros [(p & Hp & _) _]. }
  eexists _, w'. split_and!; [reflexivity| |done|done].
  split; [exact Hm|exact E|rewrite <- Hs' in Hs; exact Hs|exact H2|exact H3].
Qed.

(** ** Receiving *)

(** The peer a payload is attributed to. *)
Definition attributed (a : Agent) (payload : bytes) : option peer :=
  i ← ag_peerByEVRSrc a !! IP_String (DecodeWithSrcIP payload).2; ag_peers a !! i.

(** A full-length reply whose padding is not its salt. *)
Definition corrupted (a : Agent) (payload : bytes) : Prop :=
  Z.of_nat (length payload) = MsgLen (ag_conf a) /\
  drop MsgHeaderLen payload <> Salts.Get (ag_salts a) (DecodeWithSrcIP payload).1.1.

#[global] Instance corrupted_dec a payload : Decision (corrupted a payload).
Proof. unfold corrupted. apply _. Defined.

Lemma index_in_range a w k i :
  agent_ok a w -> ag_peerByEVRSrc a !! k = Some i ->
  exists p, ag_peers a !! i = Some p /\ EVRSrcAddr (pe_target p) = k /\ peer_ok (ag_conf a) w p.
Proof.
  intros Hok Hi. apply (aok_index _ _ Hok) in Hi as [(p & Hp & Hk) _]. exists p. split_and!; [done..|].
  eapply Forall_lookup_1; [apply Hok|done].
Qed.

(** The test of the code. *)
Lemma corrupted_bool a payload :
  bool_decide (corrupted a payload) =
    (Z.of_nat (length payload) =? MsgLen (ag_conf a)) &&
    negb (bytes_equal (Salts.Get (ag_salts a) (DecodeWithSrcIP payload).1.1) (drop MsgHeaderLen payload)).
Proof.
  apply eq_true_iff_eq. rewrite bool_decide_eq_true, andb_true_iff, Z.eqb_eq, negb_true_iff.
  unfold corrupted, bytes_equal. rewrite bool_decide_eq_false. intuition congruence.
Qed.

(** [handlePacket] in closed form. *)
Lemma handlePacket_spec a now hdr payload w :
  agent_ok a w -> length hdr = 8%nat ->
  handlePacket a now (hdr ++ payload) w =
    if IsValid payload then
      match attributed a payload with
      | Some p =>
          let '(sq, ts, _) := DecodeWithSrcIP payload in
          call (pe_stat p) (udpStat.Received sq ts (i64 (now - ts)) (bool_decide (corrupted a payload))) w
      | None => Some w
      end
    else Some w.
Proof.
  intros Hok Hh. unfold handlePacket.
  rewrite (proj2 (Nat.ltb_ge _ _)) by (rewrite length_app; lia).
  rewrite (drop_app_length' hdr payload 8) by done.
  destruct (IsValid payload); cbn [negb]; [|done]. rewrite corrupted_bool. unfold attributed.
  destruct (DecodeWithSrcIP payload) as [[sq ts] ip]. cbn [fst snd].
  destruct (ag_peerByEVRSrc a !! IP_String ip) as [i|] eqn:Ei; [|done].
  destruct (index_in_range a w _ i Hok Ei) as (p & Hp & _ & Hm & _). cbn [mbind option_bind].
  rewrite Hp. cbn [mbind option_bind]. rewrite Hm. by destruct (_ && _).
Qed.

(** Any datagram at the agent: nothing panics, and either nothing changes,
    or one reply is recorded, in the [Stat] of the last target configured with
    the text of the embedded address, with the bit-flip flag telling exactly
    whether a full-length payload lost its salt. *)
Theorem evr_handlePacket_outcome :
  forall a now pkt w,
    agent_ok a w ->
    (IsValid (drop 8 pkt) = true -> ts_ok (DecodeWithSrcIP (drop 8 pkt)).1.2) ->
    exists w', handlePacket a now pkt w = Some w' /\
      (w' = w \/
       exists p u bs, let '(sq, ts, ip) := DecodeWithSrcIP (drop 8 pkt) in
         p ∈ ag_peers a /\ EVRSrcAddr (pe_target p) = IP_String ip /\
         w_stats w !! pe_stat p = Some u /\
         buckets.received sq ts (i64 (now - ts)) (bool_decide (corrupted a (drop 8 pkt))) (u_bkts u) = Some bs /\
         w' = mkWorld (<[pe_stat p := set_bkts bs u]> (w_stats w)) (w_next w) (w_proc w)).
Proof.
  intros a now pkt w Hok Hts. destruct (Nat.ltb_spec (length pkt) 8) as [Hs|Hl].
  { exists w. split; [|by left]. unfold handlePacket. by rewrite (proj2 (Nat.ltb_lt _ _)). }
  set (bf := bool_decide (corrupted a (drop 8 pkt))).
  pose proof (handlePacket_spec a now (take 8 pkt) (drop 8 pkt) w Hok) as E.
  rewrite take_drop in E. rewrite E by (rewrite length_take; lia). clear E. fold bf. clearbody bf.
  destruct (IsValid (drop 8 pkt)); [specialize (Hts eq_refl)|by exists w; split; [|left]].
  unfold attributed. destruct (DecodeWithSrcIP (drop 8 pkt)) as [[sq ts] ip]. cbn [fst snd] in *.
  destruct (ag_peerByEVRSrc a !! IP_String ip) as [i|] eqn:Ei; cbn [mbind option_bind];
    [|by exists w; split; [|left]].
  destruct (index_in_range a w _ i Hok Ei) as (p & Hp & Hk & _ & _ & _ & u & Hu & Huok & _). rewrite Hp.
  destruct (op_step (Buckets.Received sq ts (i64 (now - ts)) bf) u Huok Hts)
    as (bs & Eb & _). cbn [exec] in Eb.
  eexists. split; [eapply call_spec; [done|]; unfold udpStat.Received; by rewrite Eb|].
  right. exists p, u, bs. split_and!; [by eapply list_elem_of_lookup_2|done..].
Qed.

(** ** Sending and the reply *)

(** The agent after the peer at [i] has become [p]. *)
Definition set_peer (i : nat) (p : peer) (a : Agent) : Agent :=
  mkAgent (ag_conf a) (<[i := p]> (ag_peers a)) (ag_peerByEVRSrc a) (ag_salts a).

Lemma indexed_insert ps by_src i p p' :
  ps !! i = Some p -> pe_target p' = pe_target p -> indexed ps by_src -> indexed (<[i := p']> ps) by_src.
Proof.
  intros Hi Ht H k j.
  assert (Hback : forall j q, <[i := p']> ps !! j = Some q ->
            exists q', ps !! j = Some q' /\ EVRSrcAddr (pe_target q') = EVRSrcAddr (pe_target q)).
  { intros j' q [(-> & <- & _)|[_ Hq]]%list_lookup_insert_Some; [exists p|exists q]; split; congruence. }
  assert (Hforth : forall j q, ps !! j = Some q ->
            exists q', <[i := p']> ps !! j = Some q' /\ EVRSrcAddr (pe_target q') = EVRSrcAddr (pe_target q)).
  { intros j' q Hq. destruct (decide (i = j')) as [->|Hne].
    - exists p'. rewrite list_lookup_insert_eq by (by eapply lookup_lt_Some). split; congruence.
    - exists q. by rewrite list_lookup_insert_ne. }
  rewrite (H k j). split.
  - intros [(q & Hq & Hk) Hl]. destruct (Hforth j q Hq) as (q' & Hq' & E). split.
    + exists q'. split; congruence.
    + intros j' q2 Hq2 Hk2. destruct (Hback j' q2 Hq2) as (q3 & Hq3 & E3). eapply Hl; [done|congruence].
  - intros [(q & Hq & Hk) Hl]. destruct (Hback j q Hq) as (q' & Hq' & E). split.
    + exists q'. split; congruence.
    + intros j' q2 Hq2 Hk2. destruct (Hforth j' q2 Hq2) as (q3 & Hq3 & E3). eapply Hl; [done|congruence].
Qed.

Lemma peer_ok_update conf w p l u' :
  peer_ok conf w p -> udpStat_ok u' -> u_span u' = Span conf ->
  peer_ok conf (mkWorld (<[l := u']> (w_stats w)) (w_next w) (w_proc w)) p.
Proof.
  intros (A & B & C & u & D & E & F) Hu Hs. split_and!; [done..|]. cbn.
  destruct (decide (l = pe_stat p)) as [->|Hne].
  - exists u'. by rewrite lookup_insert_eq.
  - exists u. by rewrite lookup_insert_ne.
Qed.

Lemma agent_ok_set_peer a w i p sq port u' :
  agent_ok a w -> ag_peers a !! i = Some p -> in_u64 sq -> udpStat_ok u' -> u_span u' = Span (ag_conf a) ->
  agent_ok (set_peer i (advance_peer sq port p) a)
    (mkWorld (<[pe_stat p := u']> (w_stats w)) (w_next w) (w_proc w)).
Proof.
  intros [H1 H2 H3 H4 H5] Hi Hq Hu Hs. split; [done|done|done| |by eapply indexed_insert].
  cbn. apply Forall_insert.
  - eapply Forall_impl; [exact H4|]. intros q Hq'. by apply peer_ok_update.
  - pose proof (Forall_lookup_1 _ _ _ _ H4 Hi) as Hp. apply (peer_ok_update _ _ _ (pe_stat p) u') in Hp; [|done..].
    destruct Hp as (A & _ & C & D). split_and!; done.
Qed.

Section replies.
Context `{HG : Goscapy}.

(** What one probe leaves behind when the sockets work: nothing if the packet
    library refuses it, a pending record otherwise. *)
Lemma evr_send_probe_written conf salts o p w p' w' out u ip4 :
  pe_innerSrcIP p = ip4 -> length ip4 = 4%nat ->
  w_stats w !! pe_stat p = Some u -> udpStat_ok u ->
  ts_ok (o_ts o) -> o_deadline_ok o = true -> o_write_ok o = true ->
  probe (u_bkts u) (o_ts o / u_span u) (u64 (pe_seq p + 1)) = None ->
  send_probe conf salts o p w = Some (p', w', out) ->
  (out = [] /\ w' = w) \/
  exists port inner data u',
    let sq := u64 (pe_seq p + 1) in
    let payload := EncodeWithSrcIP sq (Salts.Get salts sq) (o_ts o) (pe_msgLen p) (get_be ip4) in
    p' = advance_peer sq port p /\
    EncodeVxlanInner (VNI conf) (SrcMAC conf) (DstMAC conf) (pe_innerDstIP p) (pe_innerDstIP p) port
      (InnerDstPort conf) (u8 (TOS conf)) (TTL conf) payload = Some inner /\
    EncodeOuterUDP (pe_mockSrcIP p) (pe_dstIP p) port (pe_dstPort p) (u8 (TOS conf)) (TTL conf) inner = Some data /\
    out = [(pe_dstIP p, data)] /\
    w' = mkWorld (<[pe_stat p := u']> (w_stats w)) (w_next w) (w_proc w) /\
    udpStat_ok u' /\ u_span u' = u_span u /\
    forall j x, probe (u_bkts u') j x =
      if decide ((j, x) = (o_ts o / u_span u, sq))
      then Some (fresh_request port (pe_dstPort p) sq (o_ts o)) else probe (u_bkts u) j x.
Proof.
  intros Hip Hl Hu Huok Ht Hd Hw Hn. unfold send_probe.
  set (port := Ports.evr_config.GetNextPort _ _). set (sq := u64 (pe_seq p + 1)) in *.
  cbn [pe_innerSrcIP pe_msgLen pe_innerDstIP pe_mockSrcIP pe_dstIP pe_dstPort pe_stat advance_peer].
  rewrite Hip. unfold BigEndian_Uint32. rewrite Hl, take_ge by lia. cbn [Nat.ltb Nat.leb mbind option_bind].
  destruct (EncodeVxlanInner _ _ _ _ _ _ _ _ _ _) as [inner|] eqn:E1; [|intros [= <- <- <-]; by left].
  destruct (EncodeOuterUDP _ _ _ _ _ _ _) as [data|] eqn:E2; [|intros [= <- <- <-]; by left].
  destruct (put_unused (u_bkts u) port (pe_dstPort p) sq (o_ts o)) as (bs & Ep & Hpr);
    [apply Huok|done|by rewrite <- (uok_span _ Huok)|].
  destruct (op_step (Buckets.Put port (pe_dstPort p) sq (o_ts o)) u Huok Ht) as (bs' & Ep' & Hok' & Hcfg & _).
  cbn [exec] in Ep'. assert (bs' = bs) as -> by congruence.
  rewrite (call_spec _ _ _ u (set_bkts bs u)); [|done|unfold udpStat.Put; by rewrite Ep].
  cbn [mbind option_bind]. rewrite Hd, Hw. cbn [negb]. intros [= <- <- <-]. right.
  exists port, inner, data, (set_bkts bs u). cbn zeta.
  split_and!; try done. intros j x. cbn [u_bkts set_bkts]. by rewrite Hpr, <- (uok_span _ Huok).
Qed.

(** C29: a probe and the frame that comes back. When the agent writes a probe
    for the target at [i] (fresh sequence number), the payload it carries,
    returned behind any 8-byte UDP header, completes exactly that probe's
    record, provided the target's EVR source address is configured in its
    canonical text and no other target has it. If instead no target is
    configured with the canonical text (an address [Validate] accepts, such as
    [::ffff:10.0.0.1], but spelt another way), the reply is ignored and the
    probe will be counted as lost. *)
Theorem evr_probe_answered :
  forall a w i p o p' w' out u ip ip4,
    agent_ok a w -> ag_peers a !! i = Some p ->
    ParseIP (EVRSrcAddr (pe_target p)) = Some ip -> To4 ip = Some ip4 ->
    w_stats w !! pe_stat p = Some u ->
    ts_ok (o_ts o) -> o_deadline_ok o = true -> o_write_ok o = true ->
    probe (u_bkts u) (o_ts o / u_span u) (u64 (pe_seq p + 1)) = None ->
    send_probe (ag_conf a) (ag_salts a) o p w = Some (p', w', out) ->
    (out = [] /\ w' = w) \/
    exists port payload inner data,
      EncodeVxlanInner (VNI (ag_conf a)) (SrcMAC (ag_conf a)) (DstMAC (ag_conf a)) (pe_innerDstIP p)
        (pe_innerDstIP p) port (InnerDstPort (ag_conf a)) (u8 (TOS (ag_conf a))) (TTL (ag_conf a)) payload = Some inner /\
      EncodeOuterUDP (pe_mockSrcIP p) (pe_dstIP p) port (pe_dstPort p) (u8 (TOS (ag_conf a)))
        (TTL (ag_conf a)) inner = Some data /\
      out = [(pe_dstIP p, data)] /\
      forall hdr now, length hdr = 8%nat ->
        (EVRSrcAddr (pe_target p) = IP_String ip4 ->
         (forall j q, ag_peers a !! j = Some q -> EVRSrcAddr (pe_target q) = IP_String ip4 -> j = i) ->
         exists w2 u2,
           handlePacket (set_peer i p' a) now (hdr ++ payload) w' = Some w2 /\
           w_stats w2 !! pe_stat p = Some u2 /\
           (forall l, l <> pe_stat p -> w_stats w2 !! l = w_stats w !! l) /\
           forall j x, probe (u_bkts u2) j x =
             if decide ((j, x) = (o_ts o / u_span u, u64 (pe_seq p + 1)))
             then Some (mkRequest port (pe_dstPort p) (u64 (pe_seq p + 1)) (o_ts o) (i64 (now - o_ts o)) false false)
             else probe (u_bkts u) j x) /\
        ((forall q, q ∈ ag_peers a -> EVRSrcAddr (pe_target q) <> IP_String ip4) ->
         handlePacket (set_peer i p' a) now (hdr ++ payload) w' = Some w').
Proof.
  intros a w i p o p' w' out u ip ip4 Hok Hi Hip Hip4 Hu Ht Hd Hw Hn Hsend.
  destruct (To4_bytes _ _ _ Hip Hip4) as [Hl4 Hb4].
  pose proof (Forall_lookup_1 _ _ _ _ (aok_peers _ _ Hok) Hi) as (Hm & Hq & Hinner & u0 & Hu0 & Huok & Hspan).
  assert (u0 = u) as -> by congruence.
  assert (Hin : pe_innerSrcIP p = ip4)
    by (rewrite Hinner; unfold ParseIP_or_nil; rewrite Hip; unfold To4_or_nil; cbn; by rewrite Hip4).
  destruct (evr_send_probe_written _ _ _ _ _ _ _ _ _ _ Hin Hl4 Hu Huok Ht Hd Hw Hn Hsend)
    as [?|(port & inner & data & u1 & -> & E1 & E2 & Hout & Hw1 & Huok1 & Hs1 & Hpr)]; [by left|right].
  set (sq := u64 (pe_seq p + 1)) in *. set (payload := EncodeWithSrcIP _ _ _ _ _) in *.
  exists port, payload, inner, data. split_and!; [done..|]. intros hdr now Hhdr.
  assert (Hok' : agent_ok (set_peer i (advance_peer sq port p) a) w')
    by (rewrite Hw1; apply agent_ok_set_peer; [done|done|apply u64_range|done|congruence]).
  destruct (evr_decode_encode_spec sq (o_ts o) ip4 (Salts.Get (ag_salts a) sq) (pe_msgLen p)) as (Hlen & Hv & Hdec & Hsalt);
    [apply u64_range|unfold ts_ok, in_i64 in *; lia|done|done|]. fold payload in Hlen, Hv, Hdec, Hsalt.
  rewrite (handlePacket_spec _ now hdr payload w' Hok' Hhdr), Hv, Hdec. unfold attributed. rewrite Hdec.
  cbn [fst snd ag_peerByEVRSrc ag_peers set_peer]. split.
  - intros Htxt Huniq.
    assert (Hidx : ag_peerByEVRSrc a !! IP_String ip4 = Some i).
    { apply (aok_index _ _ Hok). split; [by exists p|]. intros j q Hj Hk. by rewrite (Huniq j q Hj Hk). }
    rewrite Hidx. cbn [mbind option_bind]. rewrite list_lookup_insert_eq by (by eapply lookup_lt_Some).
    cbn [pe_stat advance_peer].
    rewrite bool_decide_eq_false_2; last first.
    { intros [_ Hne]. apply Hne. cbn [ag_salts]. rewrite Hdec, Hsalt. cbn [fst].
      pose proof (aok_msglen _ _ Hok) as Hml.
      rewrite Hm. replace (Z.to_nat _ - MsgHeaderLen)%nat with (length (Salts.Get (ag_salts a) sq));
        [apply padding_id|]. rewrite (NewSalts_length _ _ _ (aok_salts _ _ Hok)).
      unfold MsgHeaderLen, MagicFlagLen in *. lia. }
    destruct (received_recorded (u_bkts u1) sq (o_ts o) (i64 (now - o_ts o)) false
                (fresh_request port (pe_dstPort p) sq (o_ts o))) as (bs & Eb & Hpr');
      [apply Huok1|done|rewrite <- (uok_span _ Huok1), Hpr, Hs1; by rewrite decide_True|].
    eexists _, (set_bkts bs u1). split_and!.
    + eapply call_spec; [rewrite Hw1; apply lookup_insert_eq|]. unfold udpStat.Received. by rewrite Eb.
    + apply lookup_insert_eq.
    + intros l Hne. rewrite Hw1. cbn. by rewrite !lookup_insert_ne by done.
    + intros j x. cbn [u_bkts set_bkts]. rewrite Hpr', <- (uok_span _ Huok1), Hs1, Hpr. by case_decide.
  - intros Hnone. destruct (ag_peerByEVRSrc a !! IP_String ip4) as [j|] eqn:Ej; [|done].
    destruct (index_in_range a w _ j Hok Ej) as (q & Hq' & Hk & _).
    exfalso. eapply Hnone; [by eapply list_elem_of_lookup_2|done].
Qed.

End replies.

(** ** Witnesses *)

Module samples.

Import Toy.

Definition conf : Config :=
  mkConfig "evr" "10.0.0.1" [mkTarget "10.9.0.1" "10.1.0.1" ""; mkTarget "10.9.0.2" "10.1.0.2" "10.0.0.7"]
    4789 8972 "00:00:00:00:ff:ff" "00:00:5e:00:01:ff" 15990000 64 64 (mkPortRange 9981 9990) 5 1000 3000
    32 "" "" 3 false.

Definition empty_world : World := mkWorld ∅ 0 (NewProcessor 1000 3000).
Definition setup : Agent * World :=
  default (mkAgent conf [] ∅ (mkSalts [] [] [] [] 0), empty_world) (New conf (fun _ => 41) empty_world).
Definition agent : Agent := setup.1.
Definition world : World := setup.2.

Lemma evr_setup_ok : agent_ok agent world.
Proof.
  destruct (evr_New_ok conf (fun _ => 41) empty_world) as (a & w & E & Hok & _ & _);
    [done|done|apply world_ok_empty|]. unfold agent, world, setup. by rewrite E.
Qed.

Definition the_peer : peer := make_peer conf (mkTarget "10.9.0.2" "10.1.0.2" "10.0.0.7") 41 1.
Definition the_stat : udpStat :=
  NewStat "10.0.0.1" "10.1.0.2" (mkPortRange 9981 9990) (mkPortRange 9981 9990) 5 1000 3000 true.
Definition outside : Outside := mkOutside 5000 true true.
Definition sent : peer * World * list (IP * bytes) :=
  default (the_peer, world, []) (send_probe (HG := toy) conf (ag_salts agent) outside the_peer world).

End samples.

Lemma evr_handlePacket_outcome_witness :
  exists w', handlePacket samples.agent 5600
      (make_bytes 8 ++ EncodeWithSrcIP 42 [90; 90; 90; 91] 5000 32 (get_be [10; 1; 0; 2])) samples.world = Some w' /\
    (w' = samples.world \/
     exists p u bs,
       p ∈ ag_peers samples.agent /\ EVRSrcAddr (pe_target p) = "10.1.0.2" /\
       w_stats samples.world !! pe_stat p = Some u /\
       buckets.received 42 5000 600
         (bool_decide (corrupted samples.agent (EncodeWithSrcIP 42 [90; 90; 90; 91] 5000 32 (get_be [10; 1; 0; 2]))))
         (u_bkts u) = Some bs /\
       w' = mkWorld (<[pe_stat p := set_bkts bs u]> (w_stats samples.world)) (w_next samples.world)
              (w_proc samples.world)).
Proof.
  apply (evr_handlePacket_outcome samples.agent 5600
    (make_bytes 8 ++ EncodeWithSrcIP 42 [90; 90; 90; 91] 5000 32 (get_be [10; 1; 0; 2])) samples.world samples.evr_setup_ok).
  intros _. vm_compute. split; [discriminate|reflexivity].
Defined.

Lemma evr_probe_answered_witness :
  let '(p', w', out) := samples.sent in
  (out = [] /\ w' = samples.world) \/
  exists port payload inner data,
    EncodeVxlanInner (H := Toy.toy) 15990000 "00:00:00:00:ff:ff" "00:00:5e:00:01:ff" [10; 0; 0; 1] [10; 0; 0; 1]
      port 8972 64 64 payload = Some inner /\
    EncodeOuterUDP (H := Toy.toy) [10; 0; 0; 7] [10; 9; 0; 2] port 4789 64 64 inner = Some data /\
    out = [([10; 9; 0; 2], data)] /\
    forall hdr now, length hdr = 8%nat ->
      ("10.1.0.2" = "10.1.0.2" ->
       (forall j q, ag_peers samples.agent !! j = Some q -> EVRSrcAddr (pe_target q) = "10.1.0.2" -> j = 1%nat) ->
       exists w2 u2,
         handlePacket (set_peer 1 p' samples.agent) now (hdr ++ payload) w' = Some w2 /\
         w_stats w2 !! 1%nat = Some u2 /\
         (forall l, l <> 1%nat -> w_stats w2 !! l = w_stats samples.world !! l) /\
         forall j x, probe (u_bkts u2) j x =
           if decide ((j, x) = (5, 42))
           then Some (mkRequest port 4789 42 5000 (i64 (now - 5000)) false false)
           else probe (u_bkts samples.the_stat) j x) /\
      ((forall q, q ∈ ag_peers samples.agent -> EVRSrcAddr (pe_target q) <> "10.1.0.2") ->
       handlePacket (set_peer 1 p' samples.agent) now (hdr ++ payload) w' = Some w').
Proof.
  apply (evr_probe_answered (HG := Toy.toy) samples.agent samples.world 1 samples.the_peer samples.outside
    samples.sent.1.1 samples.sent.1.2 samples.sent.2 samples.the_stat (v4InV6Prefix ++ [10; 1; 0; 2]) [10; 1; 0; 2]);
    [exact samples.evr_setup_ok|reflexivity|reflexivity|reflexivity|reflexivity|split; [discriminate|reflexivity]
    |reflexivity|reflexivity|reflexivity|vm_compute; reflexivity].
Defined.
