(* ===== verification/KuiniuClient.v ===== *)
(** * The kuiniu GPU-to-GPU prober: transport and client
      ([kuiniu/transport/udp.go], [kuiniu/client/client.go])

    The client has one peer per pair of GPU addresses and finds the peer of a
    reply by the destination address embedded in the payload. The announcement
    of the previous span ([book]) is the one of [UdpClient]. *)

From S2P Require Import Prelude GoStd GoNet Ports Bucket Buckets UdpStat Salts KuiniuCodec KuiniuConfig Goscapy World UdpClient.
Import kuiniu_config.
Local Open Scope Z_scope.

(** [conf.MsgLen = n], done by [NewClient] and [New]. *)
Definition raise_MsgLen (c : Config) : Config :=
  if MsgLen c <? Z.of_nat MsgHeaderLen then set_MsgLen (Z.of_nat MsgHeaderLen) c else c.

(** [transport.UDPSender]; the socket is open for as long as it is used. *)
Record UDPSender := mkUDPSender {
  us_localIP : IP;
  us_tos : Z;
  us_ttl : Z
}.

Module transport.
Section transport.
Context `{Goscapy}.

(** [encodeUDPPacket]. *)
Definition encodeUDPPacket (localIP remoteIP : IP) (localPort remotePort tos ttl : Z) (payload : bytes) :
    option bytes :=
  BuildFrom1 [BIP (IP_String localIP) (IP_String remoteIP) (u8 ttl) None None;
              BUDP localPort remotePort; BRaw payload].

(** [UDPSender.Send]; the two booleans say whether the socket calls succeed.
    [None] is an error, otherwise what was written, to whom. *)
Definition Send (s : UDPSender) (deadline_ok write_ok : bool) (localIP remoteIP : IP)
    (localPort remotePort : Z) (payload : bytes) : option (IP * bytes) :=
  data ← encodeUDPPacket localIP remoteIP localPort remotePort (u8 (us_tos s)) (us_ttl s) payload;
  if negb deadline_ok then None
  else if write_ok then Some (remoteIP, data) else None.

End transport.
End transport.

(** [gpuPeer]; [gp_stat] is the location of its [Stat]. *)
Record gpuPeer := mkGpuPeer {
  gp_gpuIndex : nat;
  gp_localGPUIP : IP;
  gp_remoteGPUIP : IP;
  gp_seq : Z;
  gp_stat : nat;
  gp_msgLen : Z;
  gp_clientPortRange : PortRange;
  gp_serverPortRange : PortRange;
  gp_ports : Z
}.

Definition advance_gpu (sq ports : Z) (p : gpuPeer) : gpuPeer :=
  mkGpuPeer (gp_gpuIndex p) (gp_localGPUIP p) (gp_remoteGPUIP p) sq (gp_stat p) (gp_msgLen p)
    (gp_clientPortRange p) (gp_serverPortRange p) ports.

(** [Client]. *)
Record Client := mkClient {
  cl_conf : Config;
  cl_salts : Salts;
  cl_peers : list gpuPeer
}.

(** [delayBitflip] of [NewClient]: 10 s. *)
Definition delayBitflip : Z := 10 * 1000000000.

(** The loop of [NewClient] from pair [i] on, [n] pairs left; an address
    missing from a list panics, [seed i] is [rand.Int63()]. *)
Fixpoint make_peers (conf : Config) (seed : nat -> Z) (n i : nat) (w : World) :
    option (list gpuPeer * World) :=
  match n with
  | O => Some ([], w)
  | S n =>
      local ← LocalGPUAddrs conf !! i;
      remote ← RemoteGPUAddrs conf !! i;
      let '(l, w) := register (NewStat local remote (ClientPortRange conf) (ServerPortRange conf)
                       (RateInSpan conf) (Span conf) (Delay conf) true) w in
      let p := mkGpuPeer i (ParseIP_or_nil local) (ParseIP_or_nil remote) (seed i) l (MsgLen conf)
                 (ClientPortRange conf) (ServerPortRange conf)
                 (kuiniu_client.packPorts (u16 (Min (ClientPortRange conf))) (u16 (Min (ServerPortRange conf)))) in
      '(ps, w) ← make_peers conf seed n (S i) w;
      Some (p :: ps, w)
  end.

(** [NewClient]. *)
Definition NewClient (conf : Config) (seed : nat -> Z) (w : World) : option (Client * World) :=
  let conf := raise_MsgLen conf in
  salts ← NewSalts (MsgLen conf - Z.of_nat MsgHeaderLen);
  '(ps, w) ← make_peers conf seed (Z.to_nat (GPUPairCount conf)) 0 w;
  Some (mkClient conf salts ps, w).

(** The senders [Run] opens, one per peer. *)
Definition gpuSenders (c : Client) : gmap nat UDPSender :=
  list_to_map ((fun p => (gp_gpuIndex p, mkUDPSender (gp_localGPUIP p) (TOS (cl_conf c)) 64)) <$> cl_peers c).

(** The bookkeeping before the first probe. *)
Definition first_book (c : Config) : book :=
  mkBook 0 0 (u32 (RateInSpan c)) 0 0 (u16 (Min (ClientPortRange c))) (u16 (Min (ServerPortRange c))).

(** The state of the send loop: the peers with their entries in the seven
    maps, the probe counter, the store, and what was written. *)
Record WState := mkWState {
  ws_peers : list (gpuPeer * book);
  ws_count : Z;
  ws_world : World;
  ws_out : list (IP * bytes)
}.

Section client.
Context `{HG : Goscapy}.

(** The body of the inner loop of [serveWrite] for the peer at [i]: the new
    state and whether a limit was reached; [None] is a panic. *)
Definition send_probe (conf : Config) (salts : Salts) (senders : gmap nat UDPSender) (i : nat)
    (o : Outside) (st : WState) : option (WState * bool) :=
  '(p, b) ← ws_peers st !! i;
  let bizSeq := u64 (gp_seq p + 1) in
  let '(localPort, serverPort) := kuiniu_client.unpackPorts (gp_ports p) in
  let '(localPort, serverPort) :=
    Ports.kuiniu_config.GetNextPorts localPort serverPort (gp_clientPortRange p) (gp_serverPortRange p) in
  let p := advance_gpu bizSeq (kuiniu_client.packPorts localPort serverPort) p in
  b ← book_step (Span conf) (o_ts o) localPort serverPort b;
  let peers := <[i := (p, b)]> (ws_peers st) in
  let payload := Encode bizSeq (Salts.Get salts bizSeq) (o_ts o) (gp_msgLen p)
                   (To4_or_nil (gp_localGPUIP p)) (To4_or_nil (gp_remoteGPUIP p)) localPort serverPort
                   (bk_lastSent b) (bk_lastStartSrcPort b) (bk_lastStartDstPort b) in
  let count := ws_count st + 1 in
  if ((0 <? Count conf) && (Count conf <? count)) ||
     ((0 <? SendDuration conf) && (SendDuration conf <? o_elapsed o))
  then Some (mkWState peers count (ws_world st) (ws_out st), true)
  else
    w ← call (gp_stat p) (udpStat.Put localPort serverPort bizSeq (o_ts o)) (ws_world st);
    sender ← senders !! gp_gpuIndex p;
    match transport.Send sender (o_deadline_ok o) (o_write_ok o) (gp_localGPUIP p) (gp_remoteGPUIP p)
            localPort serverPort payload with
    | Some written => Some (mkWState peers count w (ws_out st ++ [written]), false)
    | None =>
        w ← call (gp_stat p) (udpStat.Delete bizSeq (o_ts o)) w;
        Some (mkWState peers count w (ws_out st), false)
    end.

(** The inner loop over the peers in [order]; [outs] answers for the outside. *)
Fixpoint send_round (conf : Config) (salts : Salts) (senders : gmap nat UDPSender) (order : list nat)
    (outs : nat -> Outside) (st : WState) : option (WState * bool) :=
  match order with
  | [] => Some (st, false)
  | i :: order =>
      '(st, stop) ← send_probe conf salts senders i (outs i) st;
      if (stop : bool) then Some (st, true) else send_round conf salts senders order outs st
  end.

(** The outer loop, one round per element of [rounds], until a limit is
    reached or the context is cancelled. *)
Fixpoint send_rounds (conf : Config) (salts : Salts) (senders : gmap nat UDPSender)
    (rounds : list (nat -> Outside)) (st : WState) : option (WState * bool) :=
  match rounds with
  | [] => Some (st, false)
  | outs :: rounds =>
      '(st, stop) ← send_round conf salts senders (seq 0 (length (ws_peers st))) outs st;
      if (stop : bool) then Some (st, true) else send_rounds conf salts senders rounds st
  end.

(** [serveWrite]. *)
Definition serveWrite (c : Client) (rounds : list (nat -> Outside)) (w : World) : option (WState * bool) :=
  send_rounds (cl_conf c) (cl_salts c) (gpuSenders c) rounds
    (mkWState ((fun p => (p, first_book (cl_conf c))) <$> cl_peers c) 0 w []).

(** [detectBitflip]: indexing past the salt panics. *)
Definition detectBitflip (sinceStartup : Z) (payload salt : bytes) : option bool :=
  if sinceStartup <=? delayBitflip then Some false
  else _ ← mismatches MsgHeaderLen (drop MsgHeaderLen payload) salt; Some true.

(** [handlePacket] at time [now]: the new world; [None] is a panic. *)
Definition handlePacket (c : Client) (now sinceStartup : Z) (rawPkt : bytes) (w : World) : option World :=
  match udp_payload rawPkt with
  | None => Some w
  | Some payload =>
      if negb (IsValid payload) then Some w
      else
        let r := Decode payload in
        match List.find (fun peer => Equal (gp_remoteGPUIP peer) (DstIP r)) (cl_peers c) with
        | None => Some w
        | Some p =>
            let salt := Salts.Get (cl_salts c) (Seq r) in
            hasBitflip ←
              if (Z.of_nat (length payload) =? MsgLen (cl_conf c)) &&
                 negb (bytes_equal salt (drop MsgHeaderLen payload))
              then detectBitflip sinceStartup payload salt
              else Some false;
            if (hasBitflip : bool) then Some w
            else call (gp_stat p) (udpStat.Received (Seq r) (Ts r) (i64 (now - Ts r)) hasBitflip) w
        end
  end.

(** [readLoop]: over the results of [Receive], [None] an error, each packet with
    the two clocks [handlePacket] reads; the loop ends with the context. *)
Fixpoint readLoop (c : Client) (reads : list (option (bytes * Z * Z))) (w : World) : option World :=
  match reads with
  | [] => Some w
  | None :: reads => readLoop c reads w
  | Some (data, now, since) :: reads => w ← handlePacket c now since data w; readLoop c reads w
  end.

End client.

(** ** Invariant *)

Section correct.
Context `{HG : Goscapy}.

(** The client belongs to the world [w]. *)
Record client_ok (c : Client) (w : World) : Prop := {
  cok_msglen : Z.of_nat MsgHeaderLen <= MsgLen (cl_conf c);
  cok_salts : NewSalts (MsgLen (cl_conf c) - Z.of_nat MsgHeaderLen) = Some (cl_salts c);
  cok_span : 0 < Span (cl_conf c);
  cok_peers : Forall (fun p => gp_msgLen p = MsgLen (cl_conf c) /\
      exists u, w_stats w !! gp_stat p = Some u /\ udpStat_ok u /\ u_span u = Span (cl_conf c)) (cl_peers c)
}.

(** The same peer, possibly some probes later. *)
Definition same_peer (p q : gpuPeer) : Prop :=
  advance_gpu (gp_seq q) (gp_ports q) p = q.

Lemma make_peers_ok conf seed n i w :
  0 < Span conf -> world_ok w ->
  (i + n = length (LocalGPUAddrs conf))%nat -> length (LocalGPUAddrs conf) = length (RemoteGPUAddrs conf) ->
  exists ps w', make_peers conf seed n i w = Some (ps, w') /\ world_ok w' /\ length ps = n /\
    (forall l, (l < w_next w)%nat -> w_stats w' !! l = w_stats w !! l) /\ (w_next w <= w_next w')%nat /\
    (forall j p, ps !! j = Some p -> gp_gpuIndex p = (i + j)%nat /\ gp_msgLen p = MsgLen conf /\
       exists a u, RemoteGPUAddrs conf !! (i + j)%nat = Some a /\ gp_remoteGPUIP p = ParseIP_or_nil a /\
         w_stats w' !! gp_stat p = Some u /\ udpStat_ok u /\ u_span u = Span conf).
Proof.
  intros Hs. revert i w. induction n as [|n IH]; intros i w Hw Hi Hlen; cbn [make_peers].
  { exists [], w. split_and!; [done..|lia|]. intros j p Hj. by rewrite lookup_nil in Hj. }
  destruct (lookup_lt_is_Some_2 (LocalGPUAddrs conf) i) as [la Ela]; [lia|].
  destruct (lookup_lt_is_Some_2 (RemoteGPUAddrs conf) i) as [ra Era]; [lia|].
  rewrite Ela, Era. cbn [mbind option_bind]. set (u := NewStat _ _ _ _ _ _ _ _).
  destruct (register_ok u w) as (Hw' & Hl & Hold); [by auto with nettools|done|].
  destruct (register u w) as [l w1] eqn:E. cbn [fst snd] in *.
  assert (l = w_next w /\ w_next w1 = S (w_next w)) as [-> Hn1] by (by injection E as <- <-).
  destruct (IH (S i) w1 Hw') as (ps & w' & -> & H1 & H2 & H3 & H4 & H5); [lia|done|].
  cbn [mbind option_bind]. eexists _, w'. split_and!; [reflexivity|done|cbn; lia| |lia|].
  - intros l Hlt. rewrite H3 by lia. by apply Hold.
  - intros [|j] p Hj; cbn [lookup list_lookup] in Hj.
    + injection Hj as <-. cbn. split_and!; [lia|done|]. exists ra, u. rewrite Nat.add_0_r.
      split_and!; [done|done|rewrite H3 by lia; done|by apply NewStat_ok|done].
    + destruct (H5 j p Hj) as (A & B & C). replace (i + S j)%nat with (S i + j)%nat by lia. done.
Qed.

(** [NewClient] succeeds on a validated configuration with a positive span. *)
Lemma kuiniu_NewClient_ok conf seed w :
  0 < Span conf -> length (LocalGPUAddrs conf) = length (RemoteGPUAddrs conf) -> world_ok w ->
  exists c w', NewClient conf seed w = Some (c, w') /\ client_ok c w' /\ world_ok w' /\
    length (cl_peers c) = length (LocalGPUAddrs conf) /\
    forall i p, cl_peers c !! i = Some p ->
      gp_gpuIndex p = i /\ exists a, RemoteGPUAddrs conf !! i = Some a /\ gp_remoteGPUIP p = ParseIP_or_nil a.
Proof.
  intros Hs Hlen Hw. unfold NewClient, raise_MsgLen.
  set (conf' := if MsgLen conf <? _ then _ else conf).
  assert (Span conf' = Span conf /\ LocalGPUAddrs conf' = LocalGPUAddrs conf /\
          RemoteGPUAddrs conf' = RemoteGPUAddrs conf /\ Z.of_nat MsgHeaderLen <= MsgLen conf') as (Hs' & Hl & Hr & Hm)
    by (unfold conf'; destruct (Z.ltb_spec (MsgLen conf) (Z.of_nat MsgHeaderLen)); cbn; auto with lia).
  destruct (NewSalts_spec (MsgLen conf' - Z.of_nat MsgHeaderLen)) as (salts & _ & E & _); [lia|].
  rewrite E. cbn [mbind option_bind]. unfold GPUPairCount. rewrite Nat2Z.id.
  destruct (make_peers_ok conf' seed (length (LocalGPUAddrs conf')) 0 w) as (ps & w' & -> & H1 & H2 & _ & _ & H5);
    [lia|done|done|congruence|].
  cbn [mbind option_bind]. eexists _, w'. split_and!; [reflexivity| |done|cbn [cl_peers]; by rewrite H2, Hl|].
  - split; [exact Hm|exact E|rewrite <- Hs' in Hs; exact Hs|]. apply Forall_lookup_2. intros j p Hj.
    destruct (H5 j p Hj) as (_ & B & a & u & _ & _ & F & G). split; [done|]. by exists u.
  - intros j p Hj. destruct (H5 j p Hj) as (A & _ & a & u & B & C & _). split; [done|].
    exists a. by rewrite <- Hr.
Qed.

Lemma kuiniu_client_ok_update c w l u' :
  client_ok c w -> udpStat_ok u' -> u_span u' = Span (cl_conf c) ->
  client_ok c (mkWorld (<[l := u']> (w_stats w)) (w_next w) (w_proc w)).
Proof.
  intros [H1 H2 H3 H4] Hu Hs. split; [done..|]. eapply Forall_impl; [exact H4|].
  intros p (Hm & u & Hl & Hok & Hsp). split; [done|]. cbn.
  destruct (decide (l = gp_stat p)) as [->|Hne].
  - exists u'. by rewrite lookup_insert_eq.
  - exists u. by rewrite lookup_insert_ne.
Qed.

Lemma kuiniu_next_ports_u16 v cr sr :
  let '(l, s) := kuiniu_client.unpackPorts v in
  let '(l, s) := Ports.kuiniu_config.GetNextPorts l s cr sr in in_u16 l /\ in_u16 s.
Proof.
  unfold kuiniu_client.unpackPorts, Ports.kuiniu_config.GetNextPorts.
  repeat case_match; simplify_eq; split; auto with nettools.
Qed.

(** The probe a peer sends: the fields of its payload. *)
Definition probe_fields (sq ts lp sp : Z) (ipl ipr : IP) (b : book) : DecodeResult :=
  mkDecodeResult sq ts (bk_lastSent b) ipl ipr lp sp (bk_lastStartSrcPort b) (bk_lastStartDstPort b).

(** What one written probe leaves behind. *)
Lemma kuiniu_send_probe_written conf salts senders i o st st' p b u ipl ipr written :
  ws_peers st !! i = Some (p, b) -> book_ok b ->
  To4 (gp_localGPUIP p) = Some ipl -> To4 (gp_remoteGPUIP p) = Some ipr ->
  w_stats (ws_world st) !! gp_stat p = Some u -> udpStat_ok u -> ts_ok (o_ts o) ->
  probe (u_bkts u) (o_ts o / u_span u) (u64 (gp_seq p + 1)) = None ->
  send_probe conf salts senders i o st = Some (st', false) ->
  ws_out st' = ws_out st ++ [written] ->
  exists lp sp b' sender u',
    let r := probe_fields (u64 (gp_seq p + 1)) (o_ts o) lp sp ipl ipr b' in
    in_u16 lp /\ in_u16 sp /\ book_ok b' /\
    senders !! gp_gpuIndex p = Some sender /\
    transport.encodeUDPPacket (gp_localGPUIP p) (gp_remoteGPUIP p) lp sp (u8 (us_tos sender)) (us_ttl sender)
      (encode_result r (Salts.Get salts (Seq r)) (gp_msgLen p)) = Some written.2 /\
    written.1 = gp_remoteGPUIP p /\
    ws_world st' = mkWorld (<[gp_stat p := u']> (w_stats (ws_world st))) (w_next (ws_world st))
                     (w_proc (ws_world st)) /\
    udpStat_ok u' /\ u_span u' = u_span u /\
    forall j x, probe (u_bkts u') j x =
      if decide ((j, x) = (o_ts o / u_span u, u64 (gp_seq p + 1)))
      then Some (fresh_request lp sp (u64 (gp_seq p + 1)) (o_ts o)) else probe (u_bkts u) j x.
Proof.
  intros Hp Hbok Hipl Hipr Hu Huok Ht Hn. unfold send_probe. rewrite Hp. cbn [mbind option_bind].
  pose proof (kuiniu_next_ports_u16 (gp_ports p) (gp_clientPortRange p) (gp_serverPortRange p)) as Hports.
  destruct (kuiniu_client.unpackPorts _) as [l0 s0].
  destruct (Ports.kuiniu_config.GetNextPorts _ _ _ _) as [lp sp]. destruct Hports as [Hlp Hsp].
  destruct (book_step _ _ _ _ _) as [b'|] eqn:Eb; [cbn [mbind option_bind]|done].
  destruct (_ || _); [done|].
  cbn [gp_localGPUIP gp_remoteGPUIP gp_msgLen gp_stat gp_gpuIndex advance_gpu].
  set (q := u64 (gp_seq p + 1)) in *. unfold To4_or_nil. rewrite Hipl, Hipr. cbn [default from_option id].
  destruct (put_unused (u_bkts u) lp sp q (o_ts o)) as (bs & Ep & Hpr);
    [apply Huok|done|by rewrite <- (uok_span _ Huok)|].
  destruct (op_step (Buckets.Put lp sp q (o_ts o)) u Huok Ht) as (bs' & Ep' & Hok' & Hcfg & _).
  cbn [exec] in Ep'. assert (bs' = bs) as -> by congruence.
  rewrite (call_spec _ _ _ u (set_bkts bs u)); [|done|unfold udpStat.Put; by rewrite Ep].
  cbn [mbind option_bind]. destruct (senders !! _) as [sender|] eqn:Es; [cbn [mbind option_bind]|done].
  destruct (transport.Send _ _ _ _ _ _ _ _) as [wr|] eqn:Ew; last first.
  { destruct (call _ _ _) as [w|]; cbn [mbind option_bind]; [|done]. intros [= <-] Hout.
    cbn [ws_out] in Hout. apply (f_equal length) in Hout. rewrite length_app in Hout. cbn in Hout. lia. }
  intros [= <-] Hout. cbn [ws_out] in Hout. apply app_inv_head in Hout. injection Hout as ->.
  exists lp, sp, b', sender, (set_bkts bs u). cbn zeta. unfold transport.Send in Ew.
  destruct (transport.encodeUDPPacket _ _ _ _ _ _ _) as [data|] eqn:Ee; cbn [mbind option_bind] in Ew; [|done].
  destruct (negb _); [done|]. destruct (o_write_ok o); [|done]. injection Ew as <-.
  refine (conj Hlp (conj Hsp (conj (book_step_ok _ _ _ _ _ _ Hlp Hsp Hbok Eb) _))).
  split_and!; try done. intros j x. cbn [u_bkts set_bkts]. by rewrite Hpr, <- (uok_span _ Huok).
Qed.

(** The first peer with the address of the reply. *)
Lemma find_peer (f : gpuPeer -> bool) ps i p :
  ps !! i = Some p -> f p = true -> (forall j q, ps !! j = Some q -> f q = true -> j = i) ->
  List.find f ps = Some p.
Proof.
  revert i. induction ps as [|q ps IH]; intros [|i] Hi Hf Hu; try done; cbn [List.find].
  - injection Hi as ->. by rewrite Hf.
  - destruct (f q) eqn:E; [by specialize (Hu 0%nat q eq_refl E)|]. eapply IH; [exact Hi|done|].
    intros j q' Hj Hq. specialize (Hu (S j) q' Hj Hq). lia.
Qed.

(** What [handlePacket] does with an unmodified reply to a pending probe. *)
Lemma kuiniu_handlePacket_echo c now since pkt w i p r u rq :
  client_ok c w -> cl_peers c !! i = Some p -> Equal (gp_remoteGPUIP p) (DstIP r) = true ->
  (forall j q, cl_peers c !! j = Some q -> Equal (gp_remoteGPUIP q) (DstIP r) = true -> j = i) ->
  w_stats w !! gp_stat p = Some u -> udpStat_ok u -> result_ok r -> ts_ok (Ts r) ->
  dissects pkt (encode_result r (Salts.Get (cl_salts c) (Seq r)) (MsgLen (cl_conf c))) ->
  probe (u_bkts u) (Ts r / u_span u) (Seq r) = Some rq ->
  exists bs,
    handlePacket c now since pkt w =
      Some (mkWorld (<[gp_stat p := set_bkts bs u]> (w_stats w)) (w_next w) (w_proc w)) /\
    forall j x, probe bs j x =
      if decide ((j, x) = (Ts r / u_span u, Seq r))
      then Some (bucket.mark_received (i64 (now - Ts r)) false rq) else probe (u_bkts u) j x.
Proof.
  intros Hok Hi He Huniq Hu Huok Hr Ht Hd%udp_payload_dissects Hrq.
  destruct (kuiniu_decode_encode_spec r (Salts.Get (cl_salts c) (Seq r)) (MsgLen (cl_conf c)) Hr) as (_ & Hv & Hdec & Hsalt).
  unfold handlePacket. rewrite Hd, Hv, Hdec. cbn [negb]. rewrite (find_peer _ _ i p) by done.
  rewrite Hsalt. replace (Z.to_nat _ - MsgHeaderLen)%nat with (length (Salts.Get (cl_salts c) (Seq r))); last first.
  { rewrite (NewSalts_length _ _ _ (cok_salts _ _ Hok)). pose proof (cok_msglen _ _ Hok).
    change MsgHeaderLen with 44%nat in *. lia. }
  rewrite padding_id, (proj2 (bytes_equal_true _ _)), andb_false_r by done. cbn [mbind option_bind].
  destruct (received_recorded (u_bkts u) (Seq r) (Ts r) (i64 (now - Ts r)) false rq)
    as (bs & E & Hpr); [apply Huok|done|by rewrite <- (uok_span _ Huok)|].
  exists bs. split; [|by rewrite <- (uok_span _ Huok) in Hpr].
  eapply call_spec; [done|]. unfold udpStat.Received. by rewrite E.
Qed.

(** C24: a kuiniu probe and its echo: when the client writes a probe for a pair
    whose remote address no other pair shares, and the same payload comes back
    in any datagram, [handlePacket] completes exactly that probe's record, with
    the ports it was sent between, the RTT and no bit flip, and leaves every
    other record alone. *)
Theorem kuiniu_echo_completes_probe :
  forall c st st' i o p0 p b u ipl ipr written,
    client_ok c (ws_world st) -> cl_peers c !! i = Some p0 ->
    ws_peers st !! i = Some (p, b) -> same_peer p0 p -> book_ok b ->
    To4 (gp_localGPUIP p) = Some ipl -> To4 (gp_remoteGPUIP p) = Some ipr ->
    (forall j q, cl_peers c !! j = Some q -> Equal (gp_remoteGPUIP q) ipr = true -> j = i) ->
    w_stats (ws_world st) !! gp_stat p = Some u -> ts_ok (o_ts o) ->
    probe (u_bkts u) (o_ts o / u_span u) (u64 (gp_seq p + 1)) = None ->
    send_probe (cl_conf c) (cl_salts c) (gpuSenders c) i o st = Some (st', false) ->
    ws_out st' = ws_out st ++ [written] ->
    exists lp sp sender payload,
      gpuSenders c !! gp_gpuIndex p = Some sender /\
      transport.encodeUDPPacket (gp_localGPUIP p) (gp_remoteGPUIP p) lp sp (u8 (us_tos sender))
        (us_ttl sender) payload = Some written.2 /\
      written.1 = gp_remoteGPUIP p /\
      SrcIP (Decode payload) = ipl /\ SrcPort (Decode payload) = lp /\ DstPort (Decode payload) = sp /\
      forall pkt now since, dissects pkt payload ->
        exists w' u',
          handlePacket c now since pkt (ws_world st') = Some w' /\
          w_stats w' !! gp_stat p = Some u' /\
          (forall l, l <> gp_stat p -> w_stats w' !! l = w_stats (ws_world st) !! l) /\
          forall j x, probe (u_bkts u') j x =
            if decide ((j, x) = (o_ts o / u_span u, u64 (gp_seq p + 1)))
            then Some (mkRequest lp sp (u64 (gp_seq p + 1)) (o_ts o) (i64 (now - o_ts o)) false false)
            else probe (u_bkts u) j x.
Proof.
  intros c st st' i o p0 p b u ipl ipr written Hok Hp0 Hp Hsame Hbok Hipl Hipr Huniq Hu Ht Hn Hsend Hout.
  pose proof (Forall_lookup_1 _ _ _ _ (cok_peers _ _ Hok) Hp0) as (Hm & u0 & Hu0 & Huok & Hspan).
  assert (gp_stat p0 = gp_stat p /\ gp_msgLen p0 = gp_msgLen p /\ gp_remoteGPUIP p0 = gp_remoteGPUIP p)
    as (Es & Em & Er) by (unfold same_peer in Hsame; rewrite <- Hsame; done).
  rewrite Es in Hu0. rewrite Em in Hm. assert (u0 = u) as -> by congruence.
  destruct (kuiniu_send_probe_written _ _ _ _ _ _ _ _ _ _ _ _ _ Hp Hbok Hipl Hipr Hu Huok Ht Hn Hsend Hout)
    as (lp & sp & b' & sender & u1 & Hlp & Hsp & Hb' & Hse & He & Hto & Hw1 & Huok1 & Hs1 & Hpr).
  set (r := probe_fields _ _ _ _ _ _ _) in *.
  assert (Hr : result_ok r).
  { destruct Hb' as (B1 & _ & B3 & B4 & _). unfold ts_ok in Ht.
    split_and!; cbn; try done; try (by eapply To4_length); [auto with nettools|unfold in_i64; lia]. }
  destruct (kuiniu_decode_encode_spec r (Salts.Get (cl_salts c) (Seq r)) (gp_msgLen p) Hr) as (_ & _ & Hdec & _).
  exists lp, sp, sender, (encode_result r (Salts.Get (cl_salts c) (Seq r)) (gp_msgLen p)).
  rewrite Hdec. split_and!; [done..|]. intros pkt now since Hdis. rewrite Hm in Hdis.
  assert (Hok1 : client_ok c (ws_world st')) by (rewrite Hw1; apply kuiniu_client_ok_update; [done|done|congruence]).
  destruct (kuiniu_handlePacket_echo c now since pkt (ws_world st') i p0 r u1
              (fresh_request lp sp (u64 (gp_seq p + 1)) (o_ts o))) as (bs & E & Hpr');
    [done|done|rewrite Er; by apply Equal_To4|done|rewrite Hw1, Es; apply lookup_insert_eq|done|done|done|done| |].
  - cbn. rewrite Hpr, Hs1. by rewrite decide_True.
  - rewrite Es in E. eexists _, _. split_and!; [exact E|cbn; apply lookup_insert_eq| |].
    + intros l Hl. rewrite Hw1. cbn. by rewrite !lookup_insert_ne by done.
    + intros j x. cbn [u_bkts set_bkts]. rewrite Hpr', Hs1, Hpr. cbn [Seq Ts r probe_fields]. by case_decide.
Qed.

End correct.

(** ** Witnesses *)

Module samples.

Import Toy.

Definition conf : Config :=
  mkConfig "" "" 3 RoleBoth ["10.0.0.1"; "10.0.1.1"] ["10.0.0.2"; "10.0.1.2"] 64 (mkPortRange 43600 43602)
    (mkPortRange 43600 43601) "" "" 5 1000 "1us" 3000 "3us" 48 0 0 "" false.

Definition empty_world : World := mkWorld ∅ 0 (NewProcessor 1000 3000).
Definition setup : Client * World :=
  default (mkClient conf (mkSalts [] [] [] [] 0) [], empty_world) (NewClient conf (fun _ => 41) empty_world).
Definition client : Client := setup.1.
Definition world : World := setup.2.

Lemma kuiniu_client_setup_ok : client_ok client world.
Proof.
  destruct (kuiniu_NewClient_ok conf (fun _ => 41) empty_world) as (c & w & E & Hok & _);
    [done|done|apply world_ok_empty|]. unfold client, world, setup. by rewrite E.
Qed.

Definition start : WState :=
  mkWState ((fun p => (p, first_book (cl_conf client))) <$> cl_peers client) 0 world [].
Definition outside : Outside := mkOutside 5000 0 true true.
Definition sent : WState :=
  (default (start, false) (send_probe (HG := toy) conf (cl_salts client) (gpuSenders client) 1 outside start)).1.
Definition the_peer : gpuPeer :=
  mkGpuPeer 1 (ParseIP_or_nil "10.0.1.1") (ParseIP_or_nil "10.0.1.2") 41 1 48 (mkPortRange 43600 43602)
    (mkPortRange 43600 43601) (kuiniu_client.packPorts 43600 43600).
Definition the_stat : udpStat :=
  NewStat "10.0.1.1" "10.0.1.2" (mkPortRange 43600 43602) (mkPortRange 43600 43601) 5 1000 3000 true.
Definition written : IP * bytes := default ([], []) (last (ws_out sent)).

Lemma remotes_distinct j q :
  cl_peers client !! j = Some q -> Equal (gp_remoteGPUIP q) [10; 0; 1; 2] = true -> j = 1%nat.
Proof.
  intros Hj He. assert (Hlen : length (cl_peers client) = 2%nat) by reflexivity.
  pose proof (lookup_lt_Some _ _ _ Hj) as Hlt. rewrite Hlen in Hlt.
  destruct j as [|[|j]]; [|done|lia]. exfalso. vm_compute in Hj. injection Hj as <-. vm_compute in He. done.
Qed.

End samples.

Lemma kuiniu_echo_completes_probe_witness :
  exists lp sp sender payload,
    gpuSenders samples.client !! 1%nat = Some sender /\
    transport.encodeUDPPacket (H := Toy.toy) (ParseIP_or_nil "10.0.1.1") (ParseIP_or_nil "10.0.1.2") lp sp
      (u8 (us_tos sender)) (us_ttl sender) payload = Some samples.written.2 /\
    samples.written.1 = ParseIP_or_nil "10.0.1.2" /\
    SrcIP (Decode payload) = [10; 0; 1; 1] /\ SrcPort (Decode payload) = lp /\ DstPort (Decode payload) = sp /\
    forall pkt now since, dissects (H := Toy.toy) pkt payload ->
      exists w' u',
        handlePacket (HG := Toy.toy) samples.client now since pkt (ws_world samples.sent) = Some w' /\
        w_stats w' !! 1%nat = Some u' /\
        (forall l, l <> 1%nat -> w_stats w' !! l = w_stats samples.world !! l) /\
        forall j x, probe (u_bkts u') j x =
          if decide ((j, x) = (5, 42))
          then Some (mkRequest lp sp 42 5000 (i64 (now - 5000)) false false)
          else probe (u_bkts samples.the_stat) j x.
Proof.
  apply (kuiniu_echo_completes_probe (HG := Toy.toy) samples.client samples.start samples.sent 1 samples.outside
    samples.the_peer samples.the_peer (first_book samples.conf) samples.the_stat [10; 0; 1; 1] [10; 0; 1; 2]
    samples.written);
    [exact samples.kuiniu_client_setup_ok|reflexivity|reflexivity|reflexivity
    |split_and!; cbn; try (by auto with nettools); unfold in_u32, in_u16; lia
    |reflexivity|reflexivity|exact samples.remotes_distinct|reflexivity|split; [discriminate|reflexivity]
    |reflexivity|vm_compute; reflexivity|vm_compute; reflexivity].
Defined.
