(* ===== verification/KuiniuServer.v ===== *)
(** * The kuiniu echo server ([kuiniu/server/server.go])

    The map from client GPU address to [Stat] and the store are the shared
    state [SState] of [UdpServer]; the double-checked lookup is the same. *)

From S2P Require Import Prelude GoStd GoNet Ports Bucket Buckets UdpStat Salts KuiniuCodec KuiniuConfig Goscapy World UdpServer KuiniuClient.
Import kuiniu_config.
Local Open Scope Z_scope.

(** [Server]: what is fixed after [New]. *)
Record Server := mkServer {
  sv_conf : Config;
  sv_salts : Salts;
  sv_localGPUSet : gset string
}.

(** The parameters of a new [Stat] for the local address [local]. *)
Definition stat_conf (c : Config) (local : string) : ServerConf :=
  mkServerConf local (RemoteGPUAddrs c) (ClientPortRange c) (ServerPortRange c) (RateInSpan c)
    (Span c) (Delay c) (MsgLen c).

(** [getOrCreateStat]; the first local address is read only to create, and an
    empty list panics. *)
Definition getOrCreateStat (conf : Config) (clientGPUIP : string) (s : SState) : option (nat * SState) :=
  match read_stat clientGPUIP s with
  | Some l => Some (l, s)
  | None =>
      match ss_stats s !! clientGPUIP with
      | Some l => Some (l, s)
      | None => local ← LocalGPUAddrs conf !! 0%nat; Some (create_stat (stat_conf conf local) clientGPUIP s)
      end
  end.

(** The loop of [New] over the configured clients from index [i] on. *)
Fixpoint prepare_clients (conf : Config) (addrs : list string) (i : nat) (s : SState) : option SState :=
  match addrs with
  | [] => Some s
  | addr :: addrs =>
      local ← LocalGPUAddrs conf !! i;
      let '(l, w) := new_stat (stat_conf conf local) addr (ss_world s) in
      prepare_clients conf addrs (S i) (mkSState (<[addr := l]> (ss_stats s)) w)
  end.

(** [New]. *)
Definition New (conf : Config) (w : World) : option (Server * SState) :=
  let conf := raise_MsgLen conf in
  salts ← NewSalts (MsgLen conf - Z.of_nat MsgHeaderLen);
  s ← prepare_clients conf (RemoteGPUAddrs conf) 0 (mkSState ∅ w);
  Some (mkServer conf salts (list_to_set (LocalGPUAddrs conf)), s).

(** The senders [Run] opens, one per local address. *)
Definition gpuSenders (conf : Config) : gmap nat UDPSender :=
  list_to_map (imap (fun i a => (i, mkUDPSender (ParseIP_or_nil a) (TOS conf) 64)) (LocalGPUAddrs conf)).

(** The datagram check: whether a bit flip is flagged. *)
Definition check_bitflip (s : Server) (sq : Z) (payload : bytes) : option bool :=
  if Z.of_nat (length payload) =? MsgLen (sv_conf s) then
    let salt := Salts.Get (sv_salts s) sq in
    if negb (bytes_equal salt (drop MsgHeaderLen payload))
    then _ ← mismatches MsgHeaderLen (drop MsgHeaderLen payload) salt; Some true
    else Some false
  else Some false.

Section server.
Context `{HG : Goscapy}.

(** [handlePacket] on the GPU [gpuIndex]; the two booleans answer for the
    socket of the echo. The new state and what is written, to whom. *)
Definition handlePacket (s : Server) (senders : gmap nat UDPSender) (gpuIndex : nat)
    (deadline_ok write_ok : bool) (rawPkt : bytes) (st : SState) : option (SState * list (IP * bytes)) :=
  match udp_payload rawPkt with
  | None => Some (st, [])
  | Some payload =>
      if negb (IsValid payload) then Some (st, [])
      else
        let r := Decode payload in
        let clientGPUIP := IP_String (SrcIP r) in
        if bool_decide (clientGPUIP ∈ sv_localGPUSet s) then Some (st, [])
        else
          hasBitflip ← check_bitflip s (Seq r) payload;
          '(l, st) ← getOrCreateStat (sv_conf s) clientGPUIP st;
          w ← call l (udpStat.ReceivedAndFix (Seq r) (Ts r) 0 (LastSentCount r) (LastStartSrcPort r)
                        (LastStartDstPort r) hasBitflip) (ss_world st);
          let st := mkSState (ss_stats st) w in
          match senders !! gpuIndex with
          | None => Some (st, [])
          | Some sender =>
              local ← LocalGPUAddrs (sv_conf s) !! gpuIndex;
              Some (st, option_list (transport.Send sender deadline_ok write_ok (ParseIP_or_nil local) (SrcIP r)
                                       (DstPort r) (SrcPort r) payload))
          end
  end.

(** A run of the receive loops: datagrams with the GPU they arrive on and the
    answers of the socket, in the order they are handled. *)
Fixpoint serve (s : Server) (senders : gmap nat UDPSender) (pkts : list (nat * bool * bool * bytes))
    (st : SState) : option (SState * list (IP * bytes)) :=
  match pkts with
  | [] => Some (st, [])
  | (g, d, wr, pkt) :: pkts =>
      '(st, out) ← handlePacket s senders g d wr pkt st;
      '(st, out') ← serve s senders pkts st;
      Some (st, out ++ out')
  end.

End server.

(** ** Invariant *)

Record config_ok (s : Server) : Prop := {
  sco_msglen : Z.of_nat MsgHeaderLen <= MsgLen (sv_conf s);
  sco_salts : NewSalts (MsgLen (sv_conf s) - Z.of_nat MsgHeaderLen) = Some (sv_salts s);
  sco_span : 0 < Span (sv_conf s);
  sco_locals : LocalGPUAddrs (sv_conf s) <> []
}.

(** A full-length probe whose padding is not its salt. *)
Definition corrupted (s : Server) (payload : bytes) : Prop :=
  Z.of_nat (length payload) = MsgLen (sv_conf s) /\
  drop MsgHeaderLen payload <> Salts.Get (sv_salts s) (Seq (Decode payload)).

Lemma kuiniu_check_bitflip_spec s payload :
  config_ok s ->
  exists bf, check_bitflip s (Seq (Decode payload)) payload = Some bf /\ (bf = true <-> corrupted s payload).
Proof.
  intros [Hm Hs _ _]. unfold check_bitflip, corrupted. set (salt := Salts.Get _ _).
  destruct (Z.eqb_spec (Z.of_nat (length payload)) (MsgLen (sv_conf s))) as [Hl|Hl].
  2: { exists false. split; [done|]. split; [done|tauto]. }
  unfold bytes_equal. case_bool_decide as Heq; cbn [negb].
  { exists false. split; [done|]. split; [done|]. intros [_ Hne]. by rewrite Heq in Hne. }
  destruct (server_mismatches_total MsgHeaderLen (drop MsgHeaderLen payload) salt) as [l ->].
  { unfold salt. rewrite (NewSalts_length _ _ _ Hs), length_drop. lia. }
  exists true. split; [done|]. split; [|done]. intros _. split; [done|congruence].
Qed.

(** The invariant of [UdpServer] only depends on the span. *)
Lemma server_ok_conf c c' st : sc_Span c = sc_Span c' -> server_ok c st -> server_ok c' st.
Proof. intros E [H1 H2 H3]. split; [done| |done]. by rewrite <- E. Qed.

Definition shared_ok (s : Server) (st : SState) : Prop := server_ok (stat_conf (sv_conf s) "") st.

(** The weaker invariant that any datagram keeps. *)
Definition shared_wf (s : Server) (st : SState) : Prop := server_wf (stat_conf (sv_conf s) "") st.

Lemma shared_ok_wf s st : shared_ok s st -> shared_wf s st.
Proof. apply server_ok_wf. Qed.

Lemma server_wf_conf c c' st : sc_Span c = sc_Span c' -> server_wf c st -> server_wf c' st.
Proof. intros E [H1 H2 H3]. split; [done| |done]. by rewrite <- E. Qed.

(** The double-checked lookup is the one of [UdpServer]. *)
Lemma getOrCreateStat_udp conf local k st :
  LocalGPUAddrs conf !! 0%nat = Some local ->
  getOrCreateStat conf k st = Some (UdpServer.getOrCreateStat (stat_conf conf local) k st).
Proof.
  intros E. unfold getOrCreateStat, UdpServer.getOrCreateStat, read_stat.
  destruct (ss_stats st !! k); [done|]. by rewrite E.
Qed.

Lemma getOrCreateStat_wf s k st :
  config_ok s -> shared_wf s st ->
  exists l st', getOrCreateStat (sv_conf s) k st = Some (l, st') /\ shared_wf s st' /\
    (shared_ok s st -> shared_ok s st') /\ ss_stats st' !! k = Some l /\
    (forall k', k' <> k -> ss_stats st' !! k' = ss_stats st !! k').
Proof.
  intros [_ _ Hs Hne] Hwf. destruct (LocalGPUAddrs (sv_conf s)) as [|local ls] eqn:E; [done|].
  rewrite (getOrCreateStat_udp _ local) by (by rewrite E). rewrite getOrCreateStat_create.
  pose proof (create_stat_ok (stat_conf (sv_conf s) local) k st Hs) as Hok.
  pose proof (create_stat_wf (stat_conf (sv_conf s) local) k st) as Hc.
  destruct (create_stat _ k st) as [l st'].
  destruct Hc as (H1 & H2 & H3); [by eapply server_wf_conf; [|exact Hwf]|].
  exists l, st'. split_and!; [done|by eapply server_wf_conf; [|exact H1]| |done|done].
  intros Hst. destruct Hok as (H & _); by (eapply server_ok_conf; [|done]).
Qed.

(** The effect of the record on the probes, for any timestamp: nothing panics
    and only the entry of the probe changes; it has no ports of its own. *)
Lemma fix_recorded u sq t rt cnt lsp ldp bf i :
  go_div t (bs_span (u_bkts u)) = Some i ->
  exists u', udpStat.ReceivedAndFix sq t rt cnt lsp ldp bf u = Some u' /\
    u_span u' = u_span u /\ bs_span (u_bkts u') = bs_span (u_bkts u) /\
    (udpStat_ok u -> ts_ok t -> udpStat_ok u') /\
    forall j x, probe (u_bkts u') j x =
      if decide ((i, sq) = (j, x))
      then Some (from_option (bucket.mark_received rt bf) (mkRequest 0 0 sq 0 rt bf false)
                   (probe (u_bkts u) i sq))
      else probe (u_bkts u) j x.
Proof.
  intros Hi. destruct (receivedAndFix_any sq t rt cnt lsp ldp bf (u_bkts u) i Hi) as (bs & E & S & P).
  exists (set_bkts bs u). unfold udpStat.ReceivedAndFix. rewrite E. split_and!; [done|done|done| |exact P].
  intros Hu Ht.
  destruct (op_step (Buckets.ReceivedAndFix sq t rt cnt lsp ldp bf) u Hu Ht) as (bs' & E' & Hu' & _).
  by assert (bs' = bs) as -> by (cbn [exec] in E'; congruence).
Qed.

Lemma kuiniu_prepare_clients_ok conf addrs i s :
  0 < Span conf -> (i + length addrs <= length (LocalGPUAddrs conf))%nat ->
  server_ok (stat_conf conf "") s ->
  exists s', prepare_clients conf addrs i s = Some s' /\ server_ok (stat_conf conf "") s'.
Proof.
  intros Hs. revert i s. induction addrs as [|a addrs IH]; intros i s Hi Hok; cbn [prepare_clients length] in *.
  { by exists s. }
  destruct (lookup_lt_is_Some_2 (LocalGPUAddrs conf) i) as [local ->]; [lia|]. cbn [mbind option_bind].
  pose proof (new_stat_ok (stat_conf conf local) a a s Hs) as Hn.
  destruct (new_stat _ a _) as [l w]. apply IH; [lia|].
  eapply server_ok_conf; [|apply Hn]; [done|]. by eapply server_ok_conf; [|exact Hok].
Qed.

Section correct.
Context `{HG : Goscapy}.

(** The echo of a probe: the payload unchanged, back to the address and ports
    it claims to come from. *)
Definition is_echo (s : Server) (senders : gmap nat UDPSender) (g : nat) (payload : bytes)
    (out : list (IP * bytes)) : Prop :=
  let r := Decode payload in
  exists sender local data,
    senders !! g = Some sender /\ LocalGPUAddrs (sv_conf s) !! g = Some local /\
    transport.encodeUDPPacket (ParseIP_or_nil local) (SrcIP r) (DstPort r) (SrcPort r) (u8 (us_tos sender))
      (us_ttl sender) payload = Some data /\
    out = [(SrcIP r, data)].

(** The case of a probe from another machine, whatever send time it claims. *)
Lemma handlePacket_probe s senders g d wr pkt payload st :
  config_ok s -> shared_wf s st -> (g < length (LocalGPUAddrs (sv_conf s)))%nat ->
  udp_payload pkt = Some payload -> IsValid payload = true ->
  IP_String (SrcIP (Decode payload)) ∉ sv_localGPUSet s ->
  exists st0 l u u' i bf out,
    let r := Decode payload in
    let st' := mkSState (ss_stats st0) (mkWorld (<[l := u']> (w_stats (ss_world st0)))
                 (w_next (ss_world st0)) (w_proc (ss_world st0))) in
    getOrCreateStat (sv_conf s) (IP_String (SrcIP r)) st = Some (l, st0) /\
    ss_stats st0 !! IP_String (SrcIP r) = Some l /\
    (forall k, k <> IP_String (SrcIP r) -> ss_stats st0 !! k = ss_stats st !! k) /\
    w_stats (ss_world st0) !! l = Some u /\ go_div (Ts r) (Span (sv_conf s)) = Some i /\
    (bf = true <-> corrupted s payload) /\
    (forall j x, probe (u_bkts u') j x =
      if decide ((i, Seq r) = (j, x))
      then Some (from_option (bucket.mark_received 0 bf) (mkRequest 0 0 (Seq r) 0 0 bf false)
                   (probe (u_bkts u) i (Seq r)))
      else probe (u_bkts u) j x) /\
    shared_wf s st' /\ (shared_ok s st -> ts_ok (Ts r) -> shared_ok s st') /\
    handlePacket s senders g d wr pkt st = Some (st', out) /\
    (out = [] \/ is_echo s senders g payload out) /\
    (d = true -> wr = true -> forall sender local data,
       senders !! g = Some sender -> LocalGPUAddrs (sv_conf s) !! g = Some local ->
       transport.encodeUDPPacket (ParseIP_or_nil local) (SrcIP r) (DstPort r) (SrcPort r) (u8 (us_tos sender))
         (us_ttl sender) payload = Some data -> out = [(SrcIP r, data)]).
Proof.
  intros Hc Hwf Hg Hpl Hv Hnot. unfold handlePacket. rewrite Hpl, Hv. cbn [negb].
  rewrite bool_decide_eq_false_2 by done.
  destruct (kuiniu_check_bitflip_spec s payload Hc) as (bf & -> & Hbf). cbn [mbind option_bind].
  set (r := Decode payload) in *.
  destruct (getOrCreateStat_wf s (IP_String (SrcIP r)) st Hc Hwf) as (l & st0 & -> & Hwf0 & Hok0 & Hl & Hoth).
  cbn [mbind option_bind].
  destruct (swf_stats _ _ Hwf0 _ _ Hl) as (u & Hu & Hsp). cbn [sc_Span stat_conf] in Hsp.
  pose proof (go_div_total (Ts r) _ (sco_span s Hc)) as Hi. set (i := i64 _) in Hi.
  destruct (fix_recorded u (Seq r) (Ts r) 0 (LastSentCount r) (LastStartSrcPort r) (LastStartDstPort r) bf i)
    as (u' & E & Hcf & Hsp' & Hu' & Hpr); [by rewrite Hsp|].
  rewrite (call_spec _ _ _ u u') by done. cbn [mbind option_bind].
  destruct (lookup_lt_is_Some_2 _ _ Hg) as [local Hlocal].
  exists st0, l, u, u', i, bf.
  set (out := match senders !! g with
              | None => []
              | Some sender => option_list (transport.Send sender d wr (ParseIP_or_nil local) (SrcIP r)
                                 (DstPort r) (SrcPort r) payload) end).
  exists out. cbn zeta. split_and!; try done.
  - by eapply server_wf_update.
  - intros Hok Ht. eapply server_ok_update; [by apply Hok0|exact Hu| |done].
    apply Hu'; [|done]. apply (wok_stats _ (sok_world _ _ (Hok0 Hok)) _ _ Hu).
  - unfold out. destruct (senders !! g) as [sender|] eqn:Es; [|done]. rewrite Hlocal. done.
  - unfold out. destruct (senders !! g) as [sender|] eqn:Es; [|by left]. unfold transport.Send.
    destruct (transport.encodeUDPPacket _ _ _ _ _ _ _) as [data|] eqn:Ee; cbn [mbind option_bind]; [|by left].
    destruct (negb d); [by left|]. destruct wr; [|by left]. right. by exists sender, local, data.
  - intros -> -> sender local' data Es El Ee. assert (local' = local) as -> by congruence.
    unfold out. rewrite Es. unfold transport.Send. by rewrite Ee.
Qed.

(** Everything else is ignored. *)
Lemma handlePacket_ignored s senders g d wr pkt st :
  (forall payload, udp_payload pkt = Some payload -> IsValid payload = true ->
     IP_String (SrcIP (Decode payload)) ∈ sv_localGPUSet s) ->
  handlePacket s senders g d wr pkt st = Some (st, []).
Proof.
  intros H. unfold handlePacket. destruct (udp_payload pkt) as [payload|]; [|done].
  destruct (IsValid payload) eqn:Ev; [|done]. cbn [negb].
  by rewrite bool_decide_eq_true_2 by (apply H; done).
Qed.

(** C26: one datagram on a GPU of a kuiniu server with a positive span and
    salts that fit its message length, whatever bytes it holds: nothing panics
    and the map of clients stays well formed (a distinct, allocated [Stat] of
    the configured span per client). A probe of another machine is recorded as
    received in the [Stat] of the GPU it names, with the bit-flip flag telling
    exactly whether its padding was corrupted, and the payload goes back
    unchanged to that GPU with the ports swapped if the socket takes it;
    anything else, in particular the machine's own probes, is neither recorded
    nor answered, so in role [both] no echo is ever echoed again. The send
    time is taken from the payload: if it is not negative, the record is in
    the span of that time and the full invariant of the statistics is kept; a
    negative one, which [IsValid] lets pass, is recorded in the span the
    truncated division gives and may break that invariant. *)
Theorem kuiniu_server_echoes_and_records :
  forall s senders g d wr pkt st,
    config_ok s -> shared_wf s st -> (g < length (LocalGPUAddrs (sv_conf s)))%nat ->
    exists st' out,
      handlePacket s senders g d wr pkt st = Some (st', out) /\ shared_wf s st' /\
      (shared_ok s st ->
       (forall payload, udp_payload pkt = Some payload -> IsValid payload = true -> ts_ok (Ts (Decode payload))) ->
       shared_ok s st') /\
      Forall (fun w => IP_String w.1 ∉ sv_localGPUSet s) out /\
      ((st' = st /\ out = [] /\
        forall payload, udp_payload pkt = Some payload -> IsValid payload = true ->
          IP_String (SrcIP (Decode payload)) ∈ sv_localGPUSet s) \/
       exists payload l u i rq bf,
         let r := Decode payload in
         udp_payload pkt = Some payload /\ IsValid payload = true /\
         IP_String (SrcIP r) ∉ sv_localGPUSet s /\
         ss_stats st' !! IP_String (SrcIP r) = Some l /\ w_stats (ss_world st') !! l = Some u /\
         go_div (Ts r) (Span (sv_conf s)) = Some i /\ (ts_ok (Ts r) -> i = Ts r / Span (sv_conf s)) /\
         probe (u_bkts u) i (Seq r) = Some rq /\ r_rtt rq = 0 /\
         r_hasBitflip rq = bf /\ (bf = true <-> corrupted s payload) /\
         (forall k, k <> IP_String (SrcIP r) -> ss_stats st' !! k = ss_stats st !! k) /\
         (out = [] \/ is_echo s senders g payload out) /\
         (d = true -> wr = true -> forall sender local data,
            senders !! g = Some sender -> LocalGPUAddrs (sv_conf s) !! g = Some local ->
            transport.encodeUDPPacket (ParseIP_or_nil local) (SrcIP r) (DstPort r) (SrcPort r)
              (u8 (us_tos sender)) (us_ttl sender) payload = Some data -> out = [(SrcIP r, data)])).
Proof.
  intros s senders g d wr pkt st Hc Hwf Hg.
  destruct (udp_payload pkt) as [payload|] eqn:Hpl.
  2: { exists st, []. split_and!; [apply handlePacket_ignored; congruence|done|done|done|left; split_and!; done]. }
  destruct (IsValid payload) eqn:Hv.
  2: { exists st, []. split_and!; [apply handlePacket_ignored; congruence|done|done|done|left; split_and!; congruence]. }
  destruct (decide (IP_String (SrcIP (Decode payload)) ∈ sv_localGPUSet s)) as [Hin|Hnot].
  { exists st, []. split_and!; [apply handlePacket_ignored; congruence|done|done|done|left; split_and!; congruence]. }
  destruct (handlePacket_probe s senders g d wr pkt payload st Hc Hwf Hg Hpl Hv Hnot)
    as (st0 & l & u & u' & i & bf & out & _ & Hl & Hoth & Hu & Hi & Hbf & Hpr & Hwf' & Hok' & E & Hecho & Hwrite).
  eexists _, out. split_and!; [exact E|done| | |].
  - intros Hok Hts. apply Hok'; [done|]. by apply Hts.
  - destruct Hecho as [->|(sender & local & data & _ & _ & _ & ->)]; [done|by apply Forall_singleton].
  - right. eexists payload, l, u', i, _, bf. cbn zeta. cbn [ss_stats ss_world w_stats].
    pose proof (sco_span s Hc).
    split_and!; [done|done|done|done|apply lookup_insert_eq|done|intros Ht; by apply span_of_ts
      |rewrite Hpr, decide_True by done; reflexivity| | |done..];
      by destruct (probe (u_bkts u) _ _).
Qed.

(** ** The ports of the server's records *)

(** No record of a client's [Stat] knows its ports. *)
Definition portless (st : SState) : Prop :=
  forall k l u i x r, ss_stats st !! k = Some l -> w_stats (ss_world st) !! l = Some u ->
    probe (u_bkts u) i x = Some r -> r_clientPort r = 0.

Lemma portless_new_stat conf a st :
  portless st -> server_wf (stat_conf conf "") st ->
  forall local, let '(l, w) := new_stat (stat_conf conf local) a (ss_world st) in
  portless (mkSState (<[a := l]> (ss_stats st)) w).
Proof.
  intros Hp Hok local. unfold new_stat, register. intros k l u i x r Hk Hl Hr. cbn in Hk, Hl.
  apply lookup_insert_Some in Hk as [[<- <-]|[Hne Hk]].
  - rewrite lookup_insert_eq in Hl. injection Hl as <-. unfold probe in Hr. cbn in Hr.
    by rewrite lookup_empty in Hr.
  - apply (swf_old _ _ Hok) in Hk as Hlt.
    rewrite lookup_insert_ne in Hl by lia. exact (Hp _ _ _ _ _ _ Hk Hl Hr).
Qed.

Lemma portless_getOrCreate s k st l st' :
  config_ok s -> shared_wf s st -> portless st ->
  getOrCreateStat (sv_conf s) k st = Some (l, st') -> portless st'.
Proof.
  intros Hc Hok Hp. unfold getOrCreateStat, read_stat, create_stat.
  destruct (ss_stats st !! k) as [l0|]; [by intros [= <- <-]|].
  destruct (LocalGPUAddrs (sv_conf s) !! 0%nat) as [local|]; [cbn [mbind option_bind]|done].
  pose proof (portless_new_stat (sv_conf s) k st Hp Hok local) as Hn.
  destruct (new_stat _ k _) as [l1 w]. by intros [= <- <-].
Qed.

Lemma portless_handlePacket s senders g d wr pkt st st' out :
  config_ok s -> shared_wf s st -> portless st -> (g < length (LocalGPUAddrs (sv_conf s)))%nat ->
  handlePacket s senders g d wr pkt st = Some (st', out) -> shared_wf s st' /\ portless st'.
Proof.
  intros Hc Hok Hp Hg E.
  destruct (udp_payload pkt) as [payload|] eqn:Hpl.
  2: { rewrite handlePacket_ignored in E by congruence. by injection E as <- _. }
  destruct (IsValid payload) eqn:Hv.
  2: { rewrite handlePacket_ignored in E by congruence. by injection E as <- _. }
  destruct (decide (IP_String (SrcIP (Decode payload)) ∈ sv_localGPUSet s)) as [Hin|Hnot].
  { rewrite handlePacket_ignored in E by congruence. by injection E as <- _. }
  destruct (handlePacket_probe s senders g d wr pkt payload st Hc Hok Hg Hpl Hv Hnot)
    as (st0 & l & u & u' & i0 & bf & out' & Hget & Hl & _ & Hu & _ & _ & Hpr & Hok' & _ & E' & _).
  rewrite E' in E. injection E as <- _. split; [done|].
  pose proof (portless_getOrCreate _ _ _ _ _ Hc Hok Hp Hget) as Hp0.
  intros k l' u1 i x r Hk Hl' Hr. cbn [ss_stats ss_world w_stats] in Hk, Hl'.
  destruct (decide (l' = l)) as [->|Hne].
  - rewrite lookup_insert_eq in Hl'. injection Hl' as <-. rewrite Hpr in Hr. case_decide.
    + destruct (probe (u_bkts u) _ _) as [r0|] eqn:Er0; injection Hr as <-; [|done]. cbn.
      exact (Hp0 _ _ _ _ _ _ Hk Hu Er0).
    + exact (Hp0 _ _ _ _ _ _ Hk Hu Hr).
  - rewrite lookup_insert_ne in Hl' by done. exact (Hp0 _ _ _ _ _ _ Hk Hl' Hr).
Qed.

Lemma received_pairs_nil b :
  (forall x r, b_requests b !! x = Some r -> r_clientPort r = 0) -> udpStat.received_pairs b = [].
Proof.
  intros H. unfold udpStat.received_pairs.
  destruct (List.filter _ _) as [|r l] eqn:E; [done|]. exfalso.
  assert (Hr : List.In r (r :: l)) by (by left). rewrite <- E in Hr.
  apply filter_In in Hr as [Hr%list_elem_of_In Hf].
  apply list_elem_of_fmap in Hr as ([x r'] & -> & Hx).
  apply elem_of_map_to_list, H in Hx. cbn in Hf. rewrite Hx in Hf. by rewrite andb_false_r in Hf.
Qed.

Lemma portless_serve s senders pkts st st' out :
  config_ok s -> shared_wf s st -> portless st ->
  Forall (fun a => (a.1.1.1 < length (LocalGPUAddrs (sv_conf s)))%nat) pkts ->
  serve s senders pkts st = Some (st', out) -> portless st'.
Proof.
  intros Hc Hok Hp Hall. revert st out Hok Hp. induction Hall as [|[[[g d] wr] pkt] pkts Hg _ IH];
    intros st out Hok Hp; cbn [serve]; [by intros [= <- _]|].
  destruct (handlePacket s senders g d wr pkt st) as [[st1 out1]|] eqn:E; [cbn [mbind option_bind]|done].
  destruct (portless_handlePacket _ _ _ _ _ _ _ _ _ Hc Hok Hp Hg E) as [Hok1 Hp1].
  destruct (serve s senders pkts st1) as [[st2 out2]|] eqn:E2; [cbn [mbind option_bind]|done].
  intros [= <- _]. by eapply IH.
Qed.

Lemma prepare_clients_portless conf addrs i s s' :
  0 < Span conf -> server_ok (stat_conf conf "") s -> portless s ->
  prepare_clients conf addrs i s = Some s' -> portless s'.
Proof.
  intros Hs. revert i s. induction addrs as [|a addrs IH]; intros i s Hok Hp; cbn [prepare_clients].
  { by intros [= <-]. }
  destruct (LocalGPUAddrs conf !! i) as [local|]; [cbn [mbind option_bind]|done].
  pose proof (new_stat_ok (stat_conf conf local) a a s Hs ltac:(by eapply server_ok_conf; [|exact Hok])) as Hn.
  pose proof (portless_new_stat conf a s Hp (server_ok_wf _ _ Hok) local) as Hn'.
  destruct (new_stat _ a _) as [l w]. apply IH; [by eapply server_ok_conf; [|exact Hn]|done].
Qed.

(** What [New] establishes on a validated configuration with a positive
    span. *)
Lemma kuiniu_New_ok conf w :
  0 < Span conf -> LocalGPUAddrs conf <> [] ->
  length (LocalGPUAddrs conf) = length (RemoteGPUAddrs conf) -> world_ok w ->
  exists s st, New conf w = Some (s, st) /\ config_ok s /\ shared_ok s st /\ portless st /\
    LocalGPUAddrs (sv_conf s) = LocalGPUAddrs conf /\ sv_localGPUSet s = list_to_set (LocalGPUAddrs conf).
Proof.
  intros Hs Hne Hlen Hw. unfold New, raise_MsgLen. set (conf' := if MsgLen conf <? _ then _ else conf).
  assert (Span conf' = Span conf /\ LocalGPUAddrs conf' = LocalGPUAddrs conf /\
          RemoteGPUAddrs conf' = RemoteGPUAddrs conf /\ Z.of_nat MsgHeaderLen <= MsgLen conf') as (Hs' & Hl & Hr & Hm)
    by (unfold conf'; destruct (Z.ltb_spec (MsgLen conf) (Z.of_nat MsgHeaderLen)); cbn; auto with lia).
  destruct (NewSalts_spec (MsgLen conf' - Z.of_nat MsgHeaderLen)) as (salts & _ & E & _); [lia|].
  rewrite E. cbn [mbind option_bind].
  assert (Hok0 : server_ok (stat_conf conf' "") (mkSState ∅ w)) by (by apply server_ok_empty).
  destruct (kuiniu_prepare_clients_ok conf' (RemoteGPUAddrs conf') 0 (mkSState ∅ w)) as (st & Est & Hst);
    [lia|rewrite Hl, Hr; lia|done|].
  assert (Hp : portless st).
  { eapply prepare_clients_portless; [|exact Hok0| |exact Est]; [lia|].
    intros k l u i x r Hk. cbn in Hk. by rewrite lookup_empty in Hk. }
  rewrite Est. cbn [mbind option_bind]. eexists _, st. split_and!; [reflexivity| |done|done|done|cbn [sv_localGPUSet]; by rewrite Hl].
  split; [exact Hm|exact E|rewrite <- Hs' in Hs; exact Hs|cbn [sv_conf]; by rewrite Hl].
Qed.

(** The server's per-pair loss report is void: the server never calls
    [Put], so none of its records knows its ports, and whatever datagrams a new
    server has handled, once a client has announced a span every expected port
    pair of it is reported lost as often as it was expected, however many of
    its probes arrived. *)
Theorem kuiniu_server_reports_every_pair_lost :
  forall conf w s0 st0 senders pkts st out k l u i b cp sp,
    0 < Span conf -> LocalGPUAddrs conf <> [] ->
    length (LocalGPUAddrs conf) = length (RemoteGPUAddrs conf) -> world_ok w ->
    New conf w = Some (s0, st0) ->
    Forall (fun a => (a.1.1.1 < length (LocalGPUAddrs conf))%nat) pkts ->
    serve s0 senders pkts st0 = Some (st, out) ->
    ss_stats st !! k = Some l -> w_stats (ss_world st) !! l = Some u ->
    bs_buckets (u_bkts u) !! i = Some b ->
    b_packetCountFixed b = true -> b_packetCount b <> 0 -> 0 <= b_startSrcPort b ->
    (b_startSrcPort b, b_startDstPort b) <> (0, 0) -> 0 <= cp ->
    let e := occurrences (cp, sp) (pairs_after (Z.to_nat (b_packetCount b)) (u_clientPortRange u)
               (u_serverPortRange u) (b_startSrcPort b, b_startDstPort b)) in
    (udpStat.computeServerLossPorts u b).2 !! port_key cp sp = if 0 <? e then Some e else None.
Proof.
  intros conf w s0 st0 senders pkts st out k l u i b cp sp Hs Hne Hlen Hw Hnew Hall Hserve Hk Hl Hb
    Hf Hn Hsrc Hp Hcp. cbn zeta.
  destruct (kuiniu_New_ok conf w Hs Hne Hlen Hw) as (s' & st' & E & Hc & Hok & Hpl & Hloc & _).
  rewrite E in Hnew. injection Hnew as -> ->. rewrite <- Hloc in Hall.
  pose proof (portless_serve _ _ _ _ _ _ Hc (shared_ok_wf _ _ Hok) Hpl Hall Hserve) as Hfin.
  rewrite server_loss_lookup by done. rewrite (received_pairs_nil b).
  - cbn [occurrences List.filter length]. by rewrite Z.sub_0_r.
  - intros x r Hr. refine (Hfin k l u i x r Hk Hl _). unfold probe. by rewrite Hb.
Qed.

End correct.

(** ** Witnesses *)

Module samples.

Import Toy.

Definition conf : Config := KuiniuClient.samples.conf.
Definition empty_world : World := KuiniuClient.samples.empty_world.
Definition setup : Server * SState :=
  default (mkServer conf (mkSalts [] [] [] [] 0) ∅, mkSState ∅ empty_world) (New conf empty_world).
Definition server : Server := setup.1.
Definition state : SState := setup.2.

Lemma kuiniu_server_setup_ok : config_ok server /\ shared_ok server state.
Proof.
  destruct (kuiniu_New_ok conf empty_world) as (s & st & E & Hc & Hok & _); [done|done|done|apply world_ok_empty|].
  unfold server, state, setup. by rewrite E.
Qed.

(** The only probe of span 5, and a probe of span 6 that announces it. *)
Definition probe5 : DecodeResult := mkDecodeResult 8 5000 5 [10; 0; 0; 2] [10; 0; 0; 1] 43600 43601 43600 43600.
Definition probe6 : DecodeResult := mkDecodeResult 9 6000 1 [10; 0; 0; 2] [10; 0; 0; 1] 43601 43601 43600 43600.
Definition datagram (r : DecodeResult) : bytes :=
  make_bytes 8 ++ encode_result r (Salts.Get (sv_salts server) (Seq r)) 48.
Definition pkts : list (nat * bool * bool * bytes) :=
  [(0%nat, true, true, datagram probe5); (0%nat, true, true, datagram probe6)].
Definition served : SState * list (IP * bytes) :=
  default (state, []) (serve (HG := toy) server (gpuSenders conf) pkts state).
Definition the_stat : udpStat :=
  default (NewStat "" "" (mkPortRange 0 0) (mkPortRange 0 0) 0 1 0 true) (w_stats (ss_world served.1) !! 0%nat).
Definition span5 : bucket := default (newBucket 0 0 0 true) (bs_buckets (u_bkts the_stat) !! 5).

End samples.

Lemma kuiniu_server_echoes_and_records_witness :
  exists st' out,
    handlePacket (HG := Toy.toy) samples.server (gpuSenders samples.conf) 0 true true
      (samples.datagram samples.probe5) samples.state = Some (st', out) /\
    shared_wf samples.server st' /\
    (shared_ok samples.server samples.state ->
     (forall payload, udp_payload (H := Toy.toy) (samples.datagram samples.probe5) = Some payload ->
        IsValid payload = true -> ts_ok (Ts (Decode payload))) -> shared_ok samples.server st') /\
    Forall (fun w => IP_String w.1 ∉ sv_localGPUSet samples.server) out /\
    ((st' = samples.state /\ out = [] /\
      forall payload, udp_payload (H := Toy.toy) (samples.datagram samples.probe5) = Some payload ->
        IsValid payload = true -> IP_String (SrcIP (Decode payload)) ∈ sv_localGPUSet samples.server) \/
     exists payload l u i rq bf,
       let r := Decode payload in
       udp_payload (H := Toy.toy) (samples.datagram samples.probe5) = Some payload /\ IsValid payload = true /\
       IP_String (SrcIP r) ∉ sv_localGPUSet samples.server /\
       ss_stats st' !! IP_String (SrcIP r) = Some l /\ w_stats (ss_world st') !! l = Some u /\
       go_div (Ts r) 1000 = Some i /\ (ts_ok (Ts r) -> i = Ts r / 1000) /\
       probe (u_bkts u) i (Seq r) = Some rq /\ r_rtt rq = 0 /\
       r_hasBitflip rq = bf /\ (bf = true <-> corrupted samples.server payload) /\
       (forall k, k <> IP_String (SrcIP r) -> ss_stats st' !! k = ss_stats samples.state !! k) /\
       (out = [] \/ is_echo (HG := Toy.toy) samples.server (gpuSenders samples.conf) 0 payload out) /\
       (true = true -> true = true -> forall sender local data,
          gpuSenders samples.conf !! 0%nat = Some sender ->
          LocalGPUAddrs (sv_conf samples.server) !! 0%nat = Some local ->
          transport.encodeUDPPacket (H := Toy.toy) (ParseIP_or_nil local) (SrcIP r) (DstPort r) (SrcPort r)
            (u8 (us_tos sender)) (us_ttl sender) payload = Some data -> out = [(SrcIP r, data)])).
Proof.
  apply (kuiniu_server_echoes_and_records (HG := Toy.toy) samples.server (gpuSenders samples.conf) 0 true true
    (samples.datagram samples.probe5) samples.state (proj1 samples.kuiniu_server_setup_ok)
    (shared_ok_wf _ _ (proj2 samples.kuiniu_server_setup_ok))).
  apply Nat.ltb_lt; reflexivity.
Defined.

(** The probe of span 5 arrived; its pair is reported lost. *)
Lemma kuiniu_server_reports_every_pair_lost_witness :
  r_rtt <$> probe (u_bkts samples.the_stat) 5 8 = Some 0 /\
  (udpStat.computeServerLossPorts samples.the_stat samples.span5).2 !! port_key 43600 43601 = Some 1.
Proof.
  split; [vm_compute; reflexivity|].
  rewrite (kuiniu_server_reports_every_pair_lost (HG := Toy.toy) samples.conf samples.empty_world samples.server
    samples.state (gpuSenders samples.conf) samples.pkts samples.served.1 samples.served.2 "10.0.0.2" 0
    samples.the_stat 5 samples.span5 43600 43601);
    [vm_compute; reflexivity|reflexivity|discriminate|reflexivity|apply world_ok_empty|reflexivity|
    |vm_compute; reflexivity|vm_compute; reflexivity|vm_compute; reflexivity|vm_compute; reflexivity
    |vm_compute; reflexivity|vm_compute; discriminate|vm_compute; discriminate|vm_compute; discriminate
    |discriminate].
  repeat (apply Forall_cons; split; [apply Nat.ltb_lt; reflexivity|]); constructor.
Defined.
