(* ===== verification/Lidar.v ===== *)
(** * The TCP SYN prober ([lidar/config.go], [lidar/scanner.go])

    Every round sends one SYN per target from the current local port; the TCP
    sequence number is the probe's number, and the number acknowledged by an
    answer tells which target and which probe it belongs to. *)

From S2P Require Import Prelude GoStd GoNet GoDuration StateErr Ports Bucket Buckets UdpStat Goscapy World.
Local Open Scope Z_scope.

(** ** Configuration *)

Module lidar_config.

Local Open Scope se_scope.

(** [Config]. *)
Record Config := mkConfig {
  TargetAddrs : list string;
  ServerPort : Z;
  LocalAddr : string;
  LocalPort : Z;
  LocalPortCount : Z;
  Rate : Z;
  Span : Z;
  Delay : Z;
  Count : Z;
  SendDuration : Z;
  Interface : string;
  Verbose : bool
}.

Definition set_LocalAddr (a : string) (c : Config) : Config :=
  mkConfig (TargetAddrs c) (ServerPort c) a (LocalPort c) (LocalPortCount c) (Rate c) (Span c)
    (Delay c) (Count c) (SendDuration c) (Interface c) (Verbose c).

Inductive resolve_error :=
| ErrHostname
| ErrLookup (host : string)
| ErrNoAddress (host : string).

Inductive error :=
| ErrNoTarget
| ErrTarget (a : string)
| ErrResolve (e : resolve_error)
| ErrLocalAddr (a : string).

(** [resolveLocalIP]. *)
Definition resolveLocalIP (h : Host) : string + resolve_error :=
  match Hostname h with
  | None => inr ErrHostname
  | Some hostname =>
      match LookupHost h hostname with
      | None => inr (ErrLookup hostname)
      | Some addrs =>
          match List.find (fun addr => match ParseIP addr with
                                       | Some ip => bool_decide (is_Some (To4 ip)) && negb (IsLoopback ip)
                                       | None => false
                                       end) addrs with
          | Some addr => inl addr
          | None => match addrs with
                    | addr :: _ => inl addr
                    | [] => inr (ErrNoAddress hostname)
                    end
          end
      end
  end.

Definition or_default (n d : Z) : Z := if n =? 0 then d else n.

(** The defaults of [Validate]. *)
Definition fill_defaults (c : Config) : Config :=
  mkConfig (TargetAddrs c) (or_default (ServerPort c) 447) (LocalAddr c) (or_default (LocalPort c) 54321)
    (or_default (LocalPortCount c) 100) (or_default (Rate c) 10000) (or_default (Span c) Second)
    (or_default (Delay c) (3 * Second)) (Count c) (SendDuration c) (Interface c) (Verbose c).

(** [Config.Validate]. *)
Definition Validate (h : Host) : SE Config error unit :=
  c <-- get;;
  check (bool_decide (TargetAddrs c = [])) ErrNoTarget;;;
  for_each (TargetAddrs c) (fun a => check (not_ipv4 a) (ErrTarget a));;;
  when (bool_decide (LocalAddr c = ""))
    (ip <-- try (resolveLocalIP h) ErrResolve;; modify (set_LocalAddr ip));;;
  c <-- get;;
  check (not_ipv4 (LocalAddr c)) (ErrLocalAddr (LocalAddr c));;;
  modify fill_defaults.

End lidar_config.
Import lidar_config.

(** ** The scanner *)

(** [Scanner]; the targets' statistics are locations of the store. *)
Record Scanner := mkScanner {
  s_conf : Config;
  s_targets : list string;
  s_seq : Z;
  s_seqStart : Z;
  s_srcPort : Z;
  s_portCount : Z;
  s_currentPort : Z;
  s_stats : gmap string nat
}.

Definition set_position (sq port : Z) (s : Scanner) : Scanner :=
  mkScanner (s_conf s) (s_targets s) sq (s_seqStart s) (s_srcPort s) (s_portCount s) port (s_stats s).

Definition set_seqStart (sq : Z) (s : Scanner) : Scanner :=
  mkScanner (s_conf s) (s_targets s) (s_seq s) sq (s_srcPort s) (s_portCount s) (s_currentPort s) (s_stats s).

(** The loop of [NewScanner] over the targets. *)
Fixpoint make_stats (conf : Config) (addrs : list string) (stats : gmap string nat) (w : World) :
    gmap string nat * World :=
  match addrs with
  | [] => (stats, w)
  | addr :: addrs =>
      let '(l, w) := register (NewStat (LocalAddr conf) addr
                       (mkPortRange (LocalPort conf) (LocalPort conf + LocalPortCount conf - 1))
                       (mkPortRange (ServerPort conf) (ServerPort conf)) (Rate conf) (Span conf) (Delay conf) true) w in
      make_stats conf addrs (<[addr := l]> stats) w
  end.

(** [NewScanner]; it creates the processor. *)
Definition NewScanner (conf : Config) : Scanner * World :=
  let '(stats, w) := make_stats conf (TargetAddrs conf) ∅ (mkWorld ∅ 0 (NewProcessor (Span conf) (Delay conf))) in
  (mkScanner conf (TargetAddrs conf) 0 0 (u16 (LocalPort conf)) (u16 (LocalPortCount conf))
     (u16 (LocalPort conf)) stats, w).

(** The local port of the next round: [currentPort] and the bound are
    [uint16]. *)
Definition next_port (s : Scanner) : Z :=
  let p := u16 (s_currentPort s + 1) in
  if u16 (s_srcPort s + s_portCount s) <=? p then s_srcPort s else p.

(** [findInterfaceByIP]; the empty string if there is none. *)
Definition findInterfaceByIP (h : Host) (ipStr : string) : string :=
  match Interfaces h with
  | None => ""
  | Some ifaces =>
      match List.find (fun i => match if_addrs i with
                                | Some ips => existsb (fun ip => bool_decide (IP_String ip = ipStr)) ips
                                | None => false
                                end) ifaces with
      | Some i => if_name i
      | None => ""
      end
  end.

(** The answers of the outside during one round: the time since the start,
    whether the limiter let it through, the clock, and whether the send to
    target [i] succeeds. *)
Record Outside := mkOutside {
  o_elapsed : Z;
  o_wait_ok : bool;
  o_now : Z;
  o_send_ok : nat -> bool
}.

Section scanner.
Context `{HG : Goscapy}.

(** [buildSYNPkt]. *)
Definition buildSYNPkt (conf : Config) (dstIP : string) (srcPort dstPort sq : Z) : list build_layer :=
  [BIP (LocalAddr conf) dstIP 64 None None; BTCP srcPort dstPort TCPSyn sq 14600].

(** The loop of a round over the targets from index [i] on; the sequence
    number advances for each of them. The state is the sequence number, the
    count of probes and the store; the packets sent come out. *)
Fixpoint send_targets (s : Scanner) (o : Outside) (i : nat) (targets : list string) (sq count : Z) (w : World) :
    option (Z * Z * World * list (list build_layer)) :=
  match targets with
  | [] => Some (sq, count, w, [])
  | target :: targets =>
      let sq := u64 (sq + 1) in
      let pkt := buildSYNPkt (s_conf s) target (s_currentPort s) (u16 (ServerPort (s_conf s))) (u32 sq) in
      if negb (o_send_ok o i) then send_targets s o (S i) targets sq count w
      else
        l ← s_stats s !! target;
        w ← call l (udpStat.Put (s_currentPort s) (u16 (ServerPort (s_conf s))) sq (o_now o)) w;
        '(sq, count, w, out) ← send_targets s o (S i) targets sq (count + 1) w;
        Some (sq, count, w, pkt :: out)
  end.

(** The send loop of [Run], one element of [rounds] per iteration, until a
    limit is reached or the context is cancelled. *)
Fixpoint send_rounds (s : Scanner) (count : Z) (rounds : list Outside) (w : World) :
    option (Scanner * World * list (list build_layer)) :=
  match rounds with
  | [] => Some (s, w, [])
  | o :: rounds =>
      if ((0 <? Count (s_conf s)) && (Count (s_conf s) <=? count)) ||
         ((0 <? SendDuration (s_conf s)) && (SendDuration (s_conf s) <=? o_elapsed o))
      then Some (s, w, [])
      else if negb (o_wait_ok o) then send_rounds s count rounds w
      else
        '(sq, count, w, out) ← send_targets s o 0 (s_targets s) (s_seq s) count w;
        '(s, w, out') ← send_rounds (set_position sq (next_port s) s) count rounds w;
        Some (s, w, out ++ out')
  end.

(** [Run] once its sockets are open. *)
Definition Run (s : Scanner) (rounds : list Outside) (w : World) :=
  send_rounds (set_seqStart (s_seq s) s) 0 rounds w.

(** [processParsedPacket] from the fields on. *)
Definition process_fields (s : Scanner) (now srcPort dstPort flags ackNum : Z) (w : World) : option World :=
  if negb (srcPort =? ServerPort (s_conf s)) then Some w
  else if (dstPort <? s_srcPort s) || (s_srcPort s + s_portCount s <=? dstPort) then Some w
  else
    let sq := u32 (ackNum - 1) in
    if (length (s_targets s) =? 0)%nat then None
    else
      let targetIdx := u64 (sq - s_seqStart s - 1) mod Z.of_nat (length (s_targets s)) in
      target ← s_targets s !! Z.to_nat targetIdx;
      match s_stats s !! target with
      | None => Some w
      | Some l =>
          if negb (Z.land flags TCPSyn =? 0) && negb (Z.land flags TCPAck =? 0)
          then call l (udpStat.Received sq now (now - 0) false) w
          else if negb (Z.land flags TCPRst =? 0)
          then call l (udpStat.ReceivedRST sq now 0) w
          else Some w
      end.

(** [processParsedPacket] at time [now]; [None] is a panic. *)
Definition processParsedPacket (s : Scanner) (now : Z) (pkt : Packet) (w : World) : option World :=
  match GetLayer pkt "TCP" with
  | None => Some w
  | Some tcpLayer =>
      let '(srcPortVal, ok1) := Get tcpLayer "sport" in
      let '(dstPortVal, ok2) := Get tcpLayer "dport" in
      let '(flagsVal, ok3) := Get tcpLayer "flags" in
      let '(ackVal, ok4) := Get tcpLayer "ack" in
      if negb (ok1 && ok2 && ok3 && ok4) then Some w
      else
        srcPort ← as_uint16 srcPortVal;
        dstPort ← as_uint16 dstPortVal;
        flags ← as_uint8 flagsVal;
        ackNum ← as_uint32 ackVal;
        process_fields s now srcPort dstPort flags ackNum w
  end.

End scanner.

(** ** Invariant *)

(** Every [Stat] of the process is well formed over the configured span, and
    every target has one. *)
Record scanner_ok (s : Scanner) (w : World) : Prop := {
  so_span : 0 < Span (s_conf s);
  so_targets : s_targets s <> [];
  so_world : map_Forall (fun _ u => udpStat_ok u /\ u_span u = Span (s_conf s)) (w_stats w);
  so_stats : forall t, t ∈ s_targets s -> exists l, s_stats s !! t = Some l /\ is_Some (w_stats w !! l)
}.

Lemma make_stats_ok conf addrs stats w :
  0 < Span conf -> world_ok w ->
  map_Forall (fun _ u => udpStat_ok u /\ u_span u = Span conf) (w_stats w) ->
  (forall t l, stats !! t = Some l -> is_Some (w_stats w !! l)) ->
  let '(stats', w') := make_stats conf addrs stats w in
  world_ok w' /\ map_Forall (fun _ u => udpStat_ok u /\ u_span u = Span conf) (w_stats w') /\
  (forall t l, stats' !! t = Some l -> is_Some (w_stats w' !! l)) /\
  (forall t, t ∈ addrs \/ is_Some (stats !! t) -> is_Some (stats' !! t)).
Proof.
  intros Hs. revert stats w. induction addrs as [|a addrs IH]; intros stats w Hw Hall Hst; cbn [make_stats].
  { split_and!; [done..|]. intros t [Ht|Ht]; [by apply elem_of_nil in Ht|done]. }
  set (u := NewStat _ _ _ _ _ _ _ _).
  destruct (register_ok u w) as (Hw' & Hl & Hold); [by auto with nettools|done|].
  specialize (IH (<[a := (register u w).1]> stats) (register u w).2 Hw').
  destruct (register u w) as [l w1] eqn:E. cbn [fst snd] in *.
  assert (l = w_next w /\ w_stats w1 = <[w_next w := u]> (w_stats w)) as [-> E1] by (by injection E as <- <-).
  destruct (make_stats _ _ _ _) as [stats' w']. destruct IH as (H1 & H2 & H3 & H4).
  - rewrite E1. apply map_Forall_insert_2; [|done]. split; [by auto with nettools|done].
  - intros t l' [[-> <-]|[_ Ht]]%lookup_insert_Some; [by eexists|].
    rewrite E1, lookup_insert_is_Some. destruct (decide (w_next w = l')); [by left|right; eauto].
  - split_and!; [done..|]. intros t Ht. apply H4. rewrite lookup_insert_is_Some.
    destruct Ht as [[->|Ht]%elem_of_cons|Ht]; [by right; left|by left|].
    right. destruct (decide (a = t)); [by left|by right].
Qed.

(** [NewScanner] establishes it. *)
Lemma NewScanner_ok conf :
  0 < Span conf -> TargetAddrs conf <> [] ->
  let '(s, w) := NewScanner conf in scanner_ok s w /\ s_targets s = TargetAddrs conf /\ s_seq s = 0 /\ s_seqStart s = 0.
Proof.
  intros Hs Hne. unfold NewScanner.
  pose proof (make_stats_ok conf (TargetAddrs conf) ∅ (mkWorld ∅ 0 (NewProcessor (Span conf) (Delay conf))) Hs
    (world_ok_empty _ _)) as H.
  destruct (make_stats _ _ _ _) as [stats w]. destruct H as (_ & H2 & H3 & H4);
    [apply map_Forall_empty|intros t l Ht; by rewrite lookup_empty in Ht|].
  split_and!; [|done..]. split; cbn; [done..|]. intros t Ht. destruct (H4 t) as [l Hl]; [by left|]. eauto.
Qed.

Lemma scanner_ok_update s w l u' :
  scanner_ok s w -> udpStat_ok u' -> u_span u' = Span (s_conf s) ->
  scanner_ok s (mkWorld (<[l := u']> (w_stats w)) (w_next w) (w_proc w)).
Proof.
  intros [H1 H2 H3 H4] Hu Hs. split; cbn; [done|done|by apply map_Forall_insert_2|].
  intros t Ht. destruct (H4 t Ht) as (l' & Hl' & Hi). exists l'. split; [done|].
  rewrite lookup_insert_is_Some. destruct (decide (l = l')); [by left|by right].
Qed.

(** A put or a reply seen from a target: nothing panics, and the probes of the
    target's [Stat] change as the ledger says. *)
Lemma call_target s w t o f :
  scanner_ok s w -> t ∈ s_targets s -> op_ok o ->
  (forall u, f u = (bs ← exec o (u_bkts u); Some (set_bkts bs u))) ->
  exists l u u',
    s_stats s !! t = Some l /\ w_stats w !! l = Some u /\
    call l f w = Some (mkWorld (<[l := u']> (w_stats w)) (w_next w) (w_proc w)) /\
    udpStat_ok u' /\ u_span u' = Span (s_conf s) /\
    forall i x, probe (u_bkts u') i x = spec (Span (s_conf s)) o (ledger_of (u_bkts u)) !! (i, x).
Proof.
  intros Hok Ht Ho Hf. destruct (so_stats _ _ Hok t Ht) as (l & Hl & u & Hu).
  destruct (so_world _ _ Hok l u Hu) as [Huok Hsp].
  destruct (op_step o u Huok Ho) as (bs & E & Hok' & Hcfg & _).
  destruct (exec_refines _ _ o (uok_bkts _ Huok) (refines_ledger_of _) Ho) as (bs' & E' & _ & _ & R).
  assert (bs' = bs) as -> by congruence.
  exists l, u, (set_bkts bs u). split_and!; [done|done| |done|by rewrite <- Hsp|].
  - apply (call_spec _ _ _ u); [done|]. by rewrite Hf, E.
  - intros i x. cbn [u_bkts set_bkts]. by rewrite R, <- (uok_span _ Huok), Hsp.
Qed.

(** ** One round *)

(** No [Stat] knows a probe with a number above [sq]. *)
Definition unused_above (sq : Z) (w : World) : Prop :=
  forall l u i x, w_stats w !! l = Some u -> sq < x -> probe (u_bkts u) i x = None.

Section round.
Context `{HG : Goscapy}.

Lemma send_targets_spec s o i targets sq count w :
  scanner_ok s w -> ts_ok (o_now o) -> (forall t, t ∈ targets -> t ∈ s_targets s) ->
  0 <= sq -> sq + Z.of_nat (length targets) < 2 ^ 64 -> unused_above sq w ->
  exists count' w' out,
    send_targets s o i targets sq count w = Some (sq + Z.of_nat (length targets), count', w', out) /\
    scanner_ok s w' /\ unused_above (sq + Z.of_nat (length targets)) w' /\
    (forall l u' j x, w_stats w' !! l = Some u' -> j <> o_now o / Span (s_conf s) \/ x <= sq ->
       exists u, w_stats w !! l = Some u /\ probe (u_bkts u') j x = probe (u_bkts u) j x) /\
    forall j t, targets !! j = Some t -> o_send_ok o (i + j) = true ->
      let q := sq + 1 + Z.of_nat j in
      buildSYNPkt (s_conf s) t (s_currentPort s) (u16 (ServerPort (s_conf s))) (u32 q) ∈ out /\
      exists l u', s_stats s !! t = Some l /\ w_stats w' !! l = Some u' /\
        probe (u_bkts u') (o_now o / Span (s_conf s)) q =
          Some (fresh_request (s_currentPort s) (u16 (ServerPort (s_conf s))) q (o_now o)).
Proof.
  revert i sq count w. induction targets as [|t targets IH]; intros i sq count w Hok Ht Hsub Hsq Hb Hun.
  { exists count, w, []. cbn [send_targets length]. rewrite Z.add_0_r. split_and!; [done..| |].
    - intros l u' j x Hl _. by exists u'.
    - intros j t Hj. by rewrite lookup_nil in Hj. }
  cbn [send_targets length] in *. rewrite Nat2Z.inj_succ in *.
  assert (Hu64 : u64 (sq + 1) = sq + 1) by (apply Z.mod_small; lia). rewrite Hu64.
  replace (sq + Z.succ (Z.of_nat (length targets))) with (sq + 1 + Z.of_nat (length targets)) in * by lia.
  assert (Hsub' : forall t0, t0 ∈ targets -> t0 ∈ s_targets s) by (intros; apply Hsub; by right).
  destruct (o_send_ok o i) eqn:Eo; cbn [negb].
  - destruct (call_target s w t (Buckets.Put (s_currentPort s) (u16 (ServerPort (s_conf s))) (sq + 1) (o_now o))
                (udpStat.Put (s_currentPort s) (u16 (ServerPort (s_conf s))) (sq + 1) (o_now o)))
      as (l & u & u' & Hl & Hu & Ec & Hu' & Hsp' & Hpr); [done|apply Hsub; by left|done|done|].
    rewrite Hl. cbn [mbind option_bind]. rewrite Ec. cbn [mbind option_bind]. cbn [spec] in Hpr. unfold upsert in Hpr.
    rewrite <- (refines_ledger_of (u_bkts u)) in Hpr.
    assert (Hnew : probe (u_bkts u) (o_now o / Span (s_conf s)) (sq + 1) = None) by (eapply Hun; [done|lia]).
    rewrite Hnew in Hpr. cbn [from_option] in Hpr.
    assert (Hold : forall j x, (j, x) <> (o_now o / Span (s_conf s), sq + 1) ->
              probe (u_bkts u') j x = probe (u_bkts u) j x).
    { intros j x Hne. rewrite Hpr, lookup_insert_ne by congruence. by rewrite <- refines_ledger_of. }
    set (w1 := mkWorld _ _ _).
    assert (Hback : forall l1 u1 j x, w_stats w1 !! l1 = Some u1 -> (j, x) <> (o_now o / Span (s_conf s), sq + 1) ->
              exists u0, w_stats w !! l1 = Some u0 /\ probe (u_bkts u1) j x = probe (u_bkts u0) j x).
    { intros l1 u1 j x Hl1 Hjx. unfold w1 in Hl1. cbn [w_stats] in Hl1.
      apply lookup_insert_Some in Hl1 as [[<- <-]|[Hne Hl1]]; [exists u|exists u1]; eauto. }
    destruct (IH (S i) (sq + 1) (count + 1) w1) as (count' & w' & out & E & Hok' & Hun' & Hrest & Hsent);
      [by apply scanner_ok_update|done|done|lia|lia| |].
    { intros l1 u1 j x Hl1 Hx. destruct (Hback l1 u1 j x Hl1) as (u0 & Hu0 & ->); [intros [=]; lia|].
      eapply Hun; [done|lia]. }
    rewrite E. cbn [mbind option_bind]. eexists _, w', _. split_and!; [reflexivity|done|done| |].
    + intros l1 u1 j x Hl1 Hjx. destruct (Hrest l1 u1 j x Hl1) as (u2 & Hu2 & ->); [intuition lia|].
      apply Hback; [done|]. intros [=]. intuition lia.
    + intros [|j] t0 Hj Hs; cbn [lookup list_lookup] in Hj; cbn zeta.
      * injection Hj as <-. rewrite Z.add_0_r. split; [by left|]. exists l.
        destruct (so_stats _ _ Hok' t ltac:(apply Hsub; by left)) as (l' & Hl' & u2 & Hu2).
        assert (l' = l) as -> by congruence. exists u2. split_and!; [done|done|].
        destruct (Hrest l u2 (o_now o / Span (s_conf s)) (sq + 1) Hu2) as (u3 & Hu3 & ->); [right; lia|].
        unfold w1 in Hu3. cbn in Hu3. rewrite lookup_insert_eq in Hu3. injection Hu3 as <-.
        by rewrite Hpr, lookup_insert_eq.
      * destruct (Hsent j t0 Hj) as [Hin Hrec]; [by replace (S i + j)%nat with (i + S j)%nat by lia|].
        replace (sq + 1 + Z.of_nat (S j)) with (sq + 1 + 1 + Z.of_nat j) by lia.
        split; [by right|exact Hrec].
  - destruct (IH (S i) (sq + 1) count w) as (count' & w' & out & E & Hok' & Hun' & Hrest & Hsent);
      [done|done|done|lia|lia|intros l1 u1 j x Hl1 Hx; eapply Hun; [done|lia]|].
    rewrite E. eexists _, w', _. split_and!; [reflexivity|done|done| |].
    + intros l1 u1 j x Hl1 Hjx. apply Hrest; [done|]. intuition lia.
    + intros [|j] t0 Hj Hs; cbn [lookup list_lookup] in Hj; cbn zeta.
      * rewrite Nat.add_0_r in Hs. congruence.
      * destruct (Hsent j t0 Hj) as [Hin Hrec]; [by replace (S i + j)%nat with (i + S j)%nat by lia|].
        replace (sq + 1 + Z.of_nat (S j)) with (sq + 1 + 1 + Z.of_nat j) by lia. done.
Qed.

End round.

(** ** The answer *)

Section answer.
Context `{HG : Goscapy}.

(** A SYN-ACK is recorded with the clock as its RTT, a reset with 0. *)
Definition answer_record (flags now : Z) (r : request) : option request :=
  if negb (Z.land flags TCPSyn =? 0) && negb (Z.land flags TCPAck =? 0)
  then Some (bucket.mark_received now false r)
  else if negb (Z.land flags TCPRst =? 0) then Some (bucket.mark_rst 0 r) else None.

(** The number of the probe and of its target are recovered. *)
Lemma ack_number q : 0 <= q < 2 ^ 32 -> u32 (u32 (q + 1) - 1) = q.
Proof.
  intros H. unfold u32. rewrite Zminus_mod_idemp_l. replace (q + 1 - 1) with q by lia. by apply Z.mod_small.
Qed.

Lemma target_index start n k i q :
  (i < n)%nat -> 0 <= start -> 0 <= k -> q = start + k * Z.of_nat n + 1 + Z.of_nat i -> q < 2 ^ 64 ->
  u64 (q - start - 1) mod Z.of_nat n = Z.of_nat i.
Proof.
  intros Hi Hs Hk -> Hq. replace (_ - start - 1) with (Z.of_nat i + k * Z.of_nat n) by lia.
  pose proof (Z.mul_nonneg_nonneg k (Z.of_nat n) Hk ltac:(lia)) as Hkn.
  unfold u64. rewrite (Z.mod_small _ (2 ^ 64)) by lia. rewrite Z.mod_add by lia. apply Z.mod_small. lia.
Qed.

Lemma process_answer s w i t q k now' dport flags l u i0 r r' :
  scanner_ok s w -> s_targets s !! i = Some t -> 0 <= s_seqStart s -> 0 <= k ->
  q = s_seqStart s + k * Z.of_nat (length (s_targets s)) + 1 + Z.of_nat i -> q < 2 ^ 32 ->
  s_srcPort s <= dport < s_srcPort s + s_portCount s ->
  s_stats s !! t = Some l -> w_stats w !! l = Some u ->
  probe (u_bkts u) i0 q = Some r -> probe (u_bkts u) (i0 + 1) q = None ->
  ts_ok now' -> now' / Span (s_conf s) = i0 \/ now' / Span (s_conf s) = i0 + 1 ->
  answer_record flags now' r = Some r' ->
  exists u',
    process_fields s now' (ServerPort (s_conf s)) dport flags (u32 (q + 1)) w =
      Some (mkWorld (<[l := u']> (w_stats w)) (w_next w) (w_proc w)) /\
    forall j x, probe (u_bkts u') j x = if decide ((j, x) = (i0, q)) then Some r' else probe (u_bkts u) j x.
Proof.
  intros Hok Ht Hstart Hk Hq Hb Hd Hl Hu Hr Hr1 Hts Hnow Ha.
  pose proof (lookup_lt_Some _ _ _ Ht) as Hi.
  assert (0 <= k * Z.of_nat (length (s_targets s))) as Hkn by (apply Z.mul_nonneg_nonneg; lia).
  unfold process_fields. rewrite Z.eqb_refl. cbn [negb].
  rewrite (proj2 (Z.ltb_ge _ _)), (proj2 (Z.leb_gt _ _)) by lia. cbn [orb].
  rewrite (proj2 (Nat.eqb_neq _ _)) by lia. rewrite ack_number by lia.
  rewrite (target_index _ _ k i) by (done || lia). rewrite Nat2Z.id, Ht. cbn [mbind option_bind]. rewrite Hl.
  assert (Hloc : locate (ledger_of (u_bkts u)) (now' / Span (s_conf s)) q = (i0, q))
    by (eapply locate_recorded; [by rewrite <- refines_ledger_of|by rewrite <- refines_ledger_of|done]).
  assert (Hmem : t ∈ s_targets s) by (by eapply list_elem_of_lookup_2).
  assert (Hend : forall o f g,
    op_ok o -> (forall u, f u = (bs ← exec o (u_bkts u); Some (set_bkts bs u))) ->
    (exists d, spec (Span (s_conf s)) o (ledger_of (u_bkts u)) = upsert (i0, q) g d (ledger_of (u_bkts u))) ->
    g r = r' ->
    exists u', call l f w = Some (mkWorld (<[l := u']> (w_stats w)) (w_next w) (w_proc w)) /\
      forall j x, probe (u_bkts u') j x = if decide ((j, x) = (i0, q)) then Some r' else probe (u_bkts u) j x).
  { intros o f g Ho Hf [d Hspec] Hg.
    destruct (call_target s w t o f Hok Hmem Ho Hf) as (l' & u1 & u' & Hl' & Hu1 & Ec & _ & _ & Hpr).
    assert (l' = l) as -> by congruence. assert (u1 = u) as -> by congruence.
    exists u'. split; [done|]. intros j x. rewrite Hpr, Hspec. unfold upsert.
    rewrite lookup_insert, <- !refines_ledger_of, Hr. cbn [from_option]. rewrite Hg.
    case_decide; case_decide; congruence. }
  unfold answer_record in Ha.
  destruct (negb (Z.land flags TCPSyn =? 0) && negb (Z.land flags TCPAck =? 0)).
  - injection Ha as Ha. rewrite Z.sub_0_r.
    apply (Hend (Buckets.Received q now' now' false) _ (bucket.mark_received now' false)); [done|done| |done].
    eexists. cbn [spec]. by rewrite Hloc.
  - destruct (negb (Z.land flags TCPRst =? 0)); [|done]. injection Ha as Ha.
    apply (Hend (Buckets.ReceivedRST q now' 0) _ (bucket.mark_rst 0)); [done|done| |done].
    eexists. cbn [spec]. by rewrite Hloc.
Qed.

(** C31: a SYN and its answer: in a round of the scanner (whole rounds before
    it, fewer than 2^32 probes so far, numbers not yet used) the SYN sent to
    target [i] carries a number of its own, and an answer that acknowledges it,
    handled in the span of the probe or the next one, is recorded in the [Stat]
    of target [i] and nowhere else: that very probe, between its ports, becomes
    a SYN-ACK or a reset. The RTT stored for a SYN-ACK is the clock itself. *)
Theorem lidar_answer_attributed :
  forall s w o count k,
    scanner_ok s w -> ts_ok (o_now o) -> 0 <= s_seqStart s -> 0 <= k ->
    s_seq s = s_seqStart s + k * Z.of_nat (length (s_targets s)) ->
    s_seq s + Z.of_nat (length (s_targets s)) < 2 ^ 32 -> unused_above (s_seq s) w ->
    exists count' w' out,
      send_targets s o 0 (s_targets s) (s_seq s) count w =
        Some (s_seq s + Z.of_nat (length (s_targets s)), count', w', out) /\
      forall i t, s_targets s !! i = Some t -> o_send_ok o i = true ->
        let q := s_seq s + 1 + Z.of_nat i in
        let sport := s_currentPort s in
        let dport := u16 (ServerPort (s_conf s)) in
        buildSYNPkt (s_conf s) t sport dport q ∈ out /\
        forall now' port flags r',
          ts_ok now' ->
          now' / Span (s_conf s) = o_now o / Span (s_conf s) \/
            now' / Span (s_conf s) = o_now o / Span (s_conf s) + 1 ->
          s_srcPort s <= port < s_srcPort s + s_portCount s ->
          answer_record flags now' (fresh_request sport dport q (o_now o)) = Some r' ->
          exists w2 l u u2,
            process_fields s now' (ServerPort (s_conf s)) port flags (u32 (q + 1)) w' = Some w2 /\
            s_stats s !! t = Some l /\ w_stats w' !! l = Some u /\ w_stats w2 !! l = Some u2 /\
            (forall l', l' <> l -> w_stats w2 !! l' = w_stats w' !! l') /\
            forall j x, probe (u_bkts u2) j x =
              if decide ((j, x) = (o_now o / Span (s_conf s), q)) then Some r' else probe (u_bkts u) j x.
Proof.
  intros s w o count k Hok Hts Hstart Hk Hseq Hb Hun.
  assert (0 <= s_seq s) as Hpos by nia.
  destruct (send_targets_spec s o 0 (s_targets s) (s_seq s) count w)
    as (count' & w' & out & E & Hok' & _ & Hrest & Hsent); [done|done|done|done|lia|done|].
  exists count', w', out. split; [exact E|]. intros i t Ht Hsend. cbn zeta.
  pose proof (lookup_lt_Some _ _ _ Ht) as Hi.
  destruct (Hsent i t Ht Hsend) as (Hin & l & u & Hl & Hu & Hr). split.
  { unfold u32 in Hin. rewrite Z.mod_small in Hin by lia. exact Hin. }
  intros now' port flags r' Hnow Hspan Hport Ha. set (q := s_seq s + 1 + Z.of_nat i) in *.
  destruct (Hrest l u (o_now o / Span (s_conf s) + 1) q Hu) as (u0 & Hu0 & Hnone); [left; lia|].
  rewrite (Hun l u0 _ q Hu0) in Hnone by lia.
  destruct (process_answer s w' i t q k now' port flags l u (o_now o / Span (s_conf s))
    (fresh_request (s_currentPort s) (u16 (ServerPort (s_conf s))) q (o_now o)) r') as (u2 & E2 & Hpr);
    try done; [lia|lia|].
  eexists _, l, u, u2. split_and!; [exact E2|done|done|apply lookup_insert_eq| |done].
  intros l' Hne. cbn. by rewrite lookup_insert_ne by done.
Qed.

(** Past 2^32 probes an answer no longer reaches its probe. *)
Lemma process_wrapped s now sport dport flags q w w' l u' j :
  2 ^ 32 <= q -> map_Forall (fun _ u => udpStat_ok u) (w_stats w) -> ts_ok now ->
  process_fields s now sport dport flags (u32 (q + 1)) w = Some w' -> w_stats w' !! l = Some u' ->
  exists u, w_stats w !! l = Some u /\ probe (u_bkts u') j q = probe (u_bkts u) j q.
Proof.
  intros Hq Hall Hts. unfold process_fields.
  assert (Hsame : Some w = Some w' -> w_stats w' !! l = Some u' ->
            exists u, w_stats w !! l = Some u /\ probe (u_bkts u') j q = probe (u_bkts u) j q)
    by (intros [= <-] Hl; by exists u').
  destruct (negb _); [exact Hsame|]. destruct (_ || _); [exact Hsame|].
  destruct (length _ =? 0)%nat; [done|]. set (sq := u32 (u32 (q + 1) - 1)).
  assert (sq <> q) as Hne by (pose proof (u32_range (u32 (q + 1) - 1)); unfold in_u32 in *; lia). clearbody sq.
  destruct (s_targets s !! _) as [t|]; cbn [mbind option_bind]; [|done].
  destruct (s_stats s !! t) as [l0|]; [|exact Hsame].
  assert (Hcall : forall o f, op_ok o ->
    (forall u, f u = (bs ← exec o (u_bkts u); Some (set_bkts bs u))) ->
    (forall span L i, spec span o L !! (i, q) = L !! (i, q)) ->
    call l0 f w = Some w' -> w_stats w' !! l = Some u' ->
    exists u, w_stats w !! l = Some u /\ probe (u_bkts u') j q = probe (u_bkts u) j q).
  { intros o f Ho Hf Hspec. unfold call, on_stat.
    destruct (w_stats w !! l0) as [u0|] eqn:Hu0; [cbn [mbind option_bind]|done]. rewrite Hf.
    destruct (exec_refines _ _ o (uok_bkts _ (Hall l0 u0 Hu0)) (refines_ledger_of _) Ho) as (bs & E & _ & _ & R).
    rewrite E. cbn [mbind option_bind]. intros [= <-] Hl. cbn [w_stats] in Hl.
    apply lookup_insert_Some in Hl as [[<- <-]|[_ Hl]]; [|by exists u'].
    exists u0. split; [done|]. cbn [u_bkts set_bkts]. by rewrite R, Hspec, <- refines_ledger_of. }
  assert (Hother : forall (L : ledger) i i' g d, upsert (locate L i' sq) g d L !! (i, q) = L !! (i, q)).
  { intros L i i' g d. unfold upsert. apply lookup_insert_ne. unfold locate.
    repeat case_decide; congruence. }
  destruct (negb _ && negb _); [|destruct (negb _); [|exact Hsame]].
  - apply (Hcall (Buckets.Received sq now (now - 0) false)); [done|done|]. intros. cbn [spec]. apply Hother.
  - apply (Hcall (Buckets.ReceivedRST sq now 0)); [done|done|]. intros. cbn [spec]. apply Hother.
Qed.

End answer.

(** ** Validation *)

(** A validated configuration has targets and a local address that are IPv4,
    and every option set. *)
Lemma lidar_Validate_ok h c c' u :
  Validate h c = (c', inl u) ->
  TargetAddrs c' = TargetAddrs c /\ TargetAddrs c <> [] /\ Forall ipv4_addr (TargetAddrs c) /\
  ipv4_addr (LocalAddr c') /\ (LocalAddr c <> "" -> LocalAddr c' = LocalAddr c) /\
  ServerPort c' <> 0 /\ LocalPort c' <> 0 /\ LocalPortCount c' <> 0 /\ Rate c' <> 0 /\
  Span c' <> 0 /\ Delay c' <> 0.
Proof.
  unfold Validate. intros H. se_inv. bools.
  assert (Hd : forall n d, d <> 0 -> or_default n d <> 0)
    by (intros n d Hd; unfold or_default; zcases; congruence).
  match goal with H : when _ _ _ = _ |- _ => apply when_inl in H as [[Ha H]|[Ha ->]]; se_inv; bools end; cbn.
  all: split_and!; try done; try (by apply Hd); try (by apply not_ipv4_false).
  all: eapply Forall_impl; [eassumption|apply not_ipv4_false].
Qed.

(** ** Witness *)

Module samples.

Import Toy.

Definition conf : Config :=
  mkConfig ["10.0.0.2"; "10.0.0.3"] 447 "10.0.0.1" 54321 3 5 1000 3000 0 0 "eth0" false.
Definition scanner : Scanner := (NewScanner conf).1.
Definition world : World := (NewScanner conf).2.
Definition outside : Outside := mkOutside 0 true 5500 (fun _ => true).

Lemma lidar_setup_ok : scanner_ok scanner world.
Proof. pose proof (NewScanner_ok conf ltac:(done) ltac:(done)) as H. apply H. Qed.

Lemma world_new l u : w_stats world !! l = Some u -> bs_buckets (u_bkts u) = ∅.
Proof.
  intros H. assert (map_Forall (fun _ u => bs_buckets (u_bkts u) = ∅) (w_stats world)) as Hall.
  { unfold world. cbn [NewScanner make_stats conf TargetAddrs register fst snd w_stats].
    repeat (apply map_Forall_insert_2; [reflexivity|]). apply map_Forall_empty. }
  exact (Hall l u H).
Qed.

End samples.

Lemma lidar_answer_attributed_witness :
  exists count' w' out,
    send_targets (HG := Toy.toy) samples.scanner samples.outside 0 ["10.0.0.2"; "10.0.0.3"] 0 0 samples.world =
      Some (2, count', w', out) /\
    forall i t, ["10.0.0.2"; "10.0.0.3"] !! i = Some t -> true = true ->
      let q := 0 + 1 + Z.of_nat i in
      buildSYNPkt (HG := Toy.toy) samples.conf t 54321 447 q ∈ out /\
      forall now' port flags r',
        ts_ok now' -> now' / 1000 = 5 \/ now' / 1000 = 5 + 1 -> 54321 <= port < 54321 + 3 ->
        answer_record (HG := Toy.toy) flags now' (fresh_request 54321 447 q 5500) = Some r' ->
        exists w2 l u u2,
          process_fields (HG := Toy.toy) samples.scanner now' 447 port flags (u32 (q + 1)) w' = Some w2 /\
          s_stats samples.scanner !! t = Some l /\ w_stats w' !! l = Some u /\ w_stats w2 !! l = Some u2 /\
          (forall l', l' <> l -> w_stats w2 !! l' = w_stats w' !! l') /\
          forall j x, probe (u_bkts u2) j x = if decide ((j, x) = (5, q)) then Some r' else probe (u_bkts u) j x.
Proof.
  apply (lidar_answer_attributed (HG := Toy.toy) samples.scanner samples.world samples.outside 0 0 samples.lidar_setup_ok);
    [split; [discriminate|reflexivity]|discriminate|discriminate|reflexivity|reflexivity|].
  intros l u i x Hu _. unfold probe. by rewrite (samples.world_new l u Hu), lookup_empty.
Defined.
