(* ===== verification/LidarRun.v ===== *)
(** * The goroutines of the SYN prober ([Scanner.Run] of [lidar/scanner.go])

    The scanner as an instance of Lifecycle.v: [Run] is the send loop itself, so
    it returns when that loop has slept through the delay; the receive loop has
    stopped long before. As in PingRun.v a probe is sent in one piece and
    recorded in the next; [send_targets] of Lidar.v is a round without
    interruption. *)

From stdpp Require Import relations.
From S2P Require Import Prelude GoStd GoNet GoDuration Ports Bucket Buckets UdpStat Goscapy World Lidar Lifecycle.
Import lidar_config.
Local Open Scope Z_scope.

(** Where the send loop stands; [now] is the time of the round. *)
Inductive position :=
| Top
| AtTarget (i : nat) (now : Z)
| Written (i : nat) (sq now : Z).

(** What the goroutines share, with the position of the send loop, its [count],
    the packets sent and the reports made. *)
Record scanning := mkScanning {
  sn_scanner : Scanner;
  sn_pos : position;
  sn_count : Z;
  sn_world : World;
  sn_out : list (list build_layer);
  sn_reports : list StatResult
}.

Definition at_pos (pos : position) (s : scanning) : scanning :=
  mkScanning (sn_scanner s) pos (sn_count s) (sn_world s) (sn_out s) (sn_reports s).

Definition with_world (w : World) (s : scanning) : scanning :=
  mkScanning (sn_scanner s) (sn_pos s) (sn_count s) w (sn_out s) (sn_reports s).

(** Whether the limiter lets the round through, or the send succeeds. *)
Definition Answer : Type := bool.

Section scan.
Context `{HG : Goscapy}.
Variable conf : Config.

(** The limits of [Run]. *)
Definition at_limit (elapsed : Z) (s : scanning) : bool :=
  ((0 <? Count conf) && (Count conf <=? sn_count s)) ||
  ((0 <? SendDuration conf) && (SendDuration conf <=? elapsed)).

(** The next piece of the send loop. *)
Definition send_piece (now : Z) (ok : Answer) (s : scanning) : option scanning :=
  let sc := sn_scanner s in
  let port := s_currentPort sc in
  match sn_pos s with
  | Top => Some (if (ok : bool) then at_pos (AtTarget 0 now) s else s)
  | AtTarget i now =>
      match s_targets sc !! i with
      | None =>
          Some (mkScanning (set_position (s_seq sc) (next_port sc) sc) Top (sn_count s) (sn_world s) (sn_out s)
                  (sn_reports s))
      | Some target =>
          let sq := u64 (s_seq sc + 1) in
          let sc := set_position sq port sc in
          let pkt := buildSYNPkt (s_conf sc) target port (u16 (ServerPort (s_conf sc))) (u32 sq) in
          Some (if negb ok
                then mkScanning sc (AtTarget (S i) now) (sn_count s) (sn_world s) (sn_out s) (sn_reports s)
                else mkScanning sc (Written i sq now) (sn_count s) (sn_world s) (sn_out s ++ [pkt]) (sn_reports s))
      end
  | Written i sq now =>
      target ← s_targets sc !! i;
      l ← s_stats sc !! target;
      w ← call l (udpStat.Put port (u16 (ServerPort (s_conf sc))) sq now) (sn_world s);
      Some (mkScanning sc (AtTarget (S i) now) (sn_count s + 1) w (sn_out s) (sn_reports s))
  end.

(** The body of [serveRecv] after a read. *)
Definition recv_piece (now : Z) (pkt : Packet) (s : scanning) : option scanning :=
  w ← processParsedPacket (sn_scanner s) now pkt (sn_world s); Some (with_world w s).

(** [runOnce] of the processor. *)
Definition tick_piece (now : Z) (s : scanning) : option scanning :=
  let w := sn_world s in
  '(σ, out) ← Processor.runOnce (fun _ => now) (w_proc w) (w_stats w);
  Some (mkScanning (sn_scanner s) (sn_pos s) (sn_count s) (mkWorld σ (w_next w) (w_proc w)) (sn_out s)
          (sn_reports s ++ out)).

Definition scanner_prober : Prober scanning Answer Packet := {|
  at_top s := match sn_pos s with Top => true | _ => false end;
  limit := at_limit;
  work := send_piece;
  handle := recv_piece;
  tick := tick_piece;
  reports := sn_reports;
  delay := Z.max 0 (Delay conf);
  span := Z.max 0 (Span conf);
  first_result := false;
  read_error_ends := false
|}.
#[local] Existing Instance scanner_prober.

#[local] Instance scanner_laws : ProberLaws scanning Answer Packet.
Proof.
  split; cbn [work handle reports delay span scanner_prober]; try lia.
  - intros t a s s'. unfold send_piece. destruct (sn_pos s) as [|i now|i sq now].
    + destruct a; by intros [= <-].
    + destruct (s_targets _ !! i); [|by intros [= <-]]. destruct a; by intros [= <-].
    + destruct (s_targets _ !! i); cbn [mbind option_bind]; [|done].
      destruct (s_stats _ !! _); cbn [mbind option_bind]; [|done].
      destruct (call _ _ _); cbn [mbind option_bind]; [|done]. by intros [= <-].
  - intros t d s s'. unfold recv_piece. destruct (processParsedPacket _ _ _ _); cbn [mbind option_bind]; [|done].
    by intros [= <-].
Qed.

(** [Run] when its send loop starts. *)
Definition ready (s : Scanner) (w : World) : scanning := mkScanning (set_seqStart (s_seq s) s) Top 0 w [] [].

(** ** A round without interruption *)

Definition answer_to (o : Outside) (s : scanning) : Answer :=
  match sn_pos s with AtTarget i _ => o_send_ok o i | _ => true end.

Fixpoint run_round (fuel : nat) (o : Outside) (s : scanning) : option scanning :=
  match fuel with
  | O => Some s
  | S fuel =>
      match sn_pos s with
      | Top => Some s
      | _ => s ← send_piece (o_now o) (answer_to o s) s; run_round fuel o s
      end
  end.

Lemma lidar_round_from o s ts : forall i sq count w out rep fuel,
  drop i (s_targets s) = ts -> (2 * length ts < fuel)%nat ->
  run_round fuel o (mkScanning (set_position sq (s_currentPort s) s) (AtTarget i (o_now o)) count w out rep) =
    '(sq', count', w', out') ← send_targets s o i ts sq count w;
    Some (mkScanning (set_position sq' (next_port s) s) Top count' w' (out ++ out') rep).
Proof.
  induction ts as [|t ts IH]; intros i sq count w out rep fuel Hd Hf; destruct fuel as [|fuel]; try (cbn in Hf; lia).
  { cbn [run_round sn_pos send_targets mbind option_bind]. unfold send_piece.
    cbn [sn_pos sn_scanner set_position s_targets]. rewrite lookup_ge_None_2 by (apply drop_nil_inv; done).
    cbn [mbind option_bind]. rewrite app_nil_r. by destruct fuel. }
  assert (Ht : s_targets s !! i = Some t) by (rewrite <- (Nat.add_0_r i), <- lookup_drop, Hd; done).
  assert (Hd' : drop (S i) (s_targets s) = ts) by (rewrite (drop_S _ t) in Hd by done; by injection Hd).
  cbn [run_round sn_pos send_targets]. unfold send_piece at 1.
  cbn [sn_pos sn_scanner set_position s_targets s_seq s_currentPort s_conf answer_to sn_count sn_world sn_out sn_reports].
  rewrite Ht. cbn [mbind option_bind]. change (set_position ?a ?b (set_position ?c ?d s)) with (set_position a b s).
  destruct (o_send_ok o i); cbn [negb]; [|apply IH; [done|cbn in Hf; lia]].
  destruct fuel as [|fuel]; [cbn in Hf; lia|]. cbn [run_round sn_pos]. unfold send_piece at 1.
  cbn [sn_pos sn_scanner set_position s_targets s_stats s_currentPort s_conf sn_count sn_world sn_out sn_reports].
  rewrite Ht. cbn [mbind option_bind]. destruct (s_stats s !! t) as [l|]; cbn [mbind option_bind]; [|done].
  destruct (call l _ w) as [w1|]; cbn [mbind option_bind]; [|done].
  change (mkScanner _ _ _ _ _ _ _ _) with (set_position (u64 (sq + 1)) (s_currentPort s) s).
  rewrite IH by (done || (cbn in Hf; lia)).
  destruct (send_targets _ _ _ _ _ _ _) as [[[[sq' c'] w'] out']|]; cbn [mbind option_bind]; [|done].
  by rewrite <- app_assoc.
Qed.

End scan.

(** ** What a tick leaves *)

(** Every record of [w'] is one of [w], and so for [w'] still to be reported:
    nothing is added or changed, only whole spans go. *)
Definition only_removed (w w' : World) : Prop :=
  forall l u, w_stats w !! l = Some u -> udpStat_ok u ->
    exists u', w_stats w' !! l = Some u' /\ udpStat_ok u' /\
      forall i x, probe (u_bkts u') i x = probe (u_bkts u) i x \/ probe (u_bkts u') i x = None.

Lemma only_removed_trans w w1 w2 : only_removed w w1 -> only_removed w1 w2 -> only_removed w w2.
Proof.
  intros H1 H2 l u Hu Hok. destruct (H1 l u Hu Hok) as (u1 & Hu1 & Hok1 & P1).
  destruct (H2 l u1 Hu1 Hok1) as (u2 & Hu2 & Hok2 & P2). exists u2. split_and!; [done|done|].
  intros i x. destruct (P2 i x) as [E|E]; [rewrite E; apply P1|by right].
Qed.

Lemma statOnce_only_removes now u u' out :
  udpStat_ok u -> udpStat.statOnce now u = Some (u', out) ->
  udpStat_ok u' /\ forall i x, probe (u_bkts u') i x = probe (u_bkts u) i x \/ probe (u_bkts u') i x = None.
Proof.
  intros Hok E. destruct (statOnce_outcome now u Hok) as (u1 & out1 & E1 & [H1 _ H3]).
  rewrite E in E1. injection E1 as <- <-. split; [done|]. intros i x. unfold probe.
  destruct H3 as [[-> _]|[(_ & _ & H & _)|(b & _ & _ & _ & H & _)]]; [by left|right; by rewrite H, lookup_empty|].
  rewrite H. destruct (_ <? i); [by left|by right].
Qed.

Lemma run_stats_only_removes ls now : forall σ σ' out n p,
  Processor.run_stats ls now σ = Some (σ', out) -> only_removed (mkWorld σ n p) (mkWorld σ' n p).
Proof.
  induction ls as [|l ls IH]; intros σ σ' out n p; cbn [Processor.run_stats].
  - intros [= <- <-] l u Hu Hok. exists u. split_and!; [done|done|]. intros i x. by left.
  - destruct (σ !! l) as [u|] eqn:Hu; cbn [mbind option_bind]; [|done].
    destruct (udpStat.statOnce _ u) as [[u' out1]|] eqn:Es; cbn [mbind option_bind]; [|done].
    destruct (Processor.run_stats ls now _) as [[σ1 out2]|] eqn:Er; cbn [mbind option_bind]; [|done].
    intros [= <- <-]. eapply only_removed_trans; [|by eapply (IH _ _ _ n p)].
    intros l0 u0 Hu0 Hok0. cbn [w_stats] in *. destruct (decide (l0 = l)) as [->|Hne].
    + rewrite Hu in Hu0. injection Hu0 as <-. destruct (statOnce_only_removes _ _ _ _ Hok0 Es) as [Hok' P].
      exists u'. by rewrite lookup_insert_eq.
    + exists u0. rewrite lookup_insert_ne by done. split_and!; [done|done|]. intros i x. by left.
Qed.

(** ** Properties *)

(** C32: while [Run] of the SYN prober waits for the delay, it no longer
    listens. [Run] returns nil, and only [Delay] after the stop; but at most one
    more answer is handled after the stop, and once the receive loop has
    returned nothing but the processor touches the statistics until the end: a
    record that is still there is what it was, so a probe whose answer arrives
    during the delay stays unanswered and is reported lost. *)
Theorem lidar_Run_deaf_while_waiting :
  forall `{Goscapy} conf s w t c,
    reachable (HP := scanner_prober conf) (ready s w) t c ->
    (forall r, c_ret c = Some r -> r = false /\ exists u, c_stop c = Some u /\ u + Delay conf <= c_now c) /\
    (c_late c <= 1)%nat /\
    (c_recv c = RecvOver -> c_send c <> Sending -> forall c', rtc (step (HP := scanner_prober conf)) c c' ->
     only_removed (sn_world (c_state c)) (sn_world (c_state c'))).
Proof.
  intros HG conf s w t c Hr. pose proof (scanner_laws conf) as HL. split_and!.
  - intros r Hret. destruct (waits_for_delay (HL := HL) _ _ _ _ eq_refl Hr Hret) as (-> & u & Hu & Hd).
    split; [done|]. exists u. split; [done|]. cbn [delay scanner_prober] in Hd. lia.
  - exact (at_most_one_late (HL := HL) _ _ _ Hr).
  - intros Hrec Hsend c' R. destruct (only_ticks _ _ R Hrec Hsend) as (Rt & _). clear -Rt.
    induction Rt as [st|st st1 st2 (t & Ht) _ IH].
    + intros l u Hu Hok. exists u. split_and!; [done|done|]. intros i x. by left.
    + eapply only_removed_trans; [|exact IH]. cbn [tick scanner_prober] in Ht. unfold tick_piece in Ht.
      destruct (Processor.runOnce _ _ _) as [[σ out]|] eqn:E; cbn [mbind option_bind] in Ht; [|done].
      injection Ht as <-. cbn [sn_world]. unfold Processor.runOnce in E. destruct (sn_world st) as [σ0 n p].
      exact (run_stats_only_removes _ _ _ _ _ n p E).
Qed.

(** A round of the send loop that no other goroutine interrupts is the function
    [send_targets] of the sequential model. *)
Theorem lidar_round_pieces :
  forall `{Goscapy} o s sq count w out rep fuel,
    (2 * length (s_targets s) < fuel)%nat ->
    run_round fuel o (mkScanning (set_position sq (s_currentPort s) s) (AtTarget 0 (o_now o)) count w out rep) =
      '(sq, count, w, out') ← send_targets s o 0 (s_targets s) sq count w;
      Some (mkScanning (set_position sq (next_port s) s) Top count w (out ++ out') rep).
Proof. intros HG o s sq count w out rep fuel. by apply lidar_round_from. Qed.

(** ** Witnesses *)

Module run_samples.

(** Two targets, a limit of two probes. *)
Definition conf : Config :=
  mkConfig ["10.0.0.2"; "10.0.0.3"] 447 "10.0.0.1" 54321 3 5 1000 3000 2 0 "eth0" false.
Definition scanner : Scanner := (NewScanner conf).1.
Definition world : World := (NewScanner conf).2.
#[local] Existing Instance Toy.toy.
Definition P : Prober scanning Answer Packet := scanner_prober conf.
#[local] Existing Instance P.

(** Both probes are sent; the receive loop sees the stop before an answer. *)
Definition schedule : list (Z * action Answer Packet) :=
  [(5400, DoRead); (5500, DoWork true); (5500, DoWork true); (5500, DoWork true); (5510, DoWork true);
   (5520, DoWork true); (5530, DoWork true); (5540, DoStop); (5900, DoTimeout); (5901, DoSeeStop)].

Definition deaf : ctl scanning :=
  default (started (ready scanner world) 5300) (acts schedule (started (ready scanner world) 5300)).

Lemma deaf_reachable : reachable (ready scanner world) 5300 deaf.
Proof. apply (acts_sound schedule). vm_compute. reflexivity. Qed.

(** A tick, the end of the sleep, the return. *)
Definition waited : ctl scanning :=
  default deaf (acts [(8300, DoTick); (8540, DoWake); (8541, DoReturn)] deaf).

Lemma waited_later : rtc step deaf waited.
Proof. apply (acts_sound [(8300, DoTick); (8540, DoWake); (8541, DoReturn)]). vm_compute. reflexivity. Qed.

(** Both probes are reported lost. *)
Example deaf_run :
  c_ret waited = Some false /\
  map (fun r => (Timestamp r, Sent r, ReceivedN r, Loss r)) (sn_reports (c_state waited)) = [(5000, 1, 0, 1); (5000, 1, 0, 1)].
Proof. vm_compute. split; reflexivity. Qed.

End run_samples.

Lemma lidar_Run_deaf_while_waiting_witness :
  (exists u, c_stop run_samples.waited = Some u /\ u + 3000 <= c_now run_samples.waited) /\
  (c_late run_samples.waited <= 1)%nat /\
  only_removed (sn_world (c_state run_samples.deaf)) (sn_world (c_state run_samples.waited)).
Proof.
  assert (R : reachable (HP := run_samples.P) (ready run_samples.scanner run_samples.world) 5300 run_samples.waited)
    by exact (rtc_trans _ _ _ run_samples.deaf_reachable run_samples.waited_later).
  destruct (lidar_Run_deaf_while_waiting (H := Toy.toy) run_samples.conf _ _ _ _ R) as (H1 & H2 & _).
  destruct (lidar_Run_deaf_while_waiting (H := Toy.toy) run_samples.conf _ _ _ _ run_samples.deaf_reachable) as (_ & _ & H3).
  split_and!; [|exact H2|].
  - destruct (H1 false) as [_ H]; [vm_compute; reflexivity|exact H].
  - apply H3; [vm_compute; reflexivity|vm_compute; discriminate|exact run_samples.waited_later].
Defined.
