(* ===== verification/PingConfig.v ===== *)
(** * Configuration of the ICMP ping tools ([ping/config.go], [ping6/config.go])

    The two files differ in the address family they accept and in two field
    names: the traffic class and the hop limit of [ping6] are the fields [TOS]
    and [TTL] here. The code is defined once over the class [PingFamily] of
    what differs, and instantiated for both tools. *)

From S2P Require Import Prelude GoStd GoNet GoDuration StateErr.
Local Open Scope Z_scope.
Local Open Scope se_scope.

(** [Config]; the errors of [Validate]. *)
Record Config := mkConfig {
  TargetAddrs : list string;
  Rate : Z;
  Span : Z;
  Delay : Z;
  Count : Z;
  SendDuration : Z;
  Size : Z;
  TOS : Z;
  TTL : Z;
  Timeout : Z;
  LocalAddr : string;
  Interface : string;
  Verbose : bool;
  Hwts : bool
}.

Definition set_LocalAddr (a : string) (c : Config) : Config :=
  mkConfig (TargetAddrs c) (Rate c) (Span c) (Delay c) (Count c) (SendDuration c) (Size c) (TOS c)
    (TTL c) (Timeout c) a (Interface c) (Verbose c) (Hwts c).

Definition set_Interface (i : string) (c : Config) : Config :=
  mkConfig (TargetAddrs c) (Rate c) (Span c) (Delay c) (Count c) (SendDuration c) (Size c) (TOS c)
    (TTL c) (Timeout c) (LocalAddr c) i (Verbose c) (Hwts c).

Inductive addr_error :=
| ErrInvalid (a : string)
| ErrNotIPv6 (a : string).

Inductive resolve_error :=
| ErrInterfaces
| ErrNoAddress.

Inductive error :=
| ErrNoTarget
| ErrTarget (e : addr_error)
| ErrResolve (e : resolve_error)
| ErrLocalAddr (e : addr_error)
| ErrNoInterface (a : string).

(** What the tools do differently: the check of an address, the addresses of
    the host name and of the interfaces that may become the local address. *)
Class PingFamily := {
  check_addr : string -> unit + addr_error;
  name_addr_ok : IP -> bool;
  iface_addr_ok : IP -> bool
}.

(** A field left at its zero value takes its default. *)
Definition or_default (n d : Z) : Z := if n =? 0 then d else n.

Definition fill_defaults (c : Config) : Config :=
  mkConfig (TargetAddrs c) (or_default (Rate c) 100) (or_default (Span c) Second)
    (or_default (Delay c) (3 * Second)) (Count c) (SendDuration c)
    (if Size c <? 8 then 64 else Size c) (TOS c) (or_default (TTL c) 64)
    (or_default (Timeout c) Second) (LocalAddr c) (Interface c) (Verbose c) (Hwts c).

Section family.
Context `{HF : PingFamily}.

(** [resolveLocalIPFromInterfaces]: the first acceptable address of an
    interface that is up and not a loopback. *)
Fixpoint first_addr (ifaces : list GoNet.Interface) : option IP :=
  match ifaces with
  | [] => None
  | i :: ifaces =>
      if negb (has_flag FlagUp i) || has_flag FlagLoopback i then first_addr ifaces
      else
        match if_addrs i with
        | None => first_addr ifaces
        | Some ips =>
            match List.find iface_addr_ok ips with
            | Some ip => Some ip
            | None => first_addr ifaces
            end
        end
  end.

Definition resolveLocalIPFromInterfaces (h : Host) : string + resolve_error :=
  match Interfaces h with
  | None => inr ErrInterfaces
  | Some ifaces =>
      match first_addr ifaces with
      | Some ip => inl (IP_String ip)
      | None => inr ErrNoAddress
      end
  end.

(** [resolveLocalIP]. *)
Definition resolveLocalIP (h : Host) : string + resolve_error :=
  match Hostname h with
  | None => resolveLocalIPFromInterfaces h
  | Some hostname =>
      match LookupHost h hostname with
      | None => resolveLocalIPFromInterfaces h
      | Some addrs =>
          match List.find (fun addr => match ParseIP addr with
                                       | Some ip => name_addr_ok ip
                                       | None => false
                                       end) addrs with
          | Some addr => inl addr
          | None => resolveLocalIPFromInterfaces h
          end
      end
  end.

(** [findInterfaceByIP]; the empty string if there is none. *)
Definition findInterfaceByIP (h : Host) (ipStr : string) : string :=
  let targetIP := ParseIP_or_nil ipStr in
  match Interfaces h with
  | None => ""
  | Some ifaces =>
      if bool_decide (targetIP <> []) && IsLoopback targetIP then
        match List.find (has_flag FlagLoopback) ifaces with
        | Some i => if_name i
        | None => ""
        end
      else
        match List.find (fun i => negb (has_flag FlagLoopback i) &&
                                  owns (fun ip => Equal ip targetIP) i) ifaces with
        | Some i => if_name i
        | None =>
            match List.find (owns (fun ip => Equal ip targetIP)) ifaces with
            | Some i => if_name i
            | None => ""
            end
        end
  end.

(** The two steps of [Validate] that fill in the endpoint. *)
Definition fill_local_addr (h : Host) : SE Config error unit :=
  c <-- get;;
  when (bool_decide (LocalAddr c = ""))
    (ip <-- try (resolveLocalIP h) ErrResolve;; modify (set_LocalAddr ip));;;
  c <-- get;;
  _ <-- try (check_addr (LocalAddr c)) ErrLocalAddr;;
  ret tt.

Definition fill_interface (h : Host) : SE Config error unit :=
  c <-- get;;
  when (bool_decide (Interface c = ""))
    (let iface := findInterfaceByIP h (LocalAddr c) in
     check (bool_decide (iface = "")) (ErrNoInterface (LocalAddr c));;;
     modify (set_Interface iface)).

(** [Config.Validate]. *)
Definition Validate (h : Host) : SE Config error unit :=
  c <-- get;;
  check (bool_decide (TargetAddrs c = [])) ErrNoTarget;;;
  for_each (TargetAddrs c) (fun a => try (check_addr a) ErrTarget);;;
  fill_local_addr h;;;
  fill_interface h;;;
  modify fill_defaults.

End family.

(** ** The instances *)

Module ping_config.

Definition check_ipv4 (a : string) : unit + addr_error :=
  if not_ipv4 a then inr (ErrInvalid a) else inl tt.

#[export] Instance family : PingFamily := {|
  check_addr := check_ipv4;
  name_addr_ok := fun ip => bool_decide (To4 ip <> None) && negb (IsLoopback ip);
  iface_addr_ok := fun ip => bool_decide (To4 ip <> None) && negb (IsLoopback ip)
|}.

Definition resolveLocalIP := PingConfig.resolveLocalIP (HF := family).
Definition resolveLocalIPFromInterfaces := PingConfig.resolveLocalIPFromInterfaces (HF := family).
Definition Validate := PingConfig.Validate (HF := family).

End ping_config.

Module ping6_config.

(** [validateIPv6]. *)
Definition validateIPv6 (a : string) : unit + addr_error :=
  match ParseIP a with
  | None => inr (ErrInvalid a)
  | Some ip => if bool_decide (To4 ip <> None) then inr (ErrNotIPv6 a) else inl tt
  end.

#[export] Instance family : PingFamily := {|
  check_addr := validateIPv6;
  name_addr_ok := fun ip => bool_decide (To4 ip = None) && negb (IsLoopback ip);
  iface_addr_ok := fun ip => bool_decide (To4 ip = None) && bool_decide (To16 ip <> None) && IsGlobalUnicast ip
|}.

Definition Config := Config.
Definition resolveLocalIPv6 := PingConfig.resolveLocalIP (HF := family).
Definition resolveLocalIPv6FromInterfaces := PingConfig.resolveLocalIPFromInterfaces (HF := family).
Definition findInterfaceByIPv6 := PingConfig.findInterfaceByIP.
Definition Validate := PingConfig.Validate (HF := family).

End ping6_config.

(** ** Properties *)

Lemma ping_or_default_ne n d : d <> 0 -> or_default n d <> 0.
Proof. intros H. unfold or_default. zcases; congruence. Qed.

Lemma or_default_keep n d : n <> 0 -> or_default n d = n.
Proof. intros H. unfold or_default. zcases; congruence. Qed.

(** The interface that is found owns the address, or is a loopback for a
    loopback address. *)
Lemma findInterfaceByIP_spec h a name :
  findInterfaceByIP h a = name -> name <> "" ->
  exists ifaces i, Interfaces h = Some ifaces /\ i ∈ ifaces /\ if_name i = name /\
    if IsLoopback (ParseIP_or_nil a) && bool_decide (ParseIP_or_nil a <> [])
    then has_flag FlagLoopback i = true
    else owns (fun ip => Equal ip (ParseIP_or_nil a)) i = true.
Proof.
  unfold findInterfaceByIP. intros <- Hne. destruct (Interfaces h) as [ifaces|]; [|done].
  exists ifaces. rewrite (andb_comm (IsLoopback _)).
  destruct (bool_decide _ && _).
  { destruct (List.find _ _) as [i|] eqn:Hf; [|done].
    exists i. apply find_Some_elem in Hf as [Hi Hb]. done. }
  destruct (List.find (fun _ => _ && _) _) as [i|] eqn:Hf.
  - exists i. apply find_Some_elem in Hf as [Hi Hb]. bools. done.
  - destruct (List.find (owns _) ifaces) as [i|] eqn:Hf'; [|done].
    exists i. apply find_Some_elem in Hf' as [Hi Hb]. done.
Qed.

(** What [NewPinger] and the send loop rely on. *)
Record config_ok `{PingFamily} (c : Config) : Prop := {
  ok_targets : TargetAddrs c <> [] /\ Forall (fun a => check_addr a = inl tt) (TargetAddrs c);
  ok_local : check_addr (LocalAddr c) = inl tt;
  ok_interface : Interface c <> "";
  ok_size : 8 <= Size c;
  ok_nonzero : Rate c <> 0 /\ Span c <> 0 /\ Delay c <> 0 /\ TTL c <> 0 /\ Timeout c <> 0
}.

Section validate.
Context `{HF : PingFamily}.

Lemma fill_local_addr_inv h c c1 u :
  fill_local_addr h c = (c1, inl u) ->
  c1 = set_LocalAddr (LocalAddr c1) c /\ check_addr (LocalAddr c1) = inl tt /\
  (LocalAddr c <> "" -> c1 = c).
Proof.
  unfold fill_local_addr. intros H. se_inv.
  match goal with H : when _ _ _ = _ |- _ => apply when_inl in H as [[Ha H]|[Ha ->]] end; se_inv; bools.
  all: match goal with H : check_addr _ = inl ?x |- _ => destruct x end.
  all: unfold ret in *; simplify_eq; split_and!; try done.
  by match goal with |- ?x = set_LocalAddr _ ?x => destruct x end.
Qed.

Lemma fill_interface_inv h c c1 u :
  fill_interface h c = (c1, inl u) ->
  c1 = set_Interface (Interface c1) c /\ Interface c1 <> "" /\
  (Interface c <> "" -> c1 = c) /\
  (Interface c = "" -> Interface c1 = findInterfaceByIP h (LocalAddr c)).
Proof.
  unfold fill_interface. intros H. se_inv. apply when_inl in H as [[Ha H]|[Ha ->]]; se_inv; bools.
  - split_and!; done.
  - split_and!; try done. by match goal with |- ?x = set_Interface _ ?x => destruct x end.
Qed.

Lemma ping_Validate_inv h c c' u :
  Validate h c = (c', inl u) ->
  exists addr iface,
    c' = fill_defaults (set_Interface iface (set_LocalAddr addr c)) /\ config_ok c' /\
    (LocalAddr c <> "" -> addr = LocalAddr c) /\ (Interface c <> "" -> iface = Interface c) /\
    (Interface c = "" -> iface = findInterfaceByIP h addr).
Proof.
  unfold Validate. intros H. se_inv. bools.
  repeat match goal with
  | H : fill_local_addr _ _ = _ |- _ => apply fill_local_addr_inv in H as (E1 & Hc1 & Hk1)
  | H : fill_interface _ _ = _ |- _ => apply fill_interface_inv in H as (E2 & Hi2 & Hk2 & Hf2)
  end.
  match goal with E2 : ?c2 = set_Interface _ ?c1, E1 : ?c1 = set_LocalAddr _ _ |- _ =>
    exists (LocalAddr c1), (Interface c2) end.
  split_and!.
  - congruence.
  - rewrite E2, E1. split; cbn; try done; try (rewrite E1 in Hc1; exact Hc1).
    + zcases; lia.
    + split_and!; by apply ping_or_default_ne.
  - intros Hne. by rewrite (Hk1 Hne).
  - intros Hne. rewrite E1 in Hk2. cbn in Hk2. rewrite Hk2 by done. done.
  - intros He. rewrite E1 in Hf2. cbn in Hf2. rewrite E1. cbn. by rewrite Hf2.
Qed.

Lemma check_all_ok (l : list string) (c : Config) :
  Forall (fun a => check_addr a = inl tt) l -> for_each l (fun a => try (check_addr a) ErrTarget) c = (c, inl tt).
Proof.
  induction 1 as [|a l Ha _ IH]; [done|]. cbn [for_each]. unfold bind, try. rewrite Ha. exact IH.
Qed.

Lemma fill_defaults_ok c : config_ok c -> fill_defaults c = c.
Proof.
  intros [_ _ _ Hs (H1 & H2 & H3 & H4 & H5)]. unfold fill_defaults.
  rewrite !or_default_keep by done. rewrite (proj2 (Z.ltb_ge _ _)) by lia. by destruct c.
Qed.

(** A valid configuration passes again unchanged, whatever the host says. *)
Lemma Validate_idem h c : config_ok c -> check_addr "" <> inl tt -> Validate h c = (c, inl tt).
Proof.
  intros Hc Hnil. pose proof Hc as [[H1 H2] H3 H4 _ _]. unfold Validate, bind, get.
  rewrite (bool_decide_eq_false_2 (TargetAddrs c = [])) by done. rewrite check_eval.
  rewrite check_all_ok by done. unfold fill_local_addr, bind, get.
  rewrite (bool_decide_eq_false_2 (LocalAddr c = "")) by congruence. unfold when, try, ret. rewrite H3.
  unfold fill_interface, bind, get. rewrite (bool_decide_eq_false_2 (Interface c = "")) by done.
  unfold when, ret, modify. by rewrite fill_defaults_ok.
Qed.

End validate.

Module samples.

Definition host : Host :=
  mkHost (Some "probe") (fun _ => Some ["127.0.0.1"])
    (Some [mkInterface "lo" (Some [[127; 0; 0; 1]]) 5; mkInterface "eth0" (Some [[10; 0; 0; 1]]) 3]).

Definition conf : Config := mkConfig ["10.0.0.2"; "10.0.0.3"] 0 0 0 0 0 0 0 0 0 "" "" false false.

Definition valid_conf : Config :=
  mkConfig ["10.0.0.2"; "10.0.0.3"] 100 Second (3 * Second) 0 0 64 0 64 Second "10.0.0.1" "eth0" false false.

Example ping_Validate_sample : ping_config.Validate host conf = (valid_conf, inl tt).
Proof. vm_compute. reflexivity. Qed.

End samples.
