(* ===== verification/Timestamps.v ===== *)
(** * Socket timestamps ([ping/hardware_timestamp_linux.go] and its copies)

    The control messages of a received datagram byte for byte, as Linux on a
    64-bit little-endian machine lays them out ([syscall.ParseSocketControlMessage]),
    the choice of a timestamp among them, and the socket options the ping tools
    set. System calls are arguments. *)

From S2P Require Import Prelude GoStd GoDuration.
Local Open Scope Z_scope.

(** ** Control messages *)

(** [syscall.SocketControlMessage]. *)
Record cmsg := mkCmsg {
  c_level : Z;
  c_type : Z;
  c_data : bytes
}.

Definition SizeofCmsghdr : nat := 16.
Definition SOL_SOCKET : Z := 1.
Definition SO_TIMESTAMPING : Z := 37.
Definition SCM_TIMESTAMPNS : Z := 35.

Definition i32 (z : Z) : Z := (z + 2 ^ 31) mod 2 ^ 32 - 2 ^ 31.

(** Message lengths are rounded up to words. *)
Definition cmsgAlignOf (n : nat) : nat := ((n + 7) / 8 * 8)%nat.

(** [syscall.ParseSocketControlMessage]; [None] is [EINVAL]. *)
Fixpoint parse_cmsgs (fuel : nat) (b : bytes) : option (list cmsg) :=
  match fuel with
  | O => Some []
  | S fuel =>
      if (length b <? SizeofCmsghdr)%nat then Some []
      else
        let len := get_le (slice 0 8 b) in
        if (len <? Z.of_nat SizeofCmsghdr) || (Z.of_nat (length b) <? len) then None
        else
          let n := Z.to_nat len in
          cms ← parse_cmsgs fuel (drop (cmsgAlignOf n) b);
          Some (mkCmsg (i32 (get_le (slice 8 12 b))) (i32 (get_le (slice 12 16 b))) (slice SizeofCmsghdr n b) :: cms)
  end.

Definition ParseSocketControlMessage (b : bytes) : option (list cmsg) := parse_cmsgs (length b) b.

(** ** Reading a timestamp *)

(** [unix.Timespec.Nano]. *)
Definition Nano (sec nsec : Z) : Z := i64 (i64 (sec * Second) + nsec).

(** A [unix.Timespec] at offset [i]. *)
Definition timespec_at (d : bytes) (i : nat) : Z :=
  Nano (i64 (get_le (slice i (i + 8) d))) (i64 (get_le (slice (i + 8) (i + 16) d))).

(** The loop of [getTimestampFromOOB]; [binary.Read] fails on a short buffer. *)
Fixpoint find_timestamp (cms : list cmsg) : option Z :=
  match cms with
  | [] => None
  | cm :: cms =>
      if (c_level cm =? SOL_SOCKET) && (c_type cm =? SO_TIMESTAMPING) then
        if (length (c_data cm) <? 48)%nat then None
        else if 0 <? timespec_at (c_data cm) 32 then Some (timespec_at (c_data cm) 32)
        else if 0 <? timespec_at (c_data cm) 16 then Some (timespec_at (c_data cm) 16)
        else if 0 <? timespec_at (c_data cm) 0 then Some (timespec_at (c_data cm) 0)
        else None
      else if (c_level cm =? SOL_SOCKET) && (c_type cm =? SCM_TIMESTAMPNS) then
        if (length (c_data cm) <? 16)%nat then None else Some (timespec_at (c_data cm) 0)
      else find_timestamp cms
  end.

(** [getTimestampFromOOB]; [None] is any of its errors. *)
Definition getTimestampFromOOB (oob : bytes) (oobn : nat) : option Z :=
  cms ← ParseSocketControlMessage (take oobn oob); find_timestamp cms.

(** [getTxTimestamp] over what the error queue answers. *)
Definition getTxTimestamp (Recvmsg : option (bytes * nat)) : option Z :=
  '(oob, oobn) ← Recvmsg; getTimestampFromOOB oob oobn.

(** The receive time of the loops of both [serveRecv]: the kernel's if it is
    supported and not 0, else the clock. *)
Definition rx_time (supportRxTS : bool) (oob : bytes) (oobn : nat) (now : Z) : Z :=
  let rxts := if supportRxTS then default 0 (getTimestampFromOOB oob oobn) else 0 in
  if rxts =? 0 then now else rxts.

(** The recorded send time: the kernel's if it is supported and there is one. *)
Definition tx_time (supportTxTS : bool) (Recvmsg : option (bytes * nat)) (now : Z) : Z :=
  if supportTxTS then default now (getTxTimestamp Recvmsg) else now.

(** ** Socket options *)

(** [unix.HwTstampConfig]. *)
Record HwTstampConfig := mkHwConfig { hw_Flags : Z; hw_Tx_type : Z; hw_Rx_filter : Z }.

Definition HWTSTAMP_TX_ON : Z := 1.
Definition HWTSTAMP_FILTER_ALL : Z := 1.
Definition SIOCSHWTSTAMP : Z := 35248.
Definition SIOCGHWTSTAMP : Z := 35249.
Definition SO_TIMESTAMPNS : Z := 35.

(** The field [name] of an [ifreq]: as much of the name as fits. *)
Definition ifreq_name (interfaceName : string) : bytes :=
  copy_at 0 (Z.of_nat <$> string_codes interfaceName) (make_bytes 16).

(** The system calls made, with the descriptor each is about. *)
Inductive syscall :=
| SysSocket (fd : Z)
| SysIoctl (fd request : Z) (name : bytes) (config : HwTstampConfig)
| SysClose (fd : Z)
| SysSetsockopt (fd option value : Z).

(** What the system answers: the descriptor of the socket opened for a request,
    the configuration an [ioctl] leaves ([None] an [errno]), whether an option
    can be set. *)
Record System := mkSystem {
  sys_socket : Z -> option Z;
  sys_ioctl : Z -> bytes -> HwTstampConfig -> option HwTstampConfig;
  sys_setsockopt : Z -> Z -> bool
}.

(** A request about an interface on a socket of its own, which is closed
    whatever the answer. *)
Definition interface_request (s : System) (request : Z) (interfaceName : string) (config : HwTstampConfig) :
    option HwTstampConfig * list syscall :=
  match sys_socket s request with
  | None => (None, [])
  | Some fd =>
      let name := ifreq_name interfaceName in
      (sys_ioctl s request name config, [SysSocket fd; SysIoctl fd request name config; SysClose fd])
  end.

(** [enableHardwareTimestamp]; [false] is an error. *)
Definition enableHardwareTimestamp (s : System) (interfaceName : string) : bool * list syscall :=
  let '(r, calls) := interface_request s SIOCSHWTSTAMP interfaceName
                       (mkHwConfig 0 HWTSTAMP_TX_ON HWTSTAMP_FILTER_ALL) in
  (bool_decide (is_Some r), calls).

(** [checkHardwareTimestamp]: the configuration it prints. *)
Definition checkHardwareTimestamp (s : System) (interfaceName : string) : option HwTstampConfig * list syscall :=
  interface_request s SIOCGHWTSTAMP interfaceName (mkHwConfig 0 0 0).

(** [SOF_TIMESTAMPING_TX_HARDWARE], [RX_HARDWARE], [RAW_HARDWARE],
    [SYS_HARDWARE], [SOFTWARE] and [OPT_CMSG]. *)
Definition timestamping_flags : Z := foldl Z.lor 1 [4; 64; 32; 16; 1024].

(** [configureTimestamps]: the new [supportTxTS] and [supportRxTS], [None] the
    error; the interface's own answers only show in the log. *)
Definition configureTimestamps (s : System) (fd : Z) (iface : string) (verbose : bool) :
    option (bool * bool) * list syscall :=
  let '(_, enable) := enableHardwareTimestamp s iface in
  let check := if verbose then (checkHardwareTimestamp s iface).2 else [] in
  let calls := enable ++ check ++ [SysSetsockopt fd SO_TIMESTAMPING timestamping_flags] in
  if negb (sys_setsockopt s SO_TIMESTAMPING timestamping_flags) then
    let calls := calls ++ [SysSetsockopt fd SO_TIMESTAMPNS 1] in
    if negb (sys_setsockopt s SO_TIMESTAMPNS 1) then (None, calls) else (Some (false, true), calls)
  else (Some (true, true), calls).

(** The [Timeval] of [setSocketTimeouts]. *)
Definition timeval (timeout : Z) : Z * Z :=
  let sec := Z.quot timeout Second in
  let usec := Z.quot (Z.rem timeout Second) Microsecond in
  if (sec =? 0) && (usec =? 0) then (1, usec) else (sec, usec).

(** [setSocketTimeouts] over whether each option can be set; [false] is the
    error. *)
Definition setSocketTimeouts (rcv snd : Z * Z -> bool) (timeout : Z) : bool :=
  let tv := timeval timeout in
  if negb (rcv tv) then false else snd tv.

(** [ping6] has a copy of the file. *)
Module ping6_timestamps.

Definition getTimestampFromOOB := getTimestampFromOOB.
Definition getTxTimestamp := getTxTimestamp.
Definition enableHardwareTimestamp := enableHardwareTimestamp.
Definition checkHardwareTimestamp := checkHardwareTimestamp.
Definition configureTimestamps := configureTimestamps.
Definition setSocketTimeouts := setSocketTimeouts.

End ping6_timestamps.

(** The files for systems other than Linux: there are no timestamps to read and
    nothing to configure; microseconds have 32 bits there. *)
Module other_timestamps.

Definition getTimestampFromOOB (oob : bytes) (oobn : nat) : option Z := None.
Definition getTxTimestamp (fd : Z) : option Z := None.
Definition configureTimestamps (fd : Z) (iface : string) (verbose : bool) : option (bool * bool) :=
  Some (false, false).
Definition setSocketTimeouts (rcv snd : Z * Z -> bool) (timeout : Z) : bool :=
  let '(sec, usec) := timeval timeout in
  let tv := (sec, i32 usec) in
  if negb (rcv tv) then false else snd tv.

End other_timestamps.

Module ping6_other_timestamps.

Definition getTimestampFromOOB := other_timestamps.getTimestampFromOOB.
Definition getTxTimestamp := other_timestamps.getTxTimestamp.
Definition configureTimestamps := other_timestamps.configureTimestamps.
Definition setSocketTimeouts := other_timestamps.setSocketTimeouts.

End ping6_other_timestamps.

(** ** Messages as the kernel writes them *)

Definition marshal (cm : cmsg) : bytes :=
  let n := (SizeofCmsghdr + length (c_data cm))%nat in
  put_le 8 (Z.of_nat n) ++ put_le 4 (c_level cm) ++ put_le 4 (c_type cm) ++ c_data cm ++ make_bytes (cmsgAlignOf n - n).

Definition in_i32 (z : Z) : Prop := - 2 ^ 31 <= z < 2 ^ 31.

Record cmsg_ok (cm : cmsg) : Prop := {
  cm_level : in_i32 (c_level cm);
  cm_type : in_i32 (c_type cm);
  cm_short : Z.of_nat (length (c_data cm)) < 2 ^ 32
}.

Lemma i32_wrap z : in_i32 z -> i32 (z mod 2 ^ 32) = z.
Proof.
  unfold in_i32, i32. intros H. rewrite Zplus_mod_idemp_l, Z.mod_small by lia. lia.
Qed.

Lemma align_ge n : (n <= cmsgAlignOf n)%nat.
Proof. unfold cmsgAlignOf. pose proof (Nat.div_mod_eq (n + 7) 8). pose proof (Nat.mod_upper_bound (n + 7) 8). lia. Qed.

Lemma length_marshal cm : length (marshal cm) = cmsgAlignOf (SizeofCmsghdr + length (c_data cm)).
Proof.
  unfold marshal. rewrite !length_app, !length_put_le, length_make_bytes.
  pose proof (align_ge (SizeofCmsghdr + length (c_data cm))). unfold SizeofCmsghdr in *. lia.
Qed.

(** The fields of the first message. *)
Lemma marshal_fields cm rest :
  cmsg_ok cm ->
  let b := marshal cm ++ rest in
  let n := (SizeofCmsghdr + length (c_data cm))%nat in
  get_le (slice 0 8 b) = Z.of_nat n /\ i32 (get_le (slice 8 12 b)) = c_level cm /\
  i32 (get_le (slice 12 16 b)) = c_type cm /\ slice SizeofCmsghdr n b = c_data cm /\ drop (cmsgAlignOf n) b = rest.
Proof.
  intros [Hl Ht Hs]. cbn zeta. split_and!.
  5: { rewrite <- length_marshal. apply drop_app_length. }
  all: unfold marshal; rewrite <- !app_assoc.
  - rewrite slice_head by (rewrite ?length_put_le; done). rewrite get_put_le. apply Z.mod_small.
    change (256 ^ Z.of_nat 8) with (2 ^ 64). unfold SizeofCmsghdr. lia.
  - rewrite slice_skip by (rewrite ?length_put_le; lia). rewrite slice_head by (rewrite ?length_put_le; done).
    rewrite get_put_le. by apply i32_wrap.
  - rewrite slice_skip by (rewrite ?length_put_le; lia). rewrite slice_skip by (rewrite ?length_put_le; lia).
    rewrite slice_head by (rewrite ?length_put_le; done). rewrite get_put_le. by apply i32_wrap.
  - unfold SizeofCmsghdr. do 3 rewrite slice_skip by (rewrite ?length_put_le; lia).
    apply slice_head; rewrite ?length_put_le; lia.
Qed.

Lemma align_16 n : (SizeofCmsghdr <= n)%nat -> (1 <= cmsgAlignOf n)%nat.
Proof. intros H. pose proof (align_ge n). unfold SizeofCmsghdr in *. lia. Qed.

(** The loop ends: a message takes 16 bytes at least, so as much fuel as bytes
    is enough, and more changes nothing. *)
Lemma parse_cmsgs_fuel f g b : (length b <= f)%nat -> (length b <= g)%nat -> parse_cmsgs f b = parse_cmsgs g b.
Proof.
  revert g b. induction f as [|f IH]; intros [|g] b Hf Hg; try done.
  { destruct b; [done|cbn in Hf; lia]. }
  { destruct b; [done|cbn in Hg; lia]. }
  cbn [parse_cmsgs]. destruct (Nat.ltb_spec (length b) SizeofCmsghdr); [done|].
  destruct (_ || _) eqn:E; [done|]. bools.
  assert (Ha : (1 <= cmsgAlignOf (Z.to_nat (get_le (slice 0 8 b))))%nat)
    by (apply align_16; unfold SizeofCmsghdr in *; lia).
  rewrite (IH g); [done|rewrite length_drop; unfold SizeofCmsghdr in *; lia..].
Qed.

Lemma parse_marshal_fuel cms f :
  Forall cmsg_ok cms -> (length (concat (map marshal cms)) <= f)%nat ->
  parse_cmsgs f (concat (map marshal cms)) = Some cms.
Proof.
  intros H. revert f. induction H as [|cm cms Hcm _ IH]; intros f Hf; cbn [map concat] in *; [by destruct f|].
  set (rest := concat (map marshal cms)) in *.
  destruct (marshal_fields cm rest Hcm) as (H1 & H2 & H3 & H4 & H5).
  pose proof (align_ge (SizeofCmsghdr + length (c_data cm))) as Ha. rewrite length_app, length_marshal in Hf.
  destruct f as [|f]; [unfold SizeofCmsghdr in *; lia|]. cbn [parse_cmsgs].
  rewrite H1, Nat2Z.id, length_app, length_marshal.
  rewrite (proj2 (Nat.ltb_ge _ _)), !(proj2 (Z.ltb_ge _ _)) by (unfold SizeofCmsghdr in *; lia).
  cbn [orb]. rewrite H2, H3, H4, H5, IH by (unfold SizeofCmsghdr in *; lia). by destruct cm.
Qed.

(** The messages of a datagram are read back as the kernel wrote them. *)
Lemma parse_marshal cms :
  Forall cmsg_ok cms -> ParseSocketControlMessage (concat (map marshal cms)) = Some cms.
Proof. intros H. by apply parse_marshal_fuel. Qed.

(** The payload of [SO_TIMESTAMPING]: software, transformed and raw hardware
    time, each in seconds and nanoseconds. *)
Definition timespec_bytes (ts : Z * Z) : bytes := put_le 8 (u64 ts.1) ++ put_le 8 (u64 ts.2).
Definition scm_timestamping (sw tr raw : Z * Z) : cmsg :=
  mkCmsg SOL_SOCKET SO_TIMESTAMPING (timespec_bytes sw ++ timespec_bytes tr ++ timespec_bytes raw).
Definition scm_timestampns (t : Z * Z) : cmsg := mkCmsg SOL_SOCKET SCM_TIMESTAMPNS (timespec_bytes t).

Definition nanos (ts : Z * Z) : Z := ts.1 * Second + ts.2.
Definition time_ok (ts : Z * Z) : Prop := 0 <= ts.1 < 2 ^ 33 /\ 0 <= ts.2 < Second.

Lemma length_timespec ts : length (timespec_bytes ts) = 16%nat.
Proof. unfold timespec_bytes. by rewrite length_app, !length_put_le. Qed.

Lemma get_i64 z rest : in_i64 z -> i64 (get_le (slice 0 8 (put_le 8 (u64 z) ++ rest))) = z.
Proof.
  intros H. rewrite slice_head by (rewrite ?length_put_le; done). rewrite get_put_le.
  change (256 ^ Z.of_nat 8) with (2 ^ 64). unfold u64. rewrite Zmod_mod. by apply i64_u64.
Qed.

Lemma timespec_at_0 ts rest : time_ok ts -> timespec_at (timespec_bytes ts ++ rest) 0 = nanos ts.
Proof.
  unfold time_ok, Second. intros [H1 H2]. unfold timespec_at, timespec_bytes. cbn [Nat.add].
  rewrite <- app_assoc, get_i64 by (unfold in_i64; lia).
  rewrite slice_skip by (rewrite length_put_le; lia). rewrite length_put_le. cbn [Nat.sub].
  rewrite get_i64 by (unfold in_i64; lia). unfold Nano, nanos, Second.
  rewrite (i64_small (ts.1 * 1000000000)) by (unfold in_i64; lia). apply i64_small. unfold in_i64. lia.
Qed.

Lemma timespec_at_skip ts d i : timespec_at (timespec_bytes ts ++ d) (16 + i) = timespec_at d i.
Proof.
  unfold timespec_at. rewrite !slice_skip by (rewrite length_timespec; lia). rewrite length_timespec.
  by replace (16 + i - 16)%nat with i by lia; replace (16 + i + 8 - 16)%nat with (i + 8)%nat by lia;
    replace (16 + i + 16 - 16)%nat with (i + 16)%nat by lia.
Qed.

(** The first of the times, in the order given, that is set. *)
Definition first_set (l : list Z) : option Z := List.find (fun t => 0 <? t) l.

Lemma find_timestamping sw tr raw cms :
  time_ok sw -> time_ok tr -> time_ok raw ->
  find_timestamp (scm_timestamping sw tr raw :: cms) = first_set [nanos raw; nanos tr; nanos sw].
Proof.
  intros H1 H2 H3. cbn [find_timestamp c_level c_type c_data scm_timestamping].
  rewrite !length_app, !length_timespec. cbn [Z.eqb andb Nat.ltb Nat.leb Nat.add].
  change 32%nat with (16 + (16 + 0))%nat. rewrite !timespec_at_skip.
  change 16%nat with (16 + 0)%nat. rewrite timespec_at_skip.
  rewrite <- (app_nil_r (timespec_bytes raw)), !timespec_at_0 by done. reflexivity.
Qed.

Lemma find_timestampns t cms : time_ok t -> find_timestamp (scm_timestampns t :: cms) = Some (nanos t).
Proof.
  intros H. cbn [find_timestamp c_level c_type c_data scm_timestampns]. rewrite length_timespec.
  change (Some (timespec_at (timespec_bytes t) 0) = Some (nanos t)).
  by rewrite <- (app_nil_r (timespec_bytes t)), timespec_at_0.
Qed.

Definition is_timestamp (cm : cmsg) : bool :=
  (c_level cm =? SOL_SOCKET) && ((c_type cm =? SO_TIMESTAMPING) || (c_type cm =? SCM_TIMESTAMPNS)).

Lemma find_timestamp_skip before cms :
  Forall (fun cm => is_timestamp cm = false) before -> find_timestamp (before ++ cms) = find_timestamp cms.
Proof.
  induction 1 as [|cm before H _ IH]; [done|]. cbn [app find_timestamp]. unfold is_timestamp in H.
  destruct (c_level cm =? SOL_SOCKET); [|done]. cbn [andb] in *. by apply orb_false_elim in H as [-> ->].
Qed.

Lemma scm_ok sw tr raw : cmsg_ok (scm_timestamping sw tr raw).
Proof. split; cbn [c_level c_type c_data scm_timestamping]; [done|done|]. by rewrite !length_app, !length_timespec. Qed.

Lemma scmns_ok t : cmsg_ok (scm_timestampns t).
Proof. split; cbn [c_level c_type c_data scm_timestampns]; [done|done|]. by rewrite length_timespec. Qed.

(** The receive time from the wire: whatever messages of other kinds come
    before and after, the first timestamp message decides. For
    [SO_TIMESTAMPING] it is the raw hardware time if it is set, else the
    transformed one, else the software one, else the clock of the process; for
    [SO_TIMESTAMPNS] the time it carries, unless that is 0. *)
Theorem rx_time_priority :
  forall before after tail now,
    Forall cmsg_ok before -> Forall cmsg_ok after -> Forall (fun cm => is_timestamp cm = false) before ->
    let oob m := concat (map marshal (before ++ m :: after)) in
    (forall sw tr raw, time_ok sw -> time_ok tr -> time_ok raw ->
       let o := oob (scm_timestamping sw tr raw) in
       rx_time true (o ++ tail) (length o) now = default now (first_set [nanos raw; nanos tr; nanos sw])) /\
    (forall t, time_ok t ->
       let o := oob (scm_timestampns t) in
       rx_time true (o ++ tail) (length o) now = if nanos t =? 0 then now else nanos t).
Proof.
  intros before after tail now Hb Ha Hk oob. split.
  - intros sw tr raw H1 H2 H3 o. unfold rx_time, getTimestampFromOOB. rewrite take_app_length. subst o oob. cbn beta.
    rewrite parse_marshal by (apply Forall_app; split; [done|]; constructor; [apply scm_ok|done]).
    cbn [mbind option_bind]. rewrite find_timestamp_skip, find_timestamping by done. unfold first_set. cbn [List.find].
    destruct (Z.ltb_spec 0 (nanos raw)), (Z.ltb_spec 0 (nanos tr)), (Z.ltb_spec 0 (nanos sw)); cbn; zcases; done || lia.
  - intros t Ht o. unfold rx_time, getTimestampFromOOB. rewrite take_app_length. subst o oob. cbn beta.
    rewrite parse_marshal by (apply Forall_app; split; [done|]; constructor; [apply scmns_ok|done]).
    cbn [mbind option_bind]. by rewrite find_timestamp_skip, find_timestampns by done.
Qed.

Lemma rx_time_priority_witness :
  let other := mkCmsg 41 50 [1; 2; 3] in
  let o := concat (map marshal [other; scm_timestamping (7, 5) (0, 0) (9, 1); other]) in
  rx_time true (o ++ make_bytes 3) (length o) 4 = 9000000001 /\
  let o := concat (map marshal [other; scm_timestamping (7, 5) (0, 0) (0, 0); other]) in
  rx_time true (o ++ make_bytes 3) (length o) 4 = 7000000005.
Proof.
  cbn zeta.
  destruct (rx_time_priority [mkCmsg 41 50 [1; 2; 3]] [mkCmsg 41 50 [1; 2; 3]] (make_bytes 3) 4) as [H _];
    [repeat constructor; done..|].
  split.
  - etrans; [apply (H (7, 5) (0, 0) (9, 1)); unfold time_ok, Second; cbn; lia|reflexivity].
  - etrans; [apply (H (7, 5) (0, 0) (0, 0)); unfold time_ok, Second; cbn; lia|reflexivity].
Defined.

(** ** Timeouts *)

(** No socket waits forever: the [Timeval] is never zero, it is the timeout in
    whole microseconds, except that a timeout under one becomes a second. *)
Lemma timeval_positive timeout :
  0 <= timeout ->
  let '(sec, usec) := timeval timeout in
  0 <= sec /\ 0 <= usec < 1000000 /\ 0 < sec * 1000000 + usec /\
  (Microsecond <= timeout -> sec * 1000000 + usec = timeout / Microsecond) /\
  (timeout < Microsecond -> sec * 1000000 + usec = 1000000).
Proof.
  intros H. unfold timeval, Second, Microsecond.
  rewrite Z.rem_mod_nonneg, !Z.quot_div_nonneg by (try apply Z.rem_bound_pos; try apply Z.mod_pos_bound; lia).
  destruct (_ && _) eqn:E; bools; Z.div_mod_to_equations; lia.
Qed.

(** The copies of the file agree on the timeouts. *)
Lemma other_timeouts rcv snd timeout :
  0 <= timeout -> other_timestamps.setSocketTimeouts rcv snd timeout = setSocketTimeouts rcv snd timeout.
Proof.
  intros H. pose proof (timeval_positive timeout H) as Ht. unfold other_timestamps.setSocketTimeouts, setSocketTimeouts.
  destruct (timeval timeout) as [sec usec]. destruct Ht as (_ & Hu & _).
  replace (i32 usec) with usec; [done|]. unfold i32. rewrite Z.mod_small by lia. lia.
Qed.

(** ** Descriptors *)

(** The descriptors a list of calls leaves open. *)
Definition left_open (calls : list syscall) : list Z :=
  foldl (fun fds c => match c with
                      | SysSocket fd => fd :: fds
                      | SysClose fd => filter (fun x => x <> fd) fds
                      | _ => fds
                      end) [] calls.

Definition set_option (c : syscall) : option (Z * Z * Z) :=
  match c with SysSetsockopt fd o v => Some (fd, o, v) | _ => None end.

(** Whatever the system answers, [configureTimestamps] closes every socket it
    opens; it asks for hardware timestamps on the socket it was given and falls
    back to software ones only if they are refused; receive timestamps are
    supported whenever it succeeds, and it fails only if both are refused. *)
Lemma configureTimestamps_spec s fd iface verbose :
  let '(r, calls) := configureTimestamps s fd iface verbose in
  let hardware := sys_setsockopt s SO_TIMESTAMPING timestamping_flags in
  let software := sys_setsockopt s SO_TIMESTAMPNS 1 in
  left_open calls = [] /\
  omap set_option calls = (fd, SO_TIMESTAMPING, timestamping_flags) :: (if hardware then [] else [(fd, SO_TIMESTAMPNS, 1)]) /\
  r = if hardware || software then Some (hardware, true) else None.
Proof.
  unfold configureTimestamps, enableHardwareTimestamp, checkHardwareTimestamp, interface_request.
  destruct (sys_socket s SIOCSHWTSTAMP) as [a|], (sys_socket s SIOCGHWTSTAMP) as [b|], verbose,
    (sys_setsockopt s SO_TIMESTAMPING timestamping_flags), (sys_setsockopt s SO_TIMESTAMPNS 1);
    cbn; split_and!; try done; by rewrite ?decide_False by (by intros []).
Qed.

(** An interface name reaches the kernel whole and terminated if it is shorter
    than 16 bytes. *)
Lemma ifreq_name_short interfaceName :
  (length (string_codes interfaceName) < 16)%nat ->
  ifreq_name interfaceName =
    (Z.of_nat <$> string_codes interfaceName) ++ make_bytes (16 - length (string_codes interfaceName)).
Proof.
  intros H. unfold ifreq_name, copy_at. rewrite length_make_bytes, length_fmap. cbn [take app Nat.add Nat.sub].
  rewrite (take_ge (_ <$> _)) by (rewrite length_fmap; lia). unfold make_bytes. by rewrite drop_replicate.
Qed.
