(* ===== verification/Ping.v ===== *)
(** * The ICMP ping tools ([ping/pinger.go], [ping6/pinger.go])

    A [Pinger] sends one echo request per target and round, numbered and
    stamped, and records it in the target's [Stat]; a reply is attributed to a
    target by its ICMP identifier, checked against the target's address, and
    recorded under its 16-bit sequence number. The send side is defined once
    over the class [PingTool] of what the two tools do differently; each tool
    has its own receive handler, ending in the common [record_reply]. *)

From S2P Require Import Prelude GoStd GoNet GoDuration StateErr Ports Bucket Buckets UdpStat Salts Goscapy World PingConfig Timestamps.
Local Open Scope Z_scope.

(** ** State *)

(** [target]; [t_stat] is a location of the store, [None] before [Run]. *)
Record target := mkTarget {
  t_addr : string;
  t_ip : IP;
  t_icmpID : Z;
  t_stat : option nat;
  t_seq : Z
}.

Definition set_seq (sq : Z) (t : target) : target := mkTarget (t_addr t) (t_ip t) (t_icmpID t) (t_stat t) sq.

(** [Pinger]. *)
Record Pinger := mkPinger {
  pg_conf : Config;
  pg_targets : list target;
  pg_pid : Z;
  pg_salts : Salts
}.

Definition set_targets (ts : list target) (p : Pinger) : Pinger :=
  mkPinger (pg_conf p) ts (pg_pid p) (pg_salts p).

Definition timestampLen : nat := 8.

(** A method call on a [Stat] that may still be [nil]. *)
Definition call_stat (l : option nat) (f : udpStat -> option udpStat) (w : World) : option World :=
  l ← l; call l f w.

(** What the tools do differently when they send: the address of a target, and
    the packet builder, [buildICMPkt] or [buildICMPv6Pkt]. *)
Class PingTool := {
  target_ip : string -> IP;
  build_pkt : Config -> target -> Z -> bytes -> option bytes
}.

(** The answers of the outside in one round: the time since the start, the
    clock for each target, whether its send succeeds, and its hardware send
    time, if there is one. *)
Record Outside := mkOutside {
  o_elapsed : Z;
  o_now : nat -> Z;
  o_send_ok : nat -> bool;
  o_txts : nat -> option Z
}.

(** The time recorded for the probe to target [i]. *)
Definition sent_at (o : Outside) (i : nat) : Z := default (o_now o i) (o_txts o i).

Section tool.
Context `{HT : PingTool}.

(** [NewPinger] for the process identifier [pid]. *)
Definition NewPinger (conf : Config) (pid : Z) : option Pinger :=
  let pid := u16 pid in
  let targets := imap (fun i addr => mkTarget addr (target_ip addr) (u16 (pid + u16 (Z.of_nat i))) None 0)
                   (TargetAddrs conf) in
  salts ← NewSalts (Size conf - Z.of_nat timestampLen);
  Some (mkPinger conf targets pid salts).

(** The loop of [Run] that creates the statistics; [seed] is the random
    starting number of each target. *)
Fixpoint make_stats (conf : Config) (seed : nat -> Z) (i : nat) (ts : list target) (w : World) :
    list target * World :=
  match ts with
  | [] => ([], w)
  | t :: ts =>
      let '(l, w) := register (NewStat (LocalAddr conf) (t_addr t) (mkPortRange 0 0) (mkPortRange 0 0)
                       (Rate conf) (Span conf) (Delay conf) true) w in
      let '(ts, w) := make_stats conf seed (S i) ts w in
      (mkTarget (t_addr t) (t_ip t) (t_icmpID t) (Some l) (seed i) :: ts, w)
  end.

(** [Run] up to the start of its goroutines; the processor is created here. *)
Definition Run_setup (p : Pinger) (seed : nat -> Z) : Pinger * World :=
  let '(ts, w) := make_stats (pg_conf p) seed 0 (pg_targets p)
                    (mkWorld ∅ 0 (NewProcessor (Span (pg_conf p)) (Delay (pg_conf p)))) in
  (set_targets ts p, w).

(** The payload of a probe: the time, then the salt of the full sequence
    number; a size under 8 panics. *)
Definition sendPayload (p : Pinger) (sq now : Z) : option bytes :=
  if Size (pg_conf p) <? Z.of_nat timestampLen then None
  else
    let buf := make_bytes (Z.to_nat (Size (pg_conf p))) in
    let buf := copy_at 0 (put_le 8 (u64 now)) buf in
    Some (copy_at timestampLen (Salts.Get (pg_salts p) (sq mod 4)) buf).

(** The loop of a round over the targets from index [i] on. A target whose
    packet cannot be built or sent keeps its new number but is not recorded. *)
Fixpoint send_targets (p : Pinger) (o : Outside) (i : nat) (ts : list target) (count : Z) (w : World) :
    option (list target * Z * World * list (IP * bytes)) :=
  match ts with
  | [] => Some ([], count, w, [])
  | t :: ts =>
      let t := set_seq (u64 (t_seq t + 1)) t in
      let sq := u16 (Z.land (t_seq t) 65535) in
      payload ← sendPayload p (t_seq t) (o_now o i);
      match build_pkt (pg_conf p) t sq payload with
      | None =>
          '(ts, count, w, out) ← send_targets p o (S i) ts count w;
          Some (t :: ts, count, w, out)
      | Some data =>
          if negb (o_send_ok o i) then
            '(ts, count, w, out) ← send_targets p o (S i) ts count w;
            Some (t :: ts, count, w, out)
          else
            w ← call_stat (t_stat t) (udpStat.Put 0 0 sq (sent_at o i)) w;
            '(ts, count, w, out) ← send_targets p o (S i) ts (count + 1) w;
            Some (t :: ts, count, w, (t_ip t, data) :: out)
      end
  end.

(** [serveSend]: one element of [rounds] per iteration, until a limit is
    reached or the context is cancelled. *)
Fixpoint serveSend (p : Pinger) (count : Z) (rounds : list Outside) (w : World) :
    option (Pinger * Z * World * list (IP * bytes)) :=
  match rounds with
  | [] => Some (p, count, w, [])
  | o :: rounds =>
      if (0 <? Count (pg_conf p)) && (Count (pg_conf p) <=? count) then Some (p, count, w, [])
      else if (0 <? SendDuration (pg_conf p)) && (SendDuration (pg_conf p) <=? o_elapsed o)
      then Some (p, count, w, [])
      else
        '(ts, count, w, out) ← send_targets p o 0 (pg_targets p) count w;
        '(p, count, w, out') ← serveSend (set_targets ts p) count rounds w;
        Some (p, count, w, out ++ out')
  end.

End tool.

(** [findTargetByICMPID]. *)
Definition findTargetByICMPID (p : Pinger) (icmpID : Z) : option target :=
  List.find (fun t => t_icmpID t =? icmpID) (pg_targets p).

(** The end of both [handleEchoReply] functions, from the extraction of the
    send time on: [load] is the echoed payload, empty if there is none. *)
Definition record_reply (p : Pinger) (t : target) (icmpSeq : Z) (load : bytes) (rxts : Z) (w : World) :
    option World :=
  let payloadLen := length load in
  let sendTS := if (timestampLen <=? payloadLen)%nat then i64 (get_le (take timestampLen load)) else 0 in
  let rtt := if sendTS =? 0 then 0 else i64 (rxts - sendTS) in
  hasBitflip ←
    (if bool_decide (load <> []) && (Z.of_nat payloadLen =? Size (pg_conf p)) && (timestampLen <? payloadLen)%nat
     then
       let expected := Salts.Get (pg_salts p) icmpSeq in
       let received := drop timestampLen load in
       if Salts.CheckBitflip received expected
       then _ ← mismatches 0 received expected; Some true
       else Some false
     else Some false);
  call_stat (t_stat t) (udpStat.Received icmpSeq rxts rtt hasBitflip) w.

(** ** The socket *)

(** What the system answers while a socket is opened: its descriptor, whether
    the opening and the next call ([File], or [Bind] in [ping6]) succeed, the
    timestamp options, the two timeouts. *)
Record SocketAnswers := mkSocketAnswers {
  so_fd : Z;
  so_open : bool;
  so_next : bool;
  so_system : System;
  so_rcvtimeo : Z * Z -> bool;
  so_sndtimeo : Z * Z -> bool
}.

(** What [openConn] leaves open: the connection, or the descriptor, and the
    file made of it. *)
Inductive handle := HConn | HFile.

(** The timestamp options and the timeouts; [None] is an error. *)
Definition configure_socket (conf : Config) (s : SocketAnswers) : option (bool * bool) :=
  support ← (if Hwts conf
             then (configureTimestamps (so_system s) (so_fd s) (Interface conf) (Verbose conf)).1
             else Some (false, false));
  if setSocketTimeouts (so_rcvtimeo s) (so_sndtimeo s) (Timeout conf) then Some support else None.

(** [openConn] of [ping]: the [supportTxTS] and [supportRxTS] of the pinger,
    [None] an error, and what is open when it returns. *)
Definition openConn (conf : Config) (s : SocketAnswers) : option (bool * bool) * list handle :=
  if negb (so_open s) then (None, [])
  else if negb (so_next s) then (None, [HConn])
  else (configure_socket conf s, [HConn; HFile]).

(** [openConn] of [ping6]: closed by hand on every error. *)
Definition openConn6 (conf : Config) (s : SocketAnswers) : option (bool * bool) * list handle :=
  if negb (so_open s) then (None, [])
  else if negb (so_next s) then (None, [])
  else match configure_socket conf s with
       | Some support => (Some support, [HFile])
       | None => (None, [])
       end.

(** On success the socket is configured as asked: with [Hwts] off there is no
    timestamp support, with it there is receive support at least; on an error
    [ping6] leaves nothing open, while [ping] leaves what it had opened. *)
Lemma openConn_outcome conf s :
  fst (openConn conf s) = fst (openConn6 conf s) /\
  (fst (openConn conf s) = None -> snd (openConn6 conf s) = []) /\
  (fst (openConn conf s) = None -> so_open s = true -> HConn ∈ snd (openConn conf s)) /\
  (forall tx rx, fst (openConn conf s) = Some (tx, rx) -> rx = Hwts conf /\ (tx = true -> Hwts conf = true)).
Proof.
  unfold openConn, openConn6, configure_socket.
  destruct (so_open s); cbn [negb fst snd]; [|split_and!; done].
  destruct (so_next s); cbn [negb fst snd]; [|split_and!; [done..|by left|done]].
  pose proof (configureTimestamps_spec (so_system s) (so_fd s) (Interface conf) (Verbose conf)) as H.
  destruct (configureTimestamps _ _ _ _) as [r calls]. destruct H as (_ & _ & ->). cbn [fst].
  destruct (Hwts conf), (sys_setsockopt (so_system s) SO_TIMESTAMPING timestamping_flags),
    (sys_setsockopt (so_system s) SO_TIMESTAMPNS 1),
    (setSocketTimeouts _ _ _); cbn; split_and!; try done; try (by left); by intros tx rx [= <- <-].
Qed.

(** What a read of the socket returns: a timeout (also an interrupted call), an
    error, or a datagram with its sender, its control messages and the time
    after the call. *)
Inductive recv :=
| RTimeout
| RFail
| RMsg (raw : bytes) (from : option IP) (oob : bytes) (oobn : nat) (now : Z).

(** [serveRecv] over a packet handler; [true] if it ends with an error, else
    it was stopped. *)
Fixpoint serveRecv (handle : bytes -> option IP -> Z -> World -> option World) (supportRxTS : bool) (reads : list recv)
    (w : World) : option (World * bool) :=
  match reads with
  | [] => Some (w, false)
  | RTimeout :: reads => serveRecv handle supportRxTS reads w
  | RFail :: _ => Some (w, true)
  | RMsg raw from oob oobn now :: reads =>
      w ← handle raw from (rx_time supportRxTS oob oobn now) w;
      serveRecv handle supportRxTS reads w
  end.

(** ** The tools *)

Module ping.
Section ping.
Context `{HG : Goscapy}.

Definition icmpEchoReply : Z := 0.

(** [buildICMPkt]. *)
Definition buildICMPkt (conf : Config) (t : target) (sq : Z) (payload : bytes) : option bytes :=
  BuildFrom1 [BIP (LocalAddr conf) (t_addr t) (u8 (TTL conf)) None None;
              BICMP ICMPEchoRequest 0 (t_icmpID t) sq; BRaw payload].

Definition tool : PingTool := {|
  target_ip := fun addr => To4_or_nil (ParseIP_or_nil addr);
  build_pkt := buildICMPkt
|}.

Definition NewPinger := Ping.NewPinger (HT := tool).
Definition serveSend := Ping.serveSend (HT := tool).

(** [handleEchoReply]; log lines are left out. *)
Definition handleEchoReply (p : Pinger) (ipLayer icmpLayer : Layer) (pkt : Packet) (rxts : Z) (w : World) :
    option World :=
  let '(idVal, ok) := Get icmpLayer "id" in
  if negb ok then Some w
  else
    match as_uint16 idVal with
    | None => Some w
    | Some icmpID =>
        match findTargetByICMPID p icmpID with
        | None => Some w
        | Some t =>
            let '(srcVal, _) := Get ipLayer "src" in
            let srcIP := as_ip srcVal in
            if bool_decide (srcIP = []) || negb (Equal srcIP (t_ip t)) then Some w
            else
              let '(seqVal, ok) := Get icmpLayer "seq" in
              if negb ok then Some w
              else
                match as_uint16 seqVal with
                | None => Some w
                | Some icmpSeq =>
                    let load := match GetLayer pkt "Raw" with
                                | Some rawLayer => let '(loadVal, _) := Get rawLayer "load" in as_bytes loadVal
                                | None => []
                                end in
                    record_reply p t icmpSeq load rxts w
                end
        end
    end.

(** [processPacket]; the ICMP errors are only logged. *)
Definition processPacket (p : Pinger) (raw : bytes) (rxts : Z) (w : World) : option World :=
  match DissectByProto raw "IP" with
  | None => Some w
  | Some pkt =>
      match GetLayer pkt "IP", GetLayer pkt "ICMP" with
      | Some ipLayer, Some icmpLayer =>
          let '(icmpTypeVal, ok) := Get icmpLayer "type" in
          if negb ok then Some w
          else
            match as_uint8 icmpTypeVal with
            | None => Some w
            | Some icmpType =>
                if icmpType =? icmpEchoReply then handleEchoReply p ipLayer icmpLayer pkt rxts w else Some w
            end
      | _, _ => Some w
      end
  end.

(** [serveRecv]; the sender is not used. *)
Definition serveRecv (p : Pinger) : bool -> list recv -> World -> option (World * bool) :=
  Ping.serveRecv (fun raw _ rxts w => processPacket p raw rxts w).

(** The datagram [raw] is an echo reply from [src]. *)
Definition echo_reply (raw : bytes) (src : IP) (id sq : Z) (load : bytes) : Prop :=
  exists pkt ipLayer icmpLayer rawLayer ok1 ok2,
    DissectByProto raw "IP" = Some pkt /\ GetLayer pkt "IP" = Some ipLayer /\
    GetLayer pkt "ICMP" = Some icmpLayer /\ GetLayer pkt "Raw" = Some rawLayer /\
    Get icmpLayer "type" = (VUint8 icmpEchoReply, true) /\ Get icmpLayer "id" = (VUint16 id, true) /\
    Get icmpLayer "seq" = (VUint16 sq, true) /\ Get ipLayer "src" = (VIP src, ok1) /\
    Get rawLayer "load" = (VBytes load, ok2).

End ping.
End ping.

Module ping6.
Section ping6.
Context `{HG : Goscapy}.

Definition icmpv6EchoReply : Z := 129.

(** [buildICMPv6Pkt]; a field that cannot be set fails the build. *)
Definition buildICMPv6Pkt (conf : Config) (t : target) (sq : Z) (payload : bytes) : option bytes :=
  BuildFrom1 [BIP6 (LocalAddr conf) (t_addr t) (u8 (TTL conf)) (if 0 <? TOS conf then Some (u8 (TOS conf)) else None);
              BICMPv6 (Some ICMPv6EchoRequest) (Some 0); BICMPv6Echo (t_icmpID t) sq (Some payload)].

Definition tool : PingTool := {|
  target_ip := ParseIP_or_nil;
  build_pkt := buildICMPv6Pkt
|}.

Definition NewPinger := Ping.NewPinger (HT := tool).
Definition serveSend := Ping.serveSend (HT := tool).

(** [sockaddrToString]: the address of a [SockaddrInet6] or [SockaddrInet4];
    [None] is [nil] or another kind. *)
Definition sockaddrToString (sa : option IP) : string :=
  match sa with Some a => IP_String a | None => "" end.

(** [handleEchoReply]; log lines are left out. *)
Definition handleEchoReply (p : Pinger) (pkt : Packet) (from : option IP) (rxts : Z) (w : World) : option World :=
  match GetLayer pkt "ICMPv6 Echo Reply" with
  | None => Some w
  | Some echoLayer =>
      let '(idVal, ok) := Get echoLayer "id" in
      if negb ok then Some w
      else
        match as_uint16 idVal with
        | None => Some w
        | Some icmpID =>
            match findTargetByICMPID p icmpID with
            | None => Some w
            | Some t =>
                let srcIP := ParseIP_or_nil (sockaddrToString from) in
                if bool_decide (srcIP = []) || negb (Equal srcIP (t_ip t)) then Some w
                else
                  let '(seqVal, ok) := Get echoLayer "seq" in
                  if negb ok then Some w
                  else
                    match as_uint16 seqVal with
                    | None => Some w
                    | Some icmpSeq =>
                        let '(dataVal, ok) := Get echoLayer "data" in
                        record_reply p t icmpSeq (if ok then as_bytes dataVal else []) rxts w
                    end
            end
        end
  end.

(** [processPacket]; the ICMPv6 errors are only logged. *)
Definition processPacket (p : Pinger) (raw : bytes) (from : option IP) (rxts : Z) (w : World) : option World :=
  match (match DissectByProto raw "ICMPv6" with
         | Some pkt => Some pkt
         | None => DissectByProto raw "IPv6"
         end) with
  | None => Some w
  | Some pkt =>
      match GetLayer pkt "ICMPv6" with
      | None => Some w
      | Some icmpLayer =>
          let '(icmpTypeVal, ok) := Get icmpLayer "type" in
          if negb ok then Some w
          else
            match as_uint8 icmpTypeVal with
            | None => Some w
            | Some icmpType =>
                if icmpType =? icmpv6EchoReply then handleEchoReply p pkt from rxts w else Some w
            end
      end
  end.

Definition serveRecv (p : Pinger) : bool -> list recv -> World -> option (World * bool) :=
  Ping.serveRecv (processPacket p).

(** The functions that [ping6/pinger.go] repeats. *)
Definition target := target.
Definition Pinger := Pinger.
Definition Run_setup := Run_setup.
Definition openConn := openConn6.
Definition send_targets := send_targets (HT := tool).
Definition findTargetByICMPID := findTargetByICMPID.
Definition record_reply := record_reply.

(** The datagram [raw] received from [from] is an echo reply from [src]. *)
Definition echo_reply (raw : bytes) (from : option IP) (src : IP) (id sq : Z) (load : bytes) : Prop :=
  exists pkt icmpLayer echoLayer,
    DissectByProto raw "ICMPv6" = Some pkt /\ GetLayer pkt "ICMPv6" = Some icmpLayer /\
    GetLayer pkt "ICMPv6 Echo Reply" = Some echoLayer /\
    Get icmpLayer "type" = (VUint8 icmpv6EchoReply, true) /\ Get echoLayer "id" = (VUint16 id, true) /\
    Get echoLayer "seq" = (VUint16 sq, true) /\ Get echoLayer "data" = (VBytes load, true) /\
    ParseIP (sockaddrToString from) = Some src.

End ping6.
End ping6.

(** ** Invariant *)

(** Every [Stat] of the process is well formed over the configured span, every
    target has one of its own, and the identifiers count up from [pid]. *)
Definition stats_ok (conf : Config) (w : World) : Prop :=
  map_Forall (fun _ u => udpStat_ok u /\ u_span u = Span conf) (w_stats w).

Record pinger_ok (p : Pinger) (w : World) : Prop := {
  po_span : 0 < Span (pg_conf p);
  po_size : 8 <= Size (pg_conf p);
  po_salts : NewSalts (Size (pg_conf p) - 8) = Some (pg_salts p);
  po_count : Z.of_nat (length (pg_targets p)) <= 65536;
  po_ids : forall i t, pg_targets p !! i = Some t -> t_icmpID t = u16 (pg_pid p + Z.of_nat i);
  po_world : stats_ok (pg_conf p) w;
  po_stats : Forall (fun t => exists l, t_stat t = Some l /\ is_Some (w_stats w !! l)) (pg_targets p);
  po_nodup : NoDup (map t_stat (pg_targets p))
}.

(** The identifier of a target leads back to it, up to 65536 targets. *)
Lemma u16_shift_inj a i j :
  Z.of_nat i < 65536 -> Z.of_nat j < 65536 -> u16 (a + Z.of_nat i) = u16 (a + Z.of_nat j) -> i = j.
Proof.
  unfold u16. change (2 ^ 16) with 65536. intros Hi Hj H.
  Z.div_mod_to_equations. lia.
Qed.

Lemma findTarget_own p w i t :
  pinger_ok p w -> pg_targets p !! i = Some t -> findTargetByICMPID p (t_icmpID t) = Some t.
Proof.
  intros Hok Ht. unfold findTargetByICMPID. apply (find_unique _ _ i); [done|apply Z.eqb_refl|].
  intros j y Hj Hy. bools. rewrite (po_ids _ _ Hok _ _ Ht), (po_ids _ _ Hok _ _ Hj) in Hy.
  pose proof (po_count _ _ Hok). pose proof (lookup_lt_Some _ _ _ Ht). pose proof (lookup_lt_Some _ _ _ Hj).
  symmetry in Hy. apply u16_shift_inj in Hy; lia.
Qed.

Lemma findTarget_in p id t : findTargetByICMPID p id = Some t -> t ∈ pg_targets p /\ t_icmpID t = id.
Proof. intros H. apply find_Some_elem in H as [H1 H2]. by bools. Qed.

Section setup.
Context `{HT : PingTool}.

Lemma ping_make_stats_ok conf seed i ts w :
  0 < Span conf -> world_ok w -> stats_ok conf w ->
  let '(ts', w') := make_stats conf seed i ts w in
  world_ok w' /\ stats_ok conf w' /\ w_next w' = (w_next w + length ts)%nat /\
  map t_stat ts' = map Some (seq (w_next w) (length ts)) /\
  map t_icmpID ts' = map t_icmpID ts /\ map t_ip ts' = map t_ip ts /\ map t_addr ts' = map t_addr ts.
Proof.
  intros Hs. revert i w. induction ts as [|t ts IH]; intros i w Hw Hall; cbn [make_stats].
  { cbn. split_and!; try done; lia. }
  set (u := NewStat _ _ _ _ _ _ _ _).
  destruct (register_ok u w) as (Hw' & Hl & Hold); [by auto with nettools|done|].
  destruct (register u w) as [l w1] eqn:E. cbn [fst snd] in *.
  assert (l = w_next w /\ w_next w1 = S (w_next w) /\ w_stats w1 = <[w_next w := u]> (w_stats w)) as (-> & En & E1)
    by (by injection E as <- <-).
  specialize (IH (S i) w1 Hw'). destruct (make_stats _ _ _ _ _) as [ts' w'].
  destruct IH as (H1 & H2 & H3 & H4 & H5 & H6 & H7).
  { unfold stats_ok. rewrite E1. apply map_Forall_insert_2; [|done]. split; [by auto with nettools|done]. }
  cbn [map length seq t_stat t_icmpID t_ip t_addr]. rewrite H4, H5, H6, H7, En. split_and!; try done. lia.
Qed.

(** [NewPinger] and the start of [Run] establish the invariant. *)
Lemma pinger_setup_ok conf pid seed p :
  0 < Span conf -> 8 <= Size conf -> Z.of_nat (length (TargetAddrs conf)) <= 65536 ->
  NewPinger conf pid = Some p ->
  let '(p', w) := Run_setup p seed in
  pinger_ok p' w /\ map t_addr (pg_targets p') = TargetAddrs conf /\
  map t_ip (pg_targets p') = map target_ip (TargetAddrs conf) /\ pg_conf p' = conf.
Proof.
  intros Hs Hz Hn. unfold NewPinger. destruct (NewSalts _) as [salts|] eqn:Es; cbn [mbind option_bind]; [|done].
  intros [= <-]. unfold Run_setup. cbn [pg_conf pg_targets]. set (ts := imap _ _).
  assert (Hlen : length ts = length (TargetAddrs conf)) by apply length_imap.
  pose proof (ping_make_stats_ok conf seed 0 ts (mkWorld ∅ 0 (NewProcessor (Span conf) (Delay conf))) Hs
    (world_ok_empty _ _)) as H.
  destruct (make_stats _ _ _ _ _) as [ts' w]. destruct H as (H1 & H2 & H3 & H4 & H5 & H6 & H7);
    [apply map_Forall_empty|]. cbn [w_next] in *.
  assert (Hlen' : length ts' = length ts) by (rewrite <- (length_map t_icmpID ts'), H5; apply length_map).
  cbn [set_targets pg_targets pg_conf]. split_and!; try done.
  - split; cbn [set_targets pg_targets pg_conf pg_pid pg_salts]; try done; [lia| | |].
    + intros i t Ht. assert (Hi : map t_icmpID ts' !! i = Some (t_icmpID t)) by (rewrite list_lookup_fmap, Ht; done).
      rewrite H5, list_lookup_fmap in Hi. unfold ts in Hi. rewrite list_lookup_imap in Hi.
      destruct (TargetAddrs conf !! i) as [a|]; [|done]. cbn in Hi. injection Hi as <-.
      unfold u16. by rewrite Zplus_mod_idemp_r.
    + apply Forall_forall. intros t Ht. assert (Hin : t_stat t ∈ map t_stat ts') by (by apply list_elem_of_fmap_2).
      rewrite H4 in Hin. apply list_elem_of_fmap in Hin as (l & El & Hl). exists l. split; [done|].
      apply (wok_dom _ H1). apply elem_of_seq in Hl. lia.
    + rewrite H4. apply NoDup_fmap_2; [intros ? ? [=]; done|apply NoDup_seq].
  - rewrite H7. unfold ts. clear. generalize 0%nat as n, (u16 pid) as b. intros _ b.
    apply list_eq. intros i. rewrite list_lookup_fmap, list_lookup_imap. by destruct (_ !! i).
  - rewrite H6. unfold ts. clear.
    apply list_eq. intros i. rewrite !list_lookup_fmap, list_lookup_imap. by destruct (_ !! i).
Qed.

End setup.

(** ** A round *)

Section round.
Context `{HT : PingTool}.

(** A target after its number has advanced, and the 16-bit number on the wire. *)
Definition advance (t : target) : target := set_seq (u64 (t_seq t + 1)) t.
Definition seq16 (t : target) : Z := u16 (Z.land (t_seq t) 65535).

(** What is sent for a target (already advanced), if anything. *)
Definition attempt (p : Pinger) (o : Outside) (i : nat) (t : target) : option bytes :=
  payload ← sendPayload p (t_seq t) (o_now o i);
  data ← build_pkt (pg_conf p) t (seq16 t) payload;
  if o_send_ok o i then Some data else None.

Lemma sendPayload_total p sq now : 8 <= Size (pg_conf p) -> is_Some (sendPayload p sq now).
Proof. intros H. unfold sendPayload, timestampLen. rewrite (proj2 (Z.ltb_ge _ _)) by lia. by eexists. Qed.

(** One round of the loop, in terms of [attempt]. *)
Lemma send_targets_cons p o i t ts count w :
  8 <= Size (pg_conf p) ->
  send_targets p o i (t :: ts) count w =
    match attempt p o i (advance t) with
    | None =>
        '(ts, count, w, out) ← send_targets p o (S i) ts count w;
        Some (advance t :: ts, count, w, out)
    | Some data =>
        w ← call_stat (t_stat t) (udpStat.Put 0 0 (seq16 (advance t)) (sent_at o i)) w;
        '(ts, count, w, out) ← send_targets p o (S i) ts (count + 1) w;
        Some (advance t :: ts, count, w, (t_ip t, data) :: out)
    end.
Proof.
  intros H. cbn [send_targets]. unfold attempt. fold (advance t). fold (seq16 (advance t)).
  destruct (sendPayload_total p (t_seq (advance t)) (o_now o i) H) as [pl ->]. cbn [mbind option_bind].
  destruct (build_pkt _ _ _ _) as [data|]; cbn [mbind option_bind]; [|done].
  by destruct (o_send_ok o i).
Qed.

Lemma udpStat_op o f u conf :
  udpStat_ok u /\ u_span u = Span conf -> op_ok o ->
  (forall u, f u = (bs ← exec o (u_bkts u); Some (set_bkts bs u))) ->
  exists u', f u = Some u' /\ udpStat_ok u' /\ u_span u' = Span conf.
Proof.
  intros [Hu Hs] Ho Hf. destruct (op_step o u Hu Ho) as (bs & E & H1 & H2 & _).
  exists (set_bkts bs u). rewrite Hf, E. split_and!; [done|done|]. by rewrite (same_config_span _ _ H2).
Qed.

(** A call on a target's [Stat] succeeds and changes that [Stat] only. *)
Lemma call_stat_ok conf w t l o f :
  stats_ok conf w -> t_stat t = Some l -> is_Some (w_stats w !! l) -> op_ok o ->
  (forall u, f u = (bs ← exec o (u_bkts u); Some (set_bkts bs u))) ->
  exists u u', w_stats w !! l = Some u /\ f u = Some u' /\
    call_stat (t_stat t) f w = Some (mkWorld (<[l := u']> (w_stats w)) (w_next w) (w_proc w)) /\
    stats_ok conf (mkWorld (<[l := u']> (w_stats w)) (w_next w) (w_proc w)).
Proof.
  intros Hw Hl [u Hu] Ho Hf. destruct (udpStat_op o f u conf (Hw _ _ Hu) Ho Hf) as (u' & E & H1 & H2).
  exists u, u'. split_and!; [done|done| |by apply map_Forall_insert_2].
  unfold call_stat. rewrite Hl. cbn [mbind option_bind]. by apply (call_spec l f w u u').
Qed.

(** A whole round: every number advances, and exactly what was sent is
    recorded, each probe in the [Stat] of its own target. *)
Lemma ping_send_targets_spec p o i ts count w :
  8 <= Size (pg_conf p) -> stats_ok (pg_conf p) w -> (forall i, ts_ok (sent_at o i)) ->
  Forall (fun t => exists l, t_stat t = Some l /\ is_Some (w_stats w !! l)) ts -> NoDup (map t_stat ts) ->
  exists count' w' out,
    send_targets p o i ts count w = Some (map advance ts, count', w', out) /\ stats_ok (pg_conf p) w' /\
    (forall l, Some l ∉ map t_stat ts -> w_stats w' !! l = w_stats w !! l) /\
    forall j t, ts !! j = Some t -> exists l u u',
      t_stat t = Some l /\ w_stats w !! l = Some u /\ w_stats w' !! l = Some u' /\
      match attempt p o (i + j) (advance t) with
      | Some data => udpStat.Put 0 0 (seq16 (advance t)) (sent_at o (i + j)) u = Some u' /\ (t_ip t, data) ∈ out
      | None => u' = u
      end.
Proof.
  intros Hz Hw Hts Hst Hnd. revert i count w Hw Hst Hnd.
  induction ts as [|t ts IH]; intros i count w Hw Hst Hnd.
  { exists count, w, []. split_and!; done. }
  apply Forall_cons in Hst as [(l & Hl & Hu) Hst]. apply NoDup_cons in Hnd as [Hni Hnd]. fold (map t_stat ts) in *.
  rewrite send_targets_cons by done.
  destruct (attempt p o i (advance t)) as [data|] eqn:Ea.
  - destruct (call_stat_ok (pg_conf p) w t l (Put 0 0 (seq16 (advance t)) (sent_at o i))
      (udpStat.Put 0 0 (seq16 (advance t)) (sent_at o i)))
      as (u & u' & Hlu & Hput & -> & Hw1); [done|done|done|apply Hts|done|].
    cbn [mbind option_bind]. set (w1 := mkWorld _ _ _) in *.
    assert (Hsame : forall l', l' <> l -> w_stats w1 !! l' = w_stats w !! l')
      by (intros; by apply lookup_insert_ne).
    destruct (IH (S i) (count + 1) w1) as (count' & w' & out & -> & Hw' & Hrest & Heach); [done| |done|].
    { eapply Forall_impl; [exact Hst|]. intros t' (l' & Hl' & Hi'). exists l'. split; [done|].
      destruct (decide (l' = l)) as [->|]; [unfold w1; cbn; rewrite lookup_insert_eq; by eexists|by rewrite Hsame]. }
    cbn [mbind option_bind map]. eexists _, w', _. split_and!; [done|done| |].
    + intros l' Hn. apply not_elem_of_cons in Hn as [Hne Hn]. rewrite Hrest by done. apply Hsame. congruence.
    + intros [|j] t0 Ht0; cbn [lookup list_lookup] in Ht0.
      * injection Ht0 as <-. rewrite Nat.add_0_r, Ea. exists l, u, u'. split_and!; [done|done| |done|by left].
        rewrite Hrest by (by rewrite <- Hl). apply lookup_insert_eq.
      * destruct (Heach j t0 Ht0) as (l0 & u0 & u0' & H1 & H2 & H3 & H4).
        replace (i + S j)%nat with (S i + j)%nat by lia. exists l0, u0, u0'. split_and!; [done| |done|].
        -- rewrite <- H2. symmetry. apply Hsame. intros ->. apply Hni. rewrite Hl, <- H1.
           apply list_elem_of_fmap_2. by eapply list_elem_of_lookup_2.
        -- destruct (attempt p o (S i + j) (advance t0)); [|done]. destruct H4 as [H4 H5]. split; [done|by right].
  - destruct (IH (S i) count w) as (count' & w' & out & -> & Hw' & Hrest & Heach); [done..|].
    cbn [mbind option_bind map]. eexists _, w', _. split_and!; [done|done| |].
    + intros l' Hn. apply not_elem_of_cons in Hn as [_ Hn]. by apply Hrest.
    + destruct Hu as [u Hu]. intros [|j] t0 Ht0; cbn [lookup list_lookup] in Ht0.
      * injection Ht0 as <-. rewrite Nat.add_0_r, Ea. exists l, u, u. split_and!; [done|done| |done].
        rewrite Hrest; [done|by rewrite <- Hl].
      * replace (i + S j)%nat with (S i + j)%nat by lia. by apply Heach.
Qed.

End round.

(** ** The reply *)

(** The salt of the full number is the salt of the 16-bit one. *)
Lemma Get_seq16 s t : Salts.Get s (seq16 t) = Salts.Get s (t_seq t mod 4).
Proof.
  unfold Salts.Get, seq16, u16. rewrite Zmod_mod. replace (Z.land (t_seq t) 65535) with (t_seq t mod 2 ^ 16)
    by (by rewrite <- (Z.land_ones (t_seq t) 16) by lia).
  rewrite Zmod_mod. replace ((t_seq t mod 2 ^ 16) mod 4) with (t_seq t mod 4); [done|].
  change (2 ^ 16) with (4 * 16384). rewrite Z.rem_mul_r by lia.
  rewrite (Z.mul_comm 4), Z_mod_plus_full. by rewrite Zmod_mod.
Qed.

(** The payload of a probe read back: its time and its salt. *)
Lemma sendPayload_fields p w sq now payload :
  pinger_ok p w -> ts_ok now -> sendPayload p sq now = Some payload ->
  Z.of_nat (length payload) = Size (pg_conf p) /\ (timestampLen <= length payload)%nat /\
  i64 (get_le (take timestampLen payload)) = now /\
  drop timestampLen payload = Salts.Get (pg_salts p) (sq mod 4).
Proof.
  intros Hok Hts. pose proof (po_size _ _ Hok) as Hz. unfold sendPayload, timestampLen.
  rewrite (proj2 (Z.ltb_ge _ _)) by lia. intros <-%Some_inj.
  pose proof (NewSalts_length _ _ (sq mod 4) (po_salts _ _ Hok)) as Hsl.
  set (n := Z.to_nat (Size (pg_conf p))) in *. set (salt := Salts.Get _ _) in *.
  assert (Hn : (n = 8 + Z.to_nat (Size (pg_conf p) - 8))%nat) by (unfold n; lia).
  rewrite (filled_nil n), (copy_at_filled_exact [] n 0 (put_le 8 (u64 now))) by (rewrite ?length_put_le; cbn; lia).
  rewrite length_put_le, app_nil_l.
  rewrite (copy_at_filled_exact (put_le 8 (u64 now)) (n - 8) 8 salt) by (rewrite ?length_put_le; lia).
  replace (n - 8 - length salt)%nat with 0%nat by lia. unfold filled. cbn [make_bytes replicate]. rewrite app_nil_r.
  rewrite length_app, length_put_le. split_and!.
  - lia.
  - lia.
  - rewrite take_app_length' by (symmetry; apply length_put_le). rewrite get_put_le.
    change (256 ^ Z.of_nat 8) with (2 ^ 64). unfold u64 at 1. rewrite Zmod_mod. fold (u64 now). apply i64_u64.
    unfold ts_ok, in_i64 in *. lia.
  - apply drop_app_length'. symmetry. apply length_put_le.
Qed.

(** Recording the echo of a payload as it was sent. *)
Lemma record_reply_own p w t now rxts payload :
  pinger_ok p w -> ts_ok now -> 0 < now -> sendPayload p (t_seq t) now = Some payload ->
  record_reply p t (seq16 t) payload rxts w =
    call_stat (t_stat t) (udpStat.Received (seq16 t) rxts (i64 (rxts - now)) false) w.
Proof.
  intros Hok Hts Hpos Hp. destruct (sendPayload_fields _ _ _ _ _ Hok Hts Hp) as (H1 & H2 & H3 & H4).
  unfold record_reply. rewrite H4, (proj2 (Nat.leb_le _ _)), H3 by done.
  rewrite (proj2 (Z.eqb_neq now 0)) by lia. rewrite Get_seq16.
  replace (Salts.CheckBitflip _ _) with false; [by destruct (_ && _ && _)|].
  unfold Salts.CheckBitflip. rewrite (proj2 (bytes_equal_true _ _)); done.
Qed.

(** And recording anything else: nothing panics. *)
Lemma record_reply_total p w t sq load rxts :
  pinger_ok p w -> t ∈ pg_targets p -> ts_ok rxts ->
  exists l u u' rtt bf, t_stat t = Some l /\ w_stats w !! l = Some u /\
    udpStat.Received sq rxts rtt bf u = Some u' /\
    record_reply p t sq load rxts w = Some (mkWorld (<[l := u']> (w_stats w)) (w_next w) (w_proc w)).
Proof.
  intros Hok Ht Hts. unfold record_reply. set (rtt := if _ =? 0 then 0 else _).
  assert (Hbf : exists bf, (if bool_decide (load <> []) && (Z.of_nat (length load) =? Size (pg_conf p)) &&
       (timestampLen <? length load)%nat
     then if Salts.CheckBitflip (drop timestampLen load) (Salts.Get (pg_salts p) sq)
          then _ ← mismatches 0 (drop timestampLen load) (Salts.Get (pg_salts p) sq); Some true
          else Some false
     else Some false) = Some bf).
  { destruct (_ && _ && _) eqn:Eb; [|by eexists]. bools.
    destruct (Salts.CheckBitflip _ _); [|by eexists].
    destruct (mismatches_total 0 (drop timestampLen load) (Salts.Get (pg_salts p) sq)) as [x ->]; [|by eexists].
    rewrite (NewSalts_length _ _ _ (po_salts _ _ Hok)), length_drop. unfold timestampLen. lia. }
  destruct Hbf as [bf ->]. cbn [mbind option_bind].
  pose proof (proj1 (Forall_forall _ _) (po_stats _ _ Hok) t Ht) as (l & Hl & Hu).
  destruct (call_stat_ok (pg_conf p) w t l (Received sq rxts rtt bf) (udpStat.Received sq rxts rtt bf))
    as (u & u' & H1 & H2 & H3 & _); [apply Hok|done..|].
  exists l, u, u', rtt, bf. done.
Qed.

Lemma map_advance_stat ts : map t_stat (map advance ts) = map t_stat ts.
Proof. rewrite map_map. by apply map_ext. Qed.

Section answer.
Context `{HT : PingTool}.

(** What is left of a probe once it was sent: its target in the new list, its
    payload, its record. *)
Lemma round_ok p w o count :
  pinger_ok p w -> (forall i, ts_ok (sent_at o i)) ->
  exists count' w' out,
    send_targets p o 0 (pg_targets p) count w = Some (map advance (pg_targets p), count', w', out) /\
    pinger_ok (set_targets (map advance (pg_targets p)) p) w' /\
    forall i t data, pg_targets p !! i = Some t -> attempt p o i (advance t) = Some data ->
      exists l u u', t_stat t = Some l /\ w_stats w !! l = Some u /\ w_stats w' !! l = Some u' /\
        udpStat.Put 0 0 (seq16 (advance t)) (sent_at o i) u = Some u' /\ (t_ip t, data) ∈ out.
Proof.
  intros Hok Hts.
  destruct (ping_send_targets_spec p o 0 (pg_targets p) count w) as (count' & w' & out & E & Hw' & Hrest & Heach);
    [apply Hok|apply Hok|done|apply Hok|apply Hok|].
  exists count', w', out. split_and!; [exact E| |].
  - destruct Hok as [H1 H2 H3 H4 H5 H6 H7 H8].
    split; cbn [set_targets pg_conf pg_targets pg_pid pg_salts]; try done.
    + by rewrite length_map.
    + intros i t Ht. rewrite list_lookup_fmap in Ht. destruct (pg_targets p !! i) as [t0|] eqn:Ht0; [|done].
      cbn in Ht. injection Ht as <-. exact (H5 i t0 Ht0).
    + apply Forall_forall. intros t (t0 & -> & Ht0)%list_elem_of_fmap.
      apply list_elem_of_lookup in Ht0 as [j Hj].
      destruct (Heach j t0 Hj) as (l & u & u' & Hl & _ & Hu' & _). exists l. split; [done|by eexists].
    + by rewrite map_advance_stat.
  - intros i t data Ht Ha. destruct (Heach i t Ht) as (l & u & u' & Hl & Hu & Hu' & Hm).
    rewrite Nat.add_0_l, Ha in Hm. exists l, u, u'. tauto.
Qed.

(** The echo of what was sent, recorded in the span of the probe or the next. *)
Lemma reply_recorded p w o i t l u u' w' rxts payload :
  pinger_ok p w' -> ts_ok (sent_at o i) -> ts_ok (o_now o i) -> 0 < o_now o i -> ts_ok rxts ->
  t_stat t = Some l -> w_stats w !! l = Some u -> stats_ok (pg_conf p) w -> w_stats w' !! l = Some u' ->
  udpStat.Put 0 0 (seq16 t) (sent_at o i) u = Some u' ->
  sendPayload p (t_seq t) (o_now o i) = Some payload ->
  let k := sent_at o i / Span (pg_conf p) in
  probe (u_bkts u) k (seq16 t) = None -> probe (u_bkts u) (k + 1) (seq16 t) = None ->
  rxts / Span (pg_conf p) = k \/ rxts / Span (pg_conf p) = k + 1 ->
  exists w2 u2,
    record_reply p t (seq16 t) payload rxts w' = Some w2 /\ w_stats w2 !! l = Some u2 /\
    (forall l', l' <> l -> w_stats w2 !! l' = w_stats w' !! l') /\
    forall j x, probe (u_bkts u2) j x =
      if decide ((j, x) = (k, seq16 t))
      then Some (mkRequest 0 0 (seq16 t) (sent_at o i) (i64 (rxts - o_now o i)) false false)
      else probe (u_bkts u) j x.
Proof.
  intros Hok Hs Hn Hpos Hr Hl Hu Hw Hu' Hput Hpay k Hk Hk1 Hspan.
  rewrite (record_reply_own p w' t (o_now o i) rxts payload) by done.
  destruct (Hw _ _ Hu) as [Huok Hsp]. destruct Huok as [Hb Hbs Hlast].
  assert (Hspu : bs_span (u_bkts u) = Span (pg_conf p)) by congruence.
  destruct (put_unused (u_bkts u) 0 0 (seq16 t) (sent_at o i) Hb Hs) as (bs1 & E1 & P1); [by rewrite Hspu|].
  unfold udpStat.Put in Hput. rewrite E1 in Hput. cbn [mbind option_bind] in Hput. injection Hput as <-.
  destruct (exec_refines _ _ (Put 0 0 (seq16 t) (sent_at o i)) Hb (refines_ledger_of _) Hs) as (bs1' & E1' & Hb1 & Hs1 & _).
  cbn [exec] in E1'. assert (bs1' = bs1) as -> by congruence. rewrite Hspu in P1.
  destruct (received_answer bs1 k (seq16 t) rxts (i64 (rxts - o_now o i)) false
              (fresh_request 0 0 (seq16 t) (sent_at o i)) Hb1 Hr) as (bs2 & E2 & P2).
  { rewrite P1. by rewrite decide_True. }
  { rewrite P1, decide_False by (intros [=]; lia). done. }
  { rewrite Hs1. by rewrite Hspu. }
  unfold call_stat. rewrite Hl. cbn [mbind option_bind].
  rewrite (call_spec l _ w' _ (set_bkts bs2 (set_bkts bs1 u)) Hu').
  - eexists _, _. split_and!; [done|apply lookup_insert_eq|intros; by apply lookup_insert_ne|].
    intros j x. cbn [u_bkts set_bkts]. rewrite P2. case_decide as Hd; [done|]. rewrite P1.
    by rewrite decide_False.
  - unfold udpStat.Received. cbn [u_bkts set_bkts]. by rewrite E2.
Qed.

End answer.

(** ** The handlers *)

Section handlers.
Context `{HG : Goscapy}.

Lemma ping_processPacket_echo p raw rxts w src id sq load t :
  ping.echo_reply raw src id sq load -> findTargetByICMPID p id = Some t -> src <> [] ->
  Equal src (t_ip t) = true ->
  ping.processPacket p raw rxts w = record_reply p t sq load rxts w.
Proof.
  intros (pkt & ipL & icmpL & rawL & ok1 & ok2 & H1 & H2 & H3 & H4 & H5 & H6 & H7 & H8 & H9) Ht Hne He.
  unfold ping.processPacket. rewrite H1, H2, H3, H5. cbn [negb as_uint8]. rewrite Z.eqb_refl.
  unfold ping.handleEchoReply. rewrite H6. cbn [negb as_uint16]. rewrite Ht, H8. cbn [as_ip].
  rewrite bool_decide_eq_false_2, He by done. cbn [negb orb]. rewrite H7. cbn [negb as_uint16].
  rewrite H4, H9. done.
Qed.

Lemma ping6_processPacket_echo p raw from rxts w src id sq load t :
  ping6.echo_reply raw from src id sq load -> findTargetByICMPID p id = Some t -> src <> [] ->
  Equal src (t_ip t) = true ->
  ping6.processPacket p raw from rxts w = record_reply p t sq load rxts w.
Proof.
  intros (pkt & icmpL & echoL & H1 & H2 & H3 & H4 & H5 & H6 & H7 & H8) Ht Hne He.
  unfold ping6.processPacket. rewrite H1, H2, H4. cbn [negb as_uint8]. rewrite Z.eqb_refl.
  unfold ping6.handleEchoReply. rewrite H3, H5. cbn [negb as_uint16]. rewrite Ht. unfold ParseIP_or_nil.
  rewrite H8. cbn [default from_option Datatypes.id]. rewrite bool_decide_eq_false_2, He by done. cbn [negb orb].
  rewrite H6. cbn [negb as_uint16]. rewrite H7. done.
Qed.

(** What a handler may do: nothing, or record one reply in the [Stat] of a
    target, whose address is the source of the packet. *)
Definition reply_outcome (p : Pinger) (rxts : Z) (w : World) (r : option World) : Prop :=
  exists w', r = Some w' /\
    (w' = w \/
     exists t l u u' sq rtt bf src,
       t ∈ pg_targets p /\ src <> [] /\ Equal src (t_ip t) = true /\ t_stat t = Some l /\
       w_stats w !! l = Some u /\ udpStat.Received sq rxts rtt bf u = Some u' /\
       w' = mkWorld (<[l := u']> (w_stats w)) (w_next w) (w_proc w)).

Lemma outcome_none p rxts w : reply_outcome p rxts w (Some w).
Proof. exists w. split; [done|by left]. Qed.

Lemma outcome_record p rxts w t id sq load src :
  pinger_ok p w -> ts_ok rxts -> findTargetByICMPID p id = Some t -> src <> [] -> Equal src (t_ip t) = true ->
  reply_outcome p rxts w (record_reply p t sq load rxts w).
Proof.
  intros Hok Hts [Hin _]%findTarget_in Hne He.
  destruct (record_reply_total p w t sq load rxts Hok Hin Hts) as (l & u & u' & rtt & bf & H1 & H2 & H3 & H4).
  eexists. split; [exact H4|]. right. exists t, l, u, u', sq, rtt, bf, src. done.
Qed.

(** One early return after the other. *)
Ltac outcome_cases :=
  match goal with
  | |- reply_outcome _ _ _ (match ?x with _ => _ end) => destruct x eqn:?; try apply outcome_none
  end.

Lemma outcome_ok p rxts w r :
  pinger_ok p w -> ts_ok rxts -> reply_outcome p rxts w r -> exists w', r = Some w' /\ pinger_ok p w'.
Proof.
  intros Hok Hts (w' & -> & H). exists w'. split; [done|].
  destruct H as [->|(t & l & u & u' & sq & rtt & bf & src & Hin & _ & _ & Hl & Hu & Hrec & ->)]; [done|].
  destruct (udpStat_op (Received sq rxts rtt bf) (udpStat.Received sq rxts rtt bf) u (pg_conf p))
    as (u2 & E & H1 & H2); [by apply (po_world _ _ Hok) in Hu|done|done|].
  assert (u2 = u') as -> by congruence. destruct Hok as [? ? ? ? ? Hw Hst ?]. split; try done.
  - by apply map_Forall_insert_2.
  - eapply Forall_impl; [exact Hst|]. cbn. intros t' (l' & Hl' & Hi'). exists l'. split; [done|].
    destruct (decide (l' = l)) as [->|]; [rewrite lookup_insert_eq; by eexists|by rewrite lookup_insert_ne].
Qed.

Lemma ping_outcome p w raw rxts :
  pinger_ok p w -> ts_ok rxts -> reply_outcome p rxts w (ping.processPacket p raw rxts w).
Proof.
  intros Hok Hts. unfold ping.processPacket, ping.handleEchoReply.
  repeat outcome_cases; bools; by eapply outcome_record.
Qed.

Lemma ping6_outcome p w raw from rxts :
  pinger_ok p w -> ts_ok rxts -> reply_outcome p rxts w (ping6.processPacket p raw from rxts w).
Proof.
  intros Hok Hts. unfold ping6.processPacket, ping6.handleEchoReply.
  repeat outcome_cases; bools; by eapply outcome_record.
Qed.

(** The times of the reads: the clock, and what the kernel wrote. *)
Definition recv_ok (supportRxTS : bool) (r : recv) : Prop :=
  match r with RMsg _ _ oob oobn now => ts_ok (rx_time supportRxTS oob oobn now) | _ => True end.

Lemma serveRecv_ok p handle b reads w :
  (forall raw from rxts w, pinger_ok p w -> ts_ok rxts -> reply_outcome p rxts w (handle raw from rxts w)) ->
  pinger_ok p w -> Forall (recv_ok b) reads ->
  exists w' failed, serveRecv handle b reads w = Some (w', failed) /\ pinger_ok p w'.
Proof.
  intros Hh Hok Hr. revert w Hok. induction Hr as [|r reads Hr _ IH]; intros w Hok; cbn [serveRecv]; [by eexists _, _|].
  destruct r as [| |raw from oob oobn now]; [by apply IH|by eexists _, _|]. cbn [recv_ok] in Hr.
  destruct (outcome_ok p _ w _ Hok Hr (Hh raw from _ w Hok Hr)) as (w1 & -> & Hok1). by apply IH.
Qed.

(** Whatever arrives at a ping tool, over IPv4 or IPv6, the receive handler
    does not panic, and it either leaves the statistics alone or records one
    reply, in the [Stat] of one target, the one the packet came from; the
    receive loop keeps the invariant over any sequence of datagrams, timeouts
    and errors. *)
Theorem ping_processPacket_outcome :
  forall p w, pinger_ok p w ->
    (forall raw from rxts, ts_ok rxts ->
       reply_outcome p rxts w (ping.processPacket p raw rxts w) /\
       reply_outcome p rxts w (ping6.processPacket p raw from rxts w)) /\
    (forall b reads, Forall (recv_ok b) reads ->
       (exists w' failed, ping.serveRecv p b reads w = Some (w', failed) /\ pinger_ok p w') /\
       (exists w' failed, ping6.serveRecv p b reads w = Some (w', failed) /\ pinger_ok p w')).
Proof.
  intros p w Hok. split.
  - intros raw from rxts Hts. split; [by apply ping_outcome|by apply ping6_outcome].
  - intros b reads Hr. split; apply serveRecv_ok; try done; intros; [by apply ping_outcome|by apply ping6_outcome].
Qed.

(** C16: an echo over IPv4: a round of the send loop advances every number,
    keeps the invariant, and each request that was built and sent is on the
    wire and pending in the [Stat] of its own target. If its number is free in
    its span and the next, the reply that carries its payload unmodified back
    from the target, in one of these spans, completes that record: RTT from
    the time in the payload, no bit flip, no other record or target touched. *)
Theorem ping_echo_completes_probe :
  forall p w o count,
    pinger_ok p w -> (forall i, ts_ok (sent_at o i) /\ ts_ok (o_now o i) /\ 0 < o_now o i) ->
    exists ts' count' w' out,
      send_targets (HT := ping.tool) p o 0 (pg_targets p) count w = Some (ts', count', w', out) /\
      pinger_ok (set_targets ts' p) w' /\
      forall i t data payload,
        pg_targets p !! i = Some t ->
        sendPayload p (t_seq (advance t)) (o_now o i) = Some payload ->
        ping.buildICMPkt (pg_conf p) (advance t) (seq16 (advance t)) payload = Some data -> o_send_ok o i = true ->
        let q := seq16 (advance t) in
        let k := sent_at o i / Span (pg_conf p) in
        (t_ip t, data) ∈ out /\
        exists l u, t_stat t = Some l /\ w_stats w !! l = Some u /\
          forall raw src rxts,
            probe (u_bkts u) k q = None -> probe (u_bkts u) (k + 1) q = None ->
            ping.echo_reply raw src (t_icmpID t) q payload -> src <> [] -> Equal src (t_ip t) = true ->
            ts_ok rxts -> rxts / Span (pg_conf p) = k \/ rxts / Span (pg_conf p) = k + 1 ->
            exists w2 u2,
              ping.processPacket (set_targets ts' p) raw rxts w' = Some w2 /\ w_stats w2 !! l = Some u2 /\
              (forall l', l' <> l -> w_stats w2 !! l' = w_stats w' !! l') /\
              forall j x, probe (u_bkts u2) j x =
                if decide ((j, x) = (k, q))
                then Some (mkRequest 0 0 q (sent_at o i) (i64 (rxts - o_now o i)) false false)
                else probe (u_bkts u) j x.
Proof.
  intros p w o count Hok Hts.
  destruct (round_ok (HT := ping.tool) p w o count Hok ltac:(intros i; apply Hts)) as (count' & w' & out & E & Hok' & Hsent).
  exists (map advance (pg_targets p)), count', w', out. split_and!; [exact E|exact Hok'|].
  intros i t data payload Ht Hpay Hbuild Hsend q k.
  destruct (Hsent i t data Ht) as (l & u & u' & Hl & Hu & Hu' & Hput & Hin).
  { unfold attempt. rewrite Hpay. cbn [mbind option_bind]. unfold build_pkt, ping.tool. by rewrite Hbuild, Hsend. }
  split; [exact Hin|]. exists l, u. split_and!; [done|done|]. intros raw src rxts Hk Hk1 Hrep Hne He Hr Hspan.
  assert (Ht' : pg_targets (set_targets (map advance (pg_targets p)) p) !! i = Some (advance t))
    by (cbn [set_targets pg_targets]; by rewrite list_lookup_fmap, Ht).
  rewrite (ping_processPacket_echo _ _ _ _ _ _ _ _ (advance t) Hrep) by (done || exact (findTarget_own _ _ _ _ Hok' Ht')).
  destruct (Hts i) as (Hs & Hn & Hpos).
  exact (reply_recorded (set_targets (map advance (pg_targets p)) p) w o i (advance t) l u u' w' rxts payload
           Hok' Hs Hn Hpos Hr Hl Hu (po_world _ _ Hok) Hu' Hput Hpay Hk Hk1 Hspan).
Qed.

(** The same over IPv6, where the identifier, the number and the payload
    are in the echo layer and the source is the address of the socket. *)
Theorem ping6_echo_completes_probe :
  forall p w o count,
    pinger_ok p w -> (forall i, ts_ok (sent_at o i) /\ ts_ok (o_now o i) /\ 0 < o_now o i) ->
    exists ts' count' w' out,
      send_targets (HT := ping6.tool) p o 0 (pg_targets p) count w = Some (ts', count', w', out) /\
      pinger_ok (set_targets ts' p) w' /\
      forall i t data payload,
        pg_targets p !! i = Some t ->
        sendPayload p (t_seq (advance t)) (o_now o i) = Some payload ->
        ping6.buildICMPv6Pkt (pg_conf p) (advance t) (seq16 (advance t)) payload = Some data -> o_send_ok o i = true ->
        let q := seq16 (advance t) in
        let k := sent_at o i / Span (pg_conf p) in
        (t_ip t, data) ∈ out /\
        exists l u, t_stat t = Some l /\ w_stats w !! l = Some u /\
          forall raw from src rxts,
            probe (u_bkts u) k q = None -> probe (u_bkts u) (k + 1) q = None ->
            ping6.echo_reply raw from src (t_icmpID t) q payload -> src <> [] -> Equal src (t_ip t) = true ->
            ts_ok rxts -> rxts / Span (pg_conf p) = k \/ rxts / Span (pg_conf p) = k + 1 ->
            exists w2 u2,
              ping6.processPacket (set_targets ts' p) raw from rxts w' = Some w2 /\ w_stats w2 !! l = Some u2 /\
              (forall l', l' <> l -> w_stats w2 !! l' = w_stats w' !! l') /\
              forall j x, probe (u_bkts u2) j x =
                if decide ((j, x) = (k, q))
                then Some (mkRequest 0 0 q (sent_at o i) (i64 (rxts - o_now o i)) false false)
                else probe (u_bkts u) j x.
Proof.
  intros p w o count Hok Hts.
  destruct (round_ok (HT := ping6.tool) p w o count Hok ltac:(intros i; apply Hts)) as (count' & w' & out & E & Hok' & Hsent).
  exists (map advance (pg_targets p)), count', w', out. split_and!; [exact E|exact Hok'|].
  intros i t data payload Ht Hpay Hbuild Hsend q k.
  destruct (Hsent i t data Ht) as (l & u & u' & Hl & Hu & Hu' & Hput & Hin).
  { unfold attempt. rewrite Hpay. cbn [mbind option_bind]. unfold build_pkt, ping6.tool. by rewrite Hbuild, Hsend. }
  split; [exact Hin|]. exists l, u. split_and!; [done|done|]. intros raw from src rxts Hk Hk1 Hrep Hne He Hr Hspan.
  assert (Ht' : pg_targets (set_targets (map advance (pg_targets p)) p) !! i = Some (advance t))
    by (cbn [set_targets pg_targets]; by rewrite list_lookup_fmap, Ht).
  rewrite (ping6_processPacket_echo _ _ _ _ _ _ _ _ _ (advance t) Hrep) by (done || exact (findTarget_own _ _ _ _ Hok' Ht')).
  destruct (Hts i) as (Hs & Hn & Hpos).
  exact (reply_recorded (set_targets (map advance (pg_targets p)) p) w o i (advance t) l u u' w' rxts payload
           Hok' Hs Hn Hpos Hr Hl Hu (po_world _ _ Hok) Hu' Hput Hpay Hk Hk1 Hspan).
Qed.

End handlers.

(** ** Witnesses *)

Module samples.

Definition conf : Config :=
  mkConfig ["10.0.0.2"; "10.0.0.3"] 100 1000 3000 0 0 12 0 64 1000 "10.0.0.1" "eth0" false false.
Definition conf6 : Config :=
  mkConfig ["fe80::2"; "fe80::3"] 100 1000 3000 0 0 12 0 64 1000 "fe80::1" "eth0" false false.

Definition none : Pinger := mkPinger conf [] 0 (mkSalts [] [] [] [] 0).
Definition new : Pinger := default none (ping.NewPinger (HG := Toy.net) conf 65535).
Definition new6 : Pinger := default none (ping6.NewPinger (HG := Toy.net) conf6 65535).
Definition pinger : Pinger := (Run_setup new (fun _ => 65534)).1.
Definition world : World := (Run_setup new (fun _ => 65534)).2.
Definition pinger6 : Pinger := (Run_setup new6 (fun _ => 65534)).1.
Definition world6 : World := (Run_setup new6 (fun _ => 65534)).2.

(** The second target is not reached; the first has a hardware time. *)
Definition outside : Outside :=
  mkOutside 0 (fun _ => 5500) (fun i => (i =? 0)%nat) (fun i => if (i =? 0)%nat then Some 5600 else None).

Lemma ping_sample_ok : pinger_ok pinger world.
Proof.
  pose proof (pinger_setup_ok (HT := ping.tool (HG := Toy.net)) conf 65535 (fun _ => 65534) new
    ltac:(done) ltac:(done) ltac:(done) eq_refl) as H. apply H.
Qed.

Lemma ping6_sample_ok : pinger_ok pinger6 world6.
Proof.
  pose proof (pinger_setup_ok (HT := ping6.tool (HG := Toy.net)) conf6 65535 (fun _ => 65534) new6
    ltac:(done) ltac:(done) ltac:(done) eq_refl) as H. apply H.
Qed.

Lemma outside_ok i : ts_ok (sent_at outside i) /\ ts_ok (o_now outside i) /\ 0 < o_now outside i.
Proof. destruct i; split_and!; try done; split; done. Qed.

(** The reply on the wire: an IPv4 header around the echoed message. *)
Definition reply_raw (payload : bytes) : bytes :=
  make_bytes 12 ++ [10; 0; 0; 2] ++ make_bytes 4 ++ [0; 0; 0; 0] ++ put_be 2 65535 ++ put_be 2 65535 ++ payload.
Definition payload : bytes := put_le 8 5500 ++ Salts.Get (pg_salts pinger) 65535.

Lemma reply_is_echo : ping.echo_reply (HG := Toy.net) (reply_raw payload) [10; 0; 0; 2] 65535 65535 payload.
Proof. repeat eexists. Qed.

(** Sent at 5600 in span 5, answered at 6100 in span 6. *)
Example ping_run :
  match send_targets (HT := ping.tool (HG := Toy.net)) pinger outside 0 (pg_targets pinger) 0 world with
  | Some (ts, count, w, out) =>
      count = 1 /\ map fst out = [[10; 0; 0; 2]] /\ map t_icmpID ts = [65535; 0] /\
      match ping.processPacket (HG := Toy.net) (set_targets ts pinger) (reply_raw payload) 6100 w with
      | Some w2 => (fun u => probe (u_bkts u) 5 65535) <$> w_stats w2 !! 0%nat =
                   Some (Some (mkRequest 0 0 65535 5600 600 false false))
      | None => False
      end
  | None => False
  end.
Proof. vm_compute. repeat split. Qed.

End samples.

Lemma ping_processPacket_outcome_witness :
  reply_outcome samples.pinger 6100 samples.world
    (ping.processPacket (HG := Toy.net) samples.pinger (samples.reply_raw samples.payload) 6100 samples.world) /\
  reply_outcome samples.pinger 6100 samples.world
    (ping6.processPacket (HG := Toy.net) samples.pinger (samples.reply_raw samples.payload) (Some [10; 0; 0; 2]) 6100
       samples.world) /\
  exists w' failed,
    ping.serveRecv (HG := Toy.net) samples.pinger false [RTimeout; RMsg [1] None [] 0 6100; RFail] samples.world =
      Some (w', failed) /\ pinger_ok samples.pinger w'.
Proof.
  destruct (ping_processPacket_outcome (HG := Toy.net) samples.pinger samples.world samples.ping_sample_ok) as [H1 H2].
  split; [|split].
  - apply (H1 _ (Some [10; 0; 0; 2])). split; [discriminate|reflexivity].
  - apply H1. split; [discriminate|reflexivity].
  - apply (H2 false). repeat constructor; discriminate.
Defined.

Lemma ping_echo_completes_probe_witness :
  exists ts' count' w' out,
    send_targets (HT := ping.tool (HG := Toy.net)) samples.pinger samples.outside 0 (pg_targets samples.pinger) 0
      samples.world = Some (ts', count', w', out) /\
    exists t l u w2 u2,
      pg_targets samples.pinger !! 0%nat = Some t /\ t_stat t = Some l /\ w_stats samples.world !! l = Some u /\
      ping.processPacket (HG := Toy.net) (set_targets ts' samples.pinger) (samples.reply_raw samples.payload) 6100 w' =
        Some w2 /\ w_stats w2 !! l = Some u2 /\
      probe (u_bkts u2) 5 65535 = Some (mkRequest 0 0 65535 5600 600 false false).
Proof.
  destruct (ping_echo_completes_probe (HG := Toy.net) samples.pinger samples.world samples.outside 0
    samples.ping_sample_ok samples.outside_ok) as (ts' & count' & w' & out & E & _ & Heach).
  exists ts', count', w', out. split; [exact E|].
  destruct (Heach 0%nat _ _ samples.payload eq_refl eq_refl eq_refl eq_refl) as [_ (l & u & Hl & Hu & Hans)].
  injection Hl as <-. injection Hu as <-.
  destruct (Hans (samples.reply_raw samples.payload) [10; 0; 0; 2] 6100 eq_refl eq_refl samples.reply_is_echo
    ltac:(discriminate) eq_refl ltac:(split; [discriminate|reflexivity]) (or_intror eq_refl))
    as (w2 & u2 & Ep & Hu2 & _ & Hpr).
  exists (mkTarget "10.0.0.2" [10; 0; 0; 2] 65535 (Some 0%nat) 65534), 0%nat. eexists _, w2, u2.
  split; [reflexivity|]. split; [reflexivity|]. split; [reflexivity|]. split; [exact Ep|]. split; [exact Hu2|].
  rewrite Hpr. reflexivity.
Defined.

(** The same over IPv6: the message alone, from the address of the socket. *)
Module samples6.
Export samples.

Definition payload6 : bytes := put_le 8 5500 ++ Salts.Get (pg_salts pinger6) 65535.
Definition reply_raw6 : bytes := [129; 0; 0; 0] ++ put_be 2 65535 ++ put_be 2 65535 ++ payload6.
Definition host2 : IP := [254; 128; 0; 0; 0; 0; 0; 0; 0; 0; 0; 0; 0; 0; 0; 2].

Lemma reply6_is_echo : ping6.echo_reply (HG := Toy.net) reply_raw6 (Some host2) host2 65535 65535 payload6.
Proof. repeat eexists. Qed.

End samples6.

Lemma ping6_echo_completes_probe_witness :
  exists ts' count' w' out,
    send_targets (HT := ping6.tool (HG := Toy.net)) samples.pinger6 samples.outside 0 (pg_targets samples.pinger6) 0
      samples.world6 = Some (ts', count', w', out) /\
    exists t l u w2 u2,
      pg_targets samples.pinger6 !! 0%nat = Some t /\ t_stat t = Some l /\ w_stats samples.world6 !! l = Some u /\
      ping6.processPacket (HG := Toy.net) (set_targets ts' samples.pinger6) samples6.reply_raw6 (Some samples6.host2)
        6100 w' = Some w2 /\ w_stats w2 !! l = Some u2 /\
      probe (u_bkts u2) 5 65535 = Some (mkRequest 0 0 65535 5600 600 false false).
Proof.
  destruct (ping6_echo_completes_probe (HG := Toy.net) samples.pinger6 samples.world6 samples.outside 0
    samples.ping6_sample_ok samples.outside_ok) as (ts' & count' & w' & out & E & _ & Heach).
  exists ts', count', w', out. split; [exact E|].
  destruct (Heach 0%nat _ _ samples6.payload6 eq_refl eq_refl eq_refl eq_refl) as [_ (l & u & Hl & Hu & Hans)].
  injection Hl as <-. injection Hu as <-.
  destruct (Hans samples6.reply_raw6 (Some samples6.host2) samples6.host2 6100 eq_refl eq_refl samples6.reply6_is_echo
    ltac:(discriminate) eq_refl ltac:(split; [discriminate|reflexivity]) (or_intror eq_refl))
    as (w2 & u2 & Ep & Hu2 & _ & Hpr).
  exists (mkTarget "fe80::2" samples6.host2 65535 (Some 0%nat) 65534), 0%nat. eexists _, w2, u2.
  split; [reflexivity|]. split; [reflexivity|]. split; [reflexivity|]. split; [exact Ep|]. split; [exact Hu2|].
  rewrite Hpr. reflexivity.
Defined.
