(* ===== verification/PingRun.v ===== *)
(** * The goroutines of the ping tools ([Run] of [ping/pinger.go] and
      [ping6/pinger.go])

    The tools as instances of Lifecycle.v. The send loop is cut where it shares
    state with the receive loop: a probe is written to the socket in one piece
    and recorded with [Put] in the next, so a reply can be handled in between.
    [send_targets] of Ping.v is a round without interruption. *)

From stdpp Require Import relations.
From S2P Require Import Prelude GoStd GoNet GoDuration Ports Bucket Buckets UdpStat Salts Goscapy World PingConfig Timestamps Ping Lifecycle.
Local Open Scope Z_scope.

(** Where the send loop stands: at its [select]; before the target with an
    index; a probe of that target has been written, and is to be recorded with
    this number and time. *)
Inductive position :=
| Top
| AtTarget (i : nat)
| Written (i : nat) (sq now : Z).

(** What the goroutines of a pinger share, with the position of the send loop,
    its [count], the packets written and the reports made. *)
Record pinging := mkPinging {
  pi_pinger : Pinger;
  pi_pos : position;
  pi_count : Z;
  pi_world : World;
  pi_out : list (IP * bytes);
  pi_reports : list StatResult
}.

Definition at_pos (pos : position) (s : pinging) : pinging :=
  mkPinging (pi_pinger s) pos (pi_count s) (pi_world s) (pi_out s) (pi_reports s).

Definition with_world (w : World) (s : pinging) : pinging :=
  mkPinging (pi_pinger s) (pi_pos s) (pi_count s) w (pi_out s) (pi_reports s).

(** Whether a write succeeds, and the hardware time read after it. *)
Record WriteAnswer := mkWriteAnswer { wa_ok : bool; wa_txts : option Z }.

(** What [ReadMsgIP] or [Recvmsg] delivers. *)
Record Message := mkMessage { m_raw : bytes; m_from : option IP; m_oob : bytes; m_oobn : nat }.

Section ping.
Context `{HT : PingTool}.
(** [processPacket] of the tool, its configuration, and whether receive
    timestamps are supported. *)
Variable processPacket : Pinger -> bytes -> option IP -> Z -> World -> option World.
Variable conf : Config.
Variable supportRxTS : bool.

(** The limits of [serveSend]. *)
Definition at_limit (elapsed : Z) (s : pinging) : bool :=
  ((0 <? Count conf) && (Count conf <=? pi_count s)) ||
  ((0 <? SendDuration conf) && (SendDuration conf <=? elapsed)).

(** The next piece of the body of [serveSend]. *)
Definition send_piece (now : Z) (a : WriteAnswer) (s : pinging) : option pinging :=
  let p := pi_pinger s in
  match pi_pos s with
  | Top => Some (at_pos (AtTarget 0) s)
  | AtTarget i =>
      match pg_targets p !! i with
      | None => Some (at_pos Top s)
      | Some t =>
          let t := set_seq (u64 (t_seq t + 1)) t in
          let sq := u16 (Z.land (t_seq t) 65535) in
          payload ← sendPayload p (t_seq t) now;
          let p := set_targets (<[i := t]> (pg_targets p)) p in
          let next pos out := mkPinging p pos (pi_count s) (pi_world s) out (pi_reports s) in
          match build_pkt (pg_conf p) t sq payload with
          | None => Some (next (AtTarget (S i)) (pi_out s))
          | Some data =>
              if negb (wa_ok a) then Some (next (AtTarget (S i)) (pi_out s))
              else Some (next (Written i sq (default now (wa_txts a))) (pi_out s ++ [(t_ip t, data)]))
          end
      end
  | Written i sq now =>
      t ← pg_targets p !! i;
      w ← call_stat (t_stat t) (udpStat.Put 0 0 sq now) (pi_world s);
      Some (mkPinging p (AtTarget (S i)) (pi_count s + 1) w (pi_out s) (pi_reports s))
  end.

(** The body of [serveRecv] after a read. *)
Definition recv_piece (now : Z) (m : Message) (s : pinging) : option pinging :=
  w ← processPacket (pi_pinger s) (m_raw m) (m_from m) (rx_time supportRxTS (m_oob m) (m_oobn m) now) (pi_world s);
  Some (with_world w s).

(** [runOnce] of the processor that [Run] created. *)
Definition tick_piece (now : Z) (s : pinging) : option pinging :=
  let w := pi_world s in
  '(σ, out) ← Processor.runOnce (fun _ => now) (w_proc w) (w_stats w);
  Some (mkPinging (pi_pinger s) (pi_pos s) (pi_count s) (mkWorld σ (w_next w) (w_proc w)) (pi_out s)
          (pi_reports s ++ out)).

(** [time.Sleep] and a ticker do not wait a negative time. *)
#[local] Instance prober : Prober pinging WriteAnswer Message := {|
  at_top s := match pi_pos s with Top => true | _ => false end;
  limit := at_limit;
  work := send_piece;
  handle := recv_piece;
  tick := tick_piece;
  reports := pi_reports;
  delay := Z.max 0 (Delay conf);
  span := Z.max 0 (Span conf);
  first_result := true;
  read_error_ends := true
|}.

#[local] Instance prober_laws : ProberLaws pinging WriteAnswer Message.
Proof.
  split; cbn [work handle reports delay span prober]; try lia.
  - intros t a s s'. unfold send_piece. destruct (pi_pos s) as [|i|i sq now].
    + by intros [= <-].
    + destruct (pg_targets _ !! i) as [tg|]; [|by intros [= <-]].
      destruct (sendPayload _ _ _); cbn [mbind option_bind]; [|done].
      destruct (build_pkt _ _ _ _); [|by intros [= <-]]. destruct (negb _); by intros [= <-].
    + destruct (pg_targets _ !! i) as [tg|]; cbn [mbind option_bind]; [|done].
      destruct (call_stat _ _ _); cbn [mbind option_bind]; [|done]. by intros [= <-].
  - intros t d s s'. unfold recv_piece. destruct (processPacket _ _ _ _ _); cbn [mbind option_bind]; [|done].
    by intros [= <-].
Qed.

(** [Run] after its set-up. *)
Definition ready (p : Pinger) (w : World) : pinging := mkPinging p Top 0 w [] [].

(** ** A round without interruption *)

(** The answers of the outside to the next piece. *)
Definition answer_to (o : Outside) (s : pinging) : Z * WriteAnswer :=
  match pi_pos s with
  | AtTarget i => (o_now o i, mkWriteAnswer (o_send_ok o i) (o_txts o i))
  | _ => (0, mkWriteAnswer true None)
  end.

(** The pieces up to the end of the round. *)
Fixpoint run_round (fuel : nat) (o : Outside) (s : pinging) : option pinging :=
  match fuel with
  | O => Some s
  | S fuel =>
      match pi_pos s with
      | Top => Some s
      | _ => s ← send_piece (answer_to o s).1 (answer_to o s).2 s; run_round fuel o s
      end
  end.

Lemma round_from o ts : forall pre p count w out rep fuel,
  (2 * length ts < fuel)%nat ->
  run_round fuel o (mkPinging (set_targets (pre ++ ts) p) (AtTarget (length pre)) count w out rep) =
    '(ts', count', w', out') ← send_targets p o (length pre) ts count w;
    Some (mkPinging (set_targets (pre ++ ts') p) Top count' w' (out ++ out') rep).
Proof.
  induction ts as [|t ts IH]; intros pre p count w out rep fuel Hf; destruct fuel as [|fuel]; try (cbn in Hf; lia).
  { cbn [run_round pi_pos send_targets mbind option_bind]. unfold send_piece.
    cbn [pi_pos pi_pinger set_targets pg_targets]. rewrite app_nil_r, lookup_ge_None_2 by lia.
    cbn [mbind option_bind]. rewrite app_nil_r. by destruct fuel. }
  cbn [run_round pi_pos send_targets]. unfold send_piece at 1. cbn [pi_pos pi_pinger set_targets pg_targets answer_to fst snd].
  rewrite list_lookup_middle by done. set (t1 := set_seq _ t).
  change (sendPayload (set_targets (pre ++ t :: ts) p)) with (sendPayload p).
  destruct (sendPayload p (t_seq t1) (o_now o (length pre))) as [payload|]; cbn [mbind option_bind]; [|done].
  assert (Hset : set_targets (<[length pre := t1]> (pre ++ t :: ts)) (set_targets (pre ++ t :: ts) p) =
                 set_targets ((pre ++ [t1]) ++ ts) p).
  { unfold set_targets. cbn [pg_conf pg_pid pg_salts]. f_equal.
    rewrite insert_app_r_alt, Nat.sub_diag by done. cbn. by rewrite <- app_assoc. }
  rewrite Hset. cbn [pg_conf set_targets].
  assert (Hlen : length (pre ++ [t1]) = S (length pre)) by (rewrite length_app; cbn; lia).
  assert (Hskip : forall f out0 count0 w0, (2 * length ts < f)%nat -> run_round f o
      (mkPinging (set_targets ((pre ++ [t1]) ++ ts) p) (AtTarget (S (length pre))) count0 w0 out0 rep) =
    '(ts', count', w', out') ← send_targets p o (S (length pre)) ts count0 w0;
    Some (mkPinging (set_targets (pre ++ t1 :: ts') p) Top count' w' (out0 ++ out') rep)).
  { intros f out0 count0 w0 Hf'. rewrite <- Hlen, IH by done.
    destruct (send_targets _ _ _ _ _ _) as [[[[ts' c'] w'] out']|]; cbn [mbind option_bind]; [|done].
    by rewrite <- app_assoc. }
  destruct (build_pkt _ _ _ _) as [data|].
  2: { cbn [mbind option_bind pi_count pi_world pi_out pi_reports]. rewrite Hskip by (cbn in Hf; lia).
       by destruct (send_targets _ _ _ _ _ _) as [[[[ts' c'] w'] out']|]. }
  cbn [wa_ok wa_txts pi_count pi_world pi_out pi_reports]. destruct (o_send_ok o (length pre)); cbn [negb].
  2: { cbn [mbind option_bind]. rewrite Hskip by (cbn in Hf; lia).
       by destruct (send_targets _ _ _ _ _ _) as [[[[ts' c'] w'] out']|]. }
  destruct fuel as [|fuel]; [cbn in Hf; lia|]. cbn [mbind option_bind run_round pi_pos].
  unfold send_piece at 1. cbn [pi_pos pi_pinger set_targets pg_targets].
  rewrite <- app_assoc. cbn [app]. rewrite list_lookup_middle by done. cbn [mbind option_bind].
  change (t_stat t1) with (t_stat t). fold (sent_at o (length pre)).
  destruct (call_stat _ _ _) as [w1|]; cbn [mbind option_bind]; [|done].
  cbn [pi_count pi_out pi_reports].
  replace (pre ++ t1 :: ts) with ((pre ++ [t1]) ++ ts) by (by rewrite <- app_assoc).
  rewrite Hskip by (cbn in Hf; lia).
  destruct (send_targets _ _ _ _ _ _) as [[[[ts' c'] w'] out']|]; cbn [mbind option_bind]; [|done].
  by rewrite <- app_assoc.
Qed.

(** The number of one target advances. *)
Lemma advance_one_ok p w i t n :
  pinger_ok p w -> pg_targets p !! i = Some t ->
  pinger_ok (set_targets (<[i := set_seq n t]> (pg_targets p)) p) w.
Proof.
  intros [H1 H2 H3 H4 H5 H6 H7 H8] Ht.
  assert (Hst : map t_stat (<[i := set_seq n t]> (pg_targets p)) = map t_stat (pg_targets p)).
  { change (map t_stat ?l) with (t_stat <$> l). rewrite list_fmap_insert. apply list_insert_id.
    by rewrite list_lookup_fmap, Ht. }
  split; cbn [set_targets pg_conf pg_targets pg_pid pg_salts]; try done.
  - by rewrite length_insert.
  - intros j t' Hj. apply list_lookup_insert_Some in Hj as [(<- & <- & _)|(_ & Hj)]; [exact (H5 i t Ht)|by apply H5].
  - apply Forall_insert; [done|]. exact (proj1 (Forall_lookup _ _) H7 i t Ht).
  - by rewrite Hst.
Qed.

(** ** A reply before its record *)

Definition world_after (u : udpStat) (l : nat) (w : World) : World :=
  mkWorld (<[l := u]> (w_stats w)) (w_next w) (w_proc w).

Lemma late_put s i t l u tput tpay payload m now now' a :
  let p := pi_pinger s in
  let w := pi_world s in
  let q := seq16 t in
  let k := tput / Span (pg_conf p) in
  let rxts := rx_time supportRxTS (m_oob m) (m_oobn m) now in
  pinger_ok p w -> pi_pos s = Written i q tput -> pg_targets p !! i = Some t ->
  t_stat t = Some l -> w_stats w !! l = Some u ->
  sendPayload p (t_seq t) tpay = Some payload -> ts_ok tput -> ts_ok tpay -> 0 < tpay -> ts_ok rxts ->
  (forall j, k - 1 <= j <= k + 1 -> probe (u_bkts u) j q = None) ->
  processPacket p (m_raw m) (m_from m) rxts w = record_reply p t q payload rxts w ->
  rxts / Span (pg_conf p) = k \/ rxts / Span (pg_conf p) = k + 1 ->
  exists s1 s2 u2, recv_piece now m s = Some s1 /\ send_piece now' a s1 = Some s2 /\
    w_stats (pi_world s2) !! l = Some u2 /\
    (rxts / Span (pg_conf p) = k ->
       probe (u_bkts u2) k q = Some (mkRequest 0 0 q tput (i64 (rxts - tpay)) false false) /\
       probe (u_bkts u2) (k + 1) q = None) /\
    (rxts / Span (pg_conf p) = k + 1 ->
       probe (u_bkts u2) k q = Some (fresh_request 0 0 q tput) /\
       probe (u_bkts u2) (k + 1) q = Some (mkRequest 0 0 q 0 (i64 (rxts - tpay)) false false)).
Proof.
  cbn zeta. intros Hok Hpos Ht Hl Hu Hpay Hput Htp Htpos Hrx Hnone Hpp Hspan.
  set (p := pi_pinger s) in *. set (w := pi_world s) in *. set (q := seq16 t) in *.
  set (rxts := rx_time _ _ _ _) in *.
  destruct (po_world _ _ Hok _ _ Hu) as [[Hb Hbs Hlast] Hsp].
  assert (Hspu : bs_span (u_bkts u) = Span (pg_conf p)) by congruence.
  destruct (received_then_put (u_bkts u) 0 0 q tput rxts (i64 (rxts - tpay)) false Hb Hput Hrx)
    as (bs1 & bs2 & E1 & E2 & _ & H1 & H2); [by rewrite Hspu|by rewrite Hspu|]. rewrite Hspu in H1, H2.
  set (u1 := set_bkts bs1 u). set (u2 := set_bkts bs2 u1).
  exists (with_world (world_after u1 l w) s),
    (mkPinging p (AtTarget (S i)) (pi_count s + 1) (world_after u2 l (world_after u1 l w)) (pi_out s) (pi_reports s)), u2.
  split_and!; [| |cbn; apply lookup_insert_eq|exact H1|exact H2].
  - unfold recv_piece. fold p w rxts. pose proof (record_reply_own p w t tpay rxts payload Hok Htp Htpos Hpay) as Hrec.
    fold q in Hrec. rewrite Hpp, Hrec.
    unfold call_stat. rewrite Hl. cbn [mbind option_bind]. rewrite (call_spec l _ w u u1 Hu); [done|].
    unfold udpStat.Received. by rewrite E1.
  - unfold send_piece. cbn [with_world pi_pos pi_pinger pi_world pi_count pi_out pi_reports]. rewrite Hpos. fold p.
    rewrite Ht. cbn [mbind option_bind]. unfold call_stat. rewrite Hl. cbn [mbind option_bind].
    rewrite (call_spec l _ (world_after u1 l w) u1 u2); [done|apply lookup_insert_eq|].
    unfold udpStat.Put. cbn [u1 set_bkts u_bkts]. by rewrite E2.
Qed.

(** ** Properties of the tools *)

End ping.

(** The goroutines of [ping], and of [ping6]. *)
Definition ping_prober `{Goscapy} : Config -> bool -> Prober pinging WriteAnswer Message :=
  prober (HT := ping.tool) (fun p raw _ => ping.processPacket p raw).

Definition ping6_prober `{Goscapy} : Config -> bool -> Prober pinging WriteAnswer Message :=
  prober (HT := ping6.tool) ping6.processPacket.

(** What [Run] does with the delay, for a prober [P]. *)
Definition skips_delay (P : Prober pinging WriteAnswer Message) (conf : Config) : Prop :=
  forall p w t c, reachable (HP := P) (ready p w) t c ->
    (c_late c <= 1)%nat /\
    (forall r, c_ret c = Some r -> c_closed c = true /\ (r = false -> c_stop c <> None)) /\
    (c_now c < t + Delay conf -> pi_reports (c_state c) = []) /\
    (c_stop c <> None -> c_send c <> SendOver -> c_recv c <> RecvOver -> c_ret c = None ->
     exists c', rtc (step (HP := P)) c c' /\ c_ret c' = Some false /\ c_now c' = c_now c /\
       pi_reports (c_state c') = pi_reports (c_state c) /\ exists u, c_send c' = Asleep u).

Lemma prober_skips_delay `{HT : PingTool} handler conf rx : skips_delay (prober handler conf rx) conf.
Proof.
  intros p w t c Hr. pose proof (prober_laws handler conf rx) as HL. split_and!.
  - exact (at_most_one_late (HL := HL) _ _ _ Hr).
  - intros r Hret. destruct (returned (HL := HL) _ _ _ _ Hr Hret) as (H1 & _ & H3). by split.
  - intros Hn. destruct (no_early_report (HL := HL) _ _ _ Hr) as [H|H]; [exact H|].
    cbn [delay prober] in H. lia.
  - intros H1 H2 H3 H4. destruct (returns_at_once (HL := HL) _ _ _ eq_refl Hr H1 H2 H3 H4)
      as (c' & R & Hret & Hn & Hs & Ha). exists c'. split_and!; try done. by rewrite Hs.
Qed.

(** C18: [Run] of the ping tools does not wait for the delay. It returns the
    first result of the two loops, and the receive loop ends as soon as it sees
    [stopCh] closed, which is before the send loop sleeps: from every state
    after the stop in which neither loop has returned, [Run] can return nil at
    once, with the send loop asleep and nothing more reported. At most one
    datagram is handled after the stop. And since the processor reports nothing
    before [Delay] has passed, a run that stops before then (a small count)
    can end without any report. *)
Theorem ping_Run_skips_delay :
  forall `{Goscapy} conf rx, skips_delay (ping_prober conf rx) conf /\ skips_delay (ping6_prober conf rx) conf.
Proof. intros HG conf rx. split; apply prober_skips_delay. Qed.

(** A round of the send loop that no other goroutine interrupts is the
    function [send_targets] of the sequential model: the pieces into which the
    loop is cut here compose to it, panics included, for any tool. *)
Theorem ping_round_pieces :
  forall `{PingTool} o p count w out rep fuel,
    (2 * length (pg_targets p) < fuel)%nat ->
    run_round fuel o (mkPinging p (AtTarget 0) count w out rep) =
      '(ts, count, w, out') ← send_targets p o 0 (pg_targets p) count w;
      Some (mkPinging (set_targets ts p) Top count w (out ++ out') rep).
Proof.
  intros HT o p count w out rep fuel Hf.
  assert (Hp : p = set_targets ([] ++ pg_targets p) p) by (by destruct p).
  rewrite Hp at 1. exact (round_from o (pg_targets p) [] p count w out rep fuel Hf).
Qed.

(** What becomes of a probe to target [t], written at [tput], whose echo [m] is
    handled before the send loop records it. *)
Definition overtaken (P : Prober pinging WriteAnswer Message) (rx : bool)
    (echo : Message -> target -> bytes -> Prop) : Prop :=
  forall s i t l u tput tpay payload m now now' a,
    let p := pi_pinger s in
    let q := seq16 t in
    let sp := Span (pg_conf p) in
    let rxts := rx_time rx (m_oob m) (m_oobn m) now in
    pinger_ok p (pi_world s) -> pi_pos s = Written i q tput -> pg_targets p !! i = Some t ->
    t_stat t = Some l -> w_stats (pi_world s) !! l = Some u ->
    sendPayload p (t_seq t) tpay = Some payload -> echo m t payload ->
    ts_ok tput -> ts_ok tpay -> 0 < tpay -> ts_ok rxts ->
    (forall j, tput / sp - 1 <= j <= tput / sp + 1 -> probe (u_bkts u) j q = None) ->
    rxts / sp = tput / sp \/ rxts / sp = tput / sp + 1 ->
    exists s1 s2 u2, handle now m s = Some s1 /\ work now' a s1 = Some s2 /\
      w_stats (pi_world s2) !! l = Some u2 /\
      (rxts / sp = tput / sp ->
         probe (u_bkts u2) (tput / sp) q = Some (mkRequest 0 0 q tput (i64 (rxts - tpay)) false false) /\
         probe (u_bkts u2) (tput / sp + 1) q = None) /\
      (rxts / sp = tput / sp + 1 ->
         probe (u_bkts u2) (tput / sp) q = Some (fresh_request 0 0 q tput) /\
         probe (u_bkts u2) (tput / sp + 1) q = Some (mkRequest 0 0 q 0 (i64 (rxts - tpay)) false false)).

(** C17: the ping tools record a probe after they have sent it, so its reply can
    be handled first. If the reply is stamped in the span of the probe, the
    record ends up the same as in the usual order; if it is stamped in the next
    span, there are two records: the probe, which will be reported lost although
    it was answered, and in the next span an answer without a probe. *)
Theorem ping_reply_overtakes_record :
  forall `{Goscapy} conf rx,
    overtaken (ping_prober conf rx) rx (fun m t payload => exists src,
      ping.echo_reply (m_raw m) src (t_icmpID t) (seq16 t) payload /\ src <> [] /\ Equal src (t_ip t) = true) /\
    overtaken (ping6_prober conf rx) rx (fun m t payload => exists src,
      ping6.echo_reply (m_raw m) (m_from m) src (t_icmpID t) (seq16 t) payload /\ src <> [] /\
      Equal src (t_ip t) = true).
Proof.
  intros HG conf rx. split; intros s i t l u tput tpay payload m now now' a p q sp rxts Hok Hpos Ht Hl Hu Hpay
    (src & Hecho & Hne & Heq) H1 H2 H3 H4 H5 H6.
  - eapply (late_put (HT := ping.tool) (fun p raw _ => ping.processPacket p raw) rx); try eassumption.
    eapply ping_processPacket_echo; try eassumption. by eapply findTarget_own.
  - eapply (late_put (HT := ping6.tool) ping6.processPacket rx); try eassumption.
    eapply ping6_processPacket_echo; try eassumption. by eapply findTarget_own.
Qed.

(** ** Witnesses *)

Module run_samples.

(** Two targets, a limit of one probe; the second write fails. *)
Definition conf : Config :=
  mkConfig ["10.0.0.2"; "10.0.0.3"] 100 1000 3000 1 0 12 0 64 1000 "10.0.0.1" "eth0" false false.
Definition new : Pinger := default samples.none (ping.NewPinger (HG := Toy.net) conf 65535).
Definition pinger : Pinger := (Run_setup new (fun _ => 65534)).1.
Definition world : World := (Run_setup new (fun _ => 65534)).2.
Definition P : Prober pinging WriteAnswer Message := ping_prober (H := Toy.net) conf false.
#[local] Existing Instance P.

Lemma pinger_is_ok : pinger_ok pinger world.
Proof.
  pose proof (pinger_setup_ok (HT := ping.tool (HG := Toy.net)) conf 65535 (fun _ => 65534) new
    ltac:(done) ltac:(done) ltac:(done) eq_refl) as H. apply H.
Qed.

Definition echo : Message := mkMessage (samples.reply_raw samples.payload) None [] 0.

(** The probe is sent, answered and recorded; the limit is reached while the
    receive loop waits for a datagram. *)
Definition schedule : list (Z * action WriteAnswer Message) :=
  [(5400, DoRead); (5500, DoWork (mkWriteAnswer true None)); (5500, DoWork (mkWriteAnswer true None));
   (5510, DoWork (mkWriteAnswer true None)); (5510, DoWork (mkWriteAnswer false None));
   (5520, DoHandle echo); (5520, DoWork (mkWriteAnswer true None)); (5530, DoRead); (5540, DoStop)].

Definition stopped : ctl pinging :=
  default (started (ready pinger world) 5300) (acts schedule (started (ready pinger world) 5300)).

Lemma stopped_reachable : reachable (ready pinger world) 5300 stopped.
Proof. apply (acts_sound schedule). vm_compute. reflexivity. Qed.

(** The probe has been written, and its reply is handled before it is
    recorded. *)
Definition written : pinging :=
  match acts (take 3 schedule) (started (ready pinger world) 5300) with
  | Some c => c_state c
  | None => ready pinger world
  end.

End run_samples.

Lemma ping_Run_skips_delay_witness :
  exists c, rtc (step (HP := run_samples.P)) run_samples.stopped c /\ c_ret c = Some false /\
    pi_count (c_state run_samples.stopped) = 1 /\ pi_reports (c_state c) = [] /\ c_now c = 5540.
Proof.
  destruct (proj1 (ping_Run_skips_delay (H := Toy.net) run_samples.conf false) _ _ _ _ run_samples.stopped_reachable)
    as (_ & _ & Hrep & Hret).
  destruct Hret as (c & R & Hc & Hn & Hs & _); [vm_compute; discriminate..|vm_compute; reflexivity|].
  exists c. split_and!; [exact R|exact Hc|vm_compute; reflexivity| |rewrite Hn; vm_compute; reflexivity].
  rewrite Hs. apply Hrep. vm_compute. reflexivity.
Defined.

Lemma ping_round_pieces_witness :
  run_round (HT := ping.tool (HG := Toy.net)) 5 samples.outside
    (mkPinging samples.pinger (AtTarget 0) 0 samples.world [] []) =
    '(ts, count, w, out') ← send_targets (HT := ping.tool (HG := Toy.net)) samples.pinger samples.outside 0
                              (pg_targets samples.pinger) 0 samples.world;
    Some (mkPinging (set_targets ts samples.pinger) Top count w ([] ++ out') []).
Proof. apply (ping_round_pieces (H := ping.tool (HG := Toy.net))). vm_compute. repeat constructor. Defined.

(** Written at 5500, the reply is handled at 6100, then the probe is recorded. *)
Lemma ping_reply_overtakes_record_witness :
  exists s1 s2 u2, handle (Prober := run_samples.P) 6100 run_samples.echo run_samples.written = Some s1 /\
    work (Prober := run_samples.P) 6110 (mkWriteAnswer true None) s1 = Some s2 /\
    w_stats (pi_world s2) !! 0%nat = Some u2 /\
    probe (u_bkts u2) 5 65535 = Some (fresh_request 0 0 65535 5500) /\
    probe (u_bkts u2) 6 65535 = Some (mkRequest 0 0 65535 0 600 false false).
Proof.
  assert (Ht : exists t u, pg_targets (pi_pinger run_samples.written) !! 0%nat = Some t /\ t_stat t = Some 0%nat /\
    t_icmpID t = 65535 /\ seq16 t = 65535 /\ t_ip t = [10; 0; 0; 2] /\
    sendPayload (pi_pinger run_samples.written) (t_seq t) 5500 = Some samples.payload /\
    w_stats (pi_world run_samples.written) !! 0%nat = Some u /\ bs_buckets (u_bkts u) = ∅)
    by (vm_compute; do 2 eexists; repeat split).
  destruct Ht as (t & u & Ht & Hl & Hid & Hq & Hip & Hpay & Hu & Hempty).
  pose proof (advance_one_ok run_samples.pinger run_samples.world 0 _ 65535 run_samples.pinger_is_ok eq_refl) as Hok.
  destruct (proj1 (ping_reply_overtakes_record (H := Toy.net) run_samples.conf false) run_samples.written 0%nat t 0%nat u
    5500 5500 samples.payload run_samples.echo 6100 6110 (mkWriteAnswer true None))
    as (s1 & s2 & u2 & E1 & E2 & Hu2 & _ & H2).
  - exact Hok.
  - rewrite Hq. reflexivity.
  - exact Ht.
  - exact Hl.
  - exact Hu.
  - exact Hpay.
  - exists [10; 0; 0; 2]. rewrite Hid, Hq, Hip. split_and!; [exact samples.reply_is_echo|discriminate|reflexivity].
  - split; [discriminate|reflexivity].
  - split; [discriminate|reflexivity].
  - reflexivity.
  - split; [discriminate|reflexivity].
  - intros j _. unfold probe. rewrite Hempty, lookup_empty. reflexivity.
  - right. reflexivity.
  - exists s1, s2, u2. destruct (H2 eq_refl) as [H3 H4]. rewrite Hq in H3, H4.
    split_and!; [exact E1|exact E2|exact Hu2|exact H3|exact H4].
Defined.
