(* ===== verification/Enrich.v ===== *)
(** * Hop enrichment ([traceroute/enrich])

    Metadata of hop addresses from pluggable providers: the merge of their
    answers ([enrich.go]), the Team Cymru DNS provider ([cymru.go]) and the
    ipinfo.io provider ([ipinfo.go]). DNS and HTTP are arguments. *)

From S2P Require Import Prelude GoStd GoText GoNet.
Local Open Scope Z_scope.

(** [IPInfo]; a [nil] address is the empty list. *)
Record IPInfo := mkIPInfo {
  info_IP : IP;
  ASN : Z;
  ASName : string;
  Prefix : string;
  Country : string;
  Region : string;
  City : string;
  Org : string
}.

(** ** Merging ([enrich.go]) *)

Definition or_else (dst src : string) : string := if bool_decide (dst = "") then src else dst.

(** [mergeInto]. *)
Definition mergeInto (dst src : IPInfo) : IPInfo :=
  mkIPInfo (if bool_decide (info_IP dst = []) then info_IP src else info_IP dst)
    (if ASN dst =? 0 then ASN src else ASN dst)
    (or_else (ASName dst) (ASName src)) (or_else (Prefix dst) (Prefix src))
    (or_else (Country dst) (Country src)) (or_else (Region dst) (Region src))
    (or_else (City dst) (City src)) (or_else (Org dst) (Org src)).

(** [&IPInfo{IP: info.IP}]. *)
Definition new_info (ip : IP) : IPInfo := mkIPInfo ip 0 "" "" "" "" "" "".

(** One round of the loop over a provider's answers; a [nil] entry is skipped. *)
Definition absorb (merged : gmap string IPInfo) (e : string * option IPInfo) : gmap string IPInfo :=
  match e with
  | (key, Some info) =>
      let dst := default (new_info (info_IP info)) (merged !! key) in
      <[key := mergeInto dst info]> merged
  | (_, None) => merged
  end.

(** A provider's [Lookup]: [None] is an error. *)
Definition Provider : Type := list IP -> option (gmap string (option IPInfo)).

(** [Resolve]: the providers run concurrently, so their answers are merged in
    the order [runs] in which they complete, each in some order of its map. *)
Definition Resolve_over (runs : list (list (string * option IPInfo))) : gmap string IPInfo :=
  foldl (foldl absorb) ∅ runs.

Inductive Resolve (ps : list Provider) (ips : list IP) : gmap string IPInfo -> Prop :=
| Resolve_none : ps = [] \/ ips = [] -> Resolve ps ips ∅
| Resolve_some ms runs :
    ps <> [] -> ips <> [] ->
    ms ≡ₚ omap (fun p => p ips) ps -> Forall2 range_order ms runs ->
    Resolve ps ips (Resolve_over runs).

(** ** Team Cymru ([cymru.go]) *)

Definition cymruZoneOrigin : string := "origin.asn.cymru.com".
Definition cymruZoneOrigin6 : string := "origin6.asn.cymru.com".
Definition cymruZoneAS : string := "asn.cymru.com".

(** [splitPipe]. *)
Definition splitPipe (s : string) : list string := map TrimSpace (Split s "|").

(** [parseOriginTXT]. *)
Definition parseOriginTXT (txt : string) : Z * string :=
  let fields := splitPipe txt in
  match fields with
  | asnField :: prefix :: _ =>
      let asnField := match cut_byte asnField " " with Some (a, _) => a | None => asnField end in
      match ParseUint32 (TrimSpace asnField) with
      | Some n => (n, TrimSpace prefix)
      | None => (0, "")
      end
  | _ => (0, "")
  end.

(** [parseASNameTXT]. *)
Definition parseASNameTXT (txt : string) : string :=
  match last (splitPipe txt) with
  | Some f => TrimSpace f
  | None => ""
  end.

(** [reverseV4]; indexing [nil] panics. *)
Definition reverseV4 (ip : IP) : option string :=
  match To4 ip with
  | Some [a; b; c; d] => Some (itoa d +:+ "." +:+ itoa c +:+ "." +:+ itoa b +:+ "." +:+ itoa a)
  | _ => None
  end.

Definition hex_nibble (d : Z) : string := String (hex_digit d) "".

(** The loop of [reverseV6Nibbles] over the reversed bytes. *)
Fixpoint nibbles (l : bytes) : string :=
  match l with
  | [] => ""
  | b :: l =>
      let lo := Z.land b 15 in
      let hi := Z.shiftr b 4 in
      hex_nibble lo +:+ "." +:+ hex_nibble hi +:+
      (match l with [] => "" | _ => "." +:+ nibbles l end)
  end.

(** [reverseV6Nibbles]. *)
Definition reverseV6Nibbles (ip : IP) : string :=
  match To16 ip with Some v6 => nibbles (reverse v6) | None => "" end.

(** [lookupASName] over the resolver [txt]; [None] is an error. *)
Definition lookupASName (txt : string -> option (list string)) (asn : Z) : string :=
  match txt ("AS" +:+ itoa asn +:+ "." +:+ cymruZoneAS) with
  | Some (t :: _) => parseASNameTXT t
  | _ => ""
  end.

(** [asNameCache.get]: the name and the new cache. *)
Definition cache_get (txt : string -> option (list string)) (asn : Z) (m : gmap Z string) : string * gmap Z string :=
  match m !! asn with
  | Some v => (v, m)
  | None => let name := lookupASName txt asn in (name, <[asn := name]> m)
  end.

(** The DNS name an address is looked up under; [None] is a panic. *)
Definition cymru_name (ip : IP) : option string :=
  match To4 ip with
  | Some v4 => r ← reverseV4 v4; Some (r +:+ "." +:+ cymruZoneOrigin)
  | None => Some (reverseV6Nibbles ip +:+ "." +:+ cymruZoneOrigin6)
  end.

Module cymru.

(** [CymruProvider.lookupOne]; the inner [None] is [nil]. *)
Definition lookupOne (txt : string -> option (list string)) (names : gmap Z string) (ip : IP) :
    option (option IPInfo * gmap Z string) :=
  name ← cymru_name ip;
  match txt name with
  | Some (t :: _) =>
      let '(asn, prefix) := parseOriginTXT t in
      if asn =? 0 then Some (None, names)
      else
        let '(asname, names) := cache_get txt asn names in
        Some (Some (mkIPInfo ip asn asname prefix "" "" "" ""), names)
  | _ => Some (None, names)
  end.

(** [CymruProvider.Lookup]: the goroutines in the order [ips]; every one is
    atomic, as the name cache only saves repeated queries. *)
Fixpoint Lookup_over (txt : string -> option (list string)) (ips : list IP) (names : gmap Z string)
    (out : gmap string (option IPInfo)) : option (gmap string (option IPInfo)) :=
  match ips with
  | [] => Some out
  | ip :: ips =>
      let key := IP_String ip in
      match (match To4 ip with Some v4 => Some v4 | None => if bool_decide (To16 ip = None) then None else Some ip end) with
      | None => Lookup_over txt ips names out
      | Some query =>
          '(info, names) ← lookupOne txt names query;
          Lookup_over txt ips names (match info with Some _ => <[key := info]> out | None => out end)
      end
  end.

Definition Lookup (txt : string -> option (list string)) : Provider := fun ips => Lookup_over txt ips ∅ ∅.

End cymru.

(** ** ipinfo.io ([ipinfo.go]) *)

(** [ipinfoResponse]. *)
Record ipinfoResponse := mkResponse {
  resp_City : string;
  resp_Region : string;
  resp_Country : string;
  resp_Org : string
}.

(** [parseOrg]. *)
Definition parseOrg (org : string) : Z * string * string :=
  let org := TrimSpace org in
  if bool_decide (org = "") then (0, "", "")
  else
    match (if HasPrefix org "AS" then cut_byte (String.substring 2 (String.length org - 2) org) " " else None) with
    | Some (a, b) =>
        match ParseUint32 a with
        | Some n => let name := TrimSpace b in (n, name, name)
        | None => (0, "", org)
        end
    | None => (0, "", org)
    end.

(** [strings.TrimRight(s, "/")]. *)
Fixpoint trim_slashes (l : list ascii) : list ascii :=
  match l with
  | c :: l' => if bool_decide (c = "/"%char) then trim_slashes l' else l
  | [] => []
  end.
Definition TrimRight_slash (s : string) : string :=
  String.string_of_list_ascii (reverse (trim_slashes (reverse (String.list_ascii_of_string s)))).

Module ipinfo.

(** The URL of a request; the text of an address needs no escaping. *)
Definition endpoint (base : string) (ip : IP) : string :=
  TrimRight_slash base +:+ "/" +:+ IP_String ip +:+ "/json".

(** [IPInfoProvider.lookupOne] over the HTTP exchange [fetch], which fails on
    an error, a status other than 200 or a body that does not decode. *)
Definition lookupOne (fetch : string -> option ipinfoResponse) (base : string) (ip : IP) : option IPInfo :=
  r ← fetch (endpoint base ip);
  let '(asn, asname, org) := parseOrg (resp_Org r) in
  Some (mkIPInfo ip asn asname "" (resp_Country r) (resp_Region r) (resp_City r) org).

(** [IPInfoProvider.Lookup]; an empty [BaseURL] is ipinfo.io. *)
Definition Lookup (fetch : string -> option ipinfoResponse) (BaseURL : string) : Provider := fun ips =>
  let base := if bool_decide (BaseURL = "") then "https://ipinfo.io" else BaseURL in
  Some (foldl (fun out ip =>
                 match lookupOne fetch base ip with
                 | Some info => <[IP_String ip := Some info]> out
                 | None => out
                 end) ∅ ips).

End ipinfo.

Example parse_origin :
  parseOriginTXT "15169 | 8.8.8.0/24 | US | arin | 1992-12-01" = (15169, "8.8.8.0/24") /\
  parseOriginTXT "23456 7018 | 12.0.0.0/8 | US | arin | " = (23456, "12.0.0.0/8") /\
  parseOriginTXT "garbage" = (0, "") /\
  parseASNameTXT "15169 | US | arin | 2000-03-30 | GOOGLE, US" = "GOOGLE, US".
Proof. vm_compute. repeat split. Qed.

Example reverse_names :
  (ParseIP "1.2.3.4" ≫= reverseV4) = Some "4.3.2.1" /\
  (reverseV6Nibbles <$> ParseIP "2001:4860:4860::8888") =
    Some "8.8.8.8.0.0.0.0.0.0.0.0.0.0.0.0.0.0.0.0.0.6.8.4.0.6.8.4.1.0.0.2".
Proof. vm_compute. repeat split. Qed.

Example parse_org :
  parseOrg "AS15169 Google LLC" = (15169, "Google LLC", "Google LLC") /\
  parseOrg "Some ISP Without ASN" = (0, "", "Some ISP Without ASN") /\
  ipinfo.endpoint "https://ipinfo.io//" [8; 8; 8; 8] = "https://ipinfo.io/8.8.8.8/json".
Proof. vm_compute. repeat split. Qed.

(** ** Properties of the merge *)

(** What the providers say about one key, in their order. *)
Definition answer (key : string) (m : gmap string (option IPInfo)) : option IPInfo := m !! key ≫= Datatypes.id.
Definition contributions (ps : list Provider) (ips : list IP) (key : string) : list IPInfo :=
  omap (fun p => p ips ≫= answer key) ps.

(** The first known value. *)
Definition first_text (l : list string) : string :=
  default "" (List.find (fun s => negb (bool_decide (s = ""))) l).
Definition first_num (l : list Z) : Z := default 0 (List.find (fun n => negb (n =? 0)) l).

Definition merge_step (o : option IPInfo) (info : IPInfo) : option IPInfo :=
  Some (mergeInto (default (new_info (info_IP info)) o) info).
Definition merge_all (cs : list IPInfo) : option IPInfo := foldl merge_step None cs.

Definition run_infos (key : string) (l : list (string * option IPInfo)) : list IPInfo :=
  omap (fun e => if decide (e.1 = key) then e.2 else None) l.

Lemma foldl_absorb_lookup l m key :
  foldl absorb m l !! key = foldl merge_step (m !! key) (run_infos key l).
Proof.
  revert m. induction l as [|[k [info|]] l IH]; intros m; [done|..]; cbn [foldl absorb]; rewrite IH;
    unfold run_infos; cbn [omap list_omap fst snd]; case_decide as Hk; subst; try done.
  - by rewrite lookup_insert_eq.
  - by rewrite lookup_insert_ne.
Qed.

Lemma run_infos_list_to_map l key :
  NoDup l.*1 -> run_infos key l = option_list (answer key (list_to_map l)).
Proof.
  unfold answer. induction l as [|[k v] l IH]; [done|]. intros [Hk Hl]%NoDup_cons.
  unfold run_infos in *. cbn [omap list_omap fst snd list_to_map foldr uncurry].
  case_decide as Hd; subst.
  - rewrite lookup_insert_eq. cbn [mbind option_bind]. rewrite IH by done.
    rewrite (not_elem_of_list_to_map_1 l key Hk). by destruct v.
  - rewrite lookup_insert_ne by done. by apply IH.
Qed.

Lemma run_infos_range m l key : range_order m l -> run_infos key l = option_list (answer key m).
Proof.
  intros H. assert (Hnd : NoDup l.*1) by (rewrite H; apply NoDup_fst_map_to_list).
  rewrite run_infos_list_to_map by done. do 2 f_equal.
  rewrite <- (list_to_map_to_list m). by apply list_to_map_proper.
Qed.

Lemma Resolve_over_lookup runs key :
  Resolve_over runs !! key = merge_all (concat (map (run_infos key) runs)).
Proof.
  unfold Resolve_over, merge_all. rewrite <- (lookup_empty key).
  generalize (∅ : gmap string IPInfo). induction runs as [|r runs IH]; intros m; [done|].
  cbn [foldl map concat]. rewrite IH, foldl_app. f_equal. apply foldl_absorb_lookup.
Qed.

Lemma Resolve_lookup ps ips m key :
  Resolve ps ips m -> ps <> [] -> ips <> [] ->
  exists cs, cs ≡ₚ contributions ps ips key /\ m !! key = merge_all cs.
Proof.
  intros [[?|?]|ms runs _ _ Hms Hruns] Hp Hi; [done..|].
  exists (concat (map (run_infos key) runs)). split; [|apply Resolve_over_lookup].
  assert (concat (map (run_infos key) runs) = omap (answer key) ms) as ->.
  { clear Hms. induction Hruns as [|m0 r ms runs Hr _ IH]; [done|]. cbn [map concat omap list_omap].
    rewrite (run_infos_range _ _ _ Hr), IH. by destruct (answer key m0). }
  rewrite Hms. unfold contributions. clear. induction ps as [|p ps IH]; [done|].
  cbn [omap list_omap]. destruct (p ips) as [m0|]; cbn [mbind option_bind omap list_omap]; [|done].
  destruct (answer key m0); [by rewrite IH|done].
Qed.

(** A text field of the merge is the first one known. *)
Lemma merge_text (f : IPInfo -> string) cs d :
  (forall a b, f (mergeInto a b) = or_else (f a) (f b)) ->
  f <$> foldl merge_step (Some d) cs = Some (first_text (f d :: map f cs)).
Proof.
  intros Hf. revert d. induction cs as [|c cs IH]; intros d.
  - cbn. unfold first_text. cbn. by case_bool_decide as E; cbn; [rewrite E|].
  - change (foldl merge_step (Some d) (c :: cs)) with (foldl merge_step (Some (mergeInto d c)) cs).
    rewrite IH, Hf. cbn [map]. unfold or_else, first_text. cbn [List.find].
    by destruct (bool_decide (f d = "")) eqn:E; cbn [negb List.find]; rewrite ?E.
Qed.

Lemma merge_num (f : IPInfo -> Z) cs d :
  (forall a b, f (mergeInto a b) = if f a =? 0 then f b else f a) ->
  f <$> foldl merge_step (Some d) cs = Some (first_num (f d :: map f cs)).
Proof.
  intros Hf. revert d. induction cs as [|c cs IH]; intros d.
  - cbn. unfold first_num. cbn. destruct (Z.eqb_spec (f d) 0) as [E|E]; cbn; [by rewrite E|done].
  - change (foldl merge_step (Some d) (c :: cs)) with (foldl merge_step (Some (mergeInto d c)) cs).
    rewrite IH, Hf. cbn [map]. unfold first_num. cbn [List.find].
    by destruct (f d =? 0) eqn:E; cbn [negb]; rewrite ?E.
Qed.

Lemma merge_all_cons c cs :
  merge_all (c :: cs) = foldl merge_step (Some (mergeInto (new_info (info_IP c)) c)) cs.
Proof. done. Qed.

Lemma merge_all_text (f : IPInfo -> string) cs :
  (forall a b, f (mergeInto a b) = or_else (f a) (f b)) -> (forall ip, f (new_info ip) = "") -> cs <> [] ->
  f <$> merge_all cs = Some (first_text (map f cs)).
Proof.
  intros Hf Hn. destruct cs as [|c cs]; [done|]. intros _.
  rewrite merge_all_cons, merge_text by done. cbn [map]. rewrite Hf, Hn. unfold or_else. done.
Qed.

(** The merge: for every address the result holds, field by field, the
    first known value among the answers of the providers in the order in which
    they {e completed}, and nothing when no provider answered. So the value of
    a field two providers know depends on which of them is faster. *)
Theorem enrich_first_answer_wins :
  forall ps ips m key,
    Resolve ps ips m -> ps <> [] -> ips <> [] ->
    exists cs, cs ≡ₚ contributions ps ips key /\ (m !! key = None <-> cs = []) /\
      forall info, m !! key = Some info ->
        ASN info = first_num (map ASN cs) /\ ASName info = first_text (map ASName cs) /\
        Prefix info = first_text (map Prefix cs) /\ Country info = first_text (map Country cs) /\
        Region info = first_text (map Region cs) /\ City info = first_text (map City cs) /\
        Org info = first_text (map Org cs).
Proof.
  intros ps ips m key H Hp Hi. destruct (Resolve_lookup _ _ _ key H Hp Hi) as (cs & Hcs & Em).
  exists cs. split_and!; [done| |].
  - rewrite Em. destruct cs as [|c cs]; [done|]. split; [|done].
    intros E. pose proof (merge_num ASN cs (mergeInto (new_info (info_IP c)) c) ltac:(done)) as Ht.
    rewrite <- merge_all_cons, E in Ht. discriminate Ht.
  - intros info Hm. rewrite Hm in Em. symmetry in Em.
    assert (Hne : cs <> []) by (intros ->; discriminate Em).
    split_and!.
    { destruct cs as [|c cs]; [done|].
      pose proof (merge_num ASN cs (mergeInto (new_info (info_IP c)) c) ltac:(done)) as Ht.
      rewrite <- merge_all_cons, Em in Ht. injection Ht as ->. cbn [map]. done. }
    all: match goal with |- ?f ?i = _ => pose proof (merge_all_text f cs ltac:(done) ltac:(done) Hne) as Ht end.
    all: rewrite Em in Ht; by injection Ht.
Qed.

Definition stub (key : string) (info : IPInfo) : Provider := fun _ => Some {[ key := Some info ]}.
Definition stub_a : IPInfo := mkIPInfo [8; 8; 8; 8] 15169 "GOOGLE, US" "8.8.8.0/24" "" "" "" "".
Definition stub_b : IPInfo := mkIPInfo [8; 8; 8; 8] 65000 "Google LLC" "" "US" "" "Mountain View" "Google LLC".

Definition stub_merge (a b : IPInfo) : gmap string IPInfo := Resolve_over [[("8.8.8.8", Some a)]; [("8.8.8.8", Some b)]].

(** The two completion orders of two providers that both know the ASN. *)
Lemma Resolve_order_matters :
  Resolve [stub "8.8.8.8" stub_a; stub "8.8.8.8" stub_b] [[8; 8; 8; 8]] (stub_merge stub_a stub_b) /\
  Resolve [stub "8.8.8.8" stub_a; stub "8.8.8.8" stub_b] [[8; 8; 8; 8]] (stub_merge stub_b stub_a) /\
  (ASN <$> (stub_merge stub_a stub_b !! "8.8.8.8")) = Some 15169 /\
  (ASN <$> (stub_merge stub_b stub_a !! "8.8.8.8")) = Some 65000.
Proof.
  assert (Hr : forall i : IPInfo, range_order ({[ "8.8.8.8" := Some i ]} : gmap string (option IPInfo)) [("8.8.8.8", Some i)])
    by (intros i; unfold range_order; by rewrite map_to_list_singleton).
  assert (Hrs : forall a b : IPInfo, Forall2 range_order
            [{[ "8.8.8.8" := Some a ]}; {[ "8.8.8.8" := Some b ]}] [[("8.8.8.8", Some a)]; [("8.8.8.8", Some b)]])
    by (intros a b; apply Forall2_cons; split; [apply Hr|]; apply Forall2_cons; split; [apply Hr|]; by apply Forall2_nil).
  split_and!; [| |done..].
  - eapply (Resolve_some _ _ _ _); [done|done| |apply Hrs]. reflexivity.
  - eapply (Resolve_some _ _ _ _); [done|done| |apply Hrs]. apply perm_swap.
Qed.

Lemma enrich_first_answer_wins_witness :
  exists cs, cs ≡ₚ [stub_a; stub_b] /\ (stub_merge stub_b stub_a !! "8.8.8.8" = None <-> cs = []) /\
    ASN stub_b = first_num (map ASN cs) /\ "8.8.8.0/24" = first_text (map Prefix cs).
Proof.
  destruct (enrich_first_answer_wins [stub "8.8.8.8" stub_a; stub "8.8.8.8" stub_b] [[8; 8; 8; 8]]
    (stub_merge stub_b stub_a) "8.8.8.8" (proj1 (proj2 Resolve_order_matters)) ltac:(discriminate) ltac:(discriminate))
    as (cs & H1 & H2 & H3).
  exists cs. split; [exact H1|]. split; [exact H2|].
  destruct (H3 (mergeInto (mergeInto (new_info [8; 8; 8; 8]) stub_b) stub_a) eq_refl) as (Ha & _ & Hp & _).
  split; [exact Ha|exact Hp].
Defined.
