(* ===== verification/TraceConfig.v ===== *)
(** * Configuration of the traceroute tools ([traceroute/config.go],
      [traceroute6/config.go])

    The packages differ in the address family, in two field names (the hop
    limit and the traffic class of [traceroute6] are [MaxHops] and [TOS] here)
    and in the layers of their packets: that is the class [TraceFamily]. *)

From S2P Require Import Prelude GoStd GoNet GoDuration Enrich Goscapy.
Local Open Scope Z_scope.

(** [Protocol]. *)
Inductive Protocol :=
| ProtoICMP
| ProtoUDP
| ProtoTCP.

#[export] Instance Protocol_eq_dec : EqDecision Protocol.
Proof. solve_decision. Defined.

(** What the tools do differently. *)
Class TraceFamily := {
  (** The name of [ProtoICMP], and the spellings [ParseProtocol] accepts. *)
  icmp_name : string;
  icmp_spellings : list string;
  (** The addresses [Validate] refuses, and an address as [Run] parses it,
      [nil] if it is not of the family. *)
  bad_addr : string -> bool;
  parse_addr : string -> IP;
  (** A local address, and the source the kernel chose, as [localEndpoint]
      and [outboundIP] accept them. *)
  local_addr : string -> IP;
  outbound_ok : IP -> option IP;
  (** The layers, and the ICMP types of an echo reply, of destination
      unreachable and of time exceeded. *)
  ip_layer : string;
  icmp_layer : string;
  type_echo_reply : Z;
  type_unreach : Z;
  type_exceed : Z
}.

Section protocol.
Context `{TraceFamily}.

(** [Protocol.String]. *)
Definition Protocol_String (p : Protocol) : string :=
  match p with
  | ProtoUDP => "UDP"
  | ProtoTCP => "TCP"
  | ProtoICMP => icmp_name
  end.

(** [ParseProtocol]; [None] is the error. *)
Definition ParseProtocol (s : string) : option Protocol :=
  if bool_decide (s ∈ icmp_spellings) then Some ProtoICMP
  else if bool_decide (s ∈ ["udp"; "UDP"]) then Some ProtoUDP
  else if bool_decide (s ∈ ["tcp"; "TCP"]) then Some ProtoTCP
  else None.

End protocol.

(** [Config]. *)
Record Config := mkConfig {
  Targets : list string;
  LocalAddr : string;
  Interface : string;
  Proto : Protocol;
  MaxHops : Z;
  Queries : Z;
  Port : Z;
  Timeout : Z;
  TOS : Z;
  SrcPort : Z;
  FixedDstPort : bool;
  SrcIP : string;
  DstIP : string;
  Parallel : Z;
  ResolveDNS : bool;
  Providers : list Provider
}.

Inductive error :=
| ErrNoTarget
| ErrMaxHops (n : Z)
| ErrQueries (n : Z)
| ErrTimeout (d : Z)
| ErrParallel (n : Z)
| ErrPort (p : Protocol)
| ErrSrcIP (a : string)
| ErrDstIP (a : string)
| ErrPortOptions.

(** [DefaultConfig]. *)
Definition DefaultConfig : Config :=
  mkConfig [] "" "" ProtoICMP 30 3 33434 Second 0 0 false "" "" 16 true [].

Section validate.
Context `{TraceFamily}.

(** [Config.Validate]. *)
Definition Validate (c : Config) : option error :=
  if (length (Targets c) =? 0)%nat then Some ErrNoTarget
  else if (MaxHops c <? 1) || (255 <? MaxHops c) then Some (ErrMaxHops (MaxHops c))
  else if Queries c <? 1 then Some (ErrQueries (Queries c))
  else if Timeout c <=? 0 then Some (ErrTimeout (Timeout c))
  else if Parallel c <? 1 then Some (ErrParallel (Parallel c))
  else if (bool_decide (Proto c = ProtoTCP) || bool_decide (Proto c = ProtoUDP)) && (Port c =? 0)
  then Some (ErrPort (Proto c))
  else if negb (bool_decide (SrcIP c = "")) && bad_addr (SrcIP c) then Some (ErrSrcIP (SrcIP c))
  else if negb (bool_decide (DstIP c = "")) && bad_addr (DstIP c) then Some (ErrDstIP (DstIP c))
  else if bool_decide (Proto c = ProtoICMP) && (negb (SrcPort c =? 0) || FixedDstPort c)
  then Some ErrPortOptions
  else None.

End validate.

(** ** The instances *)

Module traceroute_config.

#[export] Instance family : TraceFamily := {|
  icmp_name := "ICMP";
  icmp_spellings := ["icmp"; "ICMP"; ""];
  bad_addr := not_ipv4;
  parse_addr := fun s => To4_or_nil (ParseIP_or_nil s);
  local_addr := fun s => To4_or_nil (ParseIP_or_nil s);
  outbound_ok := To4;
  ip_layer := "IP";
  icmp_layer := "ICMP";
  type_echo_reply := 0;
  type_unreach := 3;
  type_exceed := 11
|}.

Definition Protocol_String := TraceConfig.Protocol_String (H := family).
Definition ParseProtocol := TraceConfig.ParseProtocol (H := family).
Definition Validate := TraceConfig.Validate (H := family).

End traceroute_config.

Module traceroute6_config.

(** [isIPv6]. *)
Definition isIPv6 (s : string) : bool :=
  match ParseIP s with
  | Some ip => bool_decide (To4 ip = None) && bool_decide (To16 ip <> None)
  | None => false
  end.

(** [parseV6] of [tracer.go]; [nil] is the empty list. *)
Definition parseV6 (s : string) : IP :=
  match ParseIP s with
  | None => []
  | Some ip => if bool_decide (To4 ip <> None) || bool_decide (To16 ip = None) then [] else default [] (To16 ip)
  end.

#[export] Instance family : TraceFamily := {|
  icmp_name := "ICMPv6";
  icmp_spellings := ["icmp"; "ICMP"; "icmp6"; "ICMP6"; "icmpv6"; "ICMPv6"; ""];
  bad_addr := fun s => negb (isIPv6 s);
  parse_addr := parseV6;
  local_addr := fun s => if isIPv6 s then ParseIP_or_nil s else [];
  outbound_ok := fun ip => if bool_decide (ip <> []) && bool_decide (To16 ip <> None) then Some ip else None;
  ip_layer := "IPv6";
  icmp_layer := "ICMPv6";
  type_echo_reply := ICMPv6EchoReply;
  type_unreach := ICMPv6DestUnreach;
  type_exceed := ICMPv6TimeExceed
|}.

(** [HopLimit] and [TrafficClass] are the fields [MaxHops] and [TOS]. *)
Definition Protocol := Protocol.
Definition Config := Config.
Definition DefaultConfig := DefaultConfig.
Definition Protocol_String := TraceConfig.Protocol_String (H := family).
Definition ParseProtocol := TraceConfig.ParseProtocol (H := family).
Definition Validate := TraceConfig.Validate (H := family).

End traceroute6_config.

(** ** Properties *)

(** What a tracer relies on. *)
Record config_ok `{TraceFamily} (c : Config) : Prop := {
  ok_targets : Targets c <> [];
  ok_hops : 1 <= MaxHops c <= 255;
  ok_queries : 1 <= Queries c;
  ok_timeout : 0 < Timeout c;
  ok_parallel : 1 <= Parallel c;
  ok_port : Proto c <> ProtoICMP -> Port c <> 0;
  ok_src : SrcIP c <> "" -> bad_addr (SrcIP c) = false;
  ok_dst : DstIP c <> "" -> bad_addr (DstIP c) = false;
  ok_icmp : Proto c = ProtoICMP -> SrcPort c = 0 /\ FixedDstPort c = false
}.

(** [Validate] accepts exactly these configurations. *)
Lemma trace_Validate_spec `{TraceFamily} c : Validate c = None <-> config_ok c.
Proof.
  unfold Validate. destruct (Targets c) eqn:Et; cbn [length Nat.eqb].
  { split; [done|]. intros []. done. }
  split.
  - repeat (match goal with |- (if ?b then _ else _) = _ -> _ => destruct b eqn:? end; [done|]). intros _. bools.
    repeat match goal with H : _ && _ = false |- _ => apply andb_false_iff in H end.
    split; try done; try lia; try congruence.
    + intros Hp. destruct (Proto c); [done|..]; naive_solver (bools; try lia; done).
    + intros Hs. match goal with H : _ \/ bad_addr (SrcIP c) = false |- _ => destruct H; [by bools|done] end.
    + intros Hs. match goal with H : _ \/ bad_addr (DstIP c) = false |- _ => destruct H; [by bools|done] end.
    + intros Hp. match goal with H : bool_decide (Proto c = ProtoICMP) = false \/ _ |- _ => destruct H; by bools end.
  - intros [_ Hh Hq Ht Hpl Hp Hs Hd Hi].
    rewrite (proj2 (Z.ltb_ge _ _)), (proj2 (Z.ltb_ge 255 _)), (proj2 (Z.ltb_ge (Queries c) _)),
      (proj2 (Z.leb_gt _ _)), (proj2 (Z.ltb_ge (Parallel c) _)) by lia. cbn [orb].
    assert ((bool_decide (Proto c = ProtoTCP) || bool_decide (Proto c = ProtoUDP)) && (Port c =? 0) = false) as ->.
    { destruct (Proto c); [done|..]; cbn; by apply Z.eqb_neq, Hp. }
    case_bool_decide as E1; cbn [negb andb]; [|rewrite (Hs E1)];
      (case_bool_decide as E2; cbn [negb andb]; [|rewrite (Hd E2)]);
      (case_bool_decide as E3; cbn [negb andb]; [|done]); destruct (Hi E3) as [-> ->]; done.
Qed.

(** An address that passes [Validate] is one [Run] accepts. *)
Lemma parse_addr_ok4 s : traceroute_config.family.(bad_addr) s = false -> traceroute_config.family.(parse_addr) s <> [].
Proof.
  intros (ip & Hp & ip4 & H4)%not_ipv4_false. cbn. unfold ParseIP_or_nil, To4_or_nil. rewrite Hp. cbn. rewrite H4.
  apply To4_length in H4. by destruct ip4.
Qed.

Lemma To16_length ip ip16 : To16 ip = Some ip16 -> length ip16 = 16%nat.
Proof.
  unfold To16. destruct (Nat.eqb_spec (length ip) IPv4len) as [H|_]; [intros [= <-]; cbn; rewrite H; done|].
  destruct (Nat.eqb_spec (length ip) IPv6len) as [H|_]; [by intros [= <-]|done].
Qed.

Lemma parse_addr_ok6 s : traceroute6_config.family.(bad_addr) s = false -> traceroute6_config.family.(parse_addr) s <> [].
Proof.
  cbn. unfold traceroute6_config.isIPv6, traceroute6_config.parseV6. intros H. bools.
  destruct (ParseIP s) as [ip|]; [|done]. bools. destruct (To16 ip) as [ip16|] eqn:E; [|done].
  rewrite bool_decide_eq_false_2, bool_decide_eq_false_2 by (done || congruence). cbn.
  apply To16_length in E. by destruct ip16.
Qed.

Example ParseProtocol_spellings :
  traceroute_config.ParseProtocol "" = Some ProtoICMP /\ traceroute_config.ParseProtocol "icmp6" = None /\
  traceroute6_config.ParseProtocol "icmp6" = Some ProtoICMP /\ traceroute_config.ParseProtocol "TCP" = Some ProtoTCP /\
  traceroute_config.ParseProtocol "Udp" = None.
Proof. vm_compute. repeat split. Qed.
