(* ===== verification/Hop.v ===== *)
(** * Hops of a traceroute ([traceroute/hop.go], [traceroute6/hop.go])

    The result of a probe, the hop that collects the probes of one TTL with its
    aggregates, the responder list, the classification of a reply, and the
    passes that annotate hops with names and metadata. The two packages differ
    in the layers and ICMP types of [extractReply] only ([TraceFamily]). *)

From S2P Require Import Prelude GoStd GoNet Enrich Goscapy TraceConfig.
From stdpp Require Import sorting.
Local Open Scope Z_scope.

(** [ProbeResult]. *)
Record ProbeResult := mkProbeResult {
  FromIP : IP;
  RTT : Z;
  ReachedDst : bool;
  TimedOut : bool
}.

(** [Hop]. *)
Record Hop := mkHop {
  TTL : Z;
  Probes : list ProbeResult;
  Addrs : list IP;
  Hosts : list string;
  Infos : list (option IPInfo)
}.

(** [Result]. *)
Record Result := mkResult {
  Dst : string;
  DstAddr : IP;
  ResProto : Protocol;
  ResMaxHops : Z;
  Hops : list Hop;
  ResReached : bool
}.

Module Hop.

Definition replied (p : ProbeResult) : bool := negb (TimedOut p).

(** [Hop.sortedRTTs]. *)
Definition sortedRTTs (h : Hop) : list Z := merge_sort Z.le (map RTT (List.filter replied (Probes h))).

(** [Hop.Received]. *)
Definition Received (h : Hop) : Z :=
  foldl (fun n p => if replied p then n + 1 else n) 0 (Probes h).

(** [Hop.LossRate]. *)
Definition LossRate (h : Hop) : float64 :=
  if (length (Probes h) =? 0)%nat then float64_zero
  else
    let lost := Z.of_nat (length (Probes h)) - Received h in
    float64_div (float64_of_int lost) (float64_of_int (Z.of_nat (length (Probes h)))).

(** [Hop.MinRTT], [MaxRTT] and [AvgRTT]; the sum is an [int64]. *)
Definition MinRTT (h : Hop) : Z := match sortedRTTs h with [] => 0 | r :: _ => r end.
Definition MaxRTT (h : Hop) : Z := List.last (sortedRTTs h) 0.
Definition AvgRTT (h : Hop) : Z :=
  let rtts := sortedRTTs h in
  if (length rtts =? 0)%nat then 0
  else
    let sum := foldl (fun s r => i64 (s + r)) 0 rtts in
    i64 (Z.quot sum (Z.of_nat (length rtts))).

(** [Hop.Reached]. *)
Definition Reached (h : Hop) : bool := existsb ReachedDst (Probes h).

(** [Hop.addAddr]. *)
Definition addAddr (ip : IP) (h : Hop) : Hop :=
  if existsb (fun a => Equal a ip) (Addrs h) then h
  else mkHop (TTL h) (Probes h) (Addrs h ++ [ip]) (Hosts h ++ [""]) (Infos h ++ [None]).

Definition set_hosts (l : list string) (h : Hop) : Hop := mkHop (TTL h) (Probes h) (Addrs h) l (Infos h).
Definition set_infos (l : list (option IPInfo)) (h : Hop) : Hop := mkHop (TTL h) (Probes h) (Addrs h) (Hosts h) l.
Definition add_probe (p : ProbeResult) (h : Hop) : Hop :=
  mkHop (TTL h) (Probes h ++ [p]) (Addrs h) (Hosts h) (Infos h).

End Hop.

Definition set_hops (l : list Hop) (r : Result) : Result :=
  mkResult (Dst r) (DstAddr r) (ResProto r) (ResMaxHops r) l (ResReached r).

(** Every responder of every hop of every result, in order. *)
Definition all_addrs (results : list Result) : list IP :=
  concat (map (fun r => concat (map Addrs (Hops r))) results).

(** [r.Hops[hi].Hosts[ai] = f(addr)] for every responder, and the same for
    [Infos]; a slice shorter than [Addrs] panics. *)
Definition assign {A} (f : IP -> A) (addrs : list IP) (l : list A) : option (list A) :=
  if (length addrs <=? length l)%nat then Some (map f addrs ++ drop (length addrs) l) else None.

Definition update_hops (f : Hop -> option Hop) (results : list Result) : option (list Result) :=
  mapM (fun r => hs ← mapM f (Hops r); Some (set_hops hs r)) results.

(** [resolveHosts] over the reverse lookup [LookupAddr]: each name is looked up
    once, by the goroutine that first marks it; [order] is the order in which
    the goroutines pass the mark. *)
Definition cache_name (LookupAddr : string -> option (list string)) (cache : gmap string string) (ip : IP) :
    gmap string string :=
  let key := IP_String ip in
  match cache !! key with
  | Some _ => cache
  | None => <[key := match LookupAddr key with Some (n :: _) => n | _ => "" end]> cache
  end.

Definition resolveHosts (LookupAddr : string -> option (list string)) (order : list IP) (results : list Result) :
    option (list Result) :=
  let cache := foldl (cache_name LookupAddr) ∅ order in
  update_hops (fun h => hosts ← assign (fun ip => default "" (cache !! IP_String ip)) (Addrs h) (Hosts h);
                        Some (Hop.set_hosts hosts h)) results.

(** The distinct addresses [enrichHops] hands to the providers. *)
Fixpoint distinct_ips (seen : gset string) (ips : list IP) : list IP :=
  match ips with
  | [] => []
  | ip :: ips =>
      let key := IP_String ip in
      if bool_decide (key ∈ seen) then distinct_ips seen ips
      else ip :: distinct_ips ({[key]} ∪ seen) ips
  end.

(** [enrichHops], with the merged answers of the providers for an address
    list, [Resolve], as an argument. *)
Definition enrichHops (resolve : list IP -> gmap string IPInfo) (providers : list Provider) (results : list Result) :
    option (list Result) :=
  if (length providers =? 0)%nat then Some results
  else
    let ips := distinct_ips ∅ (all_addrs results) in
    if (length ips =? 0)%nat then Some results
    else
      let infos := resolve ips in
      update_hops (fun h => l ← assign (fun ip => infos !! IP_String ip) (Addrs h) (Infos h);
                            Some (Hop.set_infos l h)) results.

Section reply.
Context `{HG : Goscapy} `{HF : TraceFamily}.

(** [extractReply]. *)
Definition extractReply (proto : Protocol) (resp : Packet) : IP * bool :=
  let from := match GetLayer resp ip_layer with
              | Some ipLayer => let '(v, ok) := Get ipLayer "src" in if ok then as_ip v else []
              | None => []
              end in
  let reached :=
    match GetLayer resp icmp_layer with
    | Some icmp =>
        let '(v, ok) := Get icmp "type" in
        match (if ok then as_uint8 v else None) with
        | Some t => (t =? type_echo_reply) || ((t =? type_unreach) && bool_decide (proto = ProtoUDP))
        | None => false
        end
    | None => false
    end in
  let reached :=
    if bool_decide (proto = ProtoTCP) then
      match GetLayer resp "TCP" with
      | Some tcp =>
          let '(v, ok) := Get tcp "flags" in
          match (if ok then as_uint8 v else None) with
          | Some flags => if negb (Z.land flags TCPSyn =? 0) || negb (Z.land flags TCPRst =? 0) then true else reached
          | None => reached
          end
      | None => reached
      end
    else reached in
  (from, reached).

End reply.

(** [traceroute6/hop.go] repeats this file over its own layers. *)
Module traceroute6_hop.

Definition ProbeResult := ProbeResult.
Definition Hop := Hop.
Definition Result := Result.
Definition sortedRTTs := Hop.sortedRTTs.
Definition Received := Hop.Received.
Definition LossRate := Hop.LossRate.
Definition MinRTT := Hop.MinRTT.
Definition MaxRTT := Hop.MaxRTT.
Definition AvgRTT := Hop.AvgRTT.
Definition Reached := Hop.Reached.
Definition addAddr := Hop.addAddr.
Definition extractReply `{HG : Goscapy} := extractReply (HG := HG) (HF := traceroute6_config.family).
Definition resolveHosts := resolveHosts.
Definition enrichHops := enrichHops.

End traceroute6_hop.

(** ** Aggregates *)

Lemma Received_filter_from n l :
  foldl (fun n p => if Hop.replied p then n + 1 else n) n l = n + Z.of_nat (length (List.filter Hop.replied l)).
Proof.
  revert n. induction l as [|p l IH]; intros n; cbn [foldl List.filter length]; [lia|].
  rewrite IH. destruct (Hop.replied p); cbn [length]; lia.
Qed.

Lemma Received_filter h : Hop.Received h = Z.of_nat (length (List.filter Hop.replied (Probes h))).
Proof. unfold Hop.Received. by rewrite Received_filter_from. Qed.

Lemma sortedRTTs_perm h : Hop.sortedRTTs h ≡ₚ map RTT (List.filter Hop.replied (Probes h)).
Proof. apply merge_sort_Permutation. Qed.

Lemma sortedRTTs_sorted h : StronglySorted Z.le (Hop.sortedRTTs h).
Proof. apply (StronglySorted_merge_sort Z.le); apply _. Qed.

Lemma filter_perm {A} (f : A -> bool) (l l' : list A) : l ≡ₚ l' -> List.filter f l ≡ₚ List.filter f l'.
Proof.
  induction 1 as [|x l l' _ IH|x y l|l l' l'' _ IH1 _ IH2]; cbn [List.filter]; [done| | |by etrans].
  - destruct (f x); by rewrite ?IH.
  - destruct (f x), (f y); try done. apply perm_swap.
Qed.

(** The order in which probes return does not matter: the sorted list is the
    same for every order. *)
Lemma sortedRTTs_order h h' : Probes h ≡ₚ Probes h' -> Hop.sortedRTTs h = Hop.sortedRTTs h'.
Proof.
  intros H. apply (StronglySorted_unique Z.le); [apply sortedRTTs_sorted..|].
  rewrite !sortedRTTs_perm. by apply Permutation_map, filter_perm.
Qed.

(** The replied RTTs. *)
Definition rtts (h : Hop) : list Z := map RTT (List.filter Hop.replied (Probes h)).

Lemma sortedRTTs_length h : length (Hop.sortedRTTs h) = length (rtts h).
Proof. by rewrite sortedRTTs_perm. Qed.

Lemma last_max l d : StronglySorted Z.le l -> l <> [] -> List.last l d ∈ l /\ Forall (fun r => r <= List.last l d) l.
Proof.
  induction 1 as [|x l Hl IH Hx]; [done|]. intros _. destruct l as [|y l].
  { cbn. split; [by left|repeat constructor; lia]. }
  destruct IH as [H1 H2]; [done|]. change (List.last (x :: y :: l) d) with (List.last (y :: l) d).
  split; [by right|]. constructor; [|done]. rewrite Forall_forall in Hx. by apply Hx.
Qed.

(** The [int64] sum, as long as it does not wrap. *)
Lemma sum_bounds l lo hi s :
  Forall (fun r => lo <= r <= hi) l ->
  s + Z.of_nat (length l) * lo <= foldl Z.add s l <= s + Z.of_nat (length l) * hi.
Proof.
  intros H. revert s. induction H as [|r l Hr _ IH]; intros s; cbn [foldl length]; [lia|].
  specialize (IH (s + r)). nia.
Qed.

Lemma sum_perm l l' s : l ≡ₚ l' -> foldl Z.add s l = foldl Z.add s l'.
Proof.
  intros H. revert s. induction H as [|x l l' _ IH|x y l|l l' l'' _ IH1 _ IH2]; intros s; cbn [foldl]; auto.
  - f_equal. lia.
  - by rewrite IH1.
Qed.

Lemma sum_i64 l hi s :
  Forall (fun r => 0 <= r <= hi) l -> 0 <= s -> s + Z.of_nat (length l) * hi < 2 ^ 63 ->
  foldl (fun s r => i64 (s + r)) s l = foldl Z.add s l.
Proof.
  intros H. revert s. induction H as [|r l Hr _ IH]; intros s Hs Hb; cbn [foldl length] in *; [done|].
  rewrite i64_small by (unfold in_i64; nia). apply IH; nia.
Qed.

Lemma MinRTT_spec h : rtts h <> [] -> Hop.MinRTT h ∈ rtts h /\ Forall (fun r => Hop.MinRTT h <= r) (rtts h).
Proof.
  intros Hne. unfold Hop.MinRTT. pose proof (sortedRTTs_perm h) as Hp. fold (rtts h) in Hp.
  pose proof (sortedRTTs_sorted h) as Hs. destruct (Hop.sortedRTTs h) as [|m l].
  { by apply Permutation_nil_l in Hp. }
  apply StronglySorted_inv in Hs as [_ Hm]. split; [rewrite <- Hp; by left|].
  rewrite <- Hp. constructor; [lia|done].
Qed.

Lemma MaxRTT_spec h : rtts h <> [] -> Hop.MaxRTT h ∈ rtts h /\ Forall (fun r => r <= Hop.MaxRTT h) (rtts h).
Proof.
  intros Hne. unfold Hop.MaxRTT. pose proof (sortedRTTs_perm h) as Hp. fold (rtts h) in Hp.
  assert (Hop.sortedRTTs h <> []) as Hn by (intros E; rewrite E in Hp; by apply Permutation_nil_l in Hp).
  destruct (last_max _ 0 (sortedRTTs_sorted h) Hn) as [H1 H2]. revert H1 H2.
  generalize (List.last (Hop.sortedRTTs h) 0) as m. intros m H1 H2. by rewrite Hp in H1, H2.
Qed.

Lemma AvgRTT_spec h :
  rtts h <> [] -> Forall (fun r => 0 <= r) (rtts h) -> Z.of_nat (length (rtts h)) * Hop.MaxRTT h < 2 ^ 63 ->
  Hop.AvgRTT h = foldl Z.add 0 (rtts h) / Z.of_nat (length (rtts h)) /\
  Hop.MinRTT h <= Hop.AvgRTT h <= Hop.MaxRTT h.
Proof.
  intros Hne Hpos Hb. destruct (MinRTT_spec h Hne) as [Hmin Hle], (MaxRTT_spec h Hne) as [Hmax Hge].
  rewrite Forall_forall in Hpos, Hle, Hge.
  assert (Hn : 0 < Z.of_nat (length (rtts h))) by (destruct (rtts h); [done|cbn; lia]).
  assert (Hall : Forall (fun r => Hop.MinRTT h <= r <= Hop.MaxRTT h) (rtts h))
    by (apply Forall_forall; intros r Hr; split; [by apply Hle|by apply Hge]).
  pose proof (sum_bounds _ _ _ 0 Hall) as Hsum. pose proof (Hpos _ Hmin) as Hmin0.
  unfold Hop.AvgRTT. rewrite sortedRTTs_length, (proj2 (Nat.eqb_neq _ _)) by lia.
  rewrite (sum_i64 _ (Hop.MaxRTT h) 0).
  2: { rewrite sortedRTTs_perm. apply Forall_forall. intros r Hr. split; [by apply Hpos|by apply Hge]. }
  2: lia. 2: { rewrite sortedRTTs_length. lia. }
  assert (foldl Z.add 0 (Hop.sortedRTTs h) = foldl Z.add 0 (rtts h)) as ->.
  { apply sum_perm, sortedRTTs_perm. }
  set (sum := foldl Z.add 0 (rtts h)) in *. set (n := Z.of_nat (length (rtts h))) in *.
  assert (0 <= sum) by nia. rewrite Z.quot_div_nonneg by lia.
  assert (Hop.MinRTT h <= sum / n <= Hop.MaxRTT h) as Hq.
  { split; [apply Z.div_le_lower_bound; nia|apply Z.div_le_upper_bound; nia]. }
  rewrite i64_small; [done|]. unfold in_i64. split; [lia|].
  assert (Hop.MaxRTT h <= n * Hop.MaxRTT h) by (pose proof (Hpos _ Hmax); nia). lia.
Qed.

(** The aggregates of a hop do not depend on the order in which its probes
    were answered: hops with the same probes in another order have the same
    counts, loss rate, minimum, average and maximum. *)
Theorem hop_order_irrelevant :
  forall h h',
    Probes h ≡ₚ Probes h' ->
    Hop.sortedRTTs h = Hop.sortedRTTs h' /\ Hop.Received h = Hop.Received h' /\ Hop.LossRate h = Hop.LossRate h' /\
    Hop.MinRTT h = Hop.MinRTT h' /\ Hop.AvgRTT h = Hop.AvgRTT h' /\ Hop.MaxRTT h = Hop.MaxRTT h' /\
    Hop.Reached h = Hop.Reached h'.
Proof.
  intros h h' H. pose proof (sortedRTTs_order h h' H) as Hs.
  assert (Hr : Hop.Received h = Hop.Received h') by (rewrite !Received_filter; by rewrite (filter_perm _ _ _ H)).
  split_and!; [done|done| | | | |].
  - unfold Hop.LossRate. by rewrite Hr, (Permutation_length H).
  - unfold Hop.MinRTT. by rewrite Hs.
  - unfold Hop.AvgRTT. by rewrite Hs.
  - unfold Hop.MaxRTT. by rewrite Hs.
  - unfold Hop.Reached. apply eq_true_iff_eq. rewrite !existsb_exists.
    split; intros (x & Hx%list_elem_of_In & Hp); exists x; rewrite <- list_elem_of_In; split; try done;
      [by rewrite <- H|by rewrite H].
Qed.

Lemma hop_order_irrelevant_witness :
  let p r to := mkProbeResult [10; 0; 0; 1] r false to in
  let h := mkHop 3 [p 5 false; p 9 false; p 0 true] [[10; 0; 0; 1]] [""] [None] in
  let h' := mkHop 3 [p 0 true; p 9 false; p 5 false] [[10; 0; 0; 1]] [""] [None] in
  Hop.MinRTT h' = 5 /\ Hop.LossRate h = Hop.LossRate h'.
Proof.
  cbn zeta.
  destruct (hop_order_irrelevant
    (mkHop 3 [mkProbeResult [10; 0; 0; 1] 5 false false; mkProbeResult [10; 0; 0; 1] 9 false false;
              mkProbeResult [10; 0; 0; 1] 0 false true] [[10; 0; 0; 1]] [""] [None])
    (mkHop 3 [mkProbeResult [10; 0; 0; 1] 0 false true; mkProbeResult [10; 0; 0; 1] 9 false false;
              mkProbeResult [10; 0; 0; 1] 5 false false] [[10; 0; 0; 1]] [""] [None]))
    as (_ & _ & Hl & Hm & _); [exact (Permutation_rev _)|].
  split; [by rewrite <- Hm|exact Hl].
Defined.

(** The RTT statistics of a hop with a reply: minimum and maximum are RTTs
    of replied probes and bound all of them; the average is their mean, rounded
    down, and lies between the two. RTTs are elapsed times, so not negative,
    and their sum is assumed to fit. *)
Theorem hop_rtt_bounds :
  forall h,
    rtts h <> [] -> Forall (fun r => 0 <= r) (rtts h) -> Z.of_nat (length (rtts h)) * Hop.MaxRTT h < 2 ^ 63 ->
    Hop.MinRTT h ∈ rtts h /\ Hop.MaxRTT h ∈ rtts h /\
    Forall (fun r => Hop.MinRTT h <= r <= Hop.MaxRTT h) (rtts h) /\
    Hop.AvgRTT h = foldl Z.add 0 (rtts h) / Hop.Received h /\
    Hop.MinRTT h <= Hop.AvgRTT h <= Hop.MaxRTT h.
Proof.
  intros h Hne Hpos Hb. destruct (MinRTT_spec h Hne) as [Hmin Hle], (MaxRTT_spec h Hne) as [Hmax Hge].
  destruct (AvgRTT_spec h Hne Hpos Hb) as [Ha Hb'].
  rewrite Received_filter, <- (length_map RTT). fold (rtts h). split_and!; [done|done| |done|lia|lia].
  apply Forall_forall. rewrite Forall_forall in Hle, Hge. auto.
Qed.

Lemma hop_rtt_bounds_witness :
  let p r to := mkProbeResult [10; 0; 0; 1] r false to in
  let h := mkHop 3 [p 5 false; p 8 false; p 0 true] [[10; 0; 0; 1]] [""] [None] in
  Hop.AvgRTT h = 6 /\ Hop.MinRTT h <= Hop.AvgRTT h <= Hop.MaxRTT h.
Proof.
  cbn zeta.
  destruct (hop_rtt_bounds
    (mkHop 3 [mkProbeResult [10; 0; 0; 1] 5 false false; mkProbeResult [10; 0; 0; 1] 8 false false;
              mkProbeResult [10; 0; 0; 1] 0 false true] [[10; 0; 0; 1]] [""] [None]))
    as (_ & _ & _ & Ha & Hb); [done|by apply (bool_decide_unpack _); vm_compute|by vm_compute|].
  split; [by rewrite Ha|exact Hb].
Defined.

(** ** The responder list *)

Lemma Equal_refl a : Equal a a = true.
Proof. unfold Equal. rewrite Nat.eqb_refl. by apply bytes_equal_true. Qed.

(** The lists of a hop run in parallel, the responders are pairwise different
    and are exactly the sources of its replies. *)
Record hop_wf (h : Hop) : Prop := {
  wf_hosts : length (Hosts h) = length (Addrs h);
  wf_infos : length (Infos h) = length (Addrs h);
  wf_distinct : ForallOrdPairs (fun a b => Equal a b = false) (Addrs h);
  wf_sound : Forall (fun a => a ∈ map FromIP (Probes h)) (Addrs h);
  wf_complete : Forall (fun p => FromIP p <> [] -> existsb (fun a => Equal a (FromIP p)) (Addrs h) = true) (Probes h)
}.

Lemma hop_wf_new ttl : hop_wf (mkHop ttl [] [] [] []).
Proof. split; cbn; try done; constructor. Qed.

Lemma ForallOrdPairs_snoc {A} (R : A -> A -> Prop) l x :
  ForallOrdPairs R l -> Forall (fun y => R y x) l -> ForallOrdPairs R (l ++ [x]).
Proof.
  induction 1 as [|y l Hy Hl IH]; intros Hx; [repeat constructor|].
  apply Forall_cons in Hx as [Hyx Hx]. cbn [app]. constructor; [|by apply IH].
  apply Forall_app. split; [done|by constructor].
Qed.

Lemma existsb_snoc {A} (f : A -> bool) l x : existsb f (l ++ [x]) = existsb f l || f x.
Proof. rewrite existsb_app. cbn. by rewrite orb_false_r. Qed.

Lemma hop_wf_append h p :
  hop_wf h -> hop_wf (let h := Hop.add_probe p h in if bool_decide (FromIP p <> []) then Hop.addAddr (FromIP p) h else h).
Proof.
  intros [H1 H2 H3 H4 H5].
  assert (Hs : Forall (fun a => a ∈ map FromIP (Probes h ++ [p])) (Addrs h)).
  { eapply Forall_impl; [exact H4|]. cbn. intros a Ha. rewrite map_app. apply elem_of_app. by left. }
  cbn zeta. case_bool_decide as Hp; unfold Hop.addAddr, Hop.add_probe; cbn [Addrs Hosts Infos Probes TTL].
  - destruct (existsb _ (Addrs h)) eqn:E; split; cbn [Addrs Hosts Infos Probes TTL]; try done.
    + apply Forall_app. split; [done|]. constructor; [by intros _|constructor].
    + rewrite !length_app. cbn. lia.
    + rewrite !length_app. cbn. lia.
    + apply ForallOrdPairs_snoc; [done|]. apply Forall_forall. intros a Ha.
      destruct (Equal a (FromIP p)) eqn:Ea; [|done].
      rewrite <- E. symmetry. apply existsb_exists. exists a. by rewrite <- list_elem_of_In.
    + apply Forall_app. split; [done|]. constructor; [|constructor]. rewrite map_app. apply elem_of_app. right. by left.
    + apply Forall_app. split.
      * eapply Forall_impl; [exact H5|]. cbn. intros q Hq Hne. rewrite existsb_snoc, Hq by done. done.
      * constructor; [|constructor]. intros _. by rewrite existsb_snoc, Equal_refl, orb_true_r.
  - split; cbn [Addrs Hosts Infos Probes TTL]; try done.
    apply Forall_app. split; [done|]. constructor; [|constructor]. done.
Qed.

(** ** Annotation *)

Definition map_hops (g : Hop -> Hop) (results : list Result) : list Result :=
  map (fun r => set_hops (map g (Hops r)) r) results.

Lemma update_hops_map f g results :
  (forall r h, r ∈ results -> h ∈ Hops r -> f h = Some (g h)) -> update_hops f results = Some (map_hops g results).
Proof.
  intros H. unfold update_hops. apply mapM_Some. unfold map_hops. rewrite Forall2_fmap_r.
  apply Forall_Forall2_diag, Forall_forall. intros r Hr. cbn.
  assert (mapM f (Hops r) = Some (map g (Hops r))) as ->; [|done].
  apply mapM_Some. rewrite Forall2_fmap_r. apply Forall_Forall2_diag, Forall_forall. intros h Hh. by eapply H.
Qed.

Lemma assign_exact {A} (f : IP -> A) addrs l : length l = length addrs -> assign f addrs l = Some (map f addrs).
Proof. intros H. unfold assign. rewrite H, Nat.leb_refl, drop_ge by lia. by rewrite app_nil_r. Qed.

(** The name an address gets. *)
Definition ptr_name (LookupAddr : string -> option (list string)) (ip : IP) : string :=
  match LookupAddr (IP_String ip) with Some (n :: _) => n | _ => "" end.

Lemma cache_lookup LookupAddr order key :
  foldl (cache_name LookupAddr) ∅ order !! key =
    if decide (key ∈ map IP_String order)
    then Some match LookupAddr key with Some (n :: _) => n | _ => "" end else None.
Proof.
  assert (H : forall c, (forall k v, c !! k = Some v -> v = match LookupAddr k with Some (n :: _) => n | _ => "" end) ->
    foldl (cache_name LookupAddr) c order !! key =
      if decide (key ∈ map IP_String order) then Some match LookupAddr key with Some (n :: _) => n | _ => "" end
      else c !! key).
  2: { rewrite H; [done|]. intros k v Hk. by rewrite lookup_empty in Hk. }
  induction order as [|ip order IH]; intros c Hc; cbn [foldl map].
  { by rewrite decide_False by apply not_elem_of_nil. }
  assert (Hc' : forall k v, cache_name LookupAddr c ip !! k = Some v ->
            v = match LookupAddr k with Some (n :: _) => n | _ => "" end).
  { intros k v. unfold cache_name. destruct (c !! IP_String ip) eqn:E; [apply Hc|].
    rewrite lookup_insert_Some. intros [[<- <-]|[_ Hk]]; [done|by apply Hc]. }
  rewrite (IH _ Hc'). destruct (decide (key ∈ map IP_String order)) as [Hin|Hin].
  { rewrite decide_True by (by right). done. }
  destruct (decide (key = IP_String ip)) as [->|Hne].
  - rewrite decide_True by (by left). unfold cache_name.
    destruct (c !! IP_String ip) eqn:E; [rewrite E; f_equal; by apply Hc|by rewrite lookup_insert_eq].
  - rewrite decide_False by (by rewrite not_elem_of_cons). unfold cache_name.
    destruct (c !! IP_String ip) eqn:E; [done|]. by rewrite lookup_insert_ne.
Qed.

(** Every hop of every result is well formed. *)
Definition results_wf (results : list Result) : Prop := forall r h, r ∈ results -> h ∈ Hops r -> hop_wf h.

Lemma addr_of_hop results r h a : r ∈ results -> h ∈ Hops r -> a ∈ Addrs h -> a ∈ all_addrs results.
Proof.
  intros Hr%list_elem_of_In Hh%list_elem_of_In Ha%list_elem_of_In. apply list_elem_of_In. unfold all_addrs.
  apply in_concat. exists (concat (map Addrs (Hops r))). split; [apply in_map_iff; by exists r|].
  apply in_concat. exists (Addrs h). split; [apply in_map_iff; by exists h|done].
Qed.

(** [resolveHosts] names every responder, in whatever order the lookups run,
    and [enrichHops] attaches to each what the providers say about it. *)
Lemma resolveHosts_spec LookupAddr order results :
  order ≡ₚ all_addrs results -> results_wf results ->
  resolveHosts LookupAddr order results =
    Some (map_hops (fun h => Hop.set_hosts (map (ptr_name LookupAddr) (Addrs h)) h) results).
Proof.
  intros Ho Hwf. unfold resolveHosts. apply update_hops_map. intros r h Hr Hh.
  rewrite assign_exact by apply (Hwf r h Hr Hh). cbn [mbind option_bind]. do 2 f_equal.
  apply map_ext_in. intros a Ha%list_elem_of_In. rewrite cache_lookup, decide_True; [done|].
  apply list_elem_of_fmap_2. rewrite Ho. by eapply addr_of_hop.
Qed.

Lemma enrichHops_spec resolve providers results :
  results_wf results -> providers <> [] -> all_addrs results <> [] ->
  enrichHops resolve providers results =
    Some (map_hops (fun h => Hop.set_infos
      (map (fun a => resolve (distinct_ips ∅ (all_addrs results)) !! IP_String a) (Addrs h)) h) results).
Proof.
  intros Hwf Hp Ha. unfold enrichHops. destruct providers as [|p ps]; [done|]. cbn [length Nat.eqb].
  destruct (all_addrs results) as [|a l] eqn:E; [done|]. cbn [distinct_ips length Nat.eqb].
  rewrite bool_decide_eq_false_2 by set_solver. cbn [length Nat.eqb].
  apply update_hops_map. intros r h Hr Hh. by rewrite assign_exact by apply (Hwf r h Hr Hh).
Qed.

(** The providers are asked about every responder, each name once. *)
Lemma distinct_ips_spec seen ips :
  NoDup (map IP_String (distinct_ips seen ips)) /\
  forall key, key ∈ map IP_String (distinct_ips seen ips) <-> key ∈ map IP_String ips /\ key ∉ seen.
Proof.
  revert seen. induction ips as [|ip ips IH]; intros seen; cbn [distinct_ips map].
  { split; [constructor|]. intros key. set_solver. }
  case_bool_decide as Hs.
  - destruct (IH seen) as [H1 H2]. split; [done|]. intros key. rewrite H2, elem_of_cons. set_solver.
  - destruct (IH ({[IP_String ip]} ∪ seen)) as [H1 H2]. cbn [map]. split.
    + constructor; [|done]. rewrite H2. set_solver.
    + intros key. rewrite !elem_of_cons, H2. destruct (decide (key = IP_String ip)) as [->|]; set_solver.
Qed.
