(* ===== verification/Tracer.v ===== *)
(** * The traceroute tools ([traceroute/tracer.go], [endpoint.go] and their
      [traceroute6] copies)

    The probes of a target, the matcher that pairs a reply with a probe, the
    concurrent collection of results, and [Run]. What the two packages build
    and parse differently is the class [TraceProbe]; sending and waiting
    ([sendrecv.Sr1]), the routing table and the host are arguments. *)

From S2P Require Import Prelude GoStd GoNet Enrich Goscapy TraceConfig Hop.
Local Open Scope Z_scope.

(** [Tracer]. *)
Record Tracer := mkTracer {
  tr_conf : Config;
  tr_pid : Z
}.

(** [NewTracer] in the process [pid]. *)
Definition NewTracer (conf : Config) (pid : Z) : Tracer := mkTracer conf (u16 (Z.land pid 65535)).

(** ** Tags of a probe *)

(** [ephemeralSrcPort]; the sum is a [uint16]. *)
Definition ephemeralSrcPort (pid ttl probe : Z) : Z :=
  u16 (33000 + u16 (u16 (pid + u16 (u16 ttl * 16)) + u16 probe) mod 30000).

(** [dstPort], [udpSrcPort] and [tcpSrcPort], [probePayload]. *)
Definition dstPort (t : Tracer) (ttl : Z) : Z :=
  if FixedDstPort (tr_conf t) then Port (tr_conf t) else u16 (Port (tr_conf t) + u16 ttl).
Definition udpSrcPort (t : Tracer) (ttl probe : Z) : Z :=
  if negb (SrcPort (tr_conf t) =? 0) then SrcPort (tr_conf t) else ephemeralSrcPort (tr_pid t) ttl probe.
Definition tcpSrcPort (t : Tracer) (ttl probe : Z) : Z :=
  if negb (SrcPort (tr_conf t) =? 0) then SrcPort (tr_conf t) else ephemeralSrcPort (tr_pid t) ttl probe.
Definition probePayload (ttl probe : Z) : bytes := [u8 ttl; u8 probe; 0; 0].

(** The sequence number of an ICMP probe and of a TCP probe. *)
Definition icmpSeq (ttl probe : Z) : Z := Z.lor (u16 (Z.shiftl (u16 ttl) 8)) (u16 (Z.land probe 255)).
Definition tcpSeq (ttl probe : Z) : Z := Z.lor (u32 (Z.shiftl (u32 ttl) 16)) (u32 probe).

(** The field the user may set: 0 leaves the default. *)
Definition tos_opt (tos : Z) : option Z := if negb (tos =? 0) then Some (u8 tos) else None.

(** ** Matching *)

(** [v, _ := l.Get(f)] asserted to be a [uint16], with the zero value. *)
Definition get_uint16 `{Goscapy} (l : Layer) (f : string) : Z := default 0 (as_uint16 (Get l f).1).

(** A two-byte big-endian field of the quoted packet. *)
Definition be16 (l : bytes) (i : nat) : Z := Z.lor (u16 (Z.shiftl (byte_at l i) 8)) (byte_at l (S i)).

(** What the tools build and parse differently. *)
Class TraceProbe `{Goscapy} := {
  build_layers : Tracer -> IP -> IP -> Z -> Z -> list build_layer;
  echo_ident : Packet -> Packet -> Layer -> bool;
  match_embedded : Protocol -> Packet -> Packet -> IP -> bool
}.

Section matching.
Context `{HG : Goscapy}.

(** The comparison of the quoted transport header with the sent packet, shared
    by both versions of [matchEmbedded]; [echo_layer] is where the identifier
    of the sent echo is found. *)
Definition match_inner (proto : Protocol) (echo_layer : string) (sent : Packet) (inner : bytes) : bool :=
  match proto with
  | ProtoICMP =>
      if (length inner <? 8)%nat then true
      else
        match GetLayer sent echo_layer with
        | None => true
        | Some l =>
            let innerID := be16 inner 4 in
            let innerSeq := be16 inner 6 in
            (innerID =? get_uint16 l "id") && (innerSeq =? get_uint16 l "seq")
        end
  | ProtoUDP | ProtoTCP =>
      if (length inner <? 4)%nat then true
      else
        match GetLayer sent (if bool_decide (proto = ProtoTCP) then "TCP" else "UDP") with
        | None => true
        | Some l =>
            let innerSport := be16 inner 0 in
            let innerDport := be16 inner 2 in
            (innerSport =? get_uint16 l "sport") && (innerDport =? get_uint16 l "dport")
        end
  end.

(** The load of the raw layer; [None] is a return of [false]. *)
Definition quoted_load (received : Packet) : option bytes :=
  raw ← GetLayer received "Raw";
  let '(loadVal, ok) := Get raw "load" in
  if negb ok then None else match loadVal with VBytes load => Some load | _ => None end.

Section matcher.
Context `{HF : TraceFamily} `{HP : !TraceProbe}.

(** The source of a received packet is the destination of the probe. *)
Definition from_dst (recvIP : Layer) (sentDst : IP) : bool :=
  let recvSrc := as_ip (Get recvIP "src").1 in
  bool_decide (recvSrc <> []) && Equal recvSrc sentDst.

(** [buildMatcher]. *)
Definition buildMatcher (proto : Protocol) (sent received : Packet) : bool :=
  match GetLayer received ip_layer, GetLayer sent ip_layer with
  | Some recvIP, Some sentIP =>
      let sentDst := as_ip (Get sentIP "dst").1 in
      if bool_decide (sentDst = []) then false
      else
        match GetLayer received icmp_layer with
        | None =>
            if bool_decide (proto = ProtoTCP) then
              match GetLayer received "TCP" with
              | Some _ => from_dst recvIP sentDst
              | None => false
              end
            else false
        | Some recvICMP =>
            let '(typeVal, ok) := Get recvICMP "type" in
            if negb ok || (match typeVal with VNil => true | _ => false end) then false
            else
              let icmpType := default 0 (as_uint8 typeVal) in
              if icmpType =? type_echo_reply then
                bool_decide (proto = ProtoICMP) && from_dst recvIP sentDst && echo_ident sent received recvICMP
              else if (icmpType =? type_unreach) || (icmpType =? type_exceed) then
                match_embedded proto sent received sentDst
              else false
        end
  | _, _ => false
  end.

(** [buildProbe]. *)
Definition buildProbe (t : Tracer) (srcIP dstIP : IP) (ttl probe : Z) : Packet :=
  NewPacket (build_layers t srcIP dstIP ttl probe).

(** [sendProbe] over [sendrecv.Sr1], which returns a packet the matcher
    accepts or nothing, after [rtt]. *)
Definition sendProbe (Sr1 : Packet -> string -> Z -> (Packet -> Packet -> bool) -> option Packet) (t : Tracer)
    (srcIP dstIP : IP) (iface : string) (ttl probe rtt : Z) : ProbeResult :=
  let pkt := buildProbe t srcIP dstIP ttl probe in
  match Sr1 pkt iface (Timeout (tr_conf t)) (buildMatcher (Proto (tr_conf t))) with
  | None => mkProbeResult [] 0 false true
  | Some resp =>
      let '(from, reached) := extractReply (Proto (tr_conf t)) resp in
      mkProbeResult from rtt reached false
  end.

End matcher.
End matching.

Module traceroute.
Section traceroute.
Context `{HG : Goscapy}.

(** [buildProbe]. *)
Definition build_layers (t : Tracer) (srcIP dstIP : IP) (ttl probe : Z) : list build_layer :=
  let ip proto := BIPv4Hdr srcIP dstIP (u8 ttl) proto (tos_opt (TOS (tr_conf t))) in
  match Proto (tr_conf t) with
  | ProtoUDP => [ip IPProtoUDP; BUDP (udpSrcPort t ttl probe) (dstPort t ttl); BRaw (probePayload ttl probe)]
  | ProtoTCP => [ip IPProtoTCP; BTCPSeg (tcpSrcPort t ttl probe) (Port (tr_conf t)) TCPSyn (tcpSeq ttl probe)]
  | ProtoICMP => [ip IPProtoICMP; BICMP ICMPEchoRequest 0 (tr_pid t) (icmpSeq ttl probe)]
  end.

(** [echoIdentMatches]. *)
Definition echoIdentMatches (sent received : Packet) (recvICMP : Layer) : bool :=
  match GetLayer sent "ICMP" with
  | None => false
  | Some sentICMP =>
      (get_uint16 sentICMP "id" =? get_uint16 recvICMP "id") &&
      (get_uint16 sentICMP "seq" =? get_uint16 recvICMP "seq")
  end.

(** [matchEmbedded]: the quoted packet starts with its IPv4 header. *)
Definition matchEmbedded (proto : Protocol) (sent received : Packet) (sentDst : IP) : bool :=
  match quoted_load received with
  | None => false
  | Some load =>
      if (length load <? 20)%nat then false
      else
        let ihl := (Z.to_nat (Z.land (byte_at load 0) 15) * 4)%nat in
        let ihl := if (ihl <? 20)%nat || (length load <? ihl)%nat then 20%nat else ihl in
        let innerDst := slice 16 20 load in
        if negb (Equal innerDst sentDst) then false
        else match_inner proto "ICMP" sent (drop ihl load)
  end.

#[export] Instance probe : TraceProbe := {|
  Tracer.build_layers := build_layers;
  echo_ident := echoIdentMatches;
  match_embedded := matchEmbedded
|}.

Definition buildProbe := Tracer.buildProbe (HP := probe).
Definition buildMatcher := Tracer.buildMatcher (HF := traceroute_config.family) (HP := probe).

End traceroute.
End traceroute.

Module traceroute6.
Section traceroute6.
Context `{HG : Goscapy}.

(** [buildProbe]. *)
Definition build_layers (t : Tracer) (srcIP dstIP : IP) (ttl probe : Z) : list build_layer :=
  let ip nh := BIPv6Hdr srcIP dstIP (u8 ttl) nh (tos_opt (TOS (tr_conf t))) in
  match Proto (tr_conf t) with
  | ProtoUDP => [ip IPProtoUDP; BUDP (udpSrcPort t ttl probe) (dstPort t ttl); BRaw (probePayload ttl probe)]
  | ProtoTCP => [ip IPProtoTCP; BTCPSeg (tcpSrcPort t ttl probe) (Port (tr_conf t)) TCPSyn (tcpSeq ttl probe)]
  | ProtoICMP => [ip IPv6NextHdrICMP; BICMPv6 None None; BICMPv6Echo (tr_pid t) (icmpSeq ttl probe) None]
  end.

(** [echoIdentMatches]. *)
Definition echoIdentMatches (sent received : Packet) (recvICMP : Layer) : bool :=
  match GetLayer sent "ICMPv6 Echo", GetLayer received "ICMPv6 Echo Reply" with
  | Some sentEcho, Some recvEcho =>
      (get_uint16 sentEcho "id" =? get_uint16 recvEcho "id") &&
      (get_uint16 sentEcho "seq" =? get_uint16 recvEcho "seq")
  | _, _ => false
  end.

(** [matchEmbedded]: four bytes, then the quoted packet with its 40-byte header. *)
Definition matchEmbedded (proto : Protocol) (sent received : Packet) (sentDst : IP) : bool :=
  match quoted_load received with
  | None => false
  | Some load =>
      if (length load <? 4 + 40)%nat then false
      else
        let load := drop 4 load in
        let innerDst := slice 24 40 load in
        if negb (Equal innerDst sentDst) then false
        else match_inner proto "ICMPv6 Echo" sent (drop 40 load)
  end.

#[export] Instance probe : TraceProbe := {|
  Tracer.build_layers := build_layers;
  echo_ident := echoIdentMatches;
  match_embedded := matchEmbedded
|}.

Definition buildProbe := Tracer.buildProbe (HP := probe).
Definition buildMatcher := Tracer.buildMatcher (HF := traceroute6_config.family) (HP := probe).

End traceroute6.
End traceroute6.

(** ** Collecting *)

(** [appendProbe], under the global lock. *)
Definition appendProbe (h : Hop) (pr : ProbeResult) : Hop :=
  let h := Hop.add_probe pr h in
  if bool_decide (FromIP pr <> []) then Hop.addAddr (FromIP pr) h else h.

(** [finalize]: the first hop that reached the destination is the last one. *)
Fixpoint first_reached (i : nat) (hops : list Hop) : option nat :=
  match hops with
  | [] => None
  | h :: hops => if Hop.Reached h then Some i else first_reached (S i) hops
  end.

Definition finalize (r : Result) : Result :=
  match first_reached 0 (Hops r) with
  | Some lastReached =>
      mkResult (Dst r) (DstAddr r) (ResProto r) (ResMaxHops r) (take (S lastReached) (Hops r)) true
  | None => r
  end.

(** The probes of a target: the pair of a TTL and a probe number. *)
Definition all_probes (conf : Config) : list (nat * nat) :=
  flat_map (fun ttl => map (pair ttl) (seq 0 (Z.to_nat (Queries conf)))) (seq 1 (Z.to_nat (MaxHops conf))).

Definition new_hops (conf : Config) : list Hop :=
  map (fun ttl => mkHop (Z.of_nat ttl) [] [] [] []) (seq 1 (Z.to_nat (MaxHops conf))).

(** The goroutines append their results in the order [order]; [outcome] is
    what [sendProbe] returned for each probe. *)
Definition append_all (outcome : nat -> nat -> ProbeResult) (order : list (nat * nat)) (hops : list Hop) : list Hop :=
  foldl (fun hops '(ttl, probe) => alter (fun h => appendProbe h (outcome ttl probe)) (ttl - 1)%nat hops) hops order.

(** [traceTarget]; the semaphore only delays the goroutines. *)
Definition traceTarget (conf : Config) (outcome : nat -> nat -> ProbeResult) (order : list (nat * nat))
    (dst : string) (dstIP : IP) : Result :=
  finalize (mkResult dst dstIP (Proto conf) (MaxHops conf) (append_all outcome order (new_hops conf)) false).

(** ** Endpoints and [Run] *)

Inductive run_error :=
| ErrLocalAddr (a : string)
| ErrDial (dst : IP)
| ErrNoSource (dst : IP)
| ErrNoInterface (src : IP)
| ErrDstOverride (a : string)
| ErrSrcOverride (a : string).

(** [interfaceForIP]; the empty string if there is none. *)
Definition interfaceForIP (h : Host) (ip : IP) : string :=
  match Interfaces h with
  | None => ""
  | Some ifaces =>
      match List.find (fun i => has_flag FlagUp i && owns (fun a => Equal a ip) i) ifaces with
      | Some i => if_name i
      | None => ""
      end
  end.

Section run.
Context `{HF : TraceFamily}.

(** What the kernel answers a connect on a UDP socket: an error, or the local
    address of the socket, [None] if it is not a UDP address. *)
Variable Dial : IP -> option (option IP).

(** [outboundIP]. *)
Definition outboundIP (dst : IP) : IP + run_error :=
  match Dial dst with
  | None => inr (ErrDial dst)
  | Some a =>
      match a ≫= outbound_ok with
      | Some ip => inl ip
      | None => inr (ErrNoSource dst)
      end
  end.

(** [localEndpoint]. *)
Definition localEndpoint (conf : Config) (h : Host) (dst : IP) : IP * string + run_error :=
  let src :=
    if negb (bool_decide (LocalAddr conf = "")) then
      let ip := local_addr (LocalAddr conf) in
      if bool_decide (ip = []) then inr (ErrLocalAddr (LocalAddr conf)) else inl ip
    else outboundIP dst in
  match src with
  | inr e => inr e
  | inl srcIP =>
      if bool_decide (TraceConfig.Interface conf = "") then
        let iface := interfaceForIP h srcIP in
        if bool_decide (iface = "") then inr (ErrNoInterface srcIP) else inl (srcIP, iface)
      else inl (srcIP, TraceConfig.Interface conf)
  end.

(** What [Run] starts for a target: nothing for an address it cannot parse, or
    a trace with the addresses and the interface of its probes. *)
Inductive job :=
| JSkip (dst : string)
| JTrace (dst : string) (dstIP probeDst srcIP : IP) (iface : string).

(** An override: the parsed address, or the error. *)
Definition override (a : string) (d : IP) (e : string -> run_error) : IP + run_error :=
  if bool_decide (a = "") then inl d
  else if bool_decide (parse_addr a = []) then inr (e a) else inl (parse_addr a).

(** The body of the loop of [Run]. *)
Definition prepare (conf : Config) (h : Host) (dst : string) : job + run_error :=
  let dstIP := parse_addr dst in
  if bool_decide (dstIP = []) then inl (JSkip dst)
  else
    match override (DstIP conf) dstIP ErrDstOverride with
    | inr e => inr e
    | inl probeDst =>
        match localEndpoint conf h probeDst with
        | inr e => inr e
        | inl (srcIP, iface) =>
            match override (SrcIP conf) srcIP ErrSrcOverride with
            | inr e => inr e
            | inl srcIP => inl (JTrace dst dstIP probeDst srcIP iface)
            end
        end
    end.

Fixpoint prepare_all (conf : Config) (h : Host) (dsts : list string) : list job + run_error :=
  match dsts with
  | [] => inl []
  | dst :: dsts =>
      match prepare conf h dst with
      | inr e => inr e
      | inl j => match prepare_all conf h dsts with inl js => inl (j :: js) | inr e => inr e end
      end
  end.

(** The result of a job: what its probes returned and in which order. *)
Definition run_job (conf : Config) (outcome : job -> nat -> nat -> ProbeResult) (order : job -> list (nat * nat))
    (j : job) : Result :=
  match j with
  | JSkip dst => mkResult dst [] (Proto conf) (MaxHops conf) [] false
  | JTrace dst dstIP _ _ _ => traceTarget conf (outcome j) (order j) dst dstIP
  end.

(** [Run]: every target, then the names, then the metadata. An error of a
    target ends it; [None] is a panic. *)
Definition Run (conf : Config) (h : Host) (outcome : job -> nat -> nat -> ProbeResult)
    (order : job -> list (nat * nat)) (LookupAddr : string -> option (list string)) (lookups : list Result -> list IP)
    (resolve : list IP -> gmap string IPInfo) : option (list Result + run_error) :=
  match prepare_all conf h (Targets conf) with
  | inr e => Some (inr e)
  | inl js =>
      let results := map (run_job conf outcome order) js in
      results ← (if ResolveDNS conf then resolveHosts LookupAddr (lookups results) results else Some results);
      results ← (if negb (length (Providers conf) =? 0)%nat then enrichHops resolve (Providers conf) results
                 else Some results);
      Some (inl results)
  end.

End run.

(** [traceroute6/tracer.go] and [endpoint.go] repeat the code around the
    probes. *)
Module traceroute6_run.
Section traceroute6_run.
Context `{HG : Goscapy}.

Definition Tracer := Tracer.
Definition NewTracer := NewTracer.
Definition appendProbe := appendProbe.
Definition finalize := finalize.
Definition traceTarget := traceTarget.
Definition sendProbe := sendProbe (HF := traceroute6_config.family) (HP := traceroute6.probe).
Definition dstPort := dstPort.
Definition udpSrcPort := udpSrcPort.
Definition tcpSrcPort := tcpSrcPort.
Definition probePayload := probePayload.
Definition ephemeralSrcPort := ephemeralSrcPort.
Definition interfaceForIP := interfaceForIP.
Definition outboundIP := outboundIP (HF := traceroute6_config.family).
Definition localEndpoint := localEndpoint (HF := traceroute6_config.family).
Definition prepare := prepare (HF := traceroute6_config.family).
Definition Run := Run (HF := traceroute6_config.family).

End traceroute6_run.
End traceroute6_run.

(** ** Properties of the tags *)

Lemma ephemeral_value pid ttl probe :
  in_u16 pid -> 0 <= ttl <= 255 -> 0 <= probe < 16 ->
  ephemeralSrcPort pid ttl probe = 33000 + ((pid + (16 * ttl + probe)) mod 65536) mod 30000.
Proof.
  intros Hp Ht Hq. unfold ephemeralSrcPort. unfold in_u16 in Hp.
  rewrite (u16_small ttl), (u16_small probe), (u16_small (ttl * 16)) by (unfold in_u16; lia).
  unfold u16 at 2 3. rewrite Zplus_mod_idemp_l. change (2 ^ 16) with 65536.
  replace (pid + ttl * 16 + probe) with (pid + (16 * ttl + probe)) by lia.
  apply u16_small. unfold in_u16. pose proof (Z.mod_pos_bound ((pid + (16 * ttl + probe)) mod 65536) 30000). lia.
Qed.

Lemma shifted_mod_inj pid a b :
  0 <= a < 4096 -> 0 <= b < 4096 ->
  ((pid + a) mod 65536) mod 30000 = ((pid + b) mod 65536) mod 30000 -> a = b.
Proof.
  intros Ha Hb H. pose proof (Z.mod_pos_bound (pid + a) 65536). pose proof (Z.mod_pos_bound (pid + b) 65536).
  set (x := (pid + a) mod 65536) in *. set (y := (pid + b) mod 65536) in *.
  assert (Hxy : x - y = a - b \/ x - y = a - b + 65536 \/ x - y = a - b - 65536).
  { subst x y. Z.div_mod_to_equations. assert (q - q0 = 0 \/ q - q0 = 1 \/ q - q0 = -1) by lia. lia. }
  assert (x / 30000 - y / 30000 = 0 \/ x / 30000 - y / 30000 = 1 \/ x / 30000 - y / 30000 = -1 \/
          x / 30000 - y / 30000 = 2 \/ x / 30000 - y / 30000 = -2)
    by (Z.div_mod_to_equations; lia).
  pose proof (Z_div_mod_eq_full x 30000). pose proof (Z_div_mod_eq_full y 30000). lia.
Qed.

Lemma ephemeral_injective pid ttl probe ttl' probe' :
  in_u16 pid -> 0 <= ttl <= 255 -> 0 <= ttl' <= 255 -> 0 <= probe < 16 -> 0 <= probe' < 16 ->
  ephemeralSrcPort pid ttl probe = ephemeralSrcPort pid ttl' probe' -> ttl = ttl' /\ probe = probe'.
Proof.
  intros Hp Ht Ht' Hq Hq'. rewrite !ephemeral_value by done. intros H.
  apply Z.add_reg_l, shifted_mod_inj in H; lia.
Qed.

(** C40: the derived source ports: for a TTL up to 255 and a probe number below
    16 the port is in 33000..62999, and different probes of a run have
    different ports, also where the 16-bit sum wraps. The seventeenth probe of
    a TTL has the port of the first probe of the next TTL. *)
Theorem ephemeralSrcPort_distinguishes :
  forall pid, in_u16 pid ->
    (forall ttl probe, 0 <= ttl <= 255 -> 0 <= probe < 16 -> 33000 <= ephemeralSrcPort pid ttl probe < 63000) /\
    (forall ttl probe ttl' probe',
      0 <= ttl <= 255 -> 0 <= ttl' <= 255 -> 0 <= probe < 16 -> 0 <= probe' < 16 ->
      ephemeralSrcPort pid ttl probe = ephemeralSrcPort pid ttl' probe' -> ttl = ttl' /\ probe = probe') /\
    (forall ttl, 0 <= ttl < 255 -> ephemeralSrcPort pid ttl 16 = ephemeralSrcPort pid (ttl + 1) 0).
Proof.
  intros pid Hp. split_and!.
  - intros ttl probe Ht Hq. rewrite ephemeral_value by done.
    pose proof (Z.mod_pos_bound ((pid + (16 * ttl + probe)) mod 65536) 30000). lia.
  - intros ttl probe ttl' probe' Ht Ht' Hq Hq'. by apply ephemeral_injective.
  - intros ttl Ht. unfold ephemeralSrcPort.
    rewrite (u16_small ttl), (u16_small (ttl + 1)), (u16_small (ttl * 16)), (u16_small ((ttl + 1) * 16)),
      (u16_small 16), (u16_small 0) by (unfold in_u16; lia).
    do 2 f_equal. unfold u16. rewrite !Zplus_mod_idemp_l. do 2 f_equal. lia.
Qed.

(** ** Properties of the matcher *)

Lemma icmpSeq_value ttl probe : 0 <= ttl <= 255 -> 0 <= probe < 256 -> icmpSeq ttl probe = 256 * ttl + probe.
Proof.
  intros Ht Hq. unfold icmpSeq. rewrite (u16_small ttl) by (unfold in_u16; lia).
  rewrite Z.shiftl_mul_pow2, (u16_small (ttl * 2 ^ 8)) by (unfold in_u16; lia).
  change 255 with (Z.ones 8). rewrite Z.land_ones, (Z.mod_small probe) by lia.
  rewrite u16_small by (unfold in_u16; lia). rewrite lor_shifted; lia.
Qed.

(** The pair of numbers a reply quotes of a probe: identifier and sequence
    number, or the ports. *)
Definition tag (t : Tracer) (ttl probe : Z) : Z * Z :=
  match Proto (tr_conf t) with
  | ProtoICMP => (tr_pid t, icmpSeq ttl probe)
  | ProtoUDP => (udpSrcPort t ttl probe, dstPort t ttl)
  | ProtoTCP => (tcpSrcPort t ttl probe, Port (tr_conf t))
  end.

(** How many probes per TTL can be told apart. *)
Definition max_queries (p : Protocol) : Z := match p with ProtoICMP => 256 | _ => 16 end.

Lemma tag_injective t ttl probe ttl' probe' :
  in_u16 (tr_pid t) -> SrcPort (tr_conf t) = 0 -> 0 <= ttl <= 255 -> 0 <= ttl' <= 255 ->
  0 <= probe < max_queries (Proto (tr_conf t)) -> 0 <= probe' < max_queries (Proto (tr_conf t)) ->
  tag t ttl probe = tag t ttl' probe' -> ttl = ttl' /\ probe = probe'.
Proof.
  intros Hp Hs Ht Ht' Hq Hq'. unfold tag, udpSrcPort, tcpSrcPort. rewrite Hs. cbn [Z.eqb negb].
  destruct (Proto (tr_conf t)); cbn [max_queries] in *.
  - rewrite !icmpSeq_value by done. intros [= E]. lia.
  - intros [= E _]. by apply ephemeral_injective in E.
  - intros [= E]. by apply ephemeral_injective in E.
Qed.

(** ** What the tools promise to the matcher *)

(** The two numbers of a quoted transport header that identify a probe. *)
Definition quoted_tag (p : Protocol) (inner : bytes) : Z * Z :=
  match p with
  | ProtoICMP => (be16 inner 4, be16 inner 6)
  | _ => (be16 inner 0, be16 inner 2)
  end.
Definition tag_len (p : Protocol) : nat := match p with ProtoICMP => 8%nat | _ => 4%nat end.

(** A packet the tool builds names its destination; an error message is
    accepted if it quotes that destination and, where the quote is long enough
    to tell, the tag of the probe; an echo reply is accepted if it carries the
    tag. *)
Class ProbeLaws `{HG : Goscapy} (HF : TraceFamily) (HP : TraceProbe) := {
  quote : bytes -> option (IP * bytes);
  reply_ident : Packet -> Layer -> option (Z * Z);
  sent_dst : forall t s d ttl probe, exists l,
    GetLayer (buildProbe t s d ttl probe) ip_layer = Some l /\ Get l "dst" = (VIP d, true);
  embedded_tag : forall t s d ttl probe received,
    match_embedded (Proto (tr_conf t)) (buildProbe t s d ttl probe) received d =
      match quoted_load received ≫= quote with
      | Some (dst, inner) =>
          Equal dst d && ((length inner <? tag_len (Proto (tr_conf t)))%nat ||
                          bool_decide (quoted_tag (Proto (tr_conf t)) inner = tag t ttl probe))
      | None => false
      end;
  echo_tag : forall t s d ttl probe received icmp,
    Proto (tr_conf t) = ProtoICMP ->
    echo_ident (buildProbe t s d ttl probe) received icmp = bool_decide (reply_ident received icmp = Some (tag t ttl probe))
}.

Lemma pair_eqb a b x y : (a =? x) && (b =? y) = bool_decide ((a, b) = (x, y)).
Proof.
  destruct (Z.eqb_spec a x), (Z.eqb_spec b y); cbn; symmetry;
    [apply bool_decide_eq_true; congruence|apply bool_decide_eq_false; congruence..].
Qed.

Section laws.
Context `{HG : Goscapy}.
Hypothesis Hkeep : keeps_fields.

Lemma kept ls name fs f v :
  assoc name (map layer_fields ls) = Some fs -> assoc f fs = Some v ->
  exists l, GetLayer (NewPacket ls) name = Some l /\ Get l f = (v, true).
Proof. intros Hn Hf. pose proof (Hkeep ls name) as H. rewrite Hn in H. destruct H as (l & Hl & H). eauto. Qed.

(** Two 16-bit fields of a stacked layer. *)
Lemma kept2 ls name fs f g m n :
  assoc name (map layer_fields ls) = Some fs -> assoc f fs = Some (VUint16 m) -> assoc g fs = Some (VUint16 n) ->
  exists l, GetLayer (NewPacket ls) name = Some l /\ get_uint16 l f = m /\ get_uint16 l g = n.
Proof.
  intros Hn Hf Hg. pose proof (Hkeep ls name) as H. rewrite Hn in H. destruct H as (l & Hl & H).
  exists l. unfold get_uint16. by rewrite (H _ _ Hf), (H _ _ Hg).
Qed.

(** The comparison with the quote, for any stack that holds the tag. *)
Lemma match_inner_tag p echo sent inner tg :
  (forall name f g, (name, f, g) = match p with ProtoICMP => (echo, "id", "seq") | ProtoUDP => ("UDP", "sport", "dport")
                                   | ProtoTCP => ("TCP", "sport", "dport") end ->
     exists l, GetLayer sent name = Some l /\ get_uint16 l f = tg.1 /\ get_uint16 l g = tg.2) ->
  match_inner p echo sent inner = (length inner <? tag_len p)%nat || bool_decide (quoted_tag p inner = tg).
Proof.
  intros H. destruct tg as [a b]. destruct p; unfold match_inner, tag_len, quoted_tag;
    (destruct (_ <? _)%nat; [done|]); cbn [bool_decide orb].
  all: edestruct H as (l & Hl & Ha & Hb); [reflexivity|]; cbn [fst snd] in *.
  all: try rewrite bool_decide_eq_true_2 by done; try rewrite bool_decide_eq_false_2 by done.
  all: by rewrite Hl, Ha, Hb, pair_eqb.
Qed.

Lemma negb_if (b x : bool) : (if negb b then false else x) = b && x.
Proof. by destruct b. Qed.

Definition quote4 (load : bytes) : option (IP * bytes) :=
  if (length load <? 20)%nat then None
  else
    let ihl := (Z.to_nat (Z.land (byte_at load 0) 15) * 4)%nat in
    let ihl := if (ihl <? 20)%nat || (length load <? ihl)%nat then 20%nat else ihl in
    Some (slice 16 20 load, drop ihl load).

#[refine, export] Instance traceroute_laws : ProbeLaws traceroute_config.family traceroute.probe := {|
  quote := quote4;
  reply_ident := fun _ icmp => Some (get_uint16 icmp "id", get_uint16 icmp "seq")
|}.
Proof.
  - intros t s d ttl probe. unfold buildProbe, build_layers, traceroute.probe, traceroute.build_layers.
    destruct (Proto (tr_conf t)); by eapply kept.
  - intros t s d ttl probe received. unfold match_embedded, traceroute.probe, traceroute.matchEmbedded.
    destruct (quoted_load received) as [load|]; cbn [mbind option_bind]; [|done]. unfold quote4.
    destruct (_ <? 20)%nat; [done|]. rewrite negb_if. f_equal. apply match_inner_tag.
    intros name f g. unfold buildProbe, build_layers, traceroute.build_layers, tag.
    destruct (Proto (tr_conf t)); intros [= -> -> ->]; by eapply kept2.
  - intros t s d ttl probe received icmp Hp. unfold echo_ident, traceroute.probe, traceroute.echoIdentMatches.
    unfold buildProbe, build_layers, traceroute.build_layers, tag. rewrite Hp.
    match goal with |- context [GetLayer (NewPacket ?ls) ?n] =>
      destruct (kept2 ls n _ "id" "seq" _ _ eq_refl eq_refl eq_refl) as (l & -> & -> & ->) end. rewrite (Z.eqb_sym (tr_pid t)), (Z.eqb_sym (icmpSeq _ _)), pair_eqb.
    apply bool_decide_ext. split; congruence.
Defined.

Definition quote6 (load : bytes) : option (IP * bytes) :=
  if (length load <? 4 + 40)%nat then None
  else let load := drop 4 load in Some (slice 24 40 load, drop 40 load).

#[refine, export] Instance traceroute6_laws : ProbeLaws traceroute6_config.family traceroute6.probe := {|
  quote := quote6;
  reply_ident := fun received _ =>
    l ← GetLayer received "ICMPv6 Echo Reply"; Some (get_uint16 l "id", get_uint16 l "seq")
|}.
Proof.
  - intros t s d ttl probe. unfold buildProbe, build_layers, traceroute6.probe, traceroute6.build_layers.
    destruct (Proto (tr_conf t)); by eapply kept.
  - intros t s d ttl probe received. unfold match_embedded, traceroute6.probe, traceroute6.matchEmbedded.
    destruct (quoted_load received) as [load|]; cbn [mbind option_bind]; [|done]. unfold quote6.
    destruct (_ <? 4 + 40)%nat; [done|]. rewrite negb_if. f_equal. apply match_inner_tag.
    intros name f g. unfold buildProbe, build_layers, traceroute6.build_layers, tag.
    destruct (Proto (tr_conf t)); intros [= -> -> ->]; by eapply kept2.
  - intros t s d ttl probe received icmp Hp. unfold echo_ident, traceroute6.probe, traceroute6.echoIdentMatches.
    unfold buildProbe, build_layers, traceroute6.build_layers, tag. rewrite Hp.
    match goal with |- context [GetLayer (NewPacket ?ls) ?n] =>
      destruct (kept2 ls n _ "id" "seq" _ _ eq_refl eq_refl eq_refl) as (l & -> & -> & ->) end.
    destruct (GetLayer received "ICMPv6 Echo Reply") as [r|]; cbn [mbind option_bind]; [|done].
    rewrite (Z.eqb_sym (tr_pid t)), (Z.eqb_sym (icmpSeq _ _)), pair_eqb. apply bool_decide_ext. split; congruence.
Defined.

End laws.

Section exact.
Context `{HG : Goscapy} `{HF : TraceFamily} `{HP : !TraceProbe} `{HL : !ProbeLaws HF HP}.

Lemma matcher_unfold t s d ttl probe received ipL :
  GetLayer received ip_layer = Some ipL -> d <> [] ->
  buildMatcher (Proto (tr_conf t)) (buildProbe t s d ttl probe) received =
    match GetLayer received icmp_layer with
    | None =>
        if bool_decide (Proto (tr_conf t) = ProtoTCP) then
          match GetLayer received "TCP" with Some _ => from_dst ipL d | None => false end
        else false
    | Some icmpL =>
        let '(typeVal, ok) := Get icmpL "type" in
        if negb ok || (match typeVal with VNil => true | _ => false end) then false
        else
          let icmpType := default 0 (as_uint8 typeVal) in
          if icmpType =? type_echo_reply then
            bool_decide (Proto (tr_conf t) = ProtoICMP) && from_dst ipL d &&
              echo_ident (buildProbe t s d ttl probe) received icmpL
          else if (icmpType =? type_unreach) || (icmpType =? type_exceed) then
            match_embedded (Proto (tr_conf t)) (buildProbe t s d ttl probe) received d
          else false
    end.
Proof.
  intros Hip Hd. unfold buildMatcher. rewrite Hip.
  destruct (sent_dst t s d ttl probe) as (l & -> & ->). cbn [fst as_ip].
  by rewrite bool_decide_eq_false_2.
Qed.

(** Two probes that both match a reply with an ICMP layer have the same tag. *)
Lemma matched_tag t s d ttl probe received ipL icmpL :
  GetLayer received ip_layer = Some ipL -> d <> [] -> GetLayer received icmp_layer = Some icmpL ->
  (forall dst inner, quoted_load received ≫= quote = Some (dst, inner) ->
     (tag_len (Proto (tr_conf t)) <= length inner)%nat) ->
  buildMatcher (Proto (tr_conf t)) (buildProbe t s d ttl probe) received = true ->
  reply_ident received icmpL = Some (tag t ttl probe) /\ as_uint8 (Get icmpL "type").1 = Some type_echo_reply \/
  reply_ident received icmpL = Some (tag t ttl probe) /\ type_echo_reply = 0 /\ as_uint8 (Get icmpL "type").1 = None \/
  default 0 (as_uint8 (Get icmpL "type").1) <> type_echo_reply /\
  exists dst inner, quoted_load received ≫= quote = Some (dst, inner) /\
                    quoted_tag (Proto (tr_conf t)) inner = tag t ttl probe.
Proof.
  intros Hip Hd Hicmp Hlong. rewrite (matcher_unfold _ _ _ _ _ _ ipL Hip Hd), Hicmp.
  destruct (Get icmpL "type") as [v ok]. cbn [fst]. destruct (_ || _); [done|]. cbn zeta.
  destruct (Z.eqb_spec (default 0 (as_uint8 v)) type_echo_reply) as [Et|Et].
  - intros H. bools. match goal with H : echo_ident _ _ _ = true |- _ => rewrite echo_tag in H by done end. bools.
    destruct (as_uint8 v) as [x|]; cbn in Et; [left|right; left]; by subst.
  - destruct (_ || _); [|done]. rewrite embedded_tag.
    destruct (quoted_load received ≫= quote) as [[dst inner]|] eqn:Eq; [|done]. intros H. bools.
    right. right. split; [done|]. exists dst, inner. split; [done|].
    match goal with H : _ || _ = true |- _ => apply orb_prop in H as [H|H] end; bools; [|done].
    specialize (Hlong dst inner eq_refl). match goal with H : (_ <? _)%nat = true |- _ => apply Nat.ltb_lt in H end. lia.
Qed.

End exact.

(** ** What the matcher tells apart *)

(** A reply with an ICMP layer, whose quote (if any) is long enough, is
    accepted by the matcher of one probe of a target at most. *)
Definition identifies `{HG : Goscapy} (HF : TraceFamily) (HP : TraceProbe) (quote : bytes -> option (IP * bytes)) : Prop :=
  forall t s d received ipL icmpL ttl probe ttl' probe',
    in_u16 (tr_pid t) -> SrcPort (tr_conf t) = 0 -> 0 <= ttl <= 255 -> 0 <= ttl' <= 255 ->
    0 <= probe < max_queries (Proto (tr_conf t)) -> 0 <= probe' < max_queries (Proto (tr_conf t)) -> d <> [] ->
    GetLayer received ip_layer = Some ipL -> GetLayer received icmp_layer = Some icmpL ->
    (forall dst inner, quoted_load received ≫= quote = Some (dst, inner) ->
       (tag_len (Proto (tr_conf t)) <= length inner)%nat) ->
    buildMatcher (Proto (tr_conf t)) (buildProbe t s d ttl probe) received = true ->
    buildMatcher (Proto (tr_conf t)) (buildProbe t s d ttl' probe') received = true ->
    ttl = ttl' /\ probe = probe'.

(** The reply to a probe is accepted by its matcher: an echo reply from the
    destination with its tag, an error that quotes its destination and tag. *)
Definition accepts `{HG : Goscapy} (HF : TraceFamily) (HP : TraceProbe) (quote : bytes -> option (IP * bytes))
    (reply_ident : Packet -> Layer -> option (Z * Z)) : Prop :=
  forall t s d received ipL icmpL ttl probe,
    d <> [] -> GetLayer received ip_layer = Some ipL -> GetLayer received icmp_layer = Some icmpL ->
    (Proto (tr_conf t) = ProtoICMP -> Get icmpL "type" = (VUint8 type_echo_reply, true) -> from_dst ipL d = true ->
       reply_ident received icmpL = Some (tag t ttl probe) ->
       buildMatcher (Proto (tr_conf t)) (buildProbe t s d ttl probe) received = true) /\
    (forall ty dst inner, Get icmpL "type" = (VUint8 ty, true) -> ty = type_unreach \/ ty = type_exceed ->
       quoted_load received ≫= quote = Some (dst, inner) -> Equal dst d = true ->
       quoted_tag (Proto (tr_conf t)) inner = tag t ttl probe ->
       buildMatcher (Proto (tr_conf t)) (buildProbe t s d ttl probe) received = true).

Lemma laws_identify `{HG : Goscapy} HF HP (HL : ProbeLaws HF HP) : identifies HF HP quote.
Proof.
  intros t s d received ipL icmpL ttl probe ttl' probe' Hpid Hs Ht Ht' Hq Hq' Hd Hip Hicmp Hlong M M'.
  apply (tag_injective t); try done.
  pose proof (matched_tag t s d ttl probe received ipL icmpL Hip Hd Hicmp Hlong M) as H.
  pose proof (matched_tag t s d ttl' probe' received ipL icmpL Hip Hd Hicmp Hlong M') as H'.
  destruct H as [[E1 E2]|[[E1 [E2 E3]]|[E1 (dst & inner & E2 & E3)]]], H' as [[F1 F2]|[[F1 [F2 F3]]|[F1 (dst' & inner' & F2 & F3)]]];
    try congruence.
  - rewrite E2 in F1. by cbn in F1.
  - rewrite E3 in F1. by cbn in F1.
  - rewrite F2 in E1. by cbn in E1.
  - rewrite F3 in E1. by cbn in E1.
Qed.

Lemma laws_accept `{HG : Goscapy} HF HP (HL : ProbeLaws HF HP) :
  type_unreach <> type_echo_reply -> type_exceed <> type_echo_reply -> accepts HF HP quote reply_ident.
Proof.
  intros Hu He t s d received ipL icmpL ttl probe Hd Hip Hicmp. rewrite (matcher_unfold _ _ _ _ _ _ ipL Hip Hd), Hicmp.
  split.
  - intros Hp -> Hf Hr. cbn. rewrite Z.eqb_refl, Hf, echo_tag, Hr by done.
    by rewrite !bool_decide_eq_true_2.
  - intros ty dst inner -> Hty Hq Hdst Ht. cbn. rewrite (proj2 (Z.eqb_neq ty _)) by (destruct Hty; congruence).
    replace ((ty =? type_unreach) || (ty =? type_exceed)) with true
      by (destruct Hty as [-> | ->]; by rewrite Z.eqb_refl, ?orb_true_r).
    rewrite embedded_tag, Hq, Hdst, Ht, (bool_decide_eq_true_2 (tag t ttl probe = _)) by done. by rewrite orb_true_r.
Qed.

(** C21: no misattribution of ICMP messages: with the source port left to the
    tool, at most 16 probes per TTL (256 for ICMP) and a full quote, an echo
    reply, a destination unreachable or a time exceeded is accepted by the
    matcher of at most one probe of a target, over IPv4 and over IPv6. *)
Theorem trace_reply_identifies_probe :
  forall `{HG : Goscapy}, keeps_fields ->
    identifies traceroute_config.family traceroute.probe quote4 /\
    identifies traceroute6_config.family traceroute6.probe quote6.
Proof.
  intros HG Hk. split.
  - exact (laws_identify _ _ (traceroute_laws Hk)).
  - exact (laws_identify _ _ (traceroute6_laws Hk)).
Qed.

(** C22: the matcher accepts the replies to its own probe: the echo reply of the
    destination with the identifier and number that were sent, and the error
    message of any router that quotes destination and tag, over IPv4 (with
    any header length) and over IPv6 (behind the unused word). *)
Theorem trace_own_reply_accepted :
  forall `{HG : Goscapy}, keeps_fields ->
    accepts traceroute_config.family traceroute.probe quote4
      (fun _ icmp => Some (get_uint16 icmp "id", get_uint16 icmp "seq")) /\
    accepts traceroute6_config.family traceroute6.probe quote6
      (fun received _ => l ← GetLayer received "ICMPv6 Echo Reply"; Some (get_uint16 l "id", get_uint16 l "seq")).
Proof.
  intros HG Hk. split.
  - exact (laws_accept _ _ (traceroute_laws Hk) ltac:(done) ltac:(done)).
  - exact (laws_accept _ _ (traceroute6_laws Hk) ltac:(done) ltac:(done)).
Qed.

(** A TCP segment of the destination matches, whatever probe it answers. *)
Lemma tcp_matches `{HG : Goscapy} HF HP (HL : ProbeLaws HF HP) t s d ttl probe received ipL tcpL src ok :
  Proto (tr_conf t) = ProtoTCP -> d <> [] -> GetLayer received ip_layer = Some ipL ->
  GetLayer received icmp_layer = None -> GetLayer received "TCP" = Some tcpL ->
  Get ipL "src" = (VIP src, ok) -> src <> [] -> Equal src d = true ->
  buildMatcher (Proto (tr_conf t)) (buildProbe t s d ttl probe) received = true.
Proof.
  intros Hp Hd Hip Hicmp Htcp Hsrc Hne He. rewrite (matcher_unfold _ _ _ _ _ _ ipL Hip Hd), Hicmp, Hp, Htcp.
  rewrite bool_decide_eq_true_2 by done. unfold from_dst. rewrite Hsrc. cbn [fst as_ip].
  by rewrite bool_decide_eq_true_2, He.
Qed.

(** A TCP answer is not attributed: a SYN-ACK or RST of the destination is
    accepted by the matcher of {e every} TCP probe of the target in flight, of
    whatever TTL, and each of them then counts as having reached the
    destination; neither port nor acknowledged number is looked at. *)
Theorem tcp_answer_matches_every_probe :
  forall `{HG : Goscapy}, keeps_fields ->
    forall t s d received ipL tcpL src flags,
      Proto (tr_conf t) = ProtoTCP -> d <> [] ->
      GetLayer received "IP" = Some ipL -> GetLayer received "ICMP" = None -> GetLayer received "TCP" = Some tcpL ->
      Get ipL "src" = (VIP src, true) -> src <> [] -> Equal src d = true ->
      Get tcpL "flags" = (VUint8 flags, true) -> Z.land flags TCPSyn <> 0 \/ Z.land flags TCPRst <> 0 ->
      forall Sr1 iface ttl probe rtt,
        Sr1 (traceroute.buildProbe t s d ttl probe) iface (Timeout (tr_conf t))
          (traceroute.buildMatcher (Proto (tr_conf t))) = Some received ->
        traceroute.buildMatcher (Proto (tr_conf t)) (traceroute.buildProbe t s d ttl probe) received = true /\
        sendProbe (HF := traceroute_config.family) (HP := traceroute.probe) Sr1 t s d iface ttl probe rtt =
          mkProbeResult src rtt true false.
Proof.
  intros HG Hk t s d received ipL tcpL src flags Hp Hd Hip Hicmp Htcp Hsrc Hne He Hfl Hf Sr1 iface ttl probe rtt Hsr.
  split; [exact (tcp_matches _ _ (traceroute_laws Hk) t s d ttl probe received ipL tcpL src true Hp Hd Hip Hicmp Htcp Hsrc Hne He)|].
  unfold sendProbe. change (buildProbe t s d ttl probe) with (traceroute.buildProbe t s d ttl probe).
  change (buildMatcher (HF := traceroute_config.family) (HP := traceroute.probe) (Proto (tr_conf t)))
    with (traceroute.buildMatcher (Proto (tr_conf t))).
  rewrite Hsr. unfold extractReply. cbn [ip_layer icmp_layer traceroute_config.family].
  rewrite Hip, Hicmp, Htcp, Hp, Hsrc, Hfl. cbn [as_ip as_uint8]. rewrite bool_decide_eq_true_2 by done.
  destruct Hf as [Hf|Hf]; rewrite (proj2 (Z.eqb_neq _ 0) Hf); cbn [negb orb]; [done|by rewrite orb_true_r].
Qed.

(** ** Properties of the collection *)

Lemma appendProbe_wf h p : hop_wf h -> hop_wf (appendProbe h p).
Proof. apply hop_wf_append. Qed.

Lemma appendProbe_fields h p : TTL (appendProbe h p) = TTL h /\ Probes (appendProbe h p) = Probes h ++ [p].
Proof. unfold appendProbe, Hop.addAddr. cbn. case_bool_decide; [|done]. by destruct (existsb _ _). Qed.

Lemma foldl_appendProbe l h :
  hop_wf h -> hop_wf (foldl appendProbe h l) /\ TTL (foldl appendProbe h l) = TTL h /\
              Probes (foldl appendProbe h l) = Probes h ++ l.
Proof.
  revert h. induction l as [|p l IH]; intros h Hw; cbn [foldl]; [by rewrite app_nil_r|].
  destruct (appendProbe_fields h p) as [Ht Hp]. destruct (IH (appendProbe h p)) as (H1 & H2 & H3); [by apply appendProbe_wf|].
  split_and!; [done|congruence|]. by rewrite H3, Hp, <- app_assoc.
Qed.

(** Each hop collects the results of its own TTL, in the order of arrival. *)
Lemma append_all_lookup outcome order hops i :
  Forall (fun p => (1 <= p.1)%nat) order ->
  append_all outcome order hops !! i =
    (fun h => foldl appendProbe h (map (fun p => outcome p.1 p.2) (List.filter (fun p => p.1 =? S i)%nat order))) <$> hops !! i.
Proof.
  intros Ho. unfold append_all. revert hops. induction Ho as [|[ttl probe] order Hp _ IH]; intros hops.
  { cbn. by destruct (hops !! i). }
  cbn [foldl List.filter fst] in *. rewrite IH. destruct (Nat.eqb_spec ttl (S i)) as [->|Hne].
  - replace (S i - 1)%nat with i by lia. rewrite list_lookup_alter_eq. by destruct (hops !! i).
  - rewrite list_lookup_alter_ne by lia. done.
Qed.

Lemma append_all_length outcome order hops : length (append_all outcome order hops) = length hops.
Proof.
  unfold append_all. revert hops. induction order as [|[ttl probe] order IH]; intros hops; cbn [foldl]; [done|].
  by rewrite IH, length_alter.
Qed.

Lemma filter_pair_ne t k (qs : list nat) : t <> k -> List.filter (fun p => p.1 =? k)%nat (map (pair t) qs) = [].
Proof.
  intros Hne. induction qs as [|q qs IH]; [done|]. cbn [map List.filter fst].
  by rewrite (proj2 (Nat.eqb_neq t k)).
Qed.

Lemma filter_pair_eq k (qs : list nat) : List.filter (fun p => p.1 =? k)%nat (map (pair k) qs) = map (pair k) qs.
Proof.
  induction qs as [|q qs IH]; [done|]. cbn [map List.filter fst]. by rewrite Nat.eqb_refl, IH.
Qed.

Lemma filter_probes (qs : list nat) (k a n : nat) :
  List.filter (fun p => p.1 =? k)%nat (flat_map (fun t => map (pair t) qs) (seq a n)) =
    if (a <=? k)%nat && (k <? a + n)%nat then map (pair k) qs else [].
Proof.
  revert a. induction n as [|n IH]; intros a; cbn [seq flat_map].
  { destruct (Nat.leb_spec a k), (Nat.ltb_spec k (a + 0)); cbn; try done; lia. }
  rewrite List.filter_app, IH. destruct (decide (a = k)) as [->|Hne].
  - rewrite filter_pair_eq, (proj2 (Nat.leb_gt (S k) k)), Nat.leb_refl, (proj2 (Nat.ltb_lt k (k + S n))) by lia.
    cbn. by rewrite app_nil_r.
  - rewrite filter_pair_ne by done. cbn [app].
    replace (S a <=? k)%nat with (a <=? k)%nat
      by (destruct (Nat.leb_spec a k), (Nat.leb_spec (S a) k); done || lia).
    by replace (S a + n)%nat with (a + S n)%nat by lia.
Qed.

Lemma all_probes_ttl conf : Forall (fun p => (1 <= p.1)%nat) (all_probes conf).
Proof.
  apply Forall_forall. intros p Hp%list_elem_of_In. unfold all_probes in Hp.
  apply in_flat_map in Hp as (t & Ht%in_seq & Hp). apply in_map_iff in Hp as (q & <- & _). cbn. lia.
Qed.

(** The hop of TTL [S i] before trimming. *)
Lemma collected conf outcome order i h :
  order ≡ₚ all_probes conf -> append_all outcome order (new_hops conf) !! i = Some h ->
  (i < Z.to_nat (MaxHops conf))%nat /\ TTL h = Z.of_nat (S i) /\ hop_wf h /\
  Probes h ≡ₚ map (outcome (S i)) (seq 0 (Z.to_nat (Queries conf))).
Proof.
  intros Ho Hh.
  assert (Hi : (i < Z.to_nat (MaxHops conf))%nat).
  { apply lookup_lt_Some in Hh. rewrite append_all_length in Hh. unfold new_hops in Hh. by rewrite length_map, length_seq in Hh. }
  rewrite append_all_lookup in Hh by (rewrite Ho; apply all_probes_ttl).
  unfold new_hops in Hh. rewrite list_lookup_fmap, lookup_seq_lt in Hh by done. cbn [fmap option_fmap option_map] in Hh.
  injection Hh as Hh.
  match type of Hh with foldl appendProbe ?h0 ?l = _ => destruct (foldl_appendProbe l h0 (hop_wf_new _)) as (H1 & H2 & H3) end.
  rewrite Hh in H1, H2, H3. split_and!; [done|done|done|]. rewrite H3. cbn [app Probes].
  rewrite (filter_perm _ _ _ Ho). unfold all_probes. rewrite filter_probes.
  rewrite (proj2 (Nat.leb_le _ _)), (proj2 (Nat.ltb_lt _ _)) by lia. cbn [andb]. by rewrite map_map.
Qed.

Lemma first_reached_spec i hops :
  match first_reached i hops with
  | Some k => exists j h, k = (i + j)%nat /\ hops !! j = Some h /\ Hop.Reached h = true /\
                          forall j' h', (j' < j)%nat -> hops !! j' = Some h' -> Hop.Reached h' = false
  | None => forall j h, hops !! j = Some h -> Hop.Reached h = false
  end.
Proof.
  revert i. induction hops as [|h hops IH]; intros i; cbn [first_reached]; [done|].
  destruct (Hop.Reached h) eqn:E.
  - exists 0%nat, h. split_and!; [lia|done|done|]. intros; lia.
  - specialize (IH (S i)). destruct (first_reached (S i) hops) as [k|].
    + destruct IH as (j & h' & -> & H1 & H2 & H3). exists (S j), h'. split_and!; [lia|done|done|].
      intros [|j'] h2 Hj Hh2; [cbn in Hh2; congruence|]. apply (H3 j'); [lia|done].
    + intros [|j] h' Hh'; [cbn in Hh'; congruence|]. by apply (IH j).
Qed.

(** Some probe of the TTL reached the destination. *)
Definition ttl_reached (conf : Config) (outcome : nat -> nat -> ProbeResult) (ttl : nat) : Prop :=
  exists probe, (probe < Z.to_nat (Queries conf))%nat /\ ReachedDst (outcome ttl probe) = true.

Lemma Reached_spec conf outcome i h :
  Probes h ≡ₚ map (outcome (S i)) (seq 0 (Z.to_nat (Queries conf))) ->
  Hop.Reached h = true <-> ttl_reached conf outcome (S i).
Proof.
  intros Hp. unfold Hop.Reached, ttl_reached. rewrite existsb_exists. setoid_rewrite <- list_elem_of_In. split.
  - intros (p & Hin & Hr). rewrite Hp in Hin. apply list_elem_of_fmap in Hin as (q & -> & Hq%elem_of_seq).
    exists q. split; [lia|done].
  - intros (q & Hq & Hr). exists (outcome (S i) q). split; [|done]. rewrite Hp. apply list_elem_of_fmap_2, elem_of_seq. lia.
Qed.

(** C19: the concurrent collection: in whatever order the goroutines of a target
    append their results, hop [k] of the result is that of TTL [k + 1], holds
    exactly the results of the probes of that TTL and is well formed (parallel
    lists, distinct responders). If a probe reached the destination, the trace
    ends with the smallest TTL that did; otherwise all TTLs are kept. *)
Theorem traceTarget_collects :
  forall conf outcome order dst dstIP,
    order ≡ₚ all_probes conf ->
    let r := traceTarget conf outcome order dst dstIP in
    (forall k h, Hops r !! k = Some h ->
       TTL h = Z.of_nat (S k) /\ hop_wf h /\ Probes h ≡ₚ map (outcome (S k)) (seq 0 (Z.to_nat (Queries conf)))) /\
    (ResReached r = true /\ (1 <= length (Hops r) <= Z.to_nat (MaxHops conf))%nat /\
       ttl_reached conf outcome (length (Hops r)) /\
       (forall ttl, (1 <= ttl < length (Hops r))%nat -> ~ ttl_reached conf outcome ttl) \/
     ResReached r = false /\ length (Hops r) = Z.to_nat (MaxHops conf) /\
       (forall ttl, (1 <= ttl <= Z.to_nat (MaxHops conf))%nat -> ~ ttl_reached conf outcome ttl)).
Proof.
  intros conf outcome order dst dstIP Ho r. subst r. unfold traceTarget, finalize. cbn [Hops].
  set (hops := append_all outcome order (new_hops conf)).
  assert (Hcol : forall i h, hops !! i = Some h -> _) by (intros i h; exact (collected conf outcome order i h Ho)).
  assert (Hlen : length hops = Z.to_nat (MaxHops conf))
    by (unfold hops; rewrite append_all_length; unfold new_hops; by rewrite length_map, length_seq).
  assert (Hget : forall i, (i < Z.to_nat (MaxHops conf))%nat -> exists h, hops !! i = Some h /\
            (Hop.Reached h = true <-> ttl_reached conf outcome (S i))).
  { intros i Hi. destruct (hops !! i) as [h|] eqn:E; [|apply lookup_ge_None in E; lia].
    exists h. split; [done|]. apply Reached_spec. by apply Hcol in E as (_ & _ & _ & ?). }
  pose proof (first_reached_spec 0 hops) as Hf. destruct (first_reached 0 hops) as [k|].
  - destruct Hf as (j & h & -> & Hh & Hr & Hbefore). cbn [Hops ResReached]. rewrite Nat.add_0_l.
    pose proof (lookup_lt_Some _ _ _ Hh) as Hj.
    assert (Hl : length (take (S j) hops) = S j) by (rewrite length_take; lia). split.
    + intros k h' Hk. apply lookup_take_Some in Hk as [Hk _]. by apply Hcol in Hk as (_ & ? & ? & ?).
    + left. rewrite Hl. split_and!; [done|lia|lia| |].
      * destruct (Hget j) as (h' & Hh' & Hiff); [lia|]. apply Hiff. congruence.
      * intros ttl Ht. destruct (Hget (ttl - 1)%nat) as (h' & Hh' & Hiff); [lia|].
        replace (S (ttl - 1)) with ttl in Hiff by lia. rewrite <- Hiff, (Hbefore (ttl - 1)%nat h'); [done|lia|done].
  - cbn [Hops ResReached]. split.
    + intros k h' Hk. by apply Hcol in Hk as (_ & ? & ? & ?).
    + right. split_and!; [done|done|]. intros ttl Ht. destruct (Hget (ttl - 1)%nat) as (h' & Hh' & Hiff); [lia|].
      replace (S (ttl - 1)) with ttl in Hiff by lia. rewrite <- Hiff, (Hf (ttl - 1)%nat h'); done.
Qed.

(** ** [Run] *)















Section run_properties.
Context `{HF : TraceFamily}.


(** A validated override is never refused. *)
Lemma override_ok a d e : (a <> "" -> parse_addr a <> []) -> exists ip, override a d e = inl ip.
Proof.
  intros H. unfold override. case_bool_decide as E; [by eexists|].
  rewrite bool_decide_eq_false_2 by auto. by eexists.
Qed.







End run_properties.

Module samples.

Definition conf : Config :=
  mkConfig ["10.0.0.9"] "10.0.0.1" "eth0" ProtoICMP 3 2 33434 1000 0 0 false "" "" 16 true [].

(** TTL 1 is a router, TTL 2 reaches the destination, probe (1, 1) is lost. *)
Definition outcome (ttl probe : nat) : ProbeResult :=
  match ttl, probe with
  | 1%nat, 1%nat => mkProbeResult [] 0 false true
  | 1%nat, _ => mkProbeResult [10; 0; 0; 2] 100 false false
  | _, _ => mkProbeResult [10; 0; 0; 9] (Z.of_nat (200 + probe)) true false
  end.

Definition order : list (nat * nat) := [(2, 1); (1, 0); (3, 1); (2, 0); (3, 0); (1, 1)]%nat.

Lemma order_ok : order ≡ₚ all_probes conf.
Proof. apply NoDup_Permutation; [apply (bool_decide_unpack _); vm_compute; done..|]. intros [a b]. vm_compute. set_solver. Qed.

Example trace_run :
  let r := traceTarget conf outcome order "10.0.0.9" [10; 0; 0; 9] in
  ResReached r = true /\ map Addrs (Hops r) = [[[10; 0; 0; 2]]; [[10; 0; 0; 9]]] /\
  map Hop.MaxRTT (Hops r) = [100; 201] /\ map Hop.AvgRTT (Hops r) = [100; 200].
Proof. vm_compute. repeat split. Qed.

(** A time-exceeded message of a router that quotes probe (2, 1): the IPv4
    header up to the destination, then identifier 7 and sequence 513. *)
Definition exceeded : list (string * list (string * GoVal)) :=
  [("IP", [("src", VIP [10; 0; 0; 2])]); ("ICMP", [("type", VUint8 11)]);
   ("Raw", [("load", VBytes ([69; 0; 0; 0; 0; 0; 0; 0; 0; 0; 0; 0; 10; 0; 0; 1; 10; 0; 0; 9] ++
                             [8; 0; 0; 0; 0; 7; 2; 1]))])].

Definition tcp_conf : Config :=
  mkConfig ["10.0.0.9"] "10.0.0.1" "eth0" ProtoTCP 3 2 80 1000 0 0 false "" "" 16 true [].

Definition syn_ack : list (string * list (string * GoVal)) :=
  [("IP", [("src", VIP [10; 0; 0; 9])]); ("TCP", [("flags", VUint8 18)])].


End samples.

Lemma ephemeralSrcPort_distinguishes_witness :
  ephemeralSrcPort 65000 255 15 = 36559 /\
  (ephemeralSrcPort 65000 255 15 = ephemeralSrcPort 65000 254 15 -> 255 = 254) /\
  ephemeralSrcPort 65000 254 16 = ephemeralSrcPort 65000 255 0.
Proof.
  destruct (ephemeralSrcPort_distinguishes 65000) as (_ & Hi & Hs); [unfold in_u16; lia|].
  split_and!; [reflexivity| |by apply (Hs 254)].
  intros H. by apply (Hi 255 15 254 15) in H as [H _].
Defined.

Lemma trace_reply_identifies_probe_witness :
  let t := NewTracer samples.conf 7 in
  let accepts ttl probe :=
    traceroute.buildMatcher (HG := Toy.net) ProtoICMP
      (traceroute.buildProbe (HG := Toy.net) t [10; 0; 0; 1] [10; 0; 0; 9] ttl probe) samples.exceeded in
  accepts 2 1 = true /\
  forall ttl probe, 0 <= ttl <= 255 -> 0 <= probe < 256 -> accepts ttl probe = true -> 2 = ttl /\ 1 = probe.
Proof.
  cbn zeta. split; [vm_compute; reflexivity|]. intros ttl probe Ht Hq H.
  destruct (trace_reply_identifies_probe (HG := Toy.net) Toy.net_keeps_fields) as [Hid _].
  refine (Hid (NewTracer samples.conf 7) [10; 0; 0; 1] [10; 0; 0; 9] samples.exceeded
    [("src", VIP [10; 0; 0; 2])] [("type", VUint8 11)] 2 1 ttl probe
    _ eq_refl _ Ht _ Hq _ eq_refl eq_refl _ _ H).
  - by vm_compute.
  - lia.
  - cbn. lia.
  - done.
  - intros dst inner. vm_compute. by intros [= <- <-].
  - vm_compute. reflexivity.
Defined.

Lemma trace_own_reply_accepted_witness :
  let t := NewTracer samples.conf 7 in
  traceroute.buildMatcher (HG := Toy.net) ProtoICMP
    (traceroute.buildProbe (HG := Toy.net) t [10; 0; 0; 1] [10; 0; 0; 9] 2 1) samples.exceeded = true.
Proof.
  destruct (trace_own_reply_accepted (HG := Toy.net) Toy.net_keeps_fields) as [Hacc _].
  destruct (Hacc (NewTracer samples.conf 7) [10; 0; 0; 1] [10; 0; 0; 9] samples.exceeded
    [("src", VIP [10; 0; 0; 2])] [("type", VUint8 11)] 2 1) as [_ H]; [done..|].
  eapply (H 11); [reflexivity|right; reflexivity|reflexivity|by vm_compute|by vm_compute].
Defined.

Lemma tcp_answer_matches_every_probe_witness :
  let result ttl := sendProbe (HG := Toy.net) (HF := traceroute_config.family) (HP := traceroute.probe)
    (fun _ _ _ _ => Some samples.syn_ack) (NewTracer samples.tcp_conf 7) [10; 0; 0; 1] [10; 0; 0; 9] "eth0" ttl 0 5 in
  result 1 = mkProbeResult [10; 0; 0; 9] 5 true false /\ result 20 = result 1.
Proof.
  cbn beta zeta.
  assert (H : forall ttl,
    sendProbe (HG := Toy.net) (HF := traceroute_config.family) (HP := traceroute.probe)
      (fun _ _ _ _ => Some samples.syn_ack) (NewTracer samples.tcp_conf 7) [10; 0; 0; 1] [10; 0; 0; 9] "eth0" ttl 0 5 =
    mkProbeResult [10; 0; 0; 9] 5 true false).
  { intros ttl.
    eapply (tcp_answer_matches_every_probe (HG := Toy.net) Toy.net_keeps_fields (NewTracer samples.tcp_conf 7)
      [10; 0; 0; 1] [10; 0; 0; 9] samples.syn_ack [("src", VIP [10; 0; 0; 9])] [("flags", VUint8 18)] [10; 0; 0; 9] 18);
      try reflexivity; try done.
    left. by vm_compute. }
  by rewrite !H.
Defined.

Lemma traceTarget_collects_witness :
  let r := traceTarget samples.conf samples.outcome samples.order "10.0.0.9" [10; 0; 0; 9] in
  length (Hops r) = 2%nat /\ forall k h, Hops r !! k = Some h -> hop_wf h /\ TTL h = Z.of_nat (S k).
Proof.
  destruct (traceTarget_collects samples.conf samples.outcome samples.order "10.0.0.9" [10; 0; 0; 9] samples.order_ok)
    as [Hh _].
  split; [vm_compute; reflexivity|]. intros k h Hk. by destruct (Hh k h Hk) as (? & ? & _).
Defined.

