(* ===== verification/Format.v ===== *)
(** * Text output ([traceroute/format.go], [traceroute6/format.go], the senders
      of [stat/sender.go] and [lidar/sender.go])

    The verbs of [fmt] the program uses, the rendering of a traceroute result,
    and the log lines of the statistics. The time of day of a report, in the
    local zone, is an argument. *)

From stdpp Require Import sorting.
From Stdlib Require Import SpecFloat.
From S2P Require Import Prelude GoStd GoNet GoDuration UdpStat Enrich TraceConfig Hop Tracer.
Local Open Scope Z_scope.

(** ** [fmt] *)

Definition spaces (n : nat) : string := String.string_of_list_ascii (replicate n " "%char).

(** %-Ns: padded on the right to [n] characters. *)
Definition pad_right (n : nat) (s : string) : string := s +:+ spaces (n - String.length s).

(** [a / b] rounded to the nearest integer, ties to even. *)
Definition round_half_even (a b : Z) : Z :=
  let q := a / b in
  let r := a mod b in
  if (b <? 2 * r) || ((2 * r =? b) && Z.odd q) then q + 1 else q.

(** %.Nf of a [float64]: the exact value rounded to [n] decimals. *)
Definition fmt_f (n : nat) (f : float64) : string :=
  let text (s : bool) (scaled : Z) :=
    (if s then "-" else "") +:+ itoa (scaled / 10 ^ Z.of_nat n) +:+
    (if (n =? 0)%nat then "" else "." +:+ digits n (scaled mod 10 ^ Z.of_nat n)) in
  match f with
  | S754_zero s => text s 0
  | S754_infinity s => if s then "-Inf" else "+Inf"
  | S754_nan => "NaN"
  | S754_finite s m e =>
      let scaled := Z.pos m * 10 ^ Z.of_nat n in
      text s (if 0 <=? e then scaled * 2 ^ e else round_half_even scaled (2 ^ (- e)))
  end.

(** %v of a map: the entries in the order of the keys. *)
Definition fmt_map {K V} (le : K -> K -> Prop) `{!∀ x y, Decision (le x y)} `{Countable K} (k : K -> string) (v : V -> string)
    (m : gmap K V) : string :=
  let entries := merge_sort (fun a b => le a.1 b.1) (map_to_list m) in
  "map[" +:+ Join (map (fun e => k e.1 +:+ ":" +:+ v e.2) entries) " " +:+ "]".

Definition newline : string := String (Ascii.ascii_of_nat 10) "".

(** ** A traceroute result *)

(** [formatRTT]. *)
Definition formatRTT (d : Z) : string :=
  fmt_f 3 (float64_div (float64_of_int d) (float64_of_int Millisecond)) +:+ "ms".

Definition nonempty (s : string) : bool := negb (bool_decide (s = "")).

(** [formatInfo]; [None] is a [nil] pointer. *)
Definition formatInfo (info : option IPInfo) : string :=
  match info with
  | None => ""
  | Some info =>
      let asn := (if negb (ASN info =? 0) then ["AS" +:+ itoa (ASN info)] else []) ++
                 List.filter nonempty [ASName info; Prefix info] in
      let geo := List.filter nonempty [Country info; Region info; City info] in
      let geo := if (length geo =? 0)%nat && nonempty (Org info) && negb (nonempty (ASName info))
                 then geo ++ [Org info] else geo in
      let parts := (if (0 <? length asn)%nat then [Join asn " "] else []) ++
                   (if (0 <? length geo)%nat then [Join geo " "] else []) in
      if (length parts =? 0)%nat then "" else "[" +:+ Join parts " | " +:+ "]"
  end.

(** [strings.TrimSuffix(s, ".")]. *)
Definition TrimSuffix_dot (s : string) : string :=
  match reverse (String.list_ascii_of_string s) with
  | "."%char :: l => String.string_of_list_ascii (reverse l)
  | _ => s
  end.

(** The text of responder [ai]. *)
Definition responder (h : Hop) (ai : nat) (addr : IP) : string :=
  let host := default "" (Hosts h !! ai) in
  let label := if nonempty host then TrimSuffix_dot host else IP_String addr in
  (if (0 <? ai)%nat then "    " else "") +:+ label +:+ " (" +:+ IP_String addr +:+ ")" +:+
  (if (ai <? length (Infos h))%nat then
     let extra := formatInfo (default None (Infos h !! ai)) in
     if nonempty extra then " " +:+ extra else ""
   else "") +:+ " ".

Definition probe_text (p : ProbeResult) : string := if TimedOut p then " *" else "  " +:+ formatRTT (RTT p).

(** [writeHopLine]: what it appends. *)
Definition writeHopLine (h : Hop) : string :=
  pad_right 3 (itoa (TTL h)) +:+ " " +:+
  (if (length (Addrs h) =? 0)%nat then
     String.concat "" (map (fun _ => "* ") (Probes h))
   else
     String.concat "" (imap (responder h) (Addrs h)) +:+ String.concat "" (map probe_text (Probes h))) +:+
  newline.

Section result.
(** The name of the tool and of its protocols, the width of an address. *)
Variables (tool : string) (proto_name : Protocol -> string) (width : nat).

(** [Result.String]. *)
Definition Result_String (r : Result) : string :=
  tool +:+ " to " +:+ Dst r +:+ " (" +:+ IP_String (DstAddr r) +:+ "), " +:+ itoa (ResMaxHops r) +:+ " hops max, " +:+
  proto_name (ResProto r) +:+ " probes, " +:+ itoa 60 +:+ " byte packets" +:+ newline +:+
  String.concat "" (map writeHopLine (Hops r)).

(** [Result.Summary]. *)
Definition summary_line (h : Hop) : string :=
  let addr := match Addrs h with a :: _ => IP_String a | [] => "*" end in
  "ttl=" +:+ pad_right 3 (itoa (TTL h)) +:+ " " +:+ pad_right width addr +:+
  " loss=" +:+ fmt_f 0 (float64_mul (Hop.LossRate h) (float64_of_int 100)) +:+ "%" +:+
  " min=" +:+ formatRTT (Hop.MinRTT h) +:+ " avg=" +:+ formatRTT (Hop.AvgRTT h) +:+
  " max=" +:+ formatRTT (Hop.MaxRTT h) +:+ newline.

Definition Summary (r : Result) : string := String.concat "" (map summary_line (Hops r)).

End result.

Module traceroute_format.
Definition Result_String := Result_String "traceroute" traceroute_config.Protocol_String.
Definition Summary := Summary 15.
End traceroute_format.

Module traceroute6_format.
Definition writeHopLine := writeHopLine.
Definition formatRTT := formatRTT.
Definition formatInfo := formatInfo.
Definition Result_String := Result_String "traceroute6" traceroute6_config.Protocol_String.
Definition Summary := Summary 39.
End traceroute6_format.

(** ** Log lines of the statistics *)

Section senders.
(** [Timestamp.Format("15:04:05")]. *)
Variable clock : Z -> string.

Definition link_text (r : StatResult) : string := "[" +:+ ClientAddr r +:+ " -> " +:+ ServerAddr r +:+ "]".
Definition level (r : StatResult) : string := if Loss r =? 0 then "[INFO] " else "[WARN] ".
Definition counts_text (r : StatResult) : string :=
  "sent: " +:+ itoa (Sent r) +:+ ", received: " +:+ itoa (ReceivedN r).
Definition rate_text (r : StatResult) : string :=
  ", loss: " +:+ itoa (Loss r) +:+ ", loss rate: " +:+
  fmt_f 2 (float64_mul (LossRate r) (float64_of_int 100)) +:+ "%".

Definition loss_ports (r : StatResult) : string :=
  "[WARN] " +:+ clock (Timestamp r) +:+ ", " +:+ link_text r +:+ ", loss ports: " +:+
  fmt_map Z.le itoa itoa (LossPorts r).

(** [LogSender.Send]: the lines it logs. *)
Definition LogSender_Send (verbose : bool) (r : StatResult) : list string :=
  let line := level r +:+ clock (Timestamp r) +:+ ", " +:+ link_text r +:+ ", " +:+ counts_text r +:+ rate_text r in
  let line := if ServerSide r then line else line +:+ ", avg rtt: " +:+ itoa (AvgRTT r) +:+ " ns" in
  line :: (if negb (Loss r =? 0) && verbose then [loss_ports r] else []).

(** [LidarSender.Send]. *)
Definition LidarSender_Send (verbose : bool) (r : StatResult) : list string :=
  let line := level r +:+ clock (Timestamp r) +:+ ", " +:+ link_text r +:+ ", " +:+ counts_text r +:+
    " (SYN-ACK: " +:+ itoa (SynAckCount r) +:+ ", RST: " +:+ itoa (RSTCount r) +:+ "), timeout: " +:+ itoa (Loss r) in
  line :: (if negb (Loss r =? 0) && verbose && (0 <? size (LossPortsCount r))%nat then
             ["[WARN] " +:+ clock (Timestamp r) +:+ ", " +:+ link_text r +:+ ", timeout ports: " +:+
              fmt_map String.le (fun k => k) itoa (LossPortsCount r)]
           else []).

End senders.

Example rtt_texts :
  map formatRTT [0; 999; 1500; 2500; 1234567; 12345678901] =
    ["0.000ms"; "0.001ms"; "0.002ms"; "0.003ms"; "1.235ms"; "12345.679ms"].
Proof. vm_compute. reflexivity. Qed.

Example info_texts :
  formatInfo (Some (mkIPInfo [] 15169 "GOOGLE" "8.8.8.0/24" "US" "" "Mountain View" "Google LLC")) =
    "[AS15169 GOOGLE 8.8.8.0/24 | US Mountain View]" /\
  formatInfo (Some (mkIPInfo [] 0 "" "" "" "" "" "Some ISP")) = "[Some ISP]" /\
  formatInfo (Some (mkIPInfo [] 15169 "" "" "" "" "" "Google LLC")) = "[AS15169 | Google LLC]" /\
  formatInfo (Some (new_info [])) = "".
Proof. vm_compute. repeat split. Qed.

Example hop_line :
  writeHopLine (mkHop 3 [mkProbeResult [10; 0; 0; 1] 1500000 false false; mkProbeResult [] 0 false true]
                  [[10; 0; 0; 1]] ["gw.example."] [None]) =
    "3   gw.example (10.0.0.1)   1.500ms *" +:+ newline.
Proof. vm_compute. reflexivity. Qed.

Example summary :
  summary_line 15 (mkHop 3 [mkProbeResult [10; 0; 0; 1] 1500000 false false; mkProbeResult [] 0 false true;
                            mkProbeResult [] 0 false true] [[10; 0; 0; 1]] [""] [None]) =
    "ttl=3   10.0.0.1        loss=67% min=1.500ms avg=1.500ms max=1.500ms" +:+ newline.
Proof. vm_compute. reflexivity. Qed.
