(* ===== verification/Targets.v ===== *)
(** * Targets on the command line ([cmd/mping], [cmd/mping6], [cmd/traceroute],
      [cmd/traceroute6])

    Lists of targets, the expansion of CIDR ranges, and the resolution of names
    before any packet is sent. [net.ParseCIDR] and the masks of [net] are
    translated from the standard library; [net.LookupHost] is the host's. *)

From S2P Require Import Prelude GoStd GoText GoNet PingConfig TraceConfig.
Local Open Scope Z_scope.

(** ** Lists of targets *)

(** [splitNonEmpty]; the copy of [cmd/mping] returns early on "", to no
    effect. *)
Definition splitNonEmpty (s : string) : list string :=
  List.filter (fun part => negb (bool_decide (part = ""))) (map TrimSpace (Split s ",")).

Definition mping_splitNonEmpty (s : string) : list string :=
  if bool_decide (s = "") then [] else splitNonEmpty s.

Lemma mping_splitNonEmpty_same s : mping_splitNonEmpty s = splitNonEmpty s.
Proof. unfold mping_splitNonEmpty. case_bool_decide; [by subst|done]. Qed.

(** ** CIDR notation *)

(** [net.IPNet]. *)
Record IPNet := mkIPNet {
  net_ip : IP;
  net_mask : bytes
}.

(** The bytes of [net.CIDRMask(n, 8*l)]. *)
Fixpoint CIDRMask (n : Z) (l : nat) : bytes :=
  match l with
  | O => []
  | S l =>
      if 8 <=? n then 255 :: CIDRMask (n - 8) l
      else Z.lxor 255 (Z.shiftr 255 n) :: CIDRMask 0 l
  end.

(** [IP.Mask] for an address of the length of the mask. *)
Definition mask_bytes (ip mask : bytes) : bytes := zip_with Z.land ip mask.

(** [IP.Mask]; [nil] is the empty list. *)
Definition Mask (ip mask : bytes) : IP :=
  let mask := if (length mask =? IPv6len)%nat && (length ip =? IPv4len)%nat && bytes_equal (take 12 mask) (replicate 12 255)
              then drop 12 mask else mask in
  let ip := if (length mask =? IPv4len)%nat && (length ip =? IPv6len)%nat && bytes_equal (take 12 ip) v4InV6Prefix
            then drop 12 ip else ip in
  if negb (length ip =? length mask)%nat then [] else mask_bytes ip mask.

(** [net.ParseCIDR], the network only; [None] is its error. *)
Definition ParseCIDR (s : string) : option IPNet :=
  '(addr, mask) ← cut_byte s "/";
  ip ← ParseIP addr;
  n ← parse_decimal mask;
  let l := if bool_decide (address_kind addr = Some "."%char) then IPv4len else IPv6len in
  if 8 * Z.of_nat l <? n then None
  else let m := CIDRMask n l in Some (mkIPNet (Mask ip m) m).

(** The ones in front of a byte, if nothing else is set. *)
Fixpoint leading_ones (fuel : nat) (b : Z) : option Z :=
  match fuel with
  | O => if b =? 0 then Some 0 else None
  | S fuel =>
      if negb (Z.land b 128 =? 0) then n ← leading_ones fuel (u8 (Z.shiftl b 1)); Some (1 + n)
      else if b =? 0 then Some 0 else None
  end.

(** [net.simpleMaskLength]; [None] is -1. *)
Fixpoint simpleMaskLength (mask : bytes) : option Z :=
  match mask with
  | [] => Some 0
  | v :: mask =>
      if v =? 255 then n ← simpleMaskLength mask; Some (8 + n)
      else
        n ← leading_ones 8 v;
        if forallb (fun b => b =? 0) mask then Some n else None
  end.

(** [IPMask.Size]. *)
Definition mask_size (mask : bytes) : Z * Z :=
  match simpleMaskLength mask with
  | Some ones => (ones, 8 * Z.of_nat (length mask))
  | None => (0, 0)
  end.

(** ** [cmd/mping] *)

(** The loop of [incrementIP], from the last byte on. *)
Fixpoint increment (l : bytes) : bytes :=
  match l with
  | [] => []
  | b :: l => let b := u8 (b + 1) in if b =? 0 then b :: increment l else b :: l
  end.

Definition incrementIP (ip : IP) : IP := reverse (increment (reverse ip)).

(** The loop of [expandCIDR]; it ends when the address comes round. *)
Fixpoint expand_loop (fuel : nat) (network broadcast current : IP) : option (list string) :=
  match fuel with
  | O => None
  | S fuel =>
      let current := incrementIP current in
      if Equal current broadcast || Equal current network then Some []
      else addrs ← expand_loop fuel network broadcast current; Some (IP_String current :: addrs)
  end.

(** [expandCIDR]. *)
Definition expandCIDR (fuel : nat) (ipNet : IPNet) : option (list string) :=
  match To4 (net_ip ipNet) with
  | None => Some []
  | Some ip =>
      let mask := net_mask ipNet in
      if negb (length mask =? 4)%nat then Some []
      else
        let network := mask_bytes ip mask in
        let broadcast := zip_with (fun b m => Z.lor b (Z.lxor 255 m)) network mask in
        expand_loop fuel network broadcast network
  end.

(** ** [cmd/mping6] *)

(** [expandCIDR6]; [FillBytes] panics on a number of more than 16 bytes. *)
Fixpoint expand6_loop (n : nat) (ipInt : Z) : option (list string) :=
  match n with
  | O => Some []
  | S n =>
      if 2 ^ 128 <=? ipInt then None
      else addrs ← expand6_loop n (ipInt + 1); Some (IP_String (put_be 16 ipInt) :: addrs)
  end.

Definition expandCIDR6 (ipNet : IPNet) : option (list string) :=
  let '(ones, bits) := mask_size (net_mask ipNet) in
  if negb (bits =? 128) then Some []
  else
    let hostBits := bits - ones in
    if 16 <? hostBits then Some []
    else
      match To16 (net_ip ipNet) with
      | None => Some []
      | Some base => expand6_loop (Z.to_nat (Z.shiftl 1 hostBits)) (get_be base)
      end.

(** ** Expansion *)

Inductive target_error :=
| ErrCannotResolve (a : string)
| ErrNoValid.

Section expand.
(** The expansion of a range, and the addresses of the family. *)
Variable expand : IPNet -> option (list string).
Variable family : IP -> bool.

(** A target that is no range: a literal of the family, or a name. *)
Definition literal_or_name (h : Host) (addr : string) : list string + target_error :=
  match (ip ← ParseIP addr; if family ip then Some ip else None) with
  | Some ip => inl [IP_String ip]
  | None =>
      match LookupHost h addr with
      | None => inr (ErrCannotResolve addr)
      | Some addrs =>
          inl (List.filter (fun a => match ParseIP a with Some ip => family ip | None => false end) addrs)
      end
  end.

(** The body of the loop over the targets; a range that expands to nothing is
    tried as the others. *)
Definition expand_target (h : Host) (addr : string) : option (list string + target_error) :=
  match ParseCIDR addr with
  | Some ipNet =>
      expanded ← expand ipNet;
      Some (if (length expanded =? 0)%nat then literal_or_name h addr else inl expanded)
  | None => Some (literal_or_name h addr)
  end.

Fixpoint expand_targets (h : Host) (addrs : list string) : option (list string + target_error) :=
  match addrs with
  | [] => Some (inl [])
  | addr :: addrs =>
      r ← expand_target h addr;
      match r with
      | inr e => Some (inr e)
      | inl l =>
          rest ← expand_targets h addrs;
          Some (match rest with inl ls => inl (l ++ ls) | inr e => inr e end)
      end
  end.

(** The targets of a run: the expansion, at most [maxTargets]; a negative
    bound panics. *)
Definition target_list (h : Host) (addrs : list string) (maxTargets : Z) : option (list string + target_error) :=
  r ← expand_targets h addrs;
  match r with
  | inr e => Some (inr e)
  | inl l =>
      if (length l =? 0)%nat then Some (inr ErrNoValid)
      else if maxTargets <? Z.of_nat (length l) then
        if maxTargets <? 0 then None else Some (inl (take (Z.to_nat maxTargets) l))
      else Some (inl l)
  end.

End expand.

Definition is_v4 (ip : IP) : bool := bool_decide (To4 ip <> None).
Definition is_v6 (ip : IP) : bool := bool_decide (To4 ip = None) && bool_decide (To16 ip <> None).

Module mping.
Definition targets (fuel : nat) := target_list (expandCIDR fuel) is_v4.
End mping.

Module mping6.
Definition incrementIP := incrementIP.
Definition targets := target_list expandCIDR6 is_v6.
End mping6.

(** ** [cmd/traceroute], [cmd/traceroute6] *)

Inductive resolve_error :=
| ErrFamily (a : string)
| ErrLookup (a : string)
| ErrNoAddress (a : string)
| ErrNoTargets.

Section resolve.
(** An address of the family in its printed form. *)
Variable literal : IP -> option string.

(** [add] of [resolveTargets]. *)
Definition add_target (ip : string) (st : gset string * list string) : gset string * list string :=
  let '(seen, out) := st in
  if bool_decide (ip ∈ seen) then st else ({[ip]} ∪ seen, out ++ [ip]).

(** The address an input stands for. *)
Definition resolve_one (h : Host) (inp : string) : string + resolve_error :=
  match ParseIP inp with
  | Some ip => match literal ip with Some s => inl s | None => inr (ErrFamily inp) end
  | None =>
      match LookupHost h inp with
      | None => inr (ErrLookup inp)
      | Some addrs =>
          match List.find (fun a => match ParseIP a ≫= literal with Some _ => true | None => false end) addrs with
          | Some a => match ParseIP a ≫= literal with Some s => inl s | None => inr (ErrNoAddress inp) end
          | None => inr (ErrNoAddress inp)
          end
      end
  end.

Fixpoint resolve_loop (h : Host) (inputs : list string) (st : gset string * list string) :
    list string + resolve_error :=
  match inputs with
  | [] => if (length st.2 =? 0)%nat then inr ErrNoTargets else inl st.2
  | inp :: inputs =>
      match resolve_one h inp with
      | inr e => inr e
      | inl ip => resolve_loop h inputs (add_target ip st)
      end
  end.

(** [resolveTargets]. *)
Definition resolveTargets (h : Host) (inputs : list string) : list string + resolve_error :=
  resolve_loop h inputs (∅, []).

End resolve.

Module traceroute_cmd.
Definition literal (ip : IP) : option string := IP_String <$> To4 ip.
Definition resolveTargets := resolveTargets literal.
End traceroute_cmd.

Module traceroute6_cmd.
Definition literal (ip : IP) : option string := if is_v6 ip then Some (IP_String ip) else None.
Definition resolveTargets := resolveTargets literal.
End traceroute6_cmd.

Example cidr_29 :
  (ParseCIDR "10.0.0.13/29" ≫= expandCIDR 20) =
    Some ["10.0.0.9"; "10.0.0.10"; "10.0.0.11"; "10.0.0.12"; "10.0.0.13"; "10.0.0.14"].
Proof. vm_compute. reflexivity. Qed.

Example cidr_31 : (ParseCIDR "10.0.0.13/31" ≫= expandCIDR 20) = Some [].
Proof. vm_compute. reflexivity. Qed.

(** A single address is no range: the loop runs over everything else. *)
Example cidr_32 : (ParseCIDR "10.0.0.13/32" ≫= expandCIDR 5000) = None.
Proof. vm_compute. reflexivity. Qed.

Example cidr6_126 :
  (ParseCIDR "fe80::7/126" ≫= expandCIDR6) = Some ["fe80::4"; "fe80::5"; "fe80::6"; "fe80::7"].
Proof. vm_compute. reflexivity. Qed.

(** ** Addresses as numbers *)

Lemma get_le_app a b : get_le (a ++ b) = get_le a + 256 ^ Z.of_nat (length a) * get_le b.
Proof.
  induction a as [|x a IH]; cbn [app get_le length]; [lia|].
  rewrite IH, Nat2Z.inj_succ, Z.pow_succ_r by lia. lia.
Qed.

Lemma get_be_cons x l : get_be (x :: l) = x * 256 ^ Z.of_nat (length l) + get_be l.
Proof. unfold get_be. rewrite reverse_cons, get_le_app, length_reverse. cbn [get_le]. lia. Qed.

Lemma get_be_bound l : Forall is_byte l -> 0 <= get_be l < 256 ^ Z.of_nat (length l).
Proof. intros H. unfold get_be. rewrite <- length_reverse. by apply get_le_bound, Forall_reverse. Qed.

Lemma get_be_inj l l' :
  Forall is_byte l -> Forall is_byte l' -> length l = length l' -> get_be l = get_be l' -> l = l'.
Proof. intros H H' Hl E. rewrite <- (put_get_be l), <- (put_get_be l'), Hl, E by done. done. Qed.

Lemma increment_spec l :
  Forall is_byte l ->
  Forall is_byte (increment l) /\ length (increment l) = length l /\
  get_le (increment l) = (get_le l + 1) mod 256 ^ Z.of_nat (length l).
Proof.
  induction 1 as [|b l Hb Hl IH]; cbn [increment]; [by rewrite Z.mod_1_r|].
  destruct IH as (I1 & I2 & I3). pose proof (get_le_bound l Hl) as Hbd. unfold is_byte in Hb.
  unfold u8. change (2 ^ 8) with 256. cbn [length get_le]. rewrite (Nat2Z.inj_succ (length l)), Z.pow_succ_r by lia.
  destruct (Z.eqb_spec ((b + 1) mod 256) 0) as [E|E]; cbn [get_le length].
  - assert (b = 255) as -> by (Z.div_mod_to_equations; lia).
    split_and!; [constructor; [unfold is_byte; lia|done]|lia|]. rewrite I3.
    replace (255 + 256 * get_le l + 1) with (256 * (get_le l + 1)) by lia.
    rewrite Z.mul_mod_distr_l by lia. lia.
  - assert (b + 1 < 256) by (destruct (decide (b = 255)) as [->|]; [done|lia]).
    rewrite (Z.mod_small (b + 1)) in * by lia.
    split_and!; [constructor; [unfold is_byte; lia|done]|done|]. rewrite Z.mod_small by lia. lia.
Qed.

Lemma incrementIP_spec l :
  Forall is_byte l -> incrementIP l = put_be (length l) ((get_be l + 1) mod 256 ^ Z.of_nat (length l)).
Proof.
  intros H. destruct (increment_spec (reverse l)) as (H1 & H2 & H3); [by apply Forall_reverse|].
  rewrite length_reverse in H2, H3. unfold incrementIP, get_be in *. unfold put_be. f_equal.
  rewrite <- H3, <- H2. symmetry. by apply put_get_le.
Qed.

(** ** Masks *)

(** The bytes of a mask, checked one by one. *)
Lemma mask_byte n b :
  0 <= n < 8 -> is_byte b ->
  let m := Z.lxor 255 (Z.shiftr 255 n) in
  Z.land b m = b - b mod 2 ^ (8 - n) /\ Z.lor (Z.land b m) (Z.lxor 255 m) = b - b mod 2 ^ (8 - n) + (2 ^ (8 - n) - 1).
Proof.
  intros Hn Hb m. subst m.
  assert (H : forallb (fun n => forallb (fun b =>
      let m := Z.lxor 255 (Z.shiftr 255 n) in
      (Z.land b m =? b - b mod 2 ^ (8 - n)) &&
      (Z.lor (Z.land b m) (Z.lxor 255 m) =? b - b mod 2 ^ (8 - n) + (2 ^ (8 - n) - 1)))
      (map Z.of_nat (seq 0 256))) (map Z.of_nat (seq 0 8)) = true) by (vm_compute; reflexivity).
  unfold is_byte in Hb. rewrite forallb_forall in H.
  specialize (H n ltac:(apply in_map_iff; exists (Z.to_nat n); rewrite in_seq; split; lia)).
  rewrite forallb_forall in H.
  specialize (H b ltac:(apply in_map_iff; exists (Z.to_nat b); rewrite in_seq; split; lia)).
  cbn zeta in H. by apply andb_prop in H as [->%Z.eqb_eq ->%Z.eqb_eq].
Qed.

Lemma length_CIDRMask n l : length (CIDRMask n l) = l.
Proof. revert n. induction l as [|l IH]; intros n; cbn [CIDRMask]; [done|]. destruct (8 <=? n); cbn; by rewrite IH. Qed.

Definition broadcast_of (network mask : bytes) : bytes := zip_with (fun b m => Z.lor b (Z.lxor 255 m)) network mask.

Lemma land_byte a b : is_byte a -> 0 <= b -> is_byte (Z.land a b).
Proof.
  unfold is_byte. intros Ha Hb. split; [apply Z.land_nonneg; lia|].
  destruct (decide (Z.land a b = 0)) as [->|]; [lia|].
  apply Z.log2_lt_pow2 with (b := 8); [pose proof (proj2 (Z.land_nonneg a b)); lia|].
  pose proof (Z.log2_land a b ltac:(lia) ltac:(lia)).
  assert (Z.log2 a < 8); [|lia]. destruct (decide (a = 0)) as [->|]; [cbn; lia|]. apply Z.log2_lt_pow2; lia.
Qed.

Lemma CIDRMask_nonneg n l : 0 <= n -> Forall (fun m => 0 <= m <= 255) (CIDRMask n l).
Proof.
  revert n. induction l as [|l IH]; intros n Hn; cbn [CIDRMask]; [constructor|].
  destruct (Z.leb_spec 8 n); (constructor; [|apply IH; lia]); [lia|].
  assert (n = 0 \/ n = 1 \/ n = 2 \/ n = 3 \/ n = 4 \/ n = 5 \/ n = 6 \/ n = 7) as Hc by lia.
  destruct_or! Hc; subst; vm_compute; split; discriminate.
Qed.

Lemma mask_bytes_byte ip mask :
  Forall is_byte ip -> Forall (fun m => 0 <= m <= 255) mask -> Forall is_byte (mask_bytes ip mask).
Proof.
  intros H. revert mask. induction H as [|b ip Hb _ IH]; intros mask Hm; [constructor|].
  destruct Hm as [|m mask Hm Hms]; cbn; constructor; [apply land_byte; [done|lia]|by apply IH].
Qed.

(** The bytes of a broadcast address. *)
Lemma lor_lxor_byte b m : is_byte b -> 0 <= m <= 255 -> is_byte (Z.lor b (Z.lxor 255 m)).
Proof.
  unfold is_byte. intros Hb Hm. assert (0 <= Z.lxor 255 m) by (apply Z.lxor_nonneg; lia).
  assert (0 <= Z.lor b (Z.lxor 255 m)) by (apply Z.lor_nonneg; lia). split; [done|].
  destruct (decide (Z.lor b (Z.lxor 255 m) = 0)) as [->|]; [lia|]. apply Z.log2_lt_pow2 with (b := 8); [lia|].
  rewrite Z.log2_lor by lia. pose proof (Z.log2_lxor 255 m ltac:(lia) ltac:(lia)). change (Z.log2 255) with 7 in *.
  pose proof (Z.log2_le_mono b 255 ltac:(lia)). pose proof (Z.log2_le_mono m 255 ltac:(lia)).
  change (Z.log2 255) with 7 in *. lia.
Qed.

Lemma broadcast_byte network mask :
  Forall is_byte network -> Forall (fun m => 0 <= m <= 255) mask -> Forall is_byte (broadcast_of network mask).
Proof.
  intros H. revert mask. induction H as [|b l Hb _ IH]; intros mask Hm; [constructor|].
  destruct Hm as [|m mask Hm Hms]; cbn; constructor; [by apply lor_lxor_byte|by apply IH].
Qed.

Lemma mask_value n ip :
  Forall is_byte ip -> 0 <= n <= 8 * Z.of_nat (length ip) ->
  let size := 2 ^ (8 * Z.of_nat (length ip) - n) in
  let network := mask_bytes ip (CIDRMask n (length ip)) in
  get_be network = get_be ip - get_be ip mod size /\
  get_be (broadcast_of network (CIDRMask n (length ip))) = get_be ip - get_be ip mod size + (size - 1).
Proof.
  intros H. revert n. induction H as [|b ip Hb Hip IH]; intros n Hn; cbn zeta.
  { cbn [length CIDRMask mask_bytes broadcast_of zip_with]. cbn [length] in Hn.
    assert (n = 0) as -> by lia. done. }
  cbn [length] in *. set (L := Z.of_nat (length ip)) in *. pose proof (get_be_bound ip Hip) as Hbd. fold L in Hbd.
  assert (HP : 256 ^ L = 2 ^ (8 * L)) by (rewrite Z.pow_mul_r by lia; done).
  replace (8 * Z.of_nat (S (length ip)) - n) with (8 * L - (n - 8)) by lia. cbn [CIDRMask].
  unfold mask_bytes, broadcast_of. destruct (Z.leb_spec 8 n) as [H8|H8]; cbn [zip_with].
  - destruct (IH (n - 8)) as [I1 I2]; [lia|]. cbn zeta in I1, I2. unfold mask_bytes, broadcast_of in I1, I2.
    rewrite !get_be_cons, !length_zip_with, !length_CIDRMask, !Nat.min_id. fold L. rewrite I1, I2.
    assert (Hland : Z.land b 255 = b)
      by (change 255 with (Z.ones 8); rewrite Z.land_ones by lia; apply Z.mod_small; exact Hb).
    change (Z.lxor 255 255) with 0. rewrite Z.lor_0_r, Hland.
    assert (Hmod : (b * 256 ^ L + get_be ip) mod 2 ^ (8 * L - (n - 8)) = get_be ip mod 2 ^ (8 * L - (n - 8))).
    { rewrite HP. replace (2 ^ (8 * L)) with (2 ^ (n - 8) * 2 ^ (8 * L - (n - 8)))
        by (rewrite <- Z.pow_add_r by lia; f_equal; lia).
      rewrite Z.mul_assoc, Z.add_comm. apply Z_mod_plus_full. }
    rewrite Hmod. lia.
  - destruct (IH 0) as [I1 I2]; [lia|]. cbn zeta in I1, I2. unfold mask_bytes, broadcast_of in I1, I2.
    destruct (mask_byte n b) as [M1 M2]; [lia|done|]. cbn zeta in M1, M2.
    rewrite !get_be_cons, !length_zip_with, !length_CIDRMask, !Nat.min_id. fold L. rewrite I1, I2, M2, M1.
    rewrite Z.sub_0_r. rewrite (Z.mod_small (get_be ip)) by (rewrite <- HP; lia).
    set (s := 2 ^ (8 - n)). assert (Hs : 0 < s) by (apply Z.pow_pos_nonneg; lia).
    replace (2 ^ (8 * L - (n - 8))) with (s * 256 ^ L)
      by (rewrite HP; unfold s; rewrite <- Z.pow_add_r by lia; f_equal; lia).
    assert (Hmod : (b * 256 ^ L + get_be ip) mod (s * 256 ^ L) = (b mod s) * 256 ^ L + get_be ip).
    { rewrite (Z_div_mod_eq_full b s) at 1. symmetry. apply (Z.mod_unique_pos _ _ (b / s)).
      - pose proof (Z.mod_pos_bound b s Hs). nia.
      - lia. }
    rewrite Hmod, <- HP. lia.
Qed.

(** ** The loop of [expandCIDR] *)

Definition addr4 (z : Z) : IP := put_be 4 z.

Lemma addr4_bytes z : Forall is_byte (addr4 z) /\ length (addr4 z) = 4%nat.
Proof. split; [apply put_be_bytes|apply length_put_be]. Qed.

Lemma get_addr4 z : 0 <= z < 2 ^ 32 -> get_be (addr4 z) = z.
Proof. intros H. unfold addr4. rewrite get_put_be. by apply Z.mod_small. Qed.

Lemma addr4_get l : Forall is_byte l -> length l = 4%nat -> addr4 (get_be l) = l.
Proof. intros H Hl. unfold addr4. rewrite <- Hl. by apply put_get_be. Qed.

Lemma Equal_addr4 a b : 0 <= a < 2 ^ 32 -> 0 <= b < 2 ^ 32 -> Equal (addr4 a) (addr4 b) = (a =? b).
Proof.
  intros Ha Hb. unfold Equal. rewrite !(proj2 (addr4_bytes _)). cbn [Nat.eqb].
  destruct (Z.eqb_spec a b) as [->|Hne]; [by apply bytes_equal_true|].
  apply not_true_iff_false. intros E%bytes_equal_true. apply Hne.
  by rewrite <- (get_addr4 a), <- (get_addr4 b), E.
Qed.

Lemma incrementIP_addr4 z : incrementIP (addr4 z) = addr4 ((z + 1) mod 2 ^ 32).
Proof.
  destruct (addr4_bytes z) as [H1 H2]. rewrite incrementIP_spec, H2 by done. unfold addr4 at 1 2.
  rewrite get_put_be. change (256 ^ Z.of_nat 4) with (2 ^ 32). by rewrite Zplus_mod_idemp_l.
Qed.

(** The addresses [k] steps on, up to the one where the loop stops. *)
Lemma expand_loop_spec k fuel network broadcast v :
  0 <= network < 2 ^ 32 -> 0 <= broadcast < 2 ^ 32 -> (k < fuel)%nat ->
  (forall j, 1 <= j <= Z.of_nat k -> (v + j) mod 2 ^ 32 <> network /\ (v + j) mod 2 ^ 32 <> broadcast) ->
  (v + Z.of_nat k + 1) mod 2 ^ 32 = network \/ (v + Z.of_nat k + 1) mod 2 ^ 32 = broadcast ->
  expand_loop fuel (addr4 network) (addr4 broadcast) (addr4 v) =
    Some (map (fun j => IP_String (addr4 ((v + j) mod 2 ^ 32))) (seqZ 1 (Z.of_nat k))).
Proof.
  intros Hn Hb. revert fuel v. induction k as [|k IH]; intros [|fuel] v Hf Hgo Hstop; try lia; cbn [expand_loop].
  all: rewrite incrementIP_addr4, !Equal_addr4 by (done || apply Z.mod_pos_bound; lia).
  - replace (v + Z.of_nat 0 + 1) with (v + 1) in Hstop by lia.
    by destruct Hstop as [-> | ->]; rewrite Z.eqb_refl, ?orb_true_r.
  - destruct (Hgo 1) as [H1 H2]; [lia|].
    rewrite (proj2 (Z.eqb_neq _ broadcast)), (proj2 (Z.eqb_neq _ network)) by done. cbn [orb].
    assert (Hs : forall j, ((v + 1) mod 2 ^ 32 + j) mod 2 ^ 32 = (v + (1 + j)) mod 2 ^ 32)
      by (intros j; rewrite Zplus_mod_idemp_l; f_equal; lia).
    rewrite IH.
    + cbn [mbind option_bind]. rewrite (seqZ_cons 1 (Z.of_nat (S k))) by lia. cbn [map]. do 2 f_equal.
      replace (Z.pred (Z.of_nat (S k))) with (Z.of_nat k) by lia.
      change (Z.succ 1) with (1 + 1). rewrite <- (fmap_add_seqZ 1 1 (Z.of_nat k)), map_map.
      apply map_ext. intros j. by rewrite Hs.
    + lia.
    + intros j Hj. rewrite Hs. apply Hgo. lia.
    + replace ((v + 1) mod 2 ^ 32 + Z.of_nat k + 1) with ((v + 1) mod 2 ^ 32 + (Z.of_nat k + 1)) by lia.
      rewrite Hs. by replace (v + (1 + (Z.of_nat k + 1))) with (v + Z.of_nat (S k) + 1) by lia.
Qed.

(** The network [ip/n] as [ParseCIDR] returns it for an IPv4 address. *)
Definition net4 (ip : IP) (n : Z) : IPNet := mkIPNet (mask_bytes ip (CIDRMask n 4)) (CIDRMask n 4).

(** How many addresses [expandCIDR] lists for a prefix length. *)
Definition expand_count (n : Z) : Z := if n =? 32 then 2 ^ 32 - 1 else 2 ^ (32 - n) - 2.

Lemma mask_bytes_idem ip mask : mask_bytes (mask_bytes ip mask) mask = mask_bytes ip mask.
Proof.
  revert mask. induction ip as [|b ip IH]; intros [|m mask]; cbn; try done.
  fold (mask_bytes ip mask). unfold mask_bytes in IH. rewrite IH. f_equal.
  by rewrite <- Z.land_assoc, Z.land_diag.
Qed.

(** The first and the last address of a network. *)
Lemma net4_numbers ip n :
  length ip = 4%nat -> Forall is_byte ip -> 0 <= n <= 32 ->
  let size := 2 ^ (32 - n) in
  let first := get_be ip - get_be ip mod size in
  mask_bytes ip (CIDRMask n 4) = addr4 first /\
  broadcast_of (addr4 first) (CIDRMask n 4) = addr4 (first + (size - 1)) /\
  0 < size <= 2 ^ 32 /\ 0 <= first /\ first + (size - 1) < 2 ^ 32 /\ (n = 32 /\ size = 1 \/ n <> 32 /\ 2 <= size).
Proof.
  intros Hl Hb Hn size first. destruct (mask_value n ip Hb ltac:(rewrite Hl; lia)) as [M1 M2].
  rewrite Hl in M1, M2. change (8 * Z.of_nat 4) with 32 in M1, M2. fold size in M1, M2. fold first in M1, M2.
  assert (Hsz : 0 < size) by (apply Z.pow_pos_nonneg; lia).
  pose proof (get_be_bound ip Hb) as Hbd. rewrite Hl in Hbd. change (256 ^ Z.of_nat 4) with (2 ^ 32) in Hbd.
  set (network := mask_bytes ip (CIDRMask n 4)) in *.
  assert (Hm : Forall (fun m => 0 <= m <= 255) (CIDRMask n 4)) by (apply CIDRMask_nonneg; lia).
  assert (Hnb : Forall is_byte network) by by apply mask_bytes_byte.
  assert (Hnl : length network = 4%nat) by (unfold network, mask_bytes; by rewrite length_zip_with, length_CIDRMask, Hl).
  assert (Hbl : length (broadcast_of network (CIDRMask n 4)) = 4%nat)
    by (unfold broadcast_of; by rewrite length_zip_with, length_CIDRMask, Hnl).
  assert (Hnet : network = addr4 first) by (rewrite <- M1; symmetry; by apply addr4_get).
  rewrite <- Hnet. split_and!; [done| |done|apply Z.pow_le_mono_r; lia| | |].
  - rewrite <- M2. symmetry. apply addr4_get; [by apply broadcast_byte|done].
  - unfold first. pose proof (Z.mod_le (get_be ip) size). lia.
  - assert (2 ^ 32 = size * 2 ^ n) as E by (unfold size; rewrite <- Z.pow_add_r by lia; f_equal; lia).
    pose proof (Z_div_mod_eq_full (get_be ip) size). unfold first.
    assert (get_be ip / size < 2 ^ n) by (apply Z.div_lt_upper_bound; lia). nia.
  - destruct (decide (n = 32)) as [->|Hne]; [by left|right]. split; [done|].
    change 2 with (2 ^ 1) at 1. apply Z.pow_le_mono_r; lia.
Qed.

Lemma expandCIDR_count ip n fuel :
  length ip = 4%nat -> Forall is_byte ip -> 0 <= n <= 32 -> expand_count n < Z.of_nat fuel ->
  let first := get_be ip - get_be ip mod 2 ^ (32 - n) in
  expandCIDR fuel (net4 ip n) =
    Some (map (fun j => IP_String (addr4 ((first + j) mod 2 ^ 32))) (seqZ 1 (expand_count n))).
Proof.
  intros Hl Hb Hn Hf first. destruct (net4_numbers ip n Hl Hb Hn) as (Hnet & Hbc & Hs1 & Hf1 & Hf2 & Hcase).
  fold first in Hnet, Hbc, Hf1, Hf2. unfold expandCIDR, net4. cbn [net_ip net_mask].
  rewrite Hnet. unfold To4. rewrite (proj2 (addr4_bytes _)). cbn [Nat.eqb IPv4len]. rewrite length_CIDRMask.
  cbn [Nat.eqb negb]. rewrite <- Hnet, mask_bytes_idem, Hnet.
  change (zip_with _ (addr4 first) (CIDRMask n 4)) with (broadcast_of (addr4 first) (CIDRMask n 4)). rewrite Hbc.
  assert (Hc0 : 0 <= expand_count n).
  { unfold expand_count. destruct Hcase as [[-> _]|[Hne ?]]; [done|]. rewrite (proj2 (Z.eqb_neq _ _)) by done. lia. }
  rewrite <- (Z2Nat.id (expand_count n)) at 1 by done.
  rewrite (expand_loop_spec (Z.to_nat (expand_count n))); try (rewrite Z2Nat.id by done); try lia; [done|..].
  - intros j Hj. destruct Hcase as [[-> Hs]|[Hne Hs]].
    + change (expand_count 32) with (2 ^ 32 - 1) in Hj. rewrite Hs, Z.sub_diag, Z.add_0_r.
      split; intros E; Z.div_mod_to_equations; lia.
    + unfold expand_count in Hj. rewrite (proj2 (Z.eqb_neq n 32)) in Hj by done. rewrite Z.mod_small by lia. lia.
  - destruct Hcase as [[-> Hs]|[Hne Hs]].
    + change (expand_count 32) with (2 ^ 32 - 1). left.
      replace (first + (2 ^ 32 - 1) + 1) with (first + 1 * 2 ^ 32) by lia.
      rewrite Z_mod_plus_full. apply Z.mod_small. lia.
    + unfold expand_count. rewrite (proj2 (Z.eqb_neq n 32)) by done. right. rewrite Z.mod_small by lia. lia.
Qed.

(** ** Dotted addresses *)

Lemma address_kind_app s t : address_kind s = None -> address_kind (s +:+ t) = address_kind t.
Proof.
  induction s as [|c s IH]; [done|]. change (String c s +:+ t) with (String c (s +:+ t)). cbn [address_kind].
  by destruct (bool_decide _).
Qed.

Lemma address_kind_no_dot s : address_kind s = None -> no_char "." s.
Proof.
  induction s as [|c s IH]; [done|]. cbn [address_kind no_char]. case_bool_decide as H; [done|].
  intros Hs. split; [|by apply IH]. intros ->. apply H. by left.
Qed.

Lemma octet_text b : is_byte b -> parse_octet (itoa b) = Some b /\ address_kind (itoa b) = None.
Proof.
  intros Hb. assert (H : forallb (fun b => bool_decide (parse_octet (itoa b) = Some b) &&
    bool_decide (address_kind (itoa b) = None)) (map Z.of_nat (seq 0 256)) = true) by (vm_compute; reflexivity).
  rewrite forallb_forall in H. unfold is_byte in Hb.
  specialize (H b ltac:(apply in_map_iff; exists (Z.to_nat b); rewrite in_seq; split; lia)). by bools.
Qed.

(** Printing an IPv4 address and parsing it. *)
Lemma ParseIP_dotted ip :
  length ip = 4%nat -> Forall is_byte ip -> ParseIP (IP_String ip) = Some (v4InV6Prefix ++ ip).
Proof.
  intros Hl Hb. destruct ip as [|a [|b [|c [|d [|]]]]]; try done.
  do 4 (apply Forall_cons in Hb as [? Hb]).
  destruct (octet_text a), (octet_text b), (octet_text c), (octet_text d); [done..|].
  change (IP_String [a; b; c; d]) with (itoa a +:+ String "." (itoa b +:+ String "." (itoa c +:+ String "." (itoa d)))).
  unfold ParseIP. rewrite address_kind_app by done. cbn [address_kind].
  change (bool_decide _) with true. cbn iota. unfold parse_ipv4.
  do 3 rewrite Split_app by by apply address_kind_no_dot.
  rewrite Split_no_char by by apply address_kind_no_dot.
  repeat match goal with H : parse_octet _ = Some _ |- _ => rewrite H; clear H end. done.
Qed.

Lemma v4_text ip : length ip = 4%nat -> Forall is_byte ip -> not_ipv4 (IP_String ip) = false.
Proof.
  intros Hl Hb. unfold not_ipv4. rewrite ParseIP_dotted by done. apply bool_decide_eq_false_2.
  unfold To4. rewrite length_app, Hl. cbn [length v4InV6Prefix Nat.add Nat.eqb IPv4len IPv6len].
  rewrite take_app_length' by done. done.
Qed.

(** The printed form of an address does not depend on its length. *)
Lemma IP_String_To4 ip ip4 : To4 ip = Some ip4 -> IP_String ip = IP_String ip4.
Proof.
  intros H. pose proof (To4_length _ _ H) as Hl. destruct ip as [|x ip]; [done|].
  unfold IP_String at 1. rewrite H. unfold IP_String. destruct ip4 as [|y ip4]; [done|].
  unfold To4. by rewrite Hl.
Qed.

(** ** What [cmd/mping] hands to the pinger *)

Lemma expand_loop_valid fuel network broadcast current l :
  Forall is_byte current -> length current = 4%nat -> expand_loop fuel network broadcast current = Some l ->
  Forall (fun a => not_ipv4 a = false) l.
Proof.
  revert current l. induction fuel as [|fuel IH]; intros current l Hb Hl; cbn [expand_loop]; [done|].
  rewrite incrementIP_spec, Hl by done. fold (addr4 ((get_be current + 1) mod 256 ^ Z.of_nat 4)).
  destruct (addr4_bytes ((get_be current + 1) mod 256 ^ Z.of_nat 4)) as [Hb' Hl'].
  destruct (_ || _); [intros [= <-]; constructor|].
  destruct (expand_loop _ _ _ _) as [l'|] eqn:E; cbn [mbind option_bind]; [|done]. intros <-%Some_inj.
  constructor; [by apply v4_text|]. by eapply IH.
Qed.

Lemma ParseCIDR_bytes s n :
  ParseCIDR s = Some n -> Forall is_byte (net_ip n) /\ Forall (fun m => 0 <= m <= 255) (net_mask n).
Proof.
  unfold ParseCIDR. destruct (cut_byte s "/") as [[addr mask]|]; cbn [mbind option_bind]; [|done].
  destruct (ParseIP addr) as [ip|] eqn:Eip; cbn [mbind option_bind]; [|done].
  destruct (parse_decimal mask) as [k|] eqn:Ek; cbn [mbind option_bind]; [|done].
  destruct (_ <? k); [done|]. intros [= <-]. cbn [net_ip net_mask].
  apply ParseIP_bytes in Eip. apply parse_decimal_nonneg in Ek.
  pose proof (CIDRMask_nonneg k (if bool_decide (address_kind addr = Some "."%char) then IPv4len else IPv6len) Ek) as Hm.
  split; [|done]. unfold Mask. destruct (negb _); [constructor|].
  apply mask_bytes_byte; [destruct (_ && _ && _); [by apply Forall_drop|done]|].
  destruct (_ && _ && _); [by apply Forall_drop|done].
Qed.

Lemma expandCIDR_valid fuel s n l :
  ParseCIDR s = Some n -> expandCIDR fuel n = Some l -> Forall (fun a => not_ipv4 a = false) l.
Proof.
  intros [Hb Hm]%ParseCIDR_bytes. unfold expandCIDR.
  destruct (To4 (net_ip n)) as [ip|] eqn:E; [|intros [= <-]; constructor].
  destruct (Nat.eqb_spec (length (net_mask n)) 4) as [Hl|]; cbn [negb]; [|intros [= <-]; constructor].
  pose proof (To4_length _ _ E) as Hip. apply expand_loop_valid.
  - apply mask_bytes_byte; [|done]. unfold To4 in E.
    destruct (_ =? _)%nat; [by injection E as <-|]. destruct (_ && _); [injection E as <-; by apply Forall_drop|done].
  - unfold mask_bytes. by rewrite length_zip_with, Hip, Hl.
Qed.

Lemma literal_or_name_valid h addr l :
  literal_or_name is_v4 h addr = inl l -> Forall (fun a => not_ipv4 a = false) l.
Proof.
  unfold literal_or_name. destruct (ip ← ParseIP addr; _) as [ip|] eqn:Eip.
  - intros [= <-]. destruct (ParseIP addr) as [ip0|] eqn:Ep; cbn [mbind option_bind] in Eip; [|done].
    unfold is_v4 in Eip. case_bool_decide as H4; [|done]. injection Eip as ->.
    destruct (To4 ip) as [ip4|] eqn:E4; [|done]. constructor; [|constructor]. rewrite (IP_String_To4 _ _ E4).
    by eapply v4_text; eapply To4_bytes.
  - destruct (LookupHost h addr) as [addrs|]; [|done]. intros [= <-]. apply Forall_forall.
    intros a Ha%list_elem_of_In%filter_In. destruct Ha as [_ Ha]. unfold not_ipv4.
    destruct (ParseIP a); [|done]. unfold is_v4 in Ha. apply bool_decide_eq_true in Ha. by apply bool_decide_eq_false_2.
Qed.

Lemma expand_target_valid fuel h addr l :
  expand_target (expandCIDR fuel) is_v4 h addr = Some (inl l) -> Forall (fun a => not_ipv4 a = false) l.
Proof.
  unfold expand_target.
  destruct (ParseCIDR addr) as [n|] eqn:En; [|intros [= H]; by eapply literal_or_name_valid].
  destruct (expandCIDR fuel n) as [e|] eqn:Ee; cbn [mbind option_bind]; [|done].
  destruct (_ =? 0)%nat; [intros [= H]; by eapply literal_or_name_valid|]. intros [= <-]. by eapply expandCIDR_valid.
Qed.

Lemma expand_targets_valid fuel h addrs l :
  expand_targets (expandCIDR fuel) is_v4 h addrs = Some (inl l) -> Forall (fun a => not_ipv4 a = false) l.
Proof.
  revert l. induction addrs as [|addr addrs IH]; intros l; cbn [expand_targets]; [intros [= <-]; constructor|].
  destruct (expand_target _ _ h addr) as [[l1|e]|] eqn:E1; cbn [mbind option_bind]; [|done|done].
  destruct (expand_targets _ _ h addrs) as [[l2|e]|]; cbn [mbind option_bind]; [|done|done]. intros [= <-].
  apply Forall_app. split; [by eapply expand_target_valid|by apply IH].
Qed.

(** C37: the hosts of a range: for a prefix of at most 30 bits [expandCIDR] lists
    every address strictly between the network and the broadcast address, in
    order and each once; a /31 has none. A /32 is no single host: the loop only
    ends when it comes round, after every other address there is. *)
Theorem expandCIDR_hosts :
  forall ip n fuel,
    length ip = 4%nat -> Forall is_byte ip -> 0 <= n <= 32 -> expand_count n < Z.of_nat fuel ->
    let size := 2 ^ (32 - n) in
    let first := get_be ip - get_be ip mod size in
    exists hosts, expandCIDR fuel (net4 ip n) = Some (map (fun x => IP_String (put_be 4 x)) hosts) /\
      NoDup hosts /\
      (n < 32 -> hosts = seqZ (first + 1) (size - 2)) /\
      (n = 32 -> forall x, x ∈ hosts <-> 0 <= x < 2 ^ 32 /\ x <> get_be ip).
Proof.
  intros ip n fuel Hl Hb Hn Hf size first.
  destruct (net4_numbers ip n Hl Hb Hn) as (_ & _ & Hs1 & Hf1 & Hf2 & Hcase). fold size in Hs1, Hf2, Hcase.
  fold first in Hf2. change (0 <= first) in Hf1.
  exists (map (fun j => (first + j) mod 2 ^ 32) (seqZ 1 (expand_count n))). split_and!.
  - rewrite expandCIDR_count by done. by rewrite map_map.
  - apply NoDup_fmap_2_strong; [|apply NoDup_seqZ]. intros j j' Hj%elem_of_seqZ Hj'%elem_of_seqZ E.
    assert (Hc : expand_count n < 2 ^ 32) by (unfold expand_count; fold size; destruct (n =? 32); lia).
    clearbody first. clear -Hj Hj' Hc E. Z.div_mod_to_equations. assert (q = q0) by lia. lia.
  - intros Hlt. unfold expand_count. rewrite (proj2 (Z.eqb_neq n 32)) by lia. fold size.
    rewrite <- (fmap_add_seqZ first 1 (size - 2)). apply map_ext_in. intros j Hj%list_elem_of_In%elem_of_seqZ.
    apply Z.mod_small. lia.
  - intros -> x. change (expand_count 32) with (2 ^ 32 - 1).
    assert (Hfirst : first = get_be ip) by (unfold first, size; change (2 ^ (32 - 32)) with 1; rewrite Z.mod_1_r; lia).
    destruct Hcase as [[_ Hs]|[? _]]; [|done]. rewrite <- Hfirst. rewrite list_elem_of_fmap. split.
    + intros (j & -> & Hj%elem_of_seqZ). split; [apply Z.mod_pos_bound; lia|]. Z.div_mod_to_equations; lia.
    + intros [Hx Hne]. exists ((x - first) mod 2 ^ 32). split.
      * rewrite Zplus_mod_idemp_r. replace (first + (x - first)) with x by lia. symmetry. by apply Z.mod_small.
      * apply elem_of_seqZ. Z.div_mod_to_equations; lia.
Qed.

Lemma expandCIDR_hosts_witness :
  expandCIDR 8 (net4 [10; 0; 0; 13] 29) =
    Some ["10.0.0.9"; "10.0.0.10"; "10.0.0.11"; "10.0.0.12"; "10.0.0.13"; "10.0.0.14"].
Proof.
  destruct (expandCIDR_hosts [10; 0; 0; 13] 29 8 eq_refl) as (hosts & -> & _ & Hh & _);
    [repeat constructor; done|lia|reflexivity|].
  rewrite Hh by lia. reflexivity.
Defined.

(** Over IPv6 the whole range is listed, its first address included, if it has
    at most 65536 addresses; the 128-bit counter never leaves its 16 bytes. *)
Lemma expand6_loop_spec n v :
  0 <= v -> v + Z.of_nat n <= 2 ^ 128 ->
  expand6_loop n v = Some (map (fun x => IP_String (put_be 16 x)) (seqZ v (Z.of_nat n))).
Proof.
  revert v. induction n as [|n IH]; intros v Hv Hb; cbn [expand6_loop]; [done|].
  rewrite (proj2 (Z.leb_gt _ _)), IH by lia. cbn [mbind option_bind].
  rewrite (seqZ_cons v (Z.of_nat (S n))) by lia. cbn [map]. replace (Z.pred (Z.of_nat (S n))) with (Z.of_nat n) by lia. done.
Qed.

Lemma mask_size_CIDRMask n : 0 <= n <= 128 -> mask_size (CIDRMask n 16) = (n, 128).
Proof.
  intros Hn. assert (H : forallb (fun n => bool_decide (mask_size (CIDRMask n 16) = (n, 128)))
    (map Z.of_nat (seq 0 129)) = true) by (vm_compute; reflexivity).
  rewrite forallb_forall in H.
  specialize (H n ltac:(apply in_map_iff; exists (Z.to_nat n); rewrite in_seq; split; lia)). by bools.
Qed.

Lemma expandCIDR6_all ip n :
  length ip = 16%nat -> Forall is_byte ip -> 0 <= n <= 128 ->
  let size := 2 ^ (128 - n) in
  let first := get_be ip - get_be ip mod size in
  expandCIDR6 (mkIPNet (mask_bytes ip (CIDRMask n 16)) (CIDRMask n 16)) =
    Some (if 16 <? 128 - n then [] else map (fun x => IP_String (put_be 16 x)) (seqZ first size)).
Proof.
  intros Hl Hb Hn size first. unfold expandCIDR6. cbn [net_mask net_ip]. rewrite mask_size_CIDRMask by done.
  cbn [Z.eqb Pos.eqb negb]. destruct (Z.ltb_spec 16 (128 - n)); [done|].
  destruct (mask_value n ip Hb ltac:(rewrite Hl; lia)) as [M1 _]. rewrite Hl in M1.
  change (8 * Z.of_nat 16) with 128 in M1. fold size in M1. fold first in M1.
  unfold To16, mask_bytes. rewrite length_zip_with, length_CIDRMask, Hl. cbn [Nat.min Nat.eqb IPv4len IPv6len].
  fold (mask_bytes ip (CIDRMask n 16)). rewrite M1, Z.shiftl_1_l. fold size.
  assert (Hs : 0 < size) by (apply Z.pow_pos_nonneg; lia).
  rewrite expand6_loop_spec; rewrite ?Z2Nat.id by lia; [done|..].
  - unfold first. pose proof (Z.mod_le (get_be ip) size). pose proof (get_be_bound ip Hb). lia.
  - pose proof (get_be_bound ip Hb) as Hbd. rewrite Hl in Hbd. change (256 ^ Z.of_nat 16) with (2 ^ 128) in Hbd.
    assert (2 ^ 128 = size * 2 ^ n) as E by (unfold size; rewrite <- Z.pow_add_r by lia; f_equal; lia).
    pose proof (Z_div_mod_eq_full (get_be ip) size). unfold first.
    assert (get_be ip / size < 2 ^ n) by (apply Z.div_lt_upper_bound; lia). nia.
Qed.

(** The targets [cmd/mping] starts with: whatever ranges, literals and names
    it is given, if it gets past its own checks every target is an IPv4
    address [Config.Validate] accepts, there are at most [maxTargets], and at
    least one unless that is 0. *)
Theorem mping_targets_valid :
  forall fuel h addrs maxTargets l,
    mping.targets fuel h addrs maxTargets = Some (inl l) ->
    Forall (fun a => ping_config.check_ipv4 a = inl tt) l /\ Z.of_nat (length l) <= maxTargets /\
    (0 < maxTargets -> l <> []).
Proof.
  intros fuel h addrs maxTargets l. unfold mping.targets, target_list.
  destruct (expand_targets _ _ h addrs) as [[l0|e]|] eqn:E; cbn [mbind option_bind]; [|done|done].
  pose proof (expand_targets_valid _ _ _ _ E) as Hv. destruct (Nat.eqb_spec (length l0) 0) as [|Hne]; [done|].
  assert (Hc : Forall (fun a => ping_config.check_ipv4 a = inl tt) l0)
    by (eapply Forall_impl; [exact Hv|]; intros a Ha; unfold ping_config.check_ipv4; by rewrite Ha).
  destruct (Z.ltb_spec maxTargets (Z.of_nat (length l0))).
  - destruct (Z.ltb_spec maxTargets 0); [done|]. intros [= <-]. split_and!; [by apply Forall_take| |].
    + rewrite length_take. lia.
    + intros Hp Ht. apply (f_equal length) in Ht. rewrite length_take in Ht. cbn in Ht. lia.
  - intros [= <-]. split_and!; [done|done|]. by intros _ ->.
Qed.

Module samples.
Definition host : Host :=
  mkHost None (fun n => if bool_decide (n = "db") then Some ["fe80::1"; "10.0.0.7"] else None) None.
End samples.

Lemma mping_targets_valid_witness :
  mping.targets 8 samples.host ["10.0.0.13/30"; "10.1.1.1"; "db"] 3 =
    Some (inl ["10.0.0.13"; "10.0.0.14"; "10.1.1.1"]) /\
  Forall (fun a => ping_config.check_ipv4 a = inl tt) ["10.0.0.13"; "10.0.0.14"; "10.1.1.1"].
Proof.
  assert (H : mping.targets 8 samples.host ["10.0.0.13/30"; "10.1.1.1"; "db"] 3 =
    Some (inl ["10.0.0.13"; "10.0.0.14"; "10.1.1.1"])) by (vm_compute; reflexivity).
  split; [exact H|]. apply (mping_targets_valid 8 samples.host ["10.0.0.13/30"; "10.1.1.1"; "db"] 3 _ H).
Defined.

(** ** What [cmd/traceroute] hands to the tracer *)

Lemma resolve_loop_spec literal h inputs seen out l :
  NoDup out -> (forall a, a ∈ seen <-> a ∈ out) -> resolve_loop literal h inputs (seen, out) = inl l ->
  NoDup l /\ l <> [] /\
  forall a, a ∈ l <-> a ∈ out \/ exists inp, inp ∈ inputs /\ resolve_one literal h inp = inl a.
Proof.
  revert seen out. induction inputs as [|inp inputs IH]; intros seen out Hn Hs; cbn [resolve_loop snd].
  { destruct (Nat.eqb_spec (length out) 0); [done|]. intros [= <-]. split_and!; [done|by intros ->|].
    intros a. split; [by left|]. intros [?|(? & []%not_elem_of_nil & _)]; done. }
  destruct (resolve_one literal h inp) as [ip|] eqn:E; [|done]. unfold add_target. case_bool_decide as Hin; intros H.
  - destruct (IH _ _ Hn Hs H) as (H1 & H2 & H3). split_and!; [done|done|]. intros a. rewrite H3.
    setoid_rewrite elem_of_cons. rewrite Hs in Hin. split.
    + intros [?|(x & ? & ?)]; [by left|right; exists x; tauto].
    + intros [?|(x & [->|?] & Hx)]; [by left| |right; by exists x]. left. congruence.
  - rewrite Hs in Hin.
    destruct (IH ({[ip]} ∪ seen) (out ++ [ip])) as (H1 & H2 & H3); [..|exact H|].
    + apply NoDup_app. split_and!; [done| |apply NoDup_singleton].
      intros a Ha Ha'%list_elem_of_singleton. by subst.
    + intros a. rewrite elem_of_union, elem_of_singleton, elem_of_app, list_elem_of_singleton, Hs. tauto.
    + split_and!; [done|done|]. intros a. rewrite H3, elem_of_app, list_elem_of_singleton.
      setoid_rewrite elem_of_cons. split.
      * intros [[?| ->]|(x & ? & ?)]; [by left|right; exists inp; tauto|right; exists x; tauto].
      * intros [?|(x & [->|?] & Hx)]; [by left; left| |right; by exists x]. left. right. congruence.
Qed.

Lemma resolve_one_literal literal h inp a :
  resolve_one literal h inp = inl a -> exists s ip, ParseIP s = Some ip /\ literal ip = Some a.
Proof.
  unfold resolve_one. destruct (ParseIP inp) as [ip|] eqn:E.
  - destruct (literal ip) as [s|] eqn:El; [|done]. intros [= <-]. by exists inp, ip.
  - destruct (LookupHost h inp) as [addrs|]; [|done]. destruct (List.find _ addrs) as [s|]; [|done].
    destruct (ParseIP s) as [ip|] eqn:Es; cbn [mbind option_bind]; [|done].
    destruct (literal ip) as [x|] eqn:El; [|done]. intros [= <-]. by exists s, ip.
Qed.

(** The targets of a trace: when [resolveTargets] succeeds, over IPv4 and
    over IPv6, the list is not empty, holds no address twice, and holds
    exactly the addresses its inputs stand for; over IPv4 each of them is an
    address [Run] traces, so no target is skipped. *)
Theorem traceroute_targets_resolved :
  forall h inputs l,
    let resolved literal := NoDup l /\ l <> [] /\
      forall a, a ∈ l <-> exists inp, inp ∈ inputs /\ resolve_one literal h inp = inl a in
    (traceroute_cmd.resolveTargets h inputs = inl l ->
       resolved traceroute_cmd.literal /\ Forall (fun a => traceroute_config.family.(parse_addr) a <> []) l) /\
    (traceroute6_cmd.resolveTargets h inputs = inl l -> resolved traceroute6_cmd.literal).
Proof.
  intros h inputs l resolved.
  assert (Hr : forall literal, resolveTargets literal h inputs = inl l -> resolved literal).
  { intros literal H. destruct (resolve_loop_spec literal h inputs ∅ [] l) as (H1 & H2 & H3);
      [constructor|set_solver|exact H|]. split_and!; [done|done|]. intros a. rewrite H3.
    split; [by intros [?%elem_of_nil|?]|by right]. }
  split; [|apply Hr]. intros H. pose proof (Hr _ H) as (H1 & H2 & H3). split; [done|].
  apply Forall_forall. intros a (inp & _ & Hi)%H3. apply resolve_one_literal in Hi as (s & ip & Hs & Hl).
  unfold traceroute_cmd.literal in Hl. destruct (To4 ip) as [ip4|] eqn:E4; [|done]. cbn in Hl.
  apply Some_inj in Hl as <-. by eapply parse_addr_ok4, v4_text; eapply To4_bytes.
Qed.

Lemma traceroute_targets_resolved_witness :
  traceroute_cmd.resolveTargets samples.host ["db"; "10.1.1.1"; "10.0.0.7"] = inl ["10.0.0.7"; "10.1.1.1"] /\
  Forall (fun a => traceroute_config.family.(parse_addr) a <> []) ["10.0.0.7"; "10.1.1.1"] /\
  traceroute6_cmd.resolveTargets samples.host ["db"] = inl ["fe80::1"] /\ NoDup ["fe80::1"].
Proof.
  assert (H : traceroute_cmd.resolveTargets samples.host ["db"; "10.1.1.1"; "10.0.0.7"] = inl ["10.0.0.7"; "10.1.1.1"])
    by (vm_compute; reflexivity).
  assert (H6 : traceroute6_cmd.resolveTargets samples.host ["db"] = inl ["fe80::1"]) by (vm_compute; reflexivity).
  split_and!; [exact H| |exact H6|].
  - by apply (traceroute_targets_resolved samples.host ["db"; "10.1.1.1"; "10.0.0.7"]).
  - by apply (traceroute_targets_resolved samples.host ["db"]).
Defined.
