(* ===== verification/RotateWriter.v ===== *)
(** * The rotating log writer ([util/rotate_writer.go])

    The writer and the directory it works in, as a state machine: one step per
    [Write] or [Close] (the mutex makes them atomic). The calendar ([Format] of
    an instant, [AddDate]) and the outcome of each system call are arguments. *)

From stdpp Require Import gmap.
From S2P Require Import Prelude GoStd.
Local Open Scope Z_scope.

(** ** The directory *)

(** An entry: a file, by its inode, or a symbolic link with its own time. *)
Inductive node :=
| NFile (i : nat)
| NLink (target : string) (mtime : Z).

(** The entries of the directory; content and modification time of the
    inodes. A removed file lives on while it is open. *)
Record Disk := mkDisk {
  names : gmap string node;
  inodes : gmap nat (bytes * Z)
}.

Definition unlink (name : string) (d : Disk) : Disk := mkDisk (delete name (names d)) (inodes d).

(** Follow symbolic links; 40 is the limit of the kernel. *)
Fixpoint resolve (fuel : nat) (ns : gmap string node) (name : string) : option string :=
  match ns !! name with
  | Some (NLink target _) => match fuel with O => None | S fuel => resolve fuel ns target end
  | _ => Some name
  end.

(** [os.OpenFile] with [O_CREATE|O_WRONLY|O_APPEND]. *)
Definition open_append (now : Z) (name : string) (d : Disk) : option (nat * Disk) :=
  name ← resolve 40 (names d) name;
  match names d !! name with
  | Some (NFile i) => Some (i, d)
  | _ =>
      let i := fresh (dom (inodes d)) in
      Some (i, mkDisk (<[name := NFile i]> (names d)) (<[i := ([], now)]> (inodes d)))
  end.

Definition append_to (now : Z) (i : nat) (p : bytes) (d : Disk) : Disk :=
  mkDisk (names d) (alter (fun c => (c.1 ++ p, now)) i (inodes d)).

(** [os.Symlink]; it fails if the name exists. *)
Definition symlink (now : Z) (target name : string) (d : Disk) : Disk :=
  match names d !! name with
  | Some _ => d
  | None => mkDisk (<[name := NLink target now]> (names d)) (inodes d)
  end.

(** ** The writer *)

(** [RotateWriter]; the mutex and the clock are left out. *)
Record RotateWriter := mkRotateWriter {
  w_dir : string;
  w_prefix : string;
  w_maxAgeDays : Z;
  w_file : option nat;
  w_date : string
}.

Definition set_file (f : option nat) (date : string) (w : RotateWriter) : RotateWriter :=
  mkRotateWriter (w_dir w) (w_prefix w) (w_maxAgeDays w) f date.

Inductive new_error :=
| ErrDirEmpty
| ErrPrefixEmpty
| ErrMkdir (dir : string).

(** [NewRotateWriter]; [mkdir] tells whether the directory can be made. *)
Definition NewRotateWriter (mkdir : bool) (dir prefix : string) (maxAgeDays : Z) : RotateWriter + new_error :=
  if bool_decide (dir = "") then inr ErrDirEmpty
  else if bool_decide (prefix = "") then inr ErrPrefixEmpty
  else if negb mkdir then inr (ErrMkdir dir)
  else inl (mkRotateWriter dir prefix maxAgeDays None "").

(** What the system answers during a call: the clock, at the start and in
    [clean]; whether the file can be opened, an entry removed, the link made;
    how many bytes are written if the write fails. *)
Record Sys := mkSys {
  s_now : Z;
  s_now_clean : Z;
  s_open : bool;
  s_remove : string -> bool;
  s_symlink : bool;
  s_short : option nat
}.

Inductive write_result :=
| WOk (n : nat)
| WOpenErr
| WNotOpen
| WShort (n : nat).

Section writer.
(** [t.Format("20060102")], and the instant [n] days before. *)
Variable Format : Z -> string.
Variable days_before : Z -> Z -> Z.

Definition mtime (d : Disk) (n : node) : Z :=
  match n with NFile i => default 0 (snd <$> inodes d !! i) | NLink _ t => t end.

(** [clean]. *)
Definition clean (s : Sys) (w : RotateWriter) (d : Disk) : Disk :=
  if w_maxAgeDays w <=? 0 then d
  else
    let cutoff := days_before (s_now_clean s) (w_maxAgeDays w) in
    mkDisk (filter (fun e => ~ (HasPrefix e.1 (w_prefix w +:+ ".") = true /\ mtime d e.2 <= cutoff /\
                                s_remove s e.1 = true)) (names d))
      (inodes d).

Definition file_name (w : RotateWriter) (date : string) : string := w_prefix w +:+ "." +:+ date.

(** The rotation at the start of [Write]; [None] is the failure to open. *)
Definition rotate (s : Sys) (w : RotateWriter) (d : Disk) : RotateWriter * Disk * bool :=
  let today := Format (s_now s) in
  if bool_decide (today = w_date w) then (w, d, true)
  else
    match (if s_open s then open_append (s_now s) (file_name w today) d else None) with
    | None => (set_file None "" w, d, false)
    | Some (i, d) =>
        let w := set_file (Some i) today w in
        let d := if s_remove s (w_prefix w) then unlink (w_prefix w) d else d in
        let d := if s_symlink s then symlink (s_now s) (file_name w today) (w_prefix w) d else d in
        (w, clean s w d, true)
    end.

(** [Write]. *)
Definition Write_log (s : Sys) (p : bytes) (w : RotateWriter) (d : Disk) : RotateWriter * Disk * write_result :=
  let '(w, d, opened) := rotate s w d in
  if negb opened then (w, d, WOpenErr)
  else
    match w_file w with
    | None => (w, d, WNotOpen)
    | Some i =>
        match s_short s with
        | None => (w, append_to (s_now s) i p d, WOk (length p))
        | Some n => (w, append_to (s_now s) i (take n p) d, WShort n)
        end
    end.

(** [Close]; the error of closing a file is passed on, [true] if there is none. *)
Definition Close (close_ok : bool) (w : RotateWriter) : RotateWriter * bool :=
  match w_file w with
  | None => (w, true)
  | Some _ => (set_file None (w_date w) w, close_ok)
  end.

(** A sequence of calls of [Write]. *)
Fixpoint run (calls : list (Sys * bytes)) (w : RotateWriter) (d : Disk) : RotateWriter * Disk * list write_result :=
  match calls with
  | [] => (w, d, [])
  | (s, p) :: calls =>
      let '(w, d, r) := Write_log s p w d in
      let '(w, d, rs) := run calls w d in
      (w, d, r :: rs)
  end.

(** The content of a file of the directory. *)
Definition content (d : Disk) (name : string) : option bytes :=
  match names d !! name with Some (NFile i) => fst <$> inodes d !! i | _ => None end.

(** ** What the log holds *)

(** The days of the calls, and what was written on a day. *)
Definition dates (calls : list (Sys * bytes)) : list string := map (fun c => Format (s_now c.1)) calls.
Definition times (calls : list (Sys * bytes)) : list Z := map (fun c => s_now c.1) calls.
Definition day_log (calls : list (Sys * bytes)) (date : string) : bytes :=
  concat (map snd (List.filter (fun c => bool_decide (Format (s_now c.1) = date)) calls)).

(** Calls that succeed: the file opens, everything is written, the link can be
    replaced. *)
Definition call_ok (c : Sys * bytes) : Prop :=
  s_open c.1 = true /\ s_short c.1 = None /\ s_symlink c.1 = true /\ forall n, s_remove c.1 n = true.

(** Nothing written at one of the times [ts] is as old as the age limit when
    [clean] runs in one of the calls. *)
Definition young (maxAgeDays : Z) (ts : list Z) (calls : list (Sys * bytes)) : Prop :=
  maxAgeDays <= 0 \/ forall c t, c ∈ calls -> t ∈ ts -> days_before (s_now_clean c.1) maxAgeDays < t.

(** One file per day of [ds], of its own inode, with the given content, last
    written at one of the times [ts]; and the link. *)
Record log_ok (ds : list string) (cont : string -> bytes) (ts : list Z) (w : RotateWriter) (d : Disk) : Prop := {
  lo_file : forall date, date ∈ ds -> exists i t,
    names d !! file_name w date = Some (NFile i) /\ inodes d !! i = Some (cont date, t) /\ t ∈ ts;
  lo_unused : forall date, date ∉ ds -> names d !! file_name w date = None;
  lo_names : forall name n, names d !! name = Some n ->
    name = w_prefix w /\ (exists target t, n = NLink target t) \/ exists date, name = file_name w date;
  lo_inode : forall date date' i,
    names d !! file_name w date = Some (NFile i) -> names d !! file_name w date' = Some (NFile i) -> date = date'
}.

(** The open file is that of the day [w_date], and the link leads to it. *)
Definition current (ds : list string) (w : RotateWriter) (d : Disk) : Prop :=
  exists i t, w_file w = Some i /\ w_date w ∈ ds /\
    names d !! file_name w (w_date w) = Some (NFile i) /\
    names d !! w_prefix w = Some (NLink (file_name w (w_date w)) t).

Lemma file_name_inj w date date' : file_name w date = file_name w date' -> date = date'.
Proof. unfold file_name. intros H%(inj (String.append (w_prefix w))). by injection H. Qed.

Lemma file_name_link w date : file_name w date <> w_prefix w.
Proof.
  unfold file_name. generalize (w_prefix w) as pre. induction pre as [|c pre IH]; [done|].
  change (String c pre +:+ "." +:+ date) with (String c (pre +:+ "." +:+ date)). congruence.
Qed.

Lemma prefix_link s : HasPrefix s (s +:+ ".") = false.
Proof.
  unfold HasPrefix. induction s as [|c s IH]; [done|].
  change (String c s +:+ ".") with (String c (s +:+ ".")). cbn [String.prefix]. by destruct (Ascii.ascii_dec c c).
Qed.

Lemma log_ok_set_file ds cont ts f date w d : log_ok ds cont ts w d -> log_ok ds cont ts (set_file f date w) d.
Proof. intros [H1 H2 H3 H4]. by split. Qed.

(** [clean] leaves a young log alone. *)
Lemma clean_young s ds cont ts w d c :
  log_ok ds cont ts w d -> young (w_maxAgeDays w) ts [(s, c)] -> clean s w d = d.
Proof.
  intros [H1 H2 H3 H4] Hy. unfold clean. destruct (Z.leb_spec (w_maxAgeDays w) 0) as [Hp|Hp]; [done|].
  destruct Hy as [?|Hy]; [lia|]. destruct d as [ns ins]. cbn [names inodes] in *. f_equal. apply map_filter_id.
  intros name n Hn. cbn [fst snd]. intros (Hpre & Hm & _). destruct (H3 name n Hn) as [[-> _]|[date ->]].
  - by rewrite prefix_link in Hpre.
  - destruct (decide (date ∈ ds)) as [Hin|Hout]; [|rewrite H2 in Hn by done; discriminate].
    destruct (H1 date Hin) as (i & t & E & Ei & Ht). assert (n = NFile i) as -> by congruence.
    cbn [mtime inodes] in Hm. rewrite Ei in Hm. cbn in Hm.
    specialize (Hy (s, c) t ltac:(by left) Ht). cbn [fst] in Hy. lia.
Qed.

Lemma log_ok_again ds cont ts w d date now :
  log_ok ds cont ts w d -> date ∈ ds -> log_ok (date :: ds) cont (now :: ts) w d.
Proof.
  intros [H1 H2 H3 H4] Hin. split; [| |done|done].
  - intros date' Hd. destruct (H1 date') as (i & t & ? & ? & ?); [by apply elem_of_cons in Hd as [->|]|].
    exists i, t. split_and!; [done|done|by right].
  - intros date' Hd. apply H2. intros Hd'. apply Hd. by right.
Qed.

(** The file of a day is opened where it is, or made. *)
Lemma open_log ds cont ts w d now date :
  log_ok ds cont ts w d -> (date ∉ ds -> cont date = []) ->
  exists i d', open_append now (file_name w date) d = Some (i, d') /\
    log_ok (date :: ds) cont (now :: ts) w d' /\ names d' !! file_name w date = Some (NFile i).
Proof.
  intros [H1 H2 H3 H4] Hc. unfold open_append. destruct (decide (date ∈ ds)) as [Hin|Hout].
  - destruct (H1 date Hin) as (i & t & E & Ei & Ht). cbn [resolve]. rewrite E. cbn [mbind option_bind]. rewrite E.
    exists i, d. split_and!; [done| |done]. by apply log_ok_again.
  - pose proof (H2 date Hout) as E. cbn [resolve]. rewrite E. cbn [mbind option_bind]. rewrite E.
    set (i := fresh (dom (inodes d))). assert (Hi : inodes d !! i = None) by (apply not_elem_of_dom, is_fresh).
    exists i. eexists. split_and!; [done| |by cbn; rewrite lookup_insert_eq].
    assert (Hne : forall date', date' <> date -> file_name w date <> file_name w date')
      by (intros date' Hd Hf%file_name_inj; congruence).
    split; cbn [names inodes].
    + intros date' Hd'. destruct (decide (date' = date)) as [->|Hd].
      { exists i, now. rewrite !lookup_insert_eq, Hc by done. set_solver. }
      destruct (H1 date') as (i' & t' & E1 & E2 & E3); [set_solver|]. exists i', t'.
      rewrite !lookup_insert_ne by (auto || congruence). set_solver.
    + intros date' Hd'. rewrite lookup_insert_ne by (apply Hne; set_solver). apply H2. set_solver.
    + intros name n. rewrite lookup_insert_Some. intros [[<- _]|[_ Hn]]; [right; by eexists|by eapply H3].
    + assert (Hall : forall date' j, names d !! file_name w date' = Some (NFile j) -> j <> i).
      { intros date' j Hj ->. destruct (decide (date' ∈ ds)) as [Hd|Hd]; [|rewrite H2 in Hj; done].
        destruct (H1 date' Hd) as (i' & t' & E1 & E2 & _). assert (i' = i) by congruence. congruence. }
      intros date1 date2 j. rewrite !lookup_insert_Some.
      intros [[Ha Hb]|[Ha Hb]] [[Hc1 Hd]|[Hc1 Hd]].
      * apply file_name_inj in Ha, Hc1. congruence.
      * exfalso. eapply Hall; [exact Hd|congruence].
      * exfalso. eapply Hall; [exact Hb|congruence].
      * by eapply H4.
Qed.

(** Replacing the link. *)
Lemma relink_log ds cont ts w d now target :
  log_ok ds cont ts w d ->
  let d' := symlink now target (w_prefix w) (unlink (w_prefix w) d) in
  log_ok ds cont ts w d' /\ names d' !! w_prefix w = Some (NLink target now) /\
  forall date, names d' !! file_name w date = names d !! file_name w date.
Proof.
  intros [H1 H2 H3 H4]. unfold symlink, unlink. cbn [names inodes]. rewrite lookup_delete_eq. cbn zeta. cbn [names inodes].
  assert (Hs : forall date, <[w_prefix w := NLink target now]> (delete (w_prefix w) (names d)) !! file_name w date =
                            names d !! file_name w date).
  { intros date. pose proof (file_name_link w date). by rewrite lookup_insert_ne, lookup_delete_ne by done. }
  split_and!; [|by rewrite lookup_insert_eq|done]. split; cbn [names inodes].
  - intros date Hd. rewrite Hs. by apply H1.
  - intros date Hd. rewrite Hs. by apply H2.
  - intros name n. rewrite lookup_insert_Some. intros [[<- <-]|[Hne Hn]]; [left; eauto|].
    rewrite lookup_delete_ne in Hn by done. by apply H3.
  - intros date date' i. rewrite !Hs. apply H4.
Qed.

Lemma rotate_log s p ds cont ts w d :
  log_ok ds cont ts w d -> call_ok (s, p) -> Format (s_now s) <> "" ->
  young (w_maxAgeDays w) (s_now s :: ts) [(s, p)] -> (Format (s_now s) ∉ ds -> cont (Format (s_now s)) = []) ->
  w_date w = "" \/ current ds w d ->
  exists w' d', rotate s w d = (w', d', true) /\ log_ok (Format (s_now s) :: ds) cont (s_now s :: ts) w' d' /\
    w_date w' = Format (s_now s) /\ w_maxAgeDays w' = w_maxAgeDays w /\ w_prefix w' = w_prefix w /\
    current (Format (s_now s) :: ds) w' d'.
Proof.
  intros Hok (Ho & _ & Hl & Hr) Hne Hy Hc Hcur. cbn [fst] in *. unfold rotate. case_bool_decide as Ht.
  - destruct Hcur as [|(i & t & C1 & C2 & C3 & C4)]; [congruence|].
    exists w, d. split_and!; try done.
    + rewrite Ht. by apply log_ok_again.
    + exists i, t. split_and!; [done|by right|done|done].
  - destruct (open_log ds cont ts w d (s_now s) (Format (s_now s)) Hok Hc) as (i & d1 & E & Hok1 & Hi).
    rewrite Ho, E, Hl. cbn [w_prefix set_file]. rewrite Hr.
    change (file_name (set_file _ _ w) ?x) with (file_name w x).
    destruct (relink_log _ cont _ w d1 (s_now s) (file_name w (Format (s_now s))) Hok1) as (Hok2 & Hlk & Hsame).
    set (d2 := symlink _ _ _ _) in *. set (w1 := set_file (Some i) (Format (s_now s)) w).
    rewrite (clean_young s _ cont _ w1 d2 p) by (by apply log_ok_set_file || done).
    exists w1, d2. split_and!; [done|by apply log_ok_set_file|done|done|done|].
    exists i, (s_now s). split_and!; [done|by left| |exact Hlk].
    change (names d2 !! file_name w (Format (s_now s)) = Some (NFile i)). by rewrite Hsame.
Qed.

Lemma append_log ds cont ts w d now i date p :
  log_ok ds cont ts w d -> date ∈ ds -> names d !! file_name w date = Some (NFile i) -> now ∈ ts ->
  log_ok ds (fun x => if bool_decide (x = date) then cont x ++ p else cont x) ts w (append_to now i p d).
Proof.
  intros [H1 H2 H3 H4] Hin Hi Hnow. unfold append_to. split; cbn [names inodes]; [|done|done|done].
  intros date' Hd. destruct (H1 date' Hd) as (i' & t & E & Ei & Ht). case_bool_decide as Hdd.
  - subst date'. assert (i' = i) as -> by congruence. exists i, now.
    rewrite lookup_alter_eq, Ei. split_and!; done.
  - exists i', t. rewrite lookup_alter_ne by (intros <-; apply Hdd; by eapply H4). split_and!; done.
Qed.

Lemma day_log_snoc calls c date :
  day_log (calls ++ [c]) date =
    if bool_decide (date = Format (s_now c.1)) then day_log calls date ++ c.2 else day_log calls date.
Proof.
  unfold day_log. rewrite List.filter_app, map_app, concat_app. cbn [List.filter].
  destruct (decide (date = Format (s_now c.1))) as [->|Hne].
  - rewrite !bool_decide_eq_true_2 by done. cbn. by rewrite app_nil_r.
  - rewrite !bool_decide_eq_false_2 by congruence. cbn. by rewrite app_nil_r.
Qed.

Lemma day_log_unused calls date : date ∉ dates calls -> day_log calls date = [].
Proof.
  unfold day_log, dates. induction calls as [|c calls IH]; [done|]. cbn [map List.filter].
  intros [Hne Hn]%not_elem_of_cons. rewrite bool_decide_eq_false_2 by congruence. by apply IH.
Qed.

(** The state after the calls [prior]. *)
Definition after (prior : list (Sys * bytes)) (w : RotateWriter) (d : Disk) : Prop :=
  log_ok (dates prior) (day_log prior) (times prior) w d /\ (w_date w = "" \/ current (dates prior) w d).

Lemma log_ok_ext ds ds' cont cont' ts ts' w d :
  (forall x, x ∈ ds <-> x ∈ ds') -> (forall x, cont x = cont' x) -> (forall x, x ∈ ts <-> x ∈ ts') ->
  log_ok ds cont ts w d -> log_ok ds' cont' ts' w d.
Proof.
  intros Hd Hc Ht [H1 H2 H3 H4]. split; [|intros date; rewrite <- Hd; apply H2|done|done].
  intros date. rewrite <- Hd. intros Hin. destruct (H1 date Hin) as (i & t & ? & ? & ?). exists i, t.
  by rewrite <- Hc, <- Ht.
Qed.

Lemma write_step prior s p w d :
  after prior w d -> call_ok (s, p) -> Format (s_now s) <> "" ->
  young (w_maxAgeDays w) (s_now s :: times prior) [(s, p)] ->
  exists w' d', Write_log s p w d = (w', d', WOk (length p)) /\ after (prior ++ [(s, p)]) w' d' /\
    w_maxAgeDays w' = w_maxAgeDays w /\ w_prefix w' = w_prefix w /\
    current (dates (prior ++ [(s, p)])) w' d' /\ w_date w' = Format (s_now s).
Proof.
  intros [Hok Hcur] Hcall Hne Hy.
  destruct (rotate_log s p _ _ _ w d Hok Hcall Hne Hy ltac:(apply day_log_unused) Hcur)
    as (w' & d' & E & Hok' & Hd & Hm & Hp & Hcur').
  unfold Write_log. rewrite E. cbn [negb]. destruct Hcur' as (i & t & C1 & C2 & C3 & C4). rewrite C1.
  destruct Hcall as (_ & Hs & _ & _). cbn [fst] in Hs. rewrite Hs. exists w', (append_to (s_now s) i p d').
  assert (Hc' : current (dates (prior ++ [(s, p)])) w' (append_to (s_now s) i p d')).
  { exists i, t. split_and!; [done| |done|done]. rewrite Hd. unfold dates. rewrite map_app. apply elem_of_app. right. by left. }
  split_and!; [done| |done|done|done|done]. split; [|by right].
  eapply log_ok_ext; [..|eapply (append_log _ _ _ _ _ (s_now s) i (Format (s_now s)) p); [exact Hok'| | |]].
  - intros x. unfold dates. rewrite map_app. cbn [map fst]. set_solver.
  - intros x. by rewrite day_log_snoc.
  - intros x. unfold times. rewrite map_app. cbn [map fst]. set_solver.
  - by left.
  - by rewrite <- Hd.
  - by left.
Qed.

Lemma run_log prior calls w d :
  after prior w d -> Forall call_ok calls -> Forall (fun c => Format (s_now c.1) <> "") calls ->
  young (w_maxAgeDays w) (times (prior ++ calls)) calls ->
  exists w' d', run calls w d = (w', d', map (fun c => WOk (length c.2)) calls) /\ after (prior ++ calls) w' d' /\
    w_prefix w' = w_prefix w /\
    (forall c, last calls = Some c -> current (dates (prior ++ calls)) w' d' /\ w_date w' = Format (s_now c.1)).
Proof.
  intros Ha Hc Hf. revert prior w d Ha Hf. induction Hc as [|[s p] calls Hc _ IH]; intros prior w d Ha Hf Hy.
  { exists w, d. rewrite app_nil_r. split_and!; done. }
  apply Forall_cons in Hf as [Hf0 Hf]. cbn [run].
  destruct (write_step prior s p w d Ha Hc Hf0) as (w1 & d1 & -> & Ha1 & Hm & Hp & Hcur & Hd).
  { destruct Hy as [Hy|Hy]; [by left|right]. intros c t Hin Ht. apply list_elem_of_singleton in Hin as ->.
    apply Hy; [by left|]. unfold times in *. rewrite map_app. cbn [map fst]. set_solver. }
  destruct calls as [|c' calls].
  { exists w1, d1. split_and!; [done|done|done|]. by intros c [= <-]. }
  destruct (IH (prior ++ [(s, p)]) w1 d1 Ha1 Hf) as (w2 & d2 & -> & Ha2 & Hp2 & Hlast).
  { rewrite Hm, <- app_assoc. destruct Hy as [Hy|Hy]; [by left|right]. intros c t Hin Ht. apply Hy; [by right|done]. }
  rewrite <- app_assoc in Ha2, Hlast. exists w2, d2. split_and!; [done|done|congruence|done].
Qed.

(** C35: nothing logged is lost: a new writer in an empty directory whose calls
    succeed, with nothing of the run older than the age limit, ends with one
    file per day of the calls, holding exactly what was written on that day in
    the order of the calls (also when the clock steps back to an earlier day),
    no file for any other day, and the link leading to the last day's file. *)
Theorem rotate_log_lossless :
  forall dir prefix maxAgeDays w calls,
    NewRotateWriter true dir prefix maxAgeDays = inl w ->
    Forall call_ok calls -> (forall t, Format t <> "") -> young maxAgeDays (times calls) calls ->
    exists w' d',
      run calls w (mkDisk ∅ ∅) = (w', d', map (fun c => WOk (length c.2)) calls) /\
      (forall date, content d' (prefix +:+ "." +:+ date) =
         if decide (date ∈ dates calls) then Some (day_log calls date) else None) /\
      (forall c, last calls = Some c ->
         exists t, names d' !! prefix = Some (NLink (prefix +:+ "." +:+ Format (s_now c.1)) t)).
Proof.
  intros dir prefix maxAgeDays w calls. unfold NewRotateWriter.
  case_bool_decide; [done|]. case_bool_decide; [done|]. cbn [negb]. intros [= <-] Hc Hf Hy.
  destruct (run_log [] calls (mkRotateWriter dir prefix maxAgeDays None "") (mkDisk ∅ ∅))
    as (w' & d' & E & [Hok _] & Hp & Hl); [|done|by apply Forall_true|done|].
  { split; [|by left]. split; cbn; try done. by intros date []%elem_of_nil. }
  exists w', d'. cbn [app] in *. cbn [w_prefix] in Hp. split_and!; [done| |].
  - intros date. unfold content. change (prefix +:+ "." +:+ date) with (file_name (mkRotateWriter dir prefix maxAgeDays None "") date).
    assert (Hn : file_name (mkRotateWriter dir prefix maxAgeDays None "") date = file_name w' date)
      by (unfold file_name; by rewrite Hp). rewrite Hn.
    destruct (decide (date ∈ dates calls)) as [Hin|Hout].
    + destruct (lo_file _ _ _ _ _ Hok date Hin) as (i & t & -> & -> & _). done.
    + by rewrite (lo_unused _ _ _ _ _ Hok date Hout).
  - intros c Hlast. destruct (Hl c Hlast) as [(i & t & _ & _ & _ & C) Hd]. exists t.
    rewrite Hd in C. unfold file_name in C. by rewrite Hp in C.
Qed.

(** After [Close]: every [Write] of the same day fails and leaves everything
    as it is, because the day is remembered and the file is not reopened; the
    first [Write] of another day opens its file and succeeds. *)
Theorem rotate_close_stops_the_day :
  forall w d i close_ok,
    w_file w = Some i ->
    let w' := (Close close_ok w).1 in
    (Close close_ok w).2 = close_ok /\
    (forall calls, Forall (fun c => Format (s_now c.1) = w_date w) calls ->
       run calls w' d = (w', d, map (fun _ => WNotOpen) calls)) /\
    (forall s p, Format (s_now s) <> w_date w -> s_open s = true -> s_short s = None ->
       is_Some (open_append (s_now s) (file_name w (Format (s_now s))) d) ->
       exists w2 d2, Write_log s p w' d = (w2, d2, WOk (length p)) /\ w_date w2 = Format (s_now s) /\ is_Some (w_file w2)).
Proof.
  intros w d i close_ok Hf w'. subst w'. unfold Close. rewrite Hf. cbn [fst snd]. split_and!; [done| |].
  - induction 1 as [|[s p] calls Hd _ IH]; cbn [run map]; [done|]. cbn [fst] in Hd.
    unfold Write_log, rotate. cbn [w_date set_file]. rewrite bool_decide_eq_true_2 by done. cbn [negb w_file set_file].
    by rewrite IH.
  - intros s p Hd Ho Hs [[j d1] E]. unfold Write_log, rotate. cbn [w_date set_file].
    rewrite bool_decide_eq_false_2, Ho by done. change (file_name (set_file None (w_date w) w) ?x) with (file_name w x).
    rewrite E. cbn [negb w_file set_file]. rewrite Hs. eexists _, _. split_and!; [done|done|by eexists].
Qed.

(** What [clean] removes: entries with the prefix and a dot, not younger than
    the limit, whatever the rest of their name. *)
Lemma clean_spec s w d name :
  0 < w_maxAgeDays w ->
  names (clean s w d) !! name =
    (n ← names d !! name;
     if HasPrefix name (w_prefix w +:+ ".") && (mtime d n <=? days_before (s_now_clean s) (w_maxAgeDays w)) && s_remove s name
     then None else Some n).
Proof.
  intros H. unfold clean. rewrite (proj2 (Z.leb_gt _ _)) by done. cbn [names]. rewrite map_lookup_filter.
  destruct (names d !! name) as [n|]; cbn [mbind option_bind]; [|done]. unfold guard. cbn [fst snd].
  case_decide as Hd; destruct (_ && _ && _) eqn:E; try done; exfalso.
  - apply andb_prop in E as [[H1 H2%Z.leb_le]%andb_prop H3]. by apply Hd.
  - destruct Hd as (H1 & H2%Z.leb_le & H3). by rewrite H1, H2, H3 in E.
Qed.

End writer.

(** ** Witnesses: days of 100 ticks *)

Module samples.

Definition Format (t : Z) : string := if t / 100 =? 0 then "20260610" else "20260611".
Definition days_before (t n : Z) : Z := t - 100 * n.
Definition sys (t : Z) : Sys := mkSys t t true (fun _ => true) true None.
Definition calls : list (Sys * bytes) := [(sys 10, [1]); (sys 20, [2; 3]); (sys 110, [4]); (sys 90, [5])].

Lemma calls_ok : Forall call_ok calls.
Proof. repeat constructor. Qed.

Lemma calls_young : young days_before 7 (times calls) calls.
Proof.
  right. intros c t Hc Ht. unfold days_before.
  assert (Hc' : s_now_clean c.1 <= 110) by (revert c Hc; apply Forall_forall; repeat constructor; cbn; lia).
  assert (Ht' : 10 <= t) by (revert t Ht; apply Forall_forall; repeat constructor; cbn; lia). lia.
Qed.

Lemma Format_nonempty t : Format t <> "".
Proof. unfold Format. by destruct (_ =? _). Qed.

End samples.

Lemma rotate_log_lossless_witness :
  exists w' d',
    run samples.Format samples.days_before samples.calls (mkRotateWriter "/var/log" "a.log" 7 None "") (mkDisk ∅ ∅) =
      (w', d', [WOk 1; WOk 2; WOk 1; WOk 1]) /\
    content d' "a.log.20260610" = Some [1; 2; 3; 5] /\ content d' "a.log.20260611" = Some [4].
Proof.
  destruct (rotate_log_lossless samples.Format samples.days_before "/var/log" "a.log" 7 _ samples.calls eq_refl
    samples.calls_ok samples.Format_nonempty samples.calls_young) as (w' & d' & E & Hc & _).
  exists w', d'. split; [exact E|]. split.
  - etrans; [exact (Hc "20260610")|]. vm_compute. reflexivity.
  - etrans; [exact (Hc "20260611")|]. vm_compute. reflexivity.
Defined.

Lemma rotate_close_stops_the_day_witness :
  let w := mkRotateWriter "/var/log" "a.log" 7 (Some 0%nat) "20260610" in
  let d := mkDisk ∅ ∅ in
  run samples.Format samples.days_before [(samples.sys 10, [1]); (samples.sys 20, [2; 3])] (Close true w).1 d =
    ((Close true w).1, d, [WNotOpen; WNotOpen]).
Proof.
  destruct (rotate_close_stops_the_day samples.Format samples.days_before
    (mkRotateWriter "/var/log" "a.log" 7 (Some 0%nat) "20260610") (mkDisk ∅ ∅) 0 true eq_refl) as (_ & H & _).
  exact (H [(samples.sys 10, [1]); (samples.sys 20, [2; 3])] ltac:(repeat constructor)).
Defined.
