(* ===== verification/Receive.v ===== *)
(** * Receiving: packet filters, receive sockets and read loops ([setupRawConn],
      [serveRead], [readLoop] and the filters of the clients, [kuiniu/transport],
      [lidar/scanner.go])

    The filters are programs for the packet filter machine of the kernel, which
    is not part of the repository: its verdict is an operation of a class, and
    the class of laws states what [golang.org/x/net/bpf] and the kernel document
    of the instructions the programs use. *)

From S2P Require Import Prelude GoStd GoNet GoDuration Ports UdpStat Salts Goscapy World SonarConfig Sonar6Config KuiniuConfig EvrConfig UdpClient Sonar.
Local Open Scope Z_scope.

(** ** The machine *)

(** The instructions of [golang.org/x/net/bpf] the program uses. A jump skips a
    number of instructions; [SkipTrue] is 0 everywhere. *)
Inductive JumpTest := JumpEqual | JumpGreaterOrEqual | JumpLessOrEqual.

Inductive Instruction :=
| LoadAbsolute (Off : Z) (Size : nat)
| LoadIndirect (Off : Z) (Size : nat)
| JumpIf (Cond : JumpTest) (Val : Z) (SkipFalse : nat)
| RetConstant (Val : Z).

(** [sendrecv.BPFInstruction]: an instruction as the kernel encodes it. *)
Record BPFInstruction := mkBPF { Code : Z; Jt : nat; Jf : nat; K : Z }.

(** The verdict of the rest of a program over a packet: how many of its bytes
    are delivered, 0 to drop it. The state is the accumulator, the index
    register and, for encoded programs, the scratch memory. *)
Class BPF := {
  verdict : list Instruction -> Z -> Z -> bytes -> Z;
  raw_verdict : list BPFInstruction -> Z -> Z -> (Z -> Z) -> bytes -> Z
}.

Definition jump_test (c : JumpTest) (a v : Z) : bool :=
  match c with
  | JumpEqual => a =? v
  | JumpGreaterOrEqual => v <=? a
  | JumpLessOrEqual => a <=? v
  end.

(** [size] bytes in network order; [None] outside the packet, which ends the
    program with verdict 0. *)
Definition load (pkt : bytes) (off : Z) (size : nat) : option Z :=
  if (0 <=? off) && (off + Z.of_nat size <=? Z.of_nat (length pkt))
  then Some (get_be (slice (Z.to_nat off) (Z.to_nat off + size) pkt)) else None.

Class BPF_laws `{BPF} : Prop := {
  run_ret : forall v p a x pkt, verdict (RetConstant v :: p) a x pkt = v;
  run_abs : forall off n p a x pkt,
    verdict (LoadAbsolute off n :: p) a x pkt =
      match load pkt off n with Some v => verdict p v x pkt | None => 0 end;
  run_ind : forall off n p a x pkt,
    verdict (LoadIndirect off n :: p) a x pkt =
      match load pkt (x + off) n with Some v => verdict p v x pkt | None => 0 end;
  run_jump : forall c v n p a x pkt,
    verdict (JumpIf c v n :: p) a x pkt = verdict (if jump_test c a v then p else drop n p) a x pkt;
  (** Of the encoded instructions: load byte and half word, load and store of
      scratch memory, the three operations on the accumulator, [tax], the two
      jumps, [ret]. *)
  raw_ldb_abs : forall k p a x m pkt,
    raw_verdict (mkBPF 48 0 0 k :: p) a x m pkt =
      match load pkt k 1 with Some v => raw_verdict p v x m pkt | None => 0 end;
  raw_ldh_ind : forall k p a x m pkt,
    raw_verdict (mkBPF 72 0 0 k :: p) a x m pkt =
      match load pkt (x + k) 2 with Some v => raw_verdict p v x m pkt | None => 0 end;
  raw_ld_mem : forall k p a x m pkt, raw_verdict (mkBPF 96 0 0 k :: p) a x m pkt = raw_verdict p (m k) x m pkt;
  raw_st : forall k p a x m pkt,
    raw_verdict (mkBPF 2 0 0 k :: p) a x m pkt =
      raw_verdict p a x (fun i => if i =? k then a else m i) pkt;
  raw_and : forall k p a x m pkt, raw_verdict (mkBPF 84 0 0 k :: p) a x m pkt = raw_verdict p (Z.land a k) x m pkt;
  raw_mul : forall k p a x m pkt, raw_verdict (mkBPF 36 0 0 k :: p) a x m pkt = raw_verdict p (u32 (a * k)) x m pkt;
  raw_add : forall k p a x m pkt, raw_verdict (mkBPF 4 0 0 k :: p) a x m pkt = raw_verdict p (u32 (a + k)) x m pkt;
  raw_tax : forall k p a x m pkt, raw_verdict (mkBPF 7 0 0 k :: p) a x m pkt = raw_verdict p a a m pkt;
  raw_jeq : forall jt jf k p a x m pkt,
    raw_verdict (mkBPF 21 jt jf k :: p) a x m pkt = raw_verdict (if a =? k then drop jt p else drop jf p) a x m pkt;
  raw_jge : forall jt jf k p a x m pkt,
    raw_verdict (mkBPF 53 jt jf k :: p) a x m pkt = raw_verdict (if k <=? a then drop jt p else drop jf p) a x m pkt;
  raw_ret : forall k p a x m pkt, raw_verdict (mkBPF 6 0 0 k :: p) a x m pkt = k
}.

(** ** The programs *)

(** [emptyBPF]: on the sockets that only send. *)
Definition emptyBPF : list Instruction := [RetConstant 0].

(** [portRangeBPF] of [sonar/client] and [kuiniu/transport]. *)
Definition portRangeBPF (minPort maxPort tos : Z) : list Instruction :=
  [LoadIndirect 9 1;
   JumpIf JumpEqual 17 4;
   LoadIndirect 1 1;
   JumpIf JumpEqual (u32 tos) 4;
   LoadAbsolute 22 2;
   JumpIf JumpGreaterOrEqual (u32 minPort) 2;
   JumpIf JumpLessOrEqual (u32 maxPort) 1;
   RetConstant 65535;
   RetConstant 0].

(** [innerPortBPF] of [evr/agent]. *)
Definition innerPortBPF (innerPort tos : Z) : list Instruction :=
  [LoadIndirect 9 1;
   JumpIf JumpEqual 17 5;
   LoadIndirect 1 1;
   JumpIf JumpEqual (u32 tos) 3;
   LoadAbsolute 22 2;
   JumpIf JumpEqual (u32 innerPort) 1;
   RetConstant 65535;
   RetConstant 0].

Module sonar6_bpf.
(** [portRangeBPF] of [sonar6/client]: the machine sees the packet from the UDP
    header on. *)
Definition portRangeBPF (minPort maxPort : Z) : list Instruction :=
  [LoadAbsolute 2 2;
   JumpIf JumpGreaterOrEqual (u32 minPort) 2;
   JumpIf JumpLessOrEqual (u32 maxPort) 1;
   RetConstant 65535;
   RetConstant 0].

Definition emptyBPF := emptyBPF.
End sonar6_bpf.

(** The constants of [buildBPFProbeFilter]. *)
Module bpf.
Definition LD : Z := 0.
Definition St : Z := 2.
Definition Alu : Z := 4.
Definition Jmp : Z := 5.
Definition Ret : Z := 6.
Definition Misc : Z := 7.
Definition H : Z := 8.
Definition B : Z := 16.
Definition Abs : Z := 32.
Definition Ind : Z := 64.
Definition Mem : Z := 96.
Definition imm : Z := 0.
Definition Add : Z := 0.
Definition Mul : Z := 32.
Definition And : Z := 80.
Definition Tax : Z := 0.
Definition Jeq : Z := 16.
Definition Jge : Z := 48.
Definition ethHdLen : Z := 14.
End bpf.

(** [buildBPFProbeFilter] of [lidar]. *)
Definition buildBPFProbeFilter (serverPort srcPort portCount : Z) : list BPFInstruction :=
  let sp := u32 serverPort in
  let lp := u32 srcPort in
  let hp := u32 (u16 (srcPort + portCount)) in
  let off := bpf.ethHdLen in
  let orl := foldl Z.lor 0 in
  [mkBPF (orl [bpf.LD; bpf.B; bpf.Abs]) 0 0 off;
   mkBPF (orl [bpf.Alu; bpf.And; bpf.imm]) 0 0 15;
   mkBPF (orl [bpf.Alu; bpf.Mul; bpf.imm]) 0 0 4;
   mkBPF bpf.St 0 0 0;
   mkBPF (orl [bpf.Alu; bpf.Add; bpf.imm]) 0 0 off;
   mkBPF (orl [bpf.Misc; bpf.Tax]) 0 0 0;
   mkBPF (orl [bpf.LD; bpf.H; bpf.Ind]) 0 0 0;
   mkBPF (orl [bpf.Jmp; bpf.Jeq; bpf.imm]) 0 6 sp;
   mkBPF (orl [bpf.LD; bpf.Mem]) 0 0 0;
   mkBPF (orl [bpf.Alu; bpf.Add; bpf.imm]) 0 0 off;
   mkBPF (orl [bpf.Misc; bpf.Tax]) 0 0 0;
   mkBPF (orl [bpf.LD; bpf.H; bpf.Ind]) 0 0 2;
   mkBPF (orl [bpf.Jmp; bpf.Jge; bpf.imm]) 0 1 lp;
   mkBPF (orl [bpf.Jmp; bpf.Jge; bpf.imm]) 0 1 hp;
   mkBPF (orl [bpf.Ret; bpf.imm]) 0 0 0;
   mkBPF (orl [bpf.Ret; bpf.imm]) 0 0 65535].

(** ** Sockets *)

(** A raw socket as [setupRawConn] leaves it: the filter the kernel runs, if
    one could be installed, and the TOS or traffic class that was asked for. *)
Record RawConn := mkRawConn { rc_filter : option (list Instruction); rc_tos : option Z }.

(** What the system answers: the socket opens, it is an [IPConn], the program
    assembles and is accepted. *)
Record OpenAnswer := mkOpenAnswer { oa_open : bool; oa_ip : bool; oa_filter : bool }.

(** [setupRawConn] of [sonar/client], [sonar6/client] and [evr/agent]; errors
    are ignored, and a socket that is no [IPConn] is left alone. *)
Definition setupRawConn (a : OpenAnswer) (tos : Z) (prog : list Instruction) : RawConn :=
  if negb (oa_ip a) then mkRawConn None None
  else mkRawConn (if (0 <? length prog)%nat && oa_filter a then Some prog else None) (Some tos).

(** The loop of [serveRead] over the ranges, from the one with index [i] on: the
    sockets opened, and whether all of them could be; those opened before a
    failure keep their loops. *)
Fixpoint open_conns (prog : PortRange -> list Instruction) (tos : Z) (answers : nat -> OpenAnswer) (i : nat)
    (rs : list PortRange) : list RawConn * bool :=
  match rs with
  | [] => ([], true)
  | r :: rs =>
      if negb (oa_open (answers i)) then ([], false)
      else let '(l, ok) := open_conns prog tos answers (S i) rs in (setupRawConn (answers i) tos (prog r) :: l, ok)
  end.

Module sonar_receive.
(** [Client.serveRead] of [sonar]; [None] is a panic. *)
Definition serveRead (c : sonar_config.Config) (answers : nat -> OpenAnswer) : option (list RawConn * bool) :=
  rs ← sonar_client.serveRead_ranges (sonar_config.ClientPortRange c);
  Some (open_conns (fun r => portRangeBPF (Min r) (Max r) (sonar_config.TOS c)) (sonar_config.TOS c) answers 0 rs).
End sonar_receive.

Module sonar6_receive.
Definition setupRawConn := setupRawConn.
(** [Client.serveRead] of [sonar6]. *)
Definition serveRead (c : sonar6_config.Config) (answers : nat -> OpenAnswer) : option (list RawConn * bool) :=
  rs ← sonar_client.serveRead_ranges (sonar6_config.ClientPortRange c);
  Some (open_conns (fun r => sonar6_bpf.portRangeBPF (Min r) (Max r)) (sonar6_config.TOS c) answers 0 rs).
End sonar6_receive.

Module evr_receive.
Definition setupRawConn := setupRawConn.
Definition emptyBPF := emptyBPF.
(** [Agent.serveRead]: one socket; [None] is the error. *)
Definition serveRead (c : evr_config.Config) (a : OpenAnswer) : option RawConn :=
  if negb (oa_open a) then None
  else Some (setupRawConn a (evr_config.TOS c)
               (innerPortBPF (evr_config.InnerDstPort c) (evr_config.TOS c))).
End evr_receive.

Module kuiniu_receive.
Definition emptyBPF := emptyBPF.
Definition portRangeBPF := portRangeBPF.

(** [transport.NewUDPReceiver]: filter and TOS are set on any socket. *)
Definition NewUDPReceiver (a : OpenAnswer) (tos : Z) (r : PortRange) : option RawConn :=
  if negb (oa_open a) then None
  else Some (mkRawConn (if oa_filter a then Some (portRangeBPF (Min r) (Max r) tos) else None) (Some tos)).

(** The receivers of [Client.Run]: one per peer and sub-range, with the answers
    for each; any failure ends [Run]. *)
Definition peer_receivers (tos : Z) (answers : nat -> OpenAnswer) (rs : list PortRange) : option (list RawConn) :=
  mapM (fun '(i, r) => NewUDPReceiver (answers i) tos r) (imap pair rs).

Definition Run_receivers (conf : kuiniu_config.Config) (n_peers : nat) (answers : nat -> nat -> OpenAnswer) :
    option (option (list RawConn)) :=
  rs ← sonar_client.serveRead_ranges (kuiniu_config.ClientPortRange conf);
  Some (ls ← mapM (fun p => peer_receivers (kuiniu_config.TOS conf) (answers p) rs) (seq 0 n_peers);
        Some (concat ls)).

(** The receivers of [Server.Run]: one per local address; an address whose
    socket cannot be opened is skipped. *)
Definition server_receivers (conf : kuiniu_config.Config) (answers : nat -> OpenAnswer) : list RawConn :=
  omap (fun i => NewUDPReceiver (answers i) (kuiniu_config.TOS conf) (kuiniu_config.ServerPortRange conf))
    (seq 0 (length (kuiniu_config.LocalGPUAddrs conf))).
End kuiniu_receive.

(** ** What the programs accept *)

Section verdicts.
Context `{BPF_laws}.

(** Execute the next instruction. *)
Ltac bpf_step :=
  first [ rewrite run_ret | rewrite run_abs | rewrite run_ind | rewrite run_jump ].

Ltac raw_step :=
  first [ rewrite raw_ldb_abs | rewrite raw_ldh_ind | rewrite raw_ld_mem | rewrite raw_st | rewrite raw_and
        | rewrite raw_mul | rewrite raw_add | rewrite raw_tax | rewrite raw_jeq | rewrite raw_jge | rewrite raw_ret ].

(** Protocol, TOS and destination port of an IPv4 datagram without options. *)
Definition ip_proto (pkt : bytes) : option Z := load pkt 9 1.
Definition ip_tos (pkt : bytes) : option Z := load pkt 1 1.
Definition udp_dport (pkt : bytes) : option Z := load pkt 22 2.

Lemma emptyBPF_verdict pkt : verdict emptyBPF 0 0 pkt = 0.
Proof. apply run_ret. Qed.

(** The verdict on a UDP datagram with its TOS: the port decides. *)
Lemma portRangeBPF_udp lo hi tos pkt dport :
  ip_proto pkt = Some 17 -> ip_tos pkt = Some (u32 tos) -> udp_dport pkt = Some dport ->
  verdict (portRangeBPF lo hi tos) 0 0 pkt = if (u32 lo <=? dport) && (dport <=? u32 hi) then 65535 else 0.
Proof.
  intros Hp Ht Hd. unfold portRangeBPF, ip_proto, ip_tos, udp_dport in *.
  bpf_step. rewrite Z.add_0_l, Hp. bpf_step. cbn [jump_test]. rewrite Z.eqb_refl.
  bpf_step. rewrite Z.add_0_l, Ht. bpf_step. cbn [jump_test]. rewrite Z.eqb_refl.
  bpf_step. rewrite Hd. bpf_step. cbn [jump_test].
  destruct (u32 lo <=? dport); cbn [drop andb]; [|by bpf_step].
  bpf_step. cbn [jump_test]. destruct (dport <=? u32 hi); cbn [drop]; by bpf_step.
Qed.

(** Another TOS is rejected. *)
Lemma portRangeBPF_tos lo hi tos pkt t :
  ip_proto pkt = Some 17 -> ip_tos pkt = Some t -> t <> u32 tos -> verdict (portRangeBPF lo hi tos) 0 0 pkt = 0.
Proof.
  intros Hp Ht Hne. unfold portRangeBPF, ip_proto, ip_tos in *.
  bpf_step. rewrite Z.add_0_l, Hp. bpf_step. cbn [jump_test]. rewrite Z.eqb_refl.
  bpf_step. rewrite Z.add_0_l, Ht. bpf_step. cbn [jump_test drop]. rewrite (proj2 (Z.eqb_neq _ _)) by done.
  by bpf_step.
Qed.

(** Any other protocol lands on the comparison with [maxPort], with the
    protocol number in the accumulator: it is accepted. *)
Lemma portRangeBPF_other_protocol lo hi tos pkt proto :
  ip_proto pkt = Some proto -> proto <> 17 -> proto <= u32 hi -> verdict (portRangeBPF lo hi tos) 0 0 pkt = 65535.
Proof.
  intros Hp Hne Hle. unfold portRangeBPF, ip_proto in *.
  bpf_step. rewrite Z.add_0_l, Hp. bpf_step. cbn [jump_test drop]. rewrite (proj2 (Z.eqb_neq _ _)) by done.
  bpf_step. cbn [jump_test]. rewrite (proj2 (Z.leb_le _ _)) by done. by bpf_step.
Qed.

(** [innerPortBPF] accepts UDP datagrams with the TOS to the port, only. *)
Lemma innerPortBPF_exact port tos pkt :
  verdict (innerPortBPF port tos) 0 0 pkt =
  if bool_decide (ip_proto pkt = Some 17 /\ ip_tos pkt = Some (u32 tos) /\ udp_dport pkt = Some (u32 port))
  then 65535 else 0.
Proof.
  unfold innerPortBPF, ip_proto, ip_tos, udp_dport.
  bpf_step. rewrite Z.add_0_l. destruct (load pkt 9 1) as [proto|]; [|by rewrite bool_decide_eq_false_2 by naive_solver].
  bpf_step. cbn [jump_test drop]. destruct (Z.eqb_spec proto 17) as [->|];
    [|bpf_step; by rewrite bool_decide_eq_false_2 by naive_solver].
  bpf_step. rewrite Z.add_0_l. destruct (load pkt 1 1) as [t|]; [|by rewrite bool_decide_eq_false_2 by naive_solver].
  bpf_step. cbn [jump_test drop]. destruct (Z.eqb_spec t (u32 tos)) as [->|];
    [|bpf_step; by rewrite bool_decide_eq_false_2 by naive_solver].
  bpf_step. destruct (load pkt 22 2) as [d|]; [|by rewrite bool_decide_eq_false_2 by naive_solver].
  bpf_step. cbn [jump_test drop]. destruct (Z.eqb_spec d (u32 port)) as [->|]; bpf_step.
  - by rewrite bool_decide_eq_true_2.
  - by rewrite bool_decide_eq_false_2 by naive_solver.
Qed.

Lemma portRangeBPF6_exact lo hi pkt :
  verdict (sonar6_bpf.portRangeBPF lo hi) 0 0 pkt =
  match load pkt 2 2 with
  | Some dport => if (u32 lo <=? dport) && (dport <=? u32 hi) then 65535 else 0
  | None => 0
  end.
Proof.
  unfold sonar6_bpf.portRangeBPF. bpf_step. destruct (load pkt 2 2) as [d|]; [|done].
  bpf_step. cbn [jump_test drop]. destruct (u32 lo <=? d); cbn [andb]; [|by bpf_step].
  bpf_step. cbn [jump_test drop]. destruct (d <=? u32 hi); by bpf_step.
Qed.

(** Where the filter of [lidar] looks for the TCP header of a frame. *)
Definition tcp_offset (first : Z) : Z := 4 * Z.land first 15 + 14.

(** The verdict of the filter of [lidar] on a frame. *)
Definition lidar_verdict (serverPort srcPort portCount : Z) (pkt : bytes) : Z :=
  match load pkt 14 1 with
  | None => 0
  | Some first =>
      match load pkt (tcp_offset first) 2, load pkt (tcp_offset first + 2) 2 with
      | Some sport, Some dport =>
          if (sport =? u32 serverPort) && (u32 srcPort <=? dport) && (dport <? u16 (srcPort + portCount))
          then 65535 else 0
      | _, _ => 0
      end
  end.

Lemma land_15 a : 0 <= Z.land a 15 < 16.
Proof. change 15 with (Z.ones 4). rewrite Z.land_ones by lia. apply Z.mod_pos_bound. lia. Qed.

Lemma lidar_filter_verdict serverPort srcPort portCount pkt m :
  raw_verdict (buildBPFProbeFilter serverPort srcPort portCount) 0 0 m pkt =
  lidar_verdict serverPort srcPort portCount pkt.
Proof.
  unfold buildBPFProbeFilter, lidar_verdict, bpf.ethHdLen. cbn [foldl Z.lor Pos.lor].
  pose proof (u16_range (srcPort + portCount)) as Hr. unfold in_u16 in Hr.
  rewrite (u32_small (u16 _)) by (unfold in_u32; lia).
  raw_step. destruct (load pkt 14 1) as [a|]; [|done].
  pose proof (land_15 a) as Ha.
  do 5 raw_step.
  rewrite (u32_small (Z.land a 15 * 4)) by (unfold in_u32; lia).
  rewrite (u32_small (_ + 14)) by (unfold in_u32; lia).
  replace (Z.land a 15 * 4 + 14) with (tcp_offset a) by (unfold tcp_offset; lia).
  raw_step. rewrite Z.add_0_r.
  destruct (load pkt (tcp_offset a) 2) as [sport|]; [|done].
  raw_step. destruct (Z.eqb_spec sport (u32 serverPort)) as [->|]; cbn [drop andb];
    [|raw_step; by destruct (load _ _ _)].
  do 3 raw_step. cbn [Z.eqb].
  rewrite (u32_small (_ + 14)) by (unfold in_u32; lia).
  replace (Z.land a 15 * 4 + 14) with (tcp_offset a) by (unfold tcp_offset; lia).
  raw_step. destruct (load pkt (tcp_offset a + 2) 2) as [dport|]; [|done].
  raw_step. destruct (u32 srcPort <=? dport); cbn [drop andb]; [|by raw_step].
  raw_step. rewrite Z.ltb_antisym. destruct (u16 (srcPort + portCount) <=? dport); cbn [drop negb]; by raw_step.
Qed.

(** ** Who receives what *)

(** The kernel delivers a packet to a socket unless its filter drops it. *)
Definition accepts (c : RawConn) (pkt : bytes) : bool :=
  match rc_filter c with Some p => negb (verdict p 0 0 pkt =? 0) | None => true end.

(** Every socket opens and takes its filter. *)
Definition all_open (answers : nat -> OpenAnswer) : Prop := forall i, answers i = mkOpenAnswer true true true.

Lemma open_conns_all prog tos answers i rs :
  all_open answers -> (forall r, prog r <> []) ->
  open_conns prog tos answers i rs = (map (fun r => mkRawConn (Some (prog r)) (Some tos)) rs, true).
Proof.
  intros Ha Hp. revert i. induction rs as [|r rs IH]; intros i; cbn [open_conns map]; [done|].
  rewrite Ha. cbn [oa_open negb]. rewrite IH. unfold setupRawConn. cbn [oa_ip oa_filter negb].
  specialize (Hp r). by destruct (prog r).
Qed.

(** The sockets of a range whose programs decide by the port: a packet to a
    port of the range passes exactly one, a packet to another port none. *)
Definition one_receiver (pr : PortRange) (conns : list RawConn) (to_port : Z -> bytes -> Prop) : Prop :=
  forall pkt port, to_port port pkt ->
    (in_range pr port -> exists! k, exists c, conns !! k = Some c /\ accepts c pkt = true) /\
    (~ in_range pr port -> Forall (fun c => accepts c pkt = false) conns).

Lemma one_receiver_ranges pr (prog : PortRange -> list Instruction) tos to_port :
  valid_range pr ->
  (forall r pkt port, valid_range r -> to_port port pkt ->
     verdict (prog r) 0 0 pkt = if (Min r <=? port) && (port <=? Max r) then 65535 else 0) ->
  exists rs, sonar_client.serveRead_ranges pr = Some rs /\ (length rs <= 8)%nat /\
    one_receiver pr (map (fun r => mkRawConn (Some (prog r)) (Some tos)) rs) to_port.
Proof.
  intros Hv Hprog. destruct (serveRead_ranges_partition pr Hv) as (rs & E & Hl & Hin & Hone).
  assert (Hacc : forall r pkt port, r ∈ rs -> to_port port pkt ->
    accepts (mkRawConn (Some (prog r)) (Some tos)) pkt = true <-> in_range r port).
  { intros r pkt port Hr Hto. unfold accepts. cbn [rc_filter]. rewrite (Hprog r pkt port) by
      (done || (destruct (Hin r Hr); unfold valid_range in *; lia)).
    unfold in_range. destruct (Z.leb_spec (Min r) port), (Z.leb_spec port (Max r)); cbn; split; (done || lia). }
  exists rs. split_and!; [done..|]. intros pkt port Hto. split.
  - intros Hp. destruct (Hone port Hp) as (k & (r & Hk & Hr) & Huniq). exists k. split.
    + eexists. rewrite list_lookup_fmap, Hk. split; [done|].
      apply (Hacc r pkt port); [by eapply list_elem_of_lookup_2|done|done].
    + intros k' (c & Hk' & Hc). rewrite list_lookup_fmap in Hk'. destruct (rs !! k') as [r'|] eqn:E'; [|done].
      injection Hk' as <-. apply Huniq. exists r'. split; [done|].
      apply (Hacc r' pkt port); [by eapply list_elem_of_lookup_2|done|done].
  - intros Hp. apply Forall_map, Forall_forall. intros r Hr. cbn. apply not_true_is_false. intros Hc.
    apply Hp. destruct (Hin r Hr). apply (Hacc r pkt port) in Hc; [|done|done]. unfold in_range in *. lia.
Qed.

Lemma peer_receivers_all tos answers rs :
  all_open answers ->
  kuiniu_receive.peer_receivers tos answers rs =
    Some (map (fun r => mkRawConn (Some (portRangeBPF (Min r) (Max r) tos)) (Some tos)) rs).
Proof.
  intros Ha. unfold kuiniu_receive.peer_receivers. apply mapM_Some_2, Forall2_fmap_r.
  apply Forall2_same_length_lookup_2; [by rewrite length_imap|]. intros k [i r] r' Hk Hr'.
  rewrite list_lookup_imap, Hr' in Hk. injection Hk as <- <-.
  unfold kuiniu_receive.NewUDPReceiver. by rewrite Ha.
Qed.

Lemma valid_range_u32 r : valid_range r -> u32 (Min r) = Min r /\ u32 (Max r) = Max r.
Proof. intros H'. unfold valid_range in H'. split; apply u32_small; unfold in_u32; lia. Qed.

(** A UDP datagram in an IPv4 packet without options, with the configured TOS,
    to [port]; and one over IPv6, seen from the UDP header on. *)
Definition udp_to (tos port : Z) (pkt : bytes) : Prop :=
  ip_proto pkt = Some 17 /\ ip_tos pkt = Some (u32 tos) /\ udp_dport pkt = Some port.

Definition udp6_to (port : Z) (pkt : bytes) : Prop := load pkt 2 2 = Some port.

(** The pairs get the same list. *)
Lemma mapM_replicate {A B} (f : A -> option B) (y : B) l :
  Forall (fun x => f x = Some y) l -> mapM f l = Some (replicate (length l) y).
Proof.
  induction 1 as [|x l Hx _ IH]; [done|]. cbn [mapM length replicate]. rewrite Hx. cbn [mbind option_bind].
  by rewrite IH.
Qed.

(** C20: a reply is handled once: the receive sockets of a valid client port
    range, at most eight, if they all open, have filters such that a UDP
    datagram with the configured TOS (no IP options) to a port of the range is
    accepted by exactly one of them (so exactly one goroutine calls
    [handlePacket]), and one to any other port by none; for sonar and, without
    TOS, for sonar6. The kuiniu client opens the same list of sockets for each
    of its [n] pairs of GPUs, so exactly one per pair accepts: one in all for
    a single pair. Filters do not look at addresses: with several pairs it is
    the local address a socket is bound to that tells their replies apart, and
    two pairs with the same local address, which [Validate] accepts, both get
    every reply. *)
Theorem replies_reach_one_receiver :
  (forall c answers, valid_range (sonar_config.ClientPortRange c) -> all_open answers ->
     exists conns, sonar_receive.serveRead c answers = Some (conns, true) /\ (length conns <= 8)%nat /\
       one_receiver (sonar_config.ClientPortRange c) conns (udp_to (sonar_config.TOS c))) /\
  (forall c answers, valid_range (sonar6_config.ClientPortRange c) -> all_open answers ->
     exists conns, sonar6_receive.serveRead c answers = Some (conns, true) /\ (length conns <= 8)%nat /\
       one_receiver (sonar6_config.ClientPortRange c) conns udp6_to) /\
  (forall c n answers, valid_range (kuiniu_config.ClientPortRange c) -> (forall p, (p < n)%nat -> all_open (answers p)) ->
     exists conns, kuiniu_receive.Run_receivers c n answers = Some (Some (concat (replicate n conns))) /\
       (length conns <= 8)%nat /\
       one_receiver (kuiniu_config.ClientPortRange c) conns (udp_to (kuiniu_config.TOS c))).
Proof.
  assert (H4 : forall tos r pkt port, valid_range r -> udp_to tos port pkt ->
    verdict (portRangeBPF (Min r) (Max r) tos) 0 0 pkt = if (Min r <=? port) && (port <=? Max r) then 65535 else 0).
  { intros tos r pkt port Hr (Hp & Ht & Hd). destruct (valid_range_u32 r Hr) as [E1 E2].
    rewrite (portRangeBPF_udp _ _ _ _ port) by done. by rewrite E1, E2. }
  split_and!; [intros c answers Hv Ha..|intros c n answers Hv Ha].
  - destruct (one_receiver_ranges _ _ (sonar_config.TOS c) _ Hv (H4 (sonar_config.TOS c))) as (rs & E & Hl & H1).
    eexists. unfold sonar_receive.serveRead. rewrite E. cbn [mbind option_bind].
    rewrite open_conns_all by done. split_and!; [done|by rewrite length_map|done].
  - destruct (one_receiver_ranges _ (fun r => sonar6_bpf.portRangeBPF (Min r) (Max r)) (sonar6_config.TOS c) udp6_to Hv)
      as (rs & E & Hl & H1).
    { intros r pkt port Hr Hd. destruct (valid_range_u32 r Hr) as [E1 E2].
      rewrite portRangeBPF6_exact, Hd. by rewrite E1, E2. }
    eexists. unfold sonar6_receive.serveRead. rewrite E. cbn [mbind option_bind].
    rewrite open_conns_all by done. split_and!; [done|by rewrite length_map|done].
  - destruct (one_receiver_ranges _ _ (kuiniu_config.TOS c) _ Hv (H4 (kuiniu_config.TOS c))) as (rs & E & Hl & H1).
    eexists. unfold kuiniu_receive.Run_receivers. rewrite E. cbn [mbind option_bind].
    erewrite mapM_replicate.
    2: { apply Forall_forall. intros p Hp%elem_of_seq. apply peer_receivers_all, Ha. lia. }
    rewrite length_seq. split_and!; [done|by rewrite length_map|done].
Qed.

(** The filter of lidar: it passes the frames whose two half words where a
    TCP header would start and follow are the server port and a port of the
    local range, whatever their protocol. So every answer to a port the prober
    uses passes, as long as the first port plus the count stays below 65536;
    otherwise the 16-bit sum wraps and the filter drops every frame there is. *)
Theorem lidar_filter_answers :
  forall serverPort srcPort portCount m,
    in_u16 serverPort -> in_u16 srcPort -> in_u16 portCount ->
    let deliver pkt := raw_verdict (buildBPFProbeFilter serverPort srcPort portCount) 0 0 m pkt in
    (srcPort + portCount < 65536 -> forall pkt,
       deliver pkt <> 0 <-> exists first dport, load pkt 14 1 = Some first /\
         load pkt (tcp_offset first) 2 = Some serverPort /\ load pkt (tcp_offset first + 2) 2 = Some dport /\
         srcPort <= dport < srcPort + portCount) /\
    (65536 <= srcPort + portCount -> forall pkt, deliver pkt = 0).
Proof.
  intros serverPort srcPort portCount m Hs Hp Hc. cbn zeta.
  assert (Hsmall : forall z, in_u16 z -> u32 z = z) by (intros z Hz; apply u32_small; unfold in_u16, in_u32 in *; lia).
  split; intros Hsum pkt; rewrite lidar_filter_verdict; unfold lidar_verdict; rewrite !Hsmall by done.
  - rewrite u16_small by (unfold in_u16 in *; lia). split.
    + destruct (load pkt 14 1) as [first|]; [|done].
      destruct (load pkt (tcp_offset first) 2) as [sport|] eqn:E1; [|done].
      destruct (load pkt (tcp_offset first + 2) 2) as [dport|] eqn:E2; [|done].
      destruct (Z.eqb_spec sport serverPort) as [->|]; [|done].
      destruct (Z.leb_spec srcPort dport); [|done]. destruct (Z.ltb_spec dport (srcPort + portCount)); [|done].
      intros _. by exists first, dport.
    + intros (first & dport & -> & -> & -> & Hd). rewrite Z.eqb_refl.
      rewrite (proj2 (Z.leb_le _ _)), (proj2 (Z.ltb_lt _ _)) by lia. done.
  - replace (u16 (srcPort + portCount)) with (srcPort + portCount - 65536).
    2: { unfold u16. change (2 ^ 16) with 65536. unfold in_u16 in *.
         apply (Z.mod_unique_pos _ _ 1); lia. }
    destruct (load pkt 14 1) as [first|]; [|done].
    destruct (load pkt (tcp_offset first) 2) as [sport|]; [|done].
    destruct (load pkt (tcp_offset first + 2) 2) as [dport|]; [|done].
    unfold in_u16 in *. destruct (Z.leb_spec srcPort dport); [|by rewrite andb_false_r].
    destruct (Z.ltb_spec dport (srcPort + portCount - 65536)); [lia|by rewrite andb_false_r].
Qed.

End verdicts.

(** ** A machine *)

(** An interpreter that satisfies the laws: [skip] instructions are passed over
    before the next one is executed. *)
Module Vm.

Fixpoint run (p : list Instruction) (skip : nat) (a x : Z) (pkt : bytes) : Z :=
  match p, skip with
  | [], _ => 0
  | _ :: p, S skip => run p skip a x pkt
  | RetConstant v :: _, O => v
  | LoadAbsolute off n :: p, O => match load pkt off n with Some v => run p 0 v x pkt | None => 0 end
  | LoadIndirect off n :: p, O => match load pkt (x + off) n with Some v => run p 0 v x pkt | None => 0 end
  | JumpIf c v n :: p, O => run p (if jump_test c a v then 0 else n)%nat a x pkt
  end.

Fixpoint run_raw (p : list BPFInstruction) (skip : nat) (a x : Z) (m : Z -> Z) (pkt : bytes) : Z :=
  match p, skip with
  | [], _ => 0
  | _ :: p, S skip => run_raw p skip a x m pkt
  | mkBPF code jt jf k :: p, O =>
      if code =? 48 then match load pkt k 1 with Some v => run_raw p 0 v x m pkt | None => 0 end
      else if code =? 72 then match load pkt (x + k) 2 with Some v => run_raw p 0 v x m pkt | None => 0 end
      else if code =? 96 then run_raw p 0 (m k) x m pkt
      else if code =? 2 then run_raw p 0 a x (fun i => if i =? k then a else m i) pkt
      else if code =? 84 then run_raw p 0 (Z.land a k) x m pkt
      else if code =? 36 then run_raw p 0 (u32 (a * k)) x m pkt
      else if code =? 4 then run_raw p 0 (u32 (a + k)) x m pkt
      else if code =? 7 then run_raw p 0 a a m pkt
      else if code =? 21 then run_raw p (if a =? k then jt else jf) a x m pkt
      else if code =? 53 then run_raw p (if k <=? a then jt else jf) a x m pkt
      else if code =? 6 then k
      else 0
  end.

Lemma run_skip p n a x pkt : run p n a x pkt = run (drop n p) 0 a x pkt.
Proof. revert n. induction p as [|i p IH]; intros [|n]; cbn [drop]; [done..|]. rewrite <- IH. by destruct i. Qed.

Lemma run_raw_skip p n a x m pkt : run_raw p n a x m pkt = run_raw (drop n p) 0 a x m pkt.
Proof. revert n. induction p as [|i p IH]; intros [|n]; cbn [drop]; [done..|]. rewrite <- IH. by destruct i. Qed.

#[export] Instance machine : BPF := {| verdict p := run p 0; raw_verdict p := run_raw p 0 |}.

#[export] Instance machine_laws : BPF_laws.
Proof.
  split; intros; cbn; try done.
  - destruct (jump_test c a v); [done|]. by rewrite run_skip.
  - by destruct (a =? k); rewrite run_raw_skip.
  - by destruct (k <=? a); rewrite run_raw_skip.
Qed.

End Vm.

#[local] Existing Instances Vm.machine Vm.machine_laws.

Module samples.

Definition answers : nat -> OpenAnswer := fun _ => mkOpenAnswer true true true.

(** An IPv4 header with protocol 17 and the given TOS, and a UDP header. *)
Definition ip_packet (tos sport dport : Z) : bytes :=
  [69; tos; 0; 28; 0; 0; 0; 0; 64; 17; 0; 0] ++ [10; 0; 0; 2] ++ [10; 0; 0; 1] ++
  put_be 2 sport ++ put_be 2 dport ++ [0; 8; 0; 0].

(** An Ethernet header before an IPv4 header with one option word and a TCP
    header. *)
Definition frame (sport dport : Z) : bytes :=
  make_bytes 12 ++ [8; 0] ++ [70; 0; 0; 44; 0; 0; 0; 0; 64; 6; 0; 0] ++ [10; 0; 0; 2] ++ [10; 0; 0; 1] ++
  make_bytes 4 ++ put_be 2 sport ++ put_be 2 dport ++ make_bytes 16.

Example receivers_of_a_reply :
  let conns := fst (open_conns (fun r => portRangeBPF (Min r) (Max r) 64) 64 answers 0
                      (default [] (sonar_client.serveRead_ranges (mkPortRange 43500 43599)))) in
  map (fun c => accepts c (ip_packet 64 8972 43513)) conns = [false; true; false; false; false; false; false; false] /\
  map (fun c => accepts c (ip_packet 0 8972 43513)) conns = replicate 8 false /\
  map (fun c => accepts c (ip_packet 64 8972 43600)) conns = replicate 8 false.
Proof. vm_compute. repeat split. Qed.

End samples.

Lemma replies_reach_one_receiver_witness :
  let c := SonarConfig.sample_validated in
  let pkt := samples.ip_packet (u32 (sonar_config.TOS c)) 8972 (Min (sonar_config.ClientPortRange c)) in
  exists conns, sonar_receive.serveRead c samples.answers = Some (conns, true) /\
    exists! k, exists s, conns !! k = Some s /\ accepts s pkt = true.
Proof.
  cbn zeta.
  destruct (proj1 replies_reach_one_receiver SonarConfig.sample_validated samples.answers)
    as (conns & E & _ & H); [vm_compute; repeat split; discriminate|done|].
  exists conns. split; [exact E|]. apply (H _ (Min (sonar_config.ClientPortRange SonarConfig.sample_validated))).
  - vm_compute. repeat split.
  - vm_compute. split; discriminate.
Defined.

Lemma lidar_filter_answers_witness :
  raw_verdict (buildBPFProbeFilter 447 54321 100) 0 0 (fun _ => 0) (samples.frame 447 54330) <> 0 /\
  raw_verdict (buildBPFProbeFilter 447 65500 100) 0 0 (fun _ => 0) (samples.frame 447 65510) = 0.
Proof.
  split.
  - apply (lidar_filter_answers 447 54321 100 (fun _ => 0)); [unfold in_u16; lia..|].
    exists 70, 54330. split_and!; [vm_compute; reflexivity..|lia|lia].
  - apply (lidar_filter_answers 447 65500 100 (fun _ => 0)); unfold in_u16; lia.
Defined.
