(* ===== verification/ClientRun.v ===== *)
(** * The life of the clients and servers ([Run] of [sonar/client],
      [sonar6/client], [evr/agent], [kuiniu/client] and [kuiniu/server])

    [Run] opens sockets, starts a read loop for some of them, sends until a limit
    is reached or the context is cancelled, and returns. Its effects on the
    sockets are a list of events in order; sockets are numbered in the order in
    which they are opened. The send loops and what a socket is set up with are
    those of the other files; the answers of the system are arguments. *)

From S2P Require Import Prelude GoStd GoNet GoDuration Ports UdpStat Salts Goscapy World SonarConfig Sonar6Config KuiniuConfig EvrConfig UdpClient UdpServer Sonar EvrAgent KuiniuClient KuiniuServer Receive.
Local Open Scope Z_scope.

(** ** Events *)

(** A socket is opened; a goroutine starts to read the socket with a number; the
    goroutine of [Run] waits; a socket is closed. *)
Inductive event :=
| Open (c : RawConn)
| Loop (k : nat)
| Wait (d : Z)
| Close (k : nat).

Definition is_open (e : event) : bool := match e with Open _ => true | _ => false end.
Definition closed_by (e : event) : option nat := match e with Close k => Some k | _ => None end.
Definition waited_by (e : event) : Z := match e with Wait d => d | _ => 0 end.

Definition opened (tr : list event) : nat := length (List.filter is_open tr).

(** The sockets that are open at the end. *)
Definition left_open (tr : list event) : list nat :=
  List.filter (fun k => negb (bool_decide (k ∈ omap closed_by tr))) (seq 0 (opened tr)).

Definition waited (tr : list event) : Z := foldr Z.add 0 (map waited_by tr).

(** How [Run] ended; the first three are errors, as is a context that is
    cancelled while sending. *)
Inductive ending :=
| ReadSocketFailed
| WriteSocketFailed
| RawConnFailed
| Cancelled
| Limit.

(** The sockets of a list are opened and read one after the other. *)
Definition read_events (conns : list RawConn) : list event := concat (imap (fun k c => [Open c; Loop k]) conns).

(** ** sonar and sonar6 *)

Section sonar.
Context {S : Type}.
(** The configured [Delay] and [TOS], the result of [serveRead], the answers for
    the socket that sends, what the send loop does ([None] is a panic; the
    boolean tells that a limit was reached), and when the context is cancelled
    after that, if it is. *)
Variables (Delay TOS : Z) (read : option (list RawConn * bool)) (answer : OpenAnswer)
  (send_loop : option (S * bool)) (cancelled_after : option Z).

(** [reachedLimit]: how long it waits. *)
Definition reachedLimit : Z :=
  let grace := i64 (Delay + 10 * Second) in
  let grace := if grace <=? 0 then 0 else grace in
  match cancelled_after with Some d => Z.min d grace | None => grace end.

(** [closeReadConns]. *)
Definition closeReadConns (n : nat) : list event := map Close (seq 0 n).

(** [serveWrite], with [n] sockets that are read. *)
Definition serveWrite_events (n : nat) : option (option S * ending * list event) :=
  if negb (oa_open answer) then Some (None, WriteSocketFailed, [])
  else
    '(st, stop) ← send_loop;
    let ends := if (stop : bool) then (Limit, [Wait reachedLimit]) else (Cancelled, []) in
    Some (Some st, ends.1, [Open (setupRawConn answer TOS emptyBPF)] ++ ends.2 ++ closeReadConns n ++ [Close n]).

(** [Run]. *)
Definition client_Run : option (option S * ending * list event) :=
  '(conns, ok) ← read;
  if negb ok then Some (None, ReadSocketFailed, read_events conns)
  else
    '(st, e, tr) ← serveWrite_events (length conns);
    Some (st, e, read_events conns ++ [Wait (3 * Second)] ++ tr).

End sonar.

Module sonar_run.
Section run.
Context `{Goscapy}.
Definition Run (conf : sonar_config.Config) (c : UdpClient.Client) (answers : nat -> OpenAnswer) (answer : OpenAnswer)
    (rounds : list (list (string * UdpClient.Outside))) (cancelled_after : option Z) (w : World) :=
  client_Run (sonar_config.Delay conf) (sonar_config.TOS conf) (sonar_receive.serveRead conf answers) answer
    (sonar_client.serveWrite c rounds w) cancelled_after.
End run.
End sonar_run.

Module sonar6_run.
Section run.
Context `{Goscapy}.
Definition Run (conf : sonar6_config.Config) (c : UdpClient.Client) (answers : nat -> OpenAnswer) (answer : OpenAnswer)
    (rounds : list (list (string * UdpClient.Outside))) (cancelled_after : option Z) (w : World) :=
  client_Run (sonar6_config.Delay conf) (sonar6_config.TOS conf) (sonar6_receive.serveRead conf answers) answer
    (sonar6_client.serveWrite c rounds w) cancelled_after.
Definition reachedLimit := reachedLimit.
Definition closeReadConns := closeReadConns.
End run.
End sonar6_run.

(** ** EVR *)

Module evr_run.
Section run.
Context `{HG : Goscapy}.

Definition closeReadConns := closeReadConns.

(** [Run] of the agent: one socket is read; [rawconn] tells whether
    [ipv4.NewRawConn] succeeds. There is no limit. *)
Definition Run (a : Agent) (read_answer write_answer : OpenAnswer) (rawconn : bool)
    (rounds : list (list EvrAgent.Outside)) (w : World) : option (option (Agent * World * list (IP * bytes)) * ending * list event) :=
  let conf := ag_conf a in
  match evr_receive.serveRead conf read_answer with
  | None => Some (None, ReadSocketFailed, [])
  | Some conn =>
      let start := read_events [conn] ++ [Wait (500 * Millisecond)] in
      if negb (oa_open write_answer) then Some (None, WriteSocketFailed, start)
      else
        let start := start ++ [Open (setupRawConn write_answer (evr_config.TOS conf) emptyBPF)] in
        let finish := closeReadConns 1 ++ [Close 1] in
        if negb rawconn then Some (None, RawConnFailed, start ++ finish)
        else st ← EvrAgent.serveWrite a rounds w; Some (Some st, Cancelled, start ++ finish)
  end.

End run.
End evr_run.

(** ** kuiniu *)

Module kuiniu_transport.

(** [NewUDPSender]: filter and TOS are set on any socket. *)
Definition NewUDPSender (a : OpenAnswer) (tos : Z) : option RawConn :=
  if negb (oa_open a) then None
  else Some (mkRawConn (if oa_filter a then Some emptyBPF else None) (Some tos)).

(** [getDeadline]: the zero time is no deadline. *)
Definition getDeadline (ctx_deadline : option Z) : option Z :=
  match ctx_deadline with Some dl => Some dl | None => None end.

(** [UDPReceiver.Receive]: whether the deadline can be set, and what [ReadFrom]
    delivers. *)
Definition Receive {A} (deadline_ok : bool) (ReadFrom : option A) : option A :=
  if negb deadline_ok then None else ReadFrom.

(** [UDPSender.Close], for socket [k]. *)
Definition Close_conn (conn : option nat) : list event :=
  match conn with Some k => [Close k] | None => [] end.

(** [UDPReceiver.Close]. *)
Definition Close_receiver := Close_conn.

End kuiniu_transport.
Import kuiniu_transport.

(** A loop that opens sockets and returns at the first failure: what it opened,
    and whether all could be. *)
Fixpoint open_all (attempts : list (option RawConn)) : list RawConn * bool :=
  match attempts with
  | [] => ([], true)
  | None :: _ => ([], false)
  | Some c :: attempts => let '(l, ok) := open_all attempts in (c :: l, ok)
  end.

(** The deferred calls of the sockets below [n], last in first out. *)
Definition deferred (n : nat) : list event := concat (map (fun k => Close_conn (Some k)) (reverse (seq 0 n))).

Module kuiniu_client_run.
Section run.
Context `{Goscapy}.

(** The attempts of both loops: one sender per peer, then one receiver per peer
    and sub-range. *)
Definition sender_attempts (c : KuiniuClient.Client) (answers : nat -> OpenAnswer) : list (option RawConn) :=
  imap (fun i _ => NewUDPSender (answers i) (kuiniu_config.TOS (KuiniuClient.cl_conf c))) (KuiniuClient.cl_peers c).

Definition receiver_attempts (c : KuiniuClient.Client) (rs : list PortRange) (answers : nat -> nat -> OpenAnswer) :
    list (option RawConn) :=
  let tos := kuiniu_config.TOS (KuiniuClient.cl_conf c) in
  concat (imap (fun p _ => imap (fun j r => kuiniu_receive.NewUDPReceiver (answers p j) tos r) rs) (KuiniuClient.cl_peers c)).

(** [Run]; [None] is a panic. *)
Definition Run (c : KuiniuClient.Client) (senders : nat -> OpenAnswer) (receivers : nat -> nat -> OpenAnswer)
    (rounds : list (nat -> UdpClient.Outside)) (w : World) :
    option (option (KuiniuClient.WState) * ending * list event) :=
  let '(ss, ok) := open_all (sender_attempts c senders) in
  let tr := map Open ss in
  if negb ok then Some (None, WriteSocketFailed, tr ++ deferred (length ss))
  else
    rs ← sonar_client.serveRead_ranges (kuiniu_config.ClientPortRange (KuiniuClient.cl_conf c));
    let '(cs, ok) := open_all (receiver_attempts c rs receivers) in
    let tr := tr ++ map Open cs in
    let n := (length ss + length cs)%nat in
    if negb ok then Some (None, ReadSocketFailed, tr ++ deferred n)
    else
      '(st, stop) ← KuiniuClient.serveWrite c rounds w;
      Some (Some st, if (stop : bool) then Limit else Cancelled,
            tr ++ map Loop (seq (length ss) (length cs)) ++ [Wait (3 * Second)] ++ deferred n).

(** [Close]: the receivers again, which are the sockets from [n] on. *)
Definition Close_receivers (n receivers : nat) : list event :=
  concat (map (fun k => Close_conn (Some k)) (seq n receivers)).

End run.
End kuiniu_client_run.

Module kuiniu_server_run.

(** The loop over the receivers: an address whose socket cannot be opened is
    skipped; [n] sockets are open before it. *)
Fixpoint receiver_events (n : nat) (attempts : list (option RawConn)) : list event :=
  match attempts with
  | [] => []
  | None :: attempts => receiver_events n attempts
  | Some c :: attempts => [Open c; Loop n] ++ receiver_events (S n) attempts
  end.

(** [Run], which ends when the context is cancelled. *)
Definition Run (conf : kuiniu_config.Config) (senders receivers : nat -> OpenAnswer) : ending * list event :=
  let tos := kuiniu_config.TOS conf in
  let addrs := kuiniu_config.LocalGPUAddrs conf in
  let '(ss, ok) := open_all (imap (fun i _ => NewUDPSender (senders i) tos) addrs) in
  if negb ok then (WriteSocketFailed, map Open ss ++ deferred (length ss))
  else
    let attempts := imap (fun i _ => kuiniu_receive.NewUDPReceiver (receivers i) tos (kuiniu_config.ServerPortRange conf)) addrs in
    let tr := map Open ss ++ receiver_events (length ss) attempts in
    (Cancelled, tr ++ deferred (opened tr)).

End kuiniu_server_run.

(** ** The sockets of the sonar servers *)

Module sonar_server_run.

(** A datagram that [ReadFromUDP] delivers, with the clock after it; [None] is
    an error. *)
Definition ReadResult : Type := option (Z * (IP * Z) * bytes).

(** The loop of [readPackets] over what is read; an error is only logged. *)
Fixpoint read_loop (s : UdpServer.Server) (port : Z) (reads : list ReadResult) (st : UdpServer.SState) :
    option (UdpServer.SState * list ((IP * Z) * bytes)) :=
  match reads with
  | [] => Some (st, [])
  | None :: reads => read_loop s port reads st
  | Some (now, remote, data) :: reads =>
      '(st, out) ← UdpServer.readPacket s port now remote data st;
      '(st, out') ← read_loop s port reads st;
      Some (st, out ++ out')
  end.

(** [readPackets]: a port that cannot be listened on is given up; the socket
    gets the configured TOS, if the system takes it. *)
Definition readPackets (s : UdpServer.Server) (tos : Z) (listens tos_set : bool) (port : Z) (reads : list ReadResult)
    (st : UdpServer.SState) : option (option RawConn * UdpServer.SState * list ((IP * Z) * bytes)) :=
  if negb listens then Some (None, st, [])
  else
    '(st, out) ← read_loop s port reads st;
    Some (Some (mkRawConn None (if tos_set then Some tos else None)), st, out).

End sonar_server_run.

Module sonar6_server_run.
Definition readPackets := sonar_server_run.readPackets.
End sonar6_server_run.

(** ** Lemmas on events *)

Lemma opened_app tr tr' : opened (tr ++ tr') = (opened tr + opened tr')%nat.
Proof. unfold opened. by rewrite List.filter_app, length_app. Qed.

Lemma opened_none tr : Forall (fun e => is_open e = false) tr -> opened tr = 0%nat.
Proof. unfold opened. induction 1 as [|e tr He _ IH]; cbn; [done|]. by rewrite He. Qed.

Lemma opened_map cs : opened (map Open cs) = length cs.
Proof. unfold opened. induction cs as [|c cs IH]; cbn; [done|]. by rewrite IH. Qed.

Lemma left_open_nil tr : (forall k, (k < opened tr)%nat -> Close k ∈ tr) -> left_open tr = [].
Proof.
  intros H. unfold left_open. rewrite (List.filter_ext_in _ (fun _ => false)); [apply List.filter_false|].
  intros k Hk%in_seq. rewrite bool_decide_eq_true_2; [done|]. apply list_elem_of_omap.
  exists (Close k). split; [apply H; lia|done].
Qed.

(** With no [Close] at all every socket stays open. *)
Lemma left_open_all tr : omap closed_by tr = [] -> left_open tr = seq 0 (opened tr).
Proof.
  intros E. unfold left_open. rewrite E, (List.filter_ext_in _ (fun _ => true)); [apply List.filter_true|].
  intros k _. rewrite bool_decide_eq_false_2; [done|]. by inversion 1.
Qed.

Lemma closed_by_open cs : omap closed_by (map Open cs) = [].
Proof. by induction cs. Qed.

Lemma deferred_map n : deferred n = map Close (reverse (seq 0 n)).
Proof. unfold deferred. induction (reverse (seq 0 n)) as [|k l IH]; cbn; [done|]. f_equal. exact IH. Qed.

Lemma opened_deferred n : opened (deferred n) = 0%nat.
Proof. rewrite deferred_map. by apply opened_none, Forall_map, Forall_forall. Qed.

Lemma close_deferred n k : (k < n)%nat -> Close k ∈ deferred n.
Proof.
  intros Hk. rewrite deferred_map. apply (list_elem_of_fmap_2 Close). apply elem_of_reverse, elem_of_seq. lia.
Qed.

(** What the deferred calls of all sockets opened leave: nothing. *)
Lemma deferred_closes tr : left_open (tr ++ deferred (opened tr)) = [].
Proof.
  apply left_open_nil. intros k. rewrite opened_app, opened_deferred, Nat.add_0_r. intros Hk.
  apply elem_of_app. right. by apply close_deferred.
Qed.

Lemma opened_closes n : opened (closeReadConns n) = 0%nat.
Proof. apply opened_none, Forall_map, Forall_forall. done. Qed.

Lemma close_closes n k : (k < n)%nat -> Close k ∈ closeReadConns n.
Proof. intros Hk. unfold closeReadConns. apply (list_elem_of_fmap_2 Close). apply elem_of_seq. lia. Qed.

Lemma read_events_sockets cs : opened (read_events cs) = length cs /\ omap closed_by (read_events cs) = [].
Proof.
  enough (H : forall g : nat -> nat, let tr := concat (imap (fun k c => [Open c; Loop (g k)]) cs) in
    opened tr = length cs /\ omap closed_by tr = []) by exact (H id).
  induction cs as [|c cs IH]; intros g; [done|]. cbn [imap concat length app]. destruct (IH (g ∘ S)) as [E1 E2].
  split; [|exact E2]. unfold opened in *. cbn [List.filter is_open length]. f_equal. exact E1.
Qed.

(** ** sonar and sonar6: the sockets and the grace period *)

Section sonar_sockets.
Context {St : Type}.
Implicit Types (send_loop : option (St * bool)).

(** What is certain of the trace of [Run] by the way it ended: [n] sockets were
    opened for reading. *)
Definition run_sockets (Delay : Z) (cancelled_after : option Z) (n : nat) (e : ending) (tr : list event) : Prop :=
  match e with
  | ReadSocketFailed | WriteSocketFailed => left_open tr = seq 0 n /\ omap closed_by tr = []
  | _ =>
      left_open tr = [] /\
      exists before, tr = before ++ closeReadConns n ++ [Close n] /\ omap closed_by before = [] /\
        (e = Limit -> cancelled_after = None -> in_i64 (Delay + 10 * Second) -> Delay + 13 * Second <= waited before)
  end.

Lemma waited_app tr tr' : waited (tr ++ tr') = waited tr + waited tr'.
Proof. unfold waited. rewrite map_app. induction (map waited_by tr) as [|d l IH]; cbn; lia. Qed.

Lemma waited_read_events conns : waited (read_events conns) = 0.
Proof.
  enough (H : forall g : nat -> nat, waited (concat (imap (fun k c => [Open c; Loop (g k)]) conns)) = 0) by exact (H id).
  induction conns as [|c conns IH]; intros g; [done|]. cbn [imap concat app]. exact (IH (g ∘ S)).
Qed.

(** Every branch of [Run]. *)
Lemma client_Run_cases Delay TOS read answer send_loop cancelled_after :
  client_Run Delay TOS read answer send_loop cancelled_after =
    match read with
    | None => None
    | Some (conns, false) => Some (None, ReadSocketFailed, read_events conns)
    | Some (conns, true) =>
        if negb (oa_open answer) then Some (None, WriteSocketFailed, read_events conns ++ [Wait (3 * Second)])
        else
          '(st, stop) ← send_loop;
          Some (Some st, if (stop : bool) then Limit else Cancelled,
            (read_events conns ++ [Wait (3 * Second)] ++ [Open (setupRawConn answer TOS emptyBPF)] ++
               (if stop then [Wait (reachedLimit Delay cancelled_after)] else [])) ++
            closeReadConns (length conns) ++ [Close (length conns)])
    end.
Proof.
  unfold client_Run, serveWrite_events. destruct read as [[conns []]|]; [|done..]. cbn [mbind option_bind negb].
  destruct (oa_open answer); [|done]. destruct send_loop as [[st []]|]; [|..|done]; cbn; by rewrite <- !app_assoc.
Qed.

Lemma client_Run_run_sockets Delay TOS read answer send_loop cancelled_after conns ok st e tr :
  read = Some (conns, ok) ->
  client_Run Delay TOS read answer send_loop cancelled_after = Some (st, e, tr) ->
  run_sockets Delay cancelled_after (length conns) e tr.
Proof.
  intros -> Hrun. rewrite client_Run_cases in Hrun. destruct (read_events_sockets conns) as [En Ec].
  assert (Hleft : forall l, Forall (fun e => is_open e = false /\ closed_by e = None) l ->
    left_open (read_events conns ++ l) = seq 0 (length conns) /\ omap closed_by (read_events conns ++ l) = []).
  { intros l Hl. assert (omap closed_by (read_events conns ++ l) = []) as E.
    { rewrite omap_app, Ec. induction Hl as [|x l [_ Hx] _ IH]; cbn; [done|]. by rewrite Hx. }
    split; [|done]. rewrite left_open_all, opened_app, En, (opened_none l) by
      (done || (eapply Forall_impl; [exact Hl|by intros ? []])). f_equal. lia. }
  destruct ok.
  2: { injection Hrun as <- <- <-. cbn. rewrite <- (app_nil_r (read_events conns)). by apply Hleft. }
  destruct (oa_open answer); cbn [negb] in Hrun.
  2: { injection Hrun as <- <- <-. apply Hleft. by repeat constructor. }
  destruct send_loop as [[st' stop]|]; [|done]. cbn [mbind option_bind] in Hrun.
  enough (H : left_open tr = [] /\ exists before, tr = before ++ closeReadConns (length conns) ++ [Close (length conns)] /\
    omap closed_by before = [] /\ (stop = true -> cancelled_after = None -> in_i64 (Delay + 10 * Second) ->
      Delay + 13 * Second <= waited before)).
  { injection Hrun as <- <- _. destruct H as (H1 & before & H2 & H3 & H4).
    destruct stop; (split; [done|]); exists before; (split_and!; [done..|]); [by intros _; apply H4|done]. }
  injection Hrun as _ _ <-. split.
  - apply left_open_nil. intros k. rewrite !opened_app, opened_closes, En. intros Hk.
    apply elem_of_app. right. apply elem_of_app. destruct (decide (k < length conns)%nat) as [Hl|Hl].
    + left. by apply close_closes.
    + right. apply list_elem_of_singleton. f_equal. unfold opened in Hk. destruct stop; cbn in Hk; lia.
  - eexists. split; [done|]. split.
    + rewrite !omap_app, Ec. by destruct stop.
    + intros -> -> Hi. rewrite !waited_app, waited_read_events. unfold reachedLimit.
      rewrite i64_small by done. cbn. unfold Second in *. destruct (_ <=? 0) eqn:E; lia.
Qed.

End sonar_sockets.

(** Which of [n] sockets to read open: the first that fails, if any. *)
Definition reads_open (answers : nat -> OpenAnswer) (n : nat) : Prop :=
  forall i, (i < n)%nat -> oa_open (answers i) = true.

Lemma open_conns_ok prog tos answers i rs :
  (forall k, (k < length rs)%nat -> oa_open (answers (i + k)%nat) = true) ->
  exists conns, open_conns prog tos answers i rs = (conns, true) /\ length conns = length rs.
Proof.
  revert i. induction rs as [|r rs IH]; intros i H; cbn [open_conns length] in *; [by exists []|].
  pose proof (H 0%nat ltac:(lia)) as H0. rewrite Nat.add_0_r in H0. rewrite H0. cbn [negb].
  destruct (IH (S i)) as (conns & -> & El).
  { intros k Hk. replace (S i + k)%nat with (i + S k)%nat by lia. apply H. lia. }
  eexists. split; [done|]. cbn. by rewrite El.
Qed.

Lemma open_conns_fails prog tos answers i rs k :
  (forall j, (j < k)%nat -> oa_open (answers (i + j)%nat) = true) -> oa_open (answers (i + k)%nat) = false ->
  (k < length rs)%nat -> exists conns, open_conns prog tos answers i rs = (conns, false) /\ length conns = k.
Proof.
  revert i k. induction rs as [|r rs IH]; intros i k Ho Hf Hk; cbn [open_conns length] in *; [lia|].
  destruct k as [|k].
  - rewrite Nat.add_0_r in Hf. rewrite Hf. by exists [].
  - pose proof (Ho 0%nat ltac:(lia)) as H0. rewrite Nat.add_0_r in H0. rewrite H0. cbn [negb].
    destruct (IH (S i) k) as (conns & -> & El).
    + intros j Hj. replace (S i + j)%nat with (i + S j)%nat by lia. apply Ho. lia.
    + by replace (S i + k)%nat with (i + S k)%nat by lia.
    + lia.
    + eexists. split; [done|]. cbn. by rewrite El.
Qed.

(** What a client whose receive sockets are opened for the sub-ranges of [pr]
    does with its sockets; [Run] and the send loop are given. *)
Definition sockets_as_promised {St} (pr : PortRange) (Delay : Z) (answers : nat -> OpenAnswer) (answer : OpenAnswer)
    (cancelled_after : option Z) (Run : option (option St * ending * list event)) (send_loop : option (St * bool)) : Prop :=
  exists rs, sonar_client.serveRead_ranges pr = Some rs /\ let n := length rs in
    (1 <= n <= 8)%nat /\
    (reads_open answers n -> oa_open answer = true ->
       match send_loop with
       | None => Run = None
       | Some (st, stop) =>
           exists before, Run = Some (Some st, if stop then Limit else Cancelled,
               before ++ closeReadConns n ++ [Close n]) /\
             left_open (before ++ closeReadConns n ++ [Close n]) = [] /\ omap closed_by before = [] /\
             (stop = true -> cancelled_after = None -> in_i64 (Delay + 10 * Second) ->
                Delay + 13 * Second <= waited before)
       end) /\
    (reads_open answers n -> oa_open answer = false ->
       exists tr, Run = Some (None, WriteSocketFailed, tr) /\ left_open tr = seq 0 n /\ omap closed_by tr = []) /\
    (forall k, (k < n)%nat -> reads_open answers k -> oa_open (answers k) = false ->
       exists tr, Run = Some (None, ReadSocketFailed, tr) /\ left_open tr = seq 0 k /\ omap closed_by tr = []).

Lemma client_Run_promised {St} prog pr Delay TOS answers answer (send_loop : option (St * bool)) cancelled_after :
  valid_range pr ->
  sockets_as_promised pr Delay answers answer cancelled_after
    (client_Run Delay TOS
       (rs ← sonar_client.serveRead_ranges pr; Some (open_conns prog TOS answers 0 rs)) answer send_loop cancelled_after)
    send_loop.
Proof.
  intros Hv. destruct (serveRead_ranges_partition pr Hv) as (rs & Ers & Hl & _ & Hone). rewrite Ers.
  assert (Hpos : (1 <= length rs)%nat).
  { destruct (Hone (Min pr)) as (k & (r & Hk & _) & _); [unfold in_range, valid_range in *; lia|].
    apply lookup_lt_Some in Hk. lia. }
  exists rs. cbn [mbind option_bind]. split; [done|]. cbn zeta. split; [lia|].
  assert (Hrun : forall conns ok st e tr, open_conns prog TOS answers 0 rs = (conns, ok) ->
    client_Run Delay TOS (Some (conns, ok)) answer send_loop cancelled_after = Some (st, e, tr) ->
    run_sockets Delay cancelled_after (length conns) e tr) by (intros; by eapply client_Run_run_sockets).
  split_and!.
  - intros Ho Ha. destruct (open_conns_ok prog TOS answers 0 rs Ho) as (conns & E & El). rewrite E.
    specialize (Hrun conns true). destruct send_loop as [[st stop]|]; rewrite client_Run_cases, Ha in *; [|done].
    specialize (Hrun _ _ _ E eq_refl). rewrite El in *. cbn [mbind option_bind negb].
    eexists. split; [done|]. destruct stop; destruct Hrun as (H1 & before & H2 & H3 & H4);
      apply app_inv_tail in H2; subst before; (split_and!; [done..|]); [by intros _; apply H4|done].
  - intros Ho Ha. destruct (open_conns_ok prog TOS answers 0 rs Ho) as (conns & E & El). rewrite E.
    specialize (Hrun conns true). rewrite client_Run_cases, Ha in *.
    specialize (Hrun _ _ _ E eq_refl). rewrite El in *. eexists. split; [done|]. exact Hrun.
  - intros k Hk Ho Hf. destruct (open_conns_fails prog TOS answers 0 rs k Ho Hf Hk) as (conns & E & El). rewrite E.
    specialize (Hrun conns false). rewrite client_Run_cases in *.
    specialize (Hrun _ _ _ E eq_refl). rewrite El in *. eexists. split; [done|]. exact Hrun.
Qed.

(** C13: the sockets of sonar and sonar6: [Run] opens at most eight receive
    sockets and one to send. If all open, each is closed when [Run] returns, and
    at a limit of the send loop not before [Delay] plus 13 seconds have passed,
    unless the context is cancelled; a panic of [Run] is one of the send loop.
    If the socket that sends, or the receive socket [k], cannot be opened, [Run]
    fails and leaves the receive sockets opened until then open, each with its
    loop: no socket is closed. *)
Theorem sonar_Run_sockets :
  forall `{Goscapy} c answers answer rounds cancelled_after w,
    (forall conf, valid_range (sonar_config.ClientPortRange conf) ->
       sockets_as_promised (sonar_config.ClientPortRange conf) (sonar_config.Delay conf) answers answer cancelled_after
         (sonar_run.Run conf c answers answer rounds cancelled_after w) (sonar_client.serveWrite c rounds w)) /\
    (forall conf, valid_range (sonar6_config.ClientPortRange conf) ->
       sockets_as_promised (sonar6_config.ClientPortRange conf) (sonar6_config.Delay conf) answers answer cancelled_after
         (sonar6_run.Run conf c answers answer rounds cancelled_after w) (sonar6_client.serveWrite c rounds w)).
Proof. intros. split; intros conf Hv; by apply client_Run_promised. Qed.

(** The sockets of EVR: all are closed, unless the second cannot be opened; then
    the first stays open with its loop. *)
Lemma evr_Run_sockets `{Goscapy} a read_answer write_answer rawconn rounds w st e tr :
  evr_run.Run a read_answer write_answer rawconn rounds w = Some (st, e, tr) ->
  left_open tr = if oa_open read_answer && negb (oa_open write_answer) then [0%nat] else [].
Proof.
  unfold evr_run.Run, evr_receive.serveRead. destruct (oa_open read_answer); cbn [negb andb].
  2: { by injection 1 as _ _ <-. }
  destruct (oa_open write_answer); cbn [negb].
  2: { by injection 1 as _ _ <-. }
  destruct rawconn; cbn [negb].
  2: { by injection 1 as _ _ <-. }
  destruct (EvrAgent.serveWrite a rounds w); cbn [mbind option_bind]; [|done]. by injection 1 as _ _ <-.
Qed.

(** The read loop of a sonar server: the errors of [ReadFromUDP] change nothing,
    and two stretches of datagrams are handled as one. *)
Lemma read_loop_errors s port reads st :
  sonar_server_run.read_loop s port (List.filter (fun r => bool_decide (is_Some r)) reads) st =
  sonar_server_run.read_loop s port reads st.
Proof.
  revert st. induction reads as [|[[[now remote] data]|] reads IH]; intros st; cbn; [done| |apply IH].
  destruct (UdpServer.readPacket s port now remote data st) as [[st' out]|]; [|done]. cbn. by rewrite IH.
Qed.

Lemma read_loop_app s port reads reads' st :
  sonar_server_run.read_loop s port (reads ++ reads') st =
    ('(st, out) ← sonar_server_run.read_loop s port reads st;
     '(st, out') ← sonar_server_run.read_loop s port reads' st;
     Some (st, out ++ out')).
Proof.
  revert st. induction reads as [|[[[now remote] data]|] reads IH]; intros st; cbn [app sonar_server_run.read_loop].
  - cbn. by destruct (sonar_server_run.read_loop s port reads' st) as [[]|].
  - destruct (UdpServer.readPacket s port now remote data st) as [[st' out]|]; [|done]. cbn. rewrite IH.
    destruct (sonar_server_run.read_loop s port reads st') as [[st1 out1]|]; [|done]. cbn.
    destruct (sonar_server_run.read_loop s port reads' st1) as [[st2 out2]|]; [|done]. cbn. by rewrite app_assoc.
  - apply IH.
Qed.

(** ** kuiniu: everything is closed, at once *)

Lemma waited_deferred n : waited (deferred n) = 0.
Proof. rewrite deferred_map. unfold waited. by induction (reverse (seq 0 n)). Qed.

Lemma waited_open cs : waited (map Open cs) = 0.
Proof. unfold waited. by induction cs. Qed.

Lemma loops_silent l : opened (map Loop l) = 0%nat /\ waited (map Loop l) = 0.
Proof. split; [by apply opened_none, Forall_map, Forall_forall|]. unfold waited. by induction l. Qed.

Lemma kuiniu_readLoop_errors `{Goscapy} c n reads w :
  KuiniuClient.readLoop c (replicate n None ++ reads) w = KuiniuClient.readLoop c reads w.
Proof. by induction n. Qed.

(** C25: the sockets of kuiniu: however many senders and receivers can be opened,
    [Run] of the client and of the server close every socket they opened before
    they return; but the client does not wait: when its send loop reaches a
    limit it has waited 3 seconds in all, before the first probe, and closes its
    sockets at once, so the echoes that are still out are lost to it, and
    its read loops, whose every read fails from then on, do not end: any number
    of errors leaves them where they were. *)
Theorem kuiniu_Run_closes_all :
  forall `{Goscapy} c senders receivers rounds w,
    valid_range (kuiniu_config.ClientPortRange (KuiniuClient.cl_conf c)) ->
    (KuiniuClient.serveWrite c rounds w <> None ->
     exists st e tr, kuiniu_client_run.Run c senders receivers rounds w = Some (st, e, tr) /\ left_open tr = [] /\
       match st with
       | Some st =>
           waited tr = 3 * Second /\
           exists stop, KuiniuClient.serveWrite c rounds w = Some (st, stop) /\ e = if (stop : bool) then Limit else Cancelled
       | None => waited tr = 0 /\ (e = WriteSocketFailed \/ e = ReadSocketFailed)
       end) /\
    (forall n reads w, KuiniuClient.readLoop c (replicate n None ++ reads) w = KuiniuClient.readLoop c reads w) /\
    (forall conf answers answers', left_open (kuiniu_server_run.Run conf answers answers').2 = []).
Proof.
  intros HG c senders receivers rounds w Hv. split_and!.
  - intros Hw. unfold kuiniu_client_run.Run.
    destruct (open_all _) as [ss ok]. destruct ok; cbn [negb].
    2: { eexists _, _, _. split; [done|]. split; [rewrite <- (opened_map ss); apply deferred_closes|].
         rewrite waited_app, waited_open, waited_deferred. auto. }
    destruct (serveRead_ranges_partition _ Hv) as (rs & -> & _). cbn [mbind option_bind].
    destruct (open_all _) as [cs ok]. destruct ok; cbn [negb].
    2: { eexists _, _, _. split; [done|]. split.
         - replace (length ss + length cs)%nat with (opened (map Open ss ++ map Open cs))
             by (by rewrite opened_app, !opened_map). apply deferred_closes.
         - rewrite !waited_app, !waited_open, waited_deferred. auto. }
    destruct (KuiniuClient.serveWrite c rounds w) as [[st stop]|] eqn:E; [|done]. cbn [mbind option_bind].
    eexists _, _, _. split; [done|]. destruct (loops_silent (seq (length ss) (length cs))) as [E1 E2]. split.
    + rewrite (app_assoc (map Loop _)), (app_assoc (map Open ss ++ _)).
      replace (length ss + length cs)%nat with
        (opened ((map Open ss ++ map Open cs) ++ map Loop (seq (length ss) (length cs)) ++ [Wait (3 * Second)])).
      * apply deferred_closes.
      * rewrite !opened_app, !opened_map, E1. unfold opened. cbn. lia.
    + rewrite !waited_app, !waited_open, E2, waited_deferred. split; [cbn; lia|]. by exists stop.
  - apply kuiniu_readLoop_errors.
  - intros conf answers answers'. unfold kuiniu_server_run.Run. destruct (open_all _) as [ss ok].
    destruct ok; cbn [negb snd]; [apply deferred_closes|]. rewrite <- (opened_map ss). apply deferred_closes.
Qed.

(** ** Witnesses *)

Module samples.

Import Goscapy.Toy.

Definition answers : nat -> OpenAnswer := fun _ => mkOpenAnswer true true true.
(** Only the first four receive sockets open. *)
Definition four : nat -> OpenAnswer := fun i => mkOpenAnswer (i <? 4)%nat true true.
Definition rounds : list (list (string * UdpClient.Outside)) := replicate 2 [("10.0.0.2"%string, UdpClient.samples.outside)].
Definition kuiniu_rounds : list (nat -> UdpClient.Outside) := [fun _ => KuiniuClient.samples.outside].

End samples.

Lemma sonar_Run_sockets_witness :
  let conf := SonarConfig.sample_validated in
  let run a a' := sonar_run.Run (H := Goscapy.Toy.toy) conf UdpClient.samples.client a a' samples.rounds None UdpClient.samples.world in
  (exists st before, run samples.answers (mkOpenAnswer true true true) = Some (Some st, Limit, before ++ closeReadConns 8 ++ [Close 8%nat]) /\
     sonar_config.Delay conf + 13 * Second <= waited before) /\
  (exists tr, run samples.four (mkOpenAnswer true true true) = Some (None, ReadSocketFailed, tr) /\ left_open tr = seq 0 4).
Proof.
  assert (Hv : valid_range (sonar_config.ClientPortRange SonarConfig.sample_validated)) by
    (vm_compute; repeat split; discriminate).
  split.
  - destruct (proj1 (sonar_Run_sockets (H := Goscapy.Toy.toy) UdpClient.samples.client samples.answers
      (mkOpenAnswer true true true) samples.rounds None UdpClient.samples.world) _ Hv) as (rs & Ers & _ & H & _).
    replace (length rs) with 8%nat in H by (vm_compute in Ers; by injection Ers as <-).
    specialize (H ltac:(done) eq_refl).
    destruct (sonar_client.serveWrite (H := Goscapy.Toy.toy) UdpClient.samples.client samples.rounds UdpClient.samples.world)
      as [[st stop]|] eqn:E; [|vm_compute in E; discriminate E].
    destruct stop; [|vm_compute in E; discriminate E].
    destruct H as (before & Hr & _ & _ & Hw). exists st, before. split; [exact Hr|].
    apply Hw; [done|done|]. vm_compute. split; [discriminate|reflexivity].
  - destruct (proj1 (sonar_Run_sockets (H := Goscapy.Toy.toy) UdpClient.samples.client samples.four
      (mkOpenAnswer true true true) samples.rounds None UdpClient.samples.world) _ Hv) as (rs & Ers & _ & _ & _ & H).
    replace (length rs) with 8%nat in H by (vm_compute in Ers; by injection Ers as <-).
    destruct (H 4%nat) as (tr & Hr & Hl & _); [lia| |done|by exists tr].
    intros i Hi. by apply Nat.ltb_lt.
Defined.

Lemma kuiniu_Run_closes_all_witness :
  exists st e tr,
    kuiniu_client_run.Run (H := Goscapy.Toy.toy) KuiniuClient.samples.client samples.answers (fun _ => samples.answers)
      samples.kuiniu_rounds KuiniuClient.samples.world = Some (Some st, e, tr) /\ left_open tr = [] /\ waited tr = 3 * Second.
Proof.
  destruct (kuiniu_Run_closes_all (H := Goscapy.Toy.toy) KuiniuClient.samples.client samples.answers (fun _ => samples.answers)
      samples.kuiniu_rounds KuiniuClient.samples.world) as [H _]; [vm_compute; repeat split; discriminate|].
  destruct H as (st & e & tr & E & Hl & Hst); [vm_compute; discriminate|].
  destruct st as [st|]; [|exfalso; vm_compute in E; discriminate E].
  exists st, e, tr. split; [exact E|]. split; [exact Hl|]. exact (proj1 Hst).
Defined.
