(* ===== verification/Commands.v ===== *)
(** * The commands ([cmd/...]): from flags and configuration files to running
      probers

    The flags as [pflag] or [flag] parsed them and the configuration file as
    [encoding/json] decoded it are arguments; what the commands make of them is
    modelled up to the start of a client or server. Exiting with a message is
    the error of a sum. *)

From S2P Require Import Prelude GoStd GoText GoNet GoDuration StateErr Ports PortRangeText Salts Goscapy World UdpStat SonarConfig Sonar6Config KuiniuConfig EvrConfig KuiniuClient KuiniuServer PingConfig Ping UdpClient UdpServer Sonar EvrAgent Lidar PingConfig Enrich TraceConfig Targets.
Local Open Scope Z_scope.

(** ** [cmd/baize] *)

Module baize.
Import sonar_config.

(** [clientConfig], [serverConfig] and [baizeConfig]. *)
Record clientConfig := mkClientConfig {
  cc_ClientAddr : string;
  cc_ServerAddrs : string;
  cc_TOS : Z;
  cc_ClientPortRange : string;
  cc_ServerPortRange : string;
  cc_RateInSpan : Z;
  cc_Span : string;
  cc_Delay : string;
  cc_MsgLen : Z;
  cc_Count : Z;
  cc_SendDuration : string;
  cc_Verbose : bool
}.

Record serverConfig := mkServerConfig {
  sc_ServerAddr : string;
  sc_ClientAddrs : string;
  sc_TOS : Z;
  sc_ClientPortRange : string;
  sc_ServerPortRange : string;
  sc_RateInSpan : Z;
  sc_Span : string;
  sc_Delay : string;
  sc_MsgLen : Z;
  sc_Verbose : bool
}.

Record baizeConfig := mkBaizeConfig {
  PprofAddr : string;
  LogDir : string;
  LogMaxAgeDays : Z;
  ClientPart : option clientConfig;
  ServerPart : option serverConfig
}.

(** [parseDuration]: an invalid text is only warned about. *)
Definition parseDuration (s : string) : Z := if decide (s = "") then 0 else default 0 (ParseDuration s).

(** [parsePortRange]. *)
Definition parsePortRange (s : string) : PortRange + range_error :=
  if decide (s = "") then inl (mkPortRange 0 0) else sonar_config.ParsePortRange s.

Definition splitNonEmpty := mping_splitNonEmpty.

Inductive error :=
| ErrClientRange (e : range_error)
| ErrServerRange (e : range_error)
| ErrConfig (e : sonar_config.error).

(** Both port ranges of a part, the client's first. *)
Definition parse_ranges (cr sr : string) : (PortRange * PortRange) + error :=
  match parsePortRange cr with
  | inr e => inr (ErrClientRange e)
  | inl cpr => match parsePortRange sr with inr e => inr (ErrServerRange e) | inl spr => inl (cpr, spr) end
  end.

(** [conf.Validate()] with its error logged. *)
Definition validated (h : Host) (c : Config) : Config + error :=
  match Validate h c with (c, inl _) => inl c | (_, inr e) => inr (ErrConfig e) end.

(** The configuration [runClient] starts with. *)
Definition client_config (h : Host) (cfg : clientConfig) : Config + error :=
  match parse_ranges (cc_ClientPortRange cfg) (cc_ServerPortRange cfg) with
  | inr e => inr e
  | inl (cpr, spr) =>
      validated h
        (mkConfig RoleClient (cc_ClientAddr cfg) (splitNonEmpty (cc_ClientAddr cfg))
           (splitNonEmpty (cc_ServerAddrs cfg)) (cc_TOS cfg) cpr spr (cc_RateInSpan cfg)
           (parseDuration (cc_Span cfg)) (parseDuration (cc_Delay cfg)) (cc_MsgLen cfg) (cc_Count cfg)
           (parseDuration (cc_SendDuration cfg)) (cc_Verbose cfg))
  end.

(** The configuration [runServer] starts with. *)
Definition server_config (h : Host) (cfg : serverConfig) : Config + error :=
  match parse_ranges (sc_ClientPortRange cfg) (sc_ServerPortRange cfg) with
  | inr e => inr e
  | inl (cpr, spr) =>
      validated h
        (mkConfig RoleServer "" (splitNonEmpty (sc_ClientAddrs cfg)) [sc_ServerAddr cfg] (sc_TOS cfg) cpr spr
           (sc_RateInSpan cfg) (parseDuration (sc_Span cfg)) (parseDuration (sc_Delay cfg)) (sc_MsgLen cfg) 0 0
           (sc_Verbose cfg))
  end.

Section run.
Context `{Goscapy}.

(** [runClient] and [runServer] up to the start of their loops: a processor of
    their own, then the client or server; [None] is a panic. *)
Definition runClient (h : Host) (cfg : clientConfig) (seed : nat -> Z) : option ((Client * World) + error) :=
  match client_config h cfg with
  | inr e => Some (inr e)
  | inl conf =>
      cw ← sonar_client.NewClient conf seed (mkWorld ∅ 0 (NewProcessor (Span conf) (Delay conf)));
      Some (inl cw)
  end.

Definition runServer (h : Host) (cfg : serverConfig) : option ((option Server * SState) + error) :=
  match server_config h cfg with
  | inr e => Some (inr e)
  | inl conf =>
      s ← sonar_server.New conf (mkWorld ∅ 0 (NewProcessor (Span conf) (Delay conf)));
      Some (inl s)
  end.

End run.

(** The retention [main] opens the log with, and whether it has work at all. *)
Definition log_age (days : Z) : Z := if days <=? 0 then 7 else days.

Definition has_work (cfg : baizeConfig) : bool :=
  bool_decide (is_Some (ClientPart cfg)) || bool_decide (is_Some (ServerPart cfg)).

End baize.

(** ** [cmd/bitflip], [cmd/bitflip6] *)

Module bitflip.

(** The flags and their defaults. *)
Record flags := mkFlags {
  f_role : string;
  f_clientAddr : string;
  f_serverAddr : string;
  f_tos : Z;
  f_count : Z;
  f_sendDuration : Z;
  f_delay : Z;
  f_clientPorts : string;
  f_serverPorts : string;
  f_rate : Z;
  f_msgLen : Z;
  f_verbose : bool
}.

Definition default_flags : flags :=
  mkFlags "server" "" "" 64 0 0 (3 * Second) "43500,43599" "43500,43509" 5000 1024 false.

Inductive error (E : Type) :=
| ErrClientPorts (e : range_error)
| ErrServerPorts (e : range_error)
| ErrConfig (e : E).
Arguments ErrClientPorts {E}.
Arguments ErrServerPorts {E}.
Arguments ErrConfig {E}.

(** Both port ranges, then what is built from them, validated. *)
Definition with_ranges {C E} (parse : string -> PortRange + range_error) (f : flags)
    (make : PortRange -> PortRange -> C) (validate : C -> C * (unit + E)) : C + error E :=
  match parse (f_clientPorts f) with
  | inr e => inr (ErrClientPorts e)
  | inl cpr =>
      match parse (f_serverPorts f) with
      | inr e => inr (ErrServerPorts e)
      | inl spr => match validate (make cpr spr) with (c, inl _) => inl c | (_, inr e) => inr (ErrConfig e) end
      end
  end.

Definition splitNonEmpty := mping_splitNonEmpty.

(** [main] up to the validated configuration. *)
Definition configure (h : Host) (f : flags) : sonar_config.Config + error sonar_config.error :=
  with_ranges sonar_config.ParsePortRange f
    (fun cpr spr =>
       sonar_config.mkConfig (f_role f) (f_clientAddr f) (splitNonEmpty (f_clientAddr f))
         (splitNonEmpty (f_serverAddr f)) (f_tos f) cpr spr (f_rate f) Second (f_delay f) (f_msgLen f)
         (f_count f) (f_sendDuration f) (f_verbose f))
    (sonar_config.Validate h).

(** [runClient]; [main] calls it when the role is that of a client. *)
Definition runClient `{Goscapy} (c : sonar_config.Config) (seed : nat -> Z) : option (Client * World) :=
  sonar_client.NewClient c seed
    (mkWorld ∅ 0 (NewProcessor (sonar_config.Span c) (sonar_config.Delay c))).

Definition runServer (c : sonar_config.Config) : option (option Server * SState) :=
  sonar_server.New c (mkWorld ∅ 0 (NewProcessor (sonar_config.Span c) (sonar_config.Delay c))).

End bitflip.

Module bitflip6.
Import bitflip.

Definition splitNonEmpty := mping_splitNonEmpty.

(** [main] up to the validated configuration; the client address is the first
    of the list, for a client. *)
Definition configure (h : Host) (f : flags) : sonar6_config.Config + error sonar6_config.error :=
  let clientAddrs := splitNonEmpty (f_clientAddr f) in
  let serverAddrs := splitNonEmpty (f_serverAddr f) in
  with_ranges sonar6_config.ParsePortRange f
    (fun cpr spr =>
       sonar6_config.mkConfig (f_role f)
         (if bool_decide (f_role f = sonar6_config.RoleClient) then default "" (head clientAddrs) else "")
         clientAddrs serverAddrs (f_tos f) cpr spr (f_rate f) Second (f_delay f) (f_msgLen f)
         (f_count f) (f_sendDuration f) "" "" (f_verbose f))
    (sonar6_config.Validate h).

Definition runClient `{Goscapy} (c : sonar6_config.Config) (seed : nat -> Z) : option (Client * World) :=
  sonar6_client.NewClient c seed
    (mkWorld ∅ 0 (NewProcessor (sonar6_config.Span c) (sonar6_config.Delay c))).

Definition runServer (c : sonar6_config.Config) : option (option Server * SState) :=
  sonar6_server.New c (mkWorld ∅ 0 (NewProcessor (sonar6_config.Span c) (sonar6_config.Delay c))).

(** The flags of [cmd/bitflip6] and their defaults. *)
Definition flags := bitflip.flags.
Definition default_flags := bitflip.default_flags.
End bitflip6.

(** ** [cmd/kuiniu] *)

Module kuiniu.
Import kuiniu_config.

(** The flags and their defaults. *)
Record flags := mkFlags {
  f_role : string;
  f_localGPUAddrs : string;
  f_remoteGPUAddrs : string;
  f_tos : Z;
  f_count : Z;
  f_sendDuration : Z;
  f_delay : Z;
  f_clientPorts : string;
  f_serverPorts : string;
  f_rate : Z;
  f_msgLen : Z;
  f_verbose : bool;
  f_pprofAddr : string;
  f_logDir : string;
  f_logMaxAge : Z
}.

Definition default_flags : flags :=
  mkFlags "" "" "" 64 0 0 (3 * Second) "43600,43699" "43600,43609" 5000 1024 false "" "" 7.

Definition splitNonEmpty := mping_splitNonEmpty.

Definition given (s old : string) : string := if bool_decide (s <> "") then s else old.
Definition other_than (d n old : Z) : Z := if negb (n =? d) then n else old.

(** The flags laid over the configuration file. *)
Definition overlay (f : flags) (c : Config) : Config :=
  mkConfig (given (f_pprofAddr f) (PprofAddr c)) (given (f_logDir f) (LogDir c))
    (other_than 7 (f_logMaxAge f) (LogMaxAgeDays c)) (given (f_role f) (Role c))
    (if bool_decide (f_localGPUAddrs f <> "") then splitNonEmpty (f_localGPUAddrs f) else LocalGPUAddrs c)
    (if bool_decide (f_remoteGPUAddrs f <> "") then splitNonEmpty (f_remoteGPUAddrs f) else RemoteGPUAddrs c)
    (other_than 64 (f_tos f) (TOS c)) (ClientPortRange c) (ServerPortRange c)
    (if bool_decide (f_clientPorts f <> "43600,43699") || bool_decide (ClientPortRangeStr c = "")
     then f_clientPorts f else ClientPortRangeStr c)
    (if bool_decide (f_serverPorts f <> "43600,43609") || bool_decide (ServerPortRangeStr c = "")
     then f_serverPorts f else ServerPortRangeStr c)
    (other_than 5000 (f_rate f) (RateInSpan c)) (Span c) (SpanStr c) (Delay c) (DelayStr c)
    (other_than 1024 (f_msgLen f) (MsgLen c)) (other_than 0 (f_count f) (Count c))
    (other_than 0 (f_sendDuration f) (SendDuration c))
    (if negb (f_sendDuration f =? 0) then Duration_String (f_sendDuration f) else SendDurStr c)
    (Verbose c || f_verbose f).

(** [main] up to the validated configuration; [file] is the decoded file, or a
    zero value. *)
Definition configure (f : flags) (file : Config) : Config + error :=
  match Validate (overlay f file) with (c, inl _) => inl c | (_, inr e) => inr e end.

(** The zero value of [Config]. *)
Definition no_file : Config :=
  mkConfig "" "" 0 "" [] [] 0 (mkPortRange 0 0) (mkPortRange 0 0) "" "" 0 0 "" 0 "" 0 0 0 "" false.

Definition runs_client (c : Config) : bool := is_role RoleClient c || is_role RoleBoth c.
Definition runs_server (c : Config) : bool := is_role RoleServer c || is_role RoleBoth c.

End kuiniu.

(** ** [cmd/evr] *)

Module evr.
Import evr_config.

(** [jsonConfig]: the file, durations and the port range as texts. *)
Record jsonConfig := mkJson {
  j_ID : string;
  j_ClientAddr : string;
  j_Targets : string;
  j_DstPort : Z;
  j_InnerDstPort : Z;
  j_SrcMAC : string;
  j_DstMAC : string;
  j_VNI : Z;
  j_TOS : Z;
  j_TTL : Z;
  j_ClientPortRange : string;
  j_RateInSpan : Z;
  j_Span : string;
  j_Delay : string;
  j_MsgLen : Z;
  j_PprofAddr : string;
  j_LogDir : string;
  j_LogMaxAgeDays : Z;
  j_Verbose : bool
}.

Inductive error :=
| ErrTargets (e : target_error)
| ErrRange (e : range_error)
| ErrSpan (s : string)
| ErrDelay (s : string)
| ErrNoTargets
| ErrConfig (e : evr_config.error).

(** A text that may be empty, through its parser. *)
Definition optional {A E} (s : string) (d : A) (parse : string -> A + E) (wrap : E -> error) : A + error :=
  if decide (s = "") then inl d else match parse s with inl a => inl a | inr e => inr (wrap e) end.

Definition duration (s : string) : Z + string :=
  match ParseDuration s with Some d => inl d | None => inr s end.

(** [buildConfig]. *)
Definition buildConfig (jc : jsonConfig) : Config + error :=
  match optional (j_Targets jc) [] ParseTargets ErrTargets with
  | inr e => inr e
  | inl ts =>
      match optional (j_ClientPortRange jc) (mkPortRange 0 0) PortRangeText.evr_config.ParsePortRange ErrRange with
      | inr e => inr e
      | inl pr =>
          match optional (j_Span jc) 0 duration ErrSpan with
          | inr e => inr e
          | inl span =>
              match optional (j_Delay jc) 0 duration ErrDelay with
              | inr e => inr e
              | inl delay =>
                  inl (mkConfig (j_ID jc) (j_ClientAddr jc) ts (j_DstPort jc) (j_InnerDstPort jc) (j_SrcMAC jc)
                         (j_DstMAC jc) (j_VNI jc) (j_TOS jc) (j_TTL jc) pr (j_RateInSpan jc) span delay (j_MsgLen jc)
                         (j_PprofAddr jc) (j_LogDir jc) (j_LogMaxAgeDays jc) (j_Verbose jc))
              end
          end
      end
  end.

(** The flags given on the command line, with their values. *)
Inductive flag :=
| FlagId (v : string)
| FlagClientAddr (v : string)
| FlagTargets (v : string)
| FlagDstPort (v : Z)
| FlagInnerDstPort (v : Z)
| FlagSrcMAC (v : string)
| FlagDstMAC (v : string)
| FlagVNI (v : Z)
| FlagTOS (v : Z)
| FlagTTL (v : Z)
| FlagClientPortRange (v : string)
| FlagRateInSpan (v : Z)
| FlagSpan (v : Z)
| FlagDelay (v : Z)
| FlagMsgLen (v : Z)
| FlagPprof (v : string)
| FlagLogDir (v : string)
| FlagLogMaxAge (v : Z)
| FlagVerbose (v : bool).

(** A configuration with some fields given new values. *)
Definition assign (f : flag) (ts : list Target) (pr : PortRange) (c : Config) : Config :=
  mkConfig
    (match f with FlagId v => v | _ => ID c end)
    (match f with FlagClientAddr v => v | _ => ClientAddr c end)
    (match f with FlagTargets _ => ts | _ => Targets c end)
    (match f with FlagDstPort v => v | _ => DstPort c end)
    (match f with FlagInnerDstPort v => v | _ => InnerDstPort c end)
    (match f with FlagSrcMAC v => v | _ => SrcMAC c end)
    (match f with FlagDstMAC v => v | _ => DstMAC c end)
    (match f with FlagVNI v => v | _ => VNI c end)
    (match f with FlagTOS v => v | _ => TOS c end)
    (match f with FlagTTL v => v | _ => TTL c end)
    (match f with FlagClientPortRange _ => pr | _ => ClientPortRange c end)
    (match f with FlagRateInSpan v => v | _ => RateInSpan c end)
    (match f with FlagSpan v => v | _ => Span c end)
    (match f with FlagDelay v => v | _ => Delay c end)
    (match f with FlagMsgLen v => v | _ => MsgLen c end)
    (match f with FlagPprof v => v | _ => PprofAddr c end)
    (match f with FlagLogDir v => v | _ => LogDir c end)
    (match f with FlagLogMaxAge v => v | _ => LogMaxAgeDays c end)
    (match f with FlagVerbose v => v | _ => Verbose c end).

(** The callback of [pflag.Visit]; after an error it does nothing. *)
Definition visit (st : Config + error) (f : flag) : Config + error :=
  match st with
  | inr e => inr e
  | inl c =>
      match f with
      | FlagTargets v => match ParseTargets v with inl ts => inl (assign f ts (ClientPortRange c) c) | inr e => inr (ErrTargets e) end
      | FlagClientPortRange v =>
          match PortRangeText.evr_config.ParsePortRange v with
          | inl pr => inl (assign f (Targets c) pr c)
          | inr e => inr (ErrRange e)
          end
      | _ => inl (assign f (Targets c) (ClientPortRange c) c)
      end
  end.

(** [main] up to the validated configuration; [visited] are the flags in the
    order [pflag.Visit] passes them. *)
Definition configure (h : Host) (jc : jsonConfig) (visited : list flag) : Config + error :=
  match buildConfig jc with
  | inr e => inr e
  | inl c =>
      match foldl visit (inl c) visited with
      | inr e => inr e
      | inl c =>
          if (length (Targets c) =? 0)%nat then inr ErrNoTargets
          else match Validate h c with (c, inl _) => inl c | (_, inr e) => inr (ErrConfig e) end
      end
  end.

End evr.

(** ** [cmd/lidar] *)

Module lidar.
Import lidar_config.

(** [lidarFileConfig]. *)
Record lidarFileConfig := mkFile {
  l_TargetAddrs : string;
  l_ServerPort : Z;
  l_LocalAddr : string;
  l_LocalPort : Z;
  l_LocalPortCount : Z;
  l_Rate : Z;
  l_Span : string;
  l_Delay : string;
  l_Count : Z;
  l_SendDuration : string;
  l_Interface : string;
  l_Verbose : bool
}.

Inductive error :=
| ErrDuration (s : string)
| ErrTargets
| ErrConfig (e : lidar_config.error).

(** [parseDuration]: exits on an invalid text. *)
Definition parseDuration (s : string) : Z + error :=
  if decide (s = "") then inl 0
  else match ParseDuration s with Some d => inl d | None => inr (ErrDuration s) end.

Definition splitNonEmpty := Targets.splitNonEmpty.

(** The configuration of the file, its durations in the order of the code. *)
Definition from_file (f : lidarFileConfig) : Config + error :=
  match parseDuration (l_Span f) with
  | inr e => inr e
  | inl span =>
      match parseDuration (l_Delay f) with
      | inr e => inr e
      | inl delay =>
          match parseDuration (l_SendDuration f) with
          | inr e => inr e
          | inl sendDuration =>
              inl (mkConfig (splitNonEmpty (l_TargetAddrs f)) (l_ServerPort f) (l_LocalAddr f) (l_LocalPort f)
                     (l_LocalPortCount f) (l_Rate f) span delay (l_Count f) sendDuration (l_Interface f) (l_Verbose f))
          end
      end
  end.

Inductive flag :=
| FlagTargets (v : string)
| FlagPort (v : Z)
| FlagLocalAddr (v : string)
| FlagLocalPort (v : Z)
| FlagLocalPortCount (v : Z)
| FlagRate (v : Z)
| FlagSpan (v : Z)
| FlagDelay (v : Z)
| FlagCount (v : Z)
| FlagDuration (v : Z)
| FlagInterface (v : string)
| FlagVerbose (v : bool).

(** The callback of [pflag.Visit]. *)
Definition visit (c : Config) (f : flag) : Config :=
  mkConfig
    (match f with FlagTargets v => splitNonEmpty v | _ => TargetAddrs c end)
    (match f with FlagPort v => v | _ => ServerPort c end)
    (match f with FlagLocalAddr v => v | _ => LocalAddr c end)
    (match f with FlagLocalPort v => v | _ => LocalPort c end)
    (match f with FlagLocalPortCount v => v | _ => LocalPortCount c end)
    (match f with FlagRate v => v | _ => Rate c end)
    (match f with FlagSpan v => v | _ => Span c end)
    (match f with FlagDelay v => v | _ => Delay c end)
    (match f with FlagCount v => v | _ => Count c end)
    (match f with FlagDuration v => v | _ => SendDuration c end)
    (match f with FlagInterface v => v | _ => Interface c end)
    (match f with FlagVerbose v => v | _ => Verbose c end).

(** The defaults of the command; its server port and rate are not those of
    [Config.Validate]. *)
Definition command_defaults (c : Config) : Config :=
  mkConfig (TargetAddrs c) (or_default (ServerPort c) 22) (LocalAddr c) (or_default (LocalPort c) 54321)
    (or_default (LocalPortCount c) 100) (or_default (Rate c) 10) (or_default (Span c) Second)
    (or_default (Delay c) (3 * Second)) (Count c) (SendDuration c) (Interface c) (Verbose c).

(** [main] up to the validated configuration. *)
Definition configure (h : Host) (file : lidarFileConfig) (visited : list flag) : Config + error :=
  match from_file file with
  | inr e => inr e
  | inl c =>
      let c := command_defaults (foldl visit c visited) in
      if (length (TargetAddrs c) =? 0)%nat then inr ErrTargets
      else match Validate h c with (c, inl _) => inl c | (_, inr e) => inr (ErrConfig e) end
  end.

End lidar.

(** ** [cmd/mping], [cmd/mping6] *)

Module mping_main.

Record flags := mkFlags {
  f_targets : string;
  f_localAddr : string;
  f_iface : string;
  f_tos : Z;
  f_ttl : Z;
  f_count : Z;
  f_sendDuration : Z;
  f_delay : Z;
  f_timeout : Z;
  f_rate : Z;
  f_size : Z;
  f_verbose : bool;
  f_hwts : bool;
  f_maxTargets : Z
}.

Definition default_flags : flags :=
  mkFlags "" "" "" 0 64 0 0 (3 * Second) Second 100 64 false true 65536.

Inductive error :=
| ErrUsage
| ErrTargets (e : Targets.target_error)
| ErrConfig (e : PingConfig.error).

(** The targets of the flag and of the positional arguments. *)
Definition target_args (f : flags) (args : list string) : list string :=
  (if bool_decide (f_targets f <> "") then mping_splitNonEmpty (f_targets f) else []) ++
  flat_map mping_splitNonEmpty args.

Section tool.
(** What differs between the tools: the expansion of the targets and the
    checks of the configuration. *)
Variable expand : list string -> Z -> option (list string + Targets.target_error).
Variable validate : SE PingConfig.Config PingConfig.error unit.

(** [main] up to the validated configuration; [None] is a panic. *)
Definition configure_with (f : flags) (args : list string) : option (PingConfig.Config + error) :=
  let targetAddrs := target_args f args in
  if (length targetAddrs =? 0)%nat then Some (inr ErrUsage)
  else
    r ← expand targetAddrs (f_maxTargets f);
    Some match r with
    | inr e => inr (ErrTargets e)
    | inl resolvedAddrs =>
        match validate (PingConfig.mkConfig resolvedAddrs (f_rate f) Second (f_delay f) (f_count f) (f_sendDuration f)
                (f_size f) (f_tos f) (f_ttl f) (f_timeout f) (f_localAddr f) (f_iface f) (f_verbose f) (f_hwts f)) with
        | (c, inl _) => inl c
        | (_, inr e) => inr (ErrConfig e)
        end
    end.

End tool.

Definition configure (fuel : nat) (h : Host) :=
  configure_with (mping.targets fuel h) (ping_config.Validate h).

End mping_main.

Module mping6_main.
Definition splitNonEmpty := mping_splitNonEmpty.
Definition target_args := mping_main.target_args.
Definition configure (h : Host) :=
  mping_main.configure_with (mping6.targets h) (ping6_config.Validate h).
(** The flags of [cmd/mping6] and their defaults. *)
Definition flags := mping_main.flags.
Definition default_flags := mping_main.default_flags.
End mping6_main.

(** ** [cmd/traceroute], [cmd/traceroute6] *)

Module traceroute_main.

Record flags := mkFlags {
  f_protocol : string;
  f_maxHops : Z;
  f_queries : Z;
  f_port : Z;
  f_srcPort : Z;
  f_fixedDstPort : bool;
  f_srcIP : string;
  f_dstIP : string;
  f_timeout : Z;
  f_noDNS : bool;
  f_tos : Z;
  f_parallel : Z;
  f_iface : string;
  f_localAddr : string;
  f_asn : bool;
  f_geo : bool
}.

Definition default_flags : flags :=
  mkFlags "icmp" 30 3 0 0 false "" "" Second false 0 16 "" "" false false.

Inductive error :=
| ErrProtocol (s : string)
| ErrUsage
| ErrTargets (e : Targets.resolve_error)
| ErrConfig (e : TraceConfig.error).

(** The destination port, if it was not given. *)
Definition default_port (proto : Protocol) (port : Z) : Z :=
  if port =? 0 then if bool_decide (proto = ProtoTCP) then 80 else 33434 else port.

Section tool.
Context `{TraceFamily}.
Variable resolve : list string -> list string + Targets.resolve_error.
(** [NewCymruProvider()] and [NewIPInfoProvider(token)]. *)
Variables cymru ipinfo : Provider.

(** [main] up to the validated configuration. *)
Definition configure_with (f : flags) (args : list string) : Config + error :=
  match ParseProtocol (f_protocol f) with
  | None => inr (ErrProtocol (f_protocol f))
  | Some proto =>
      let rawTargets := flat_map splitNonEmpty args in
      if (length rawTargets =? 0)%nat then inr ErrUsage
      else
        match resolve rawTargets with
        | inr e => inr (ErrTargets e)
        | inl targets =>
            let cfg := mkConfig targets (f_localAddr f) (f_iface f) proto (f_maxHops f) (f_queries f)
                         (default_port proto (f_port f)) (f_timeout f) (f_tos f) (f_srcPort f) (f_fixedDstPort f)
                         (f_srcIP f) (f_dstIP f) (f_parallel f) (negb (f_noDNS f))
                         ((if f_asn f then [cymru] else []) ++ (if f_geo f then [ipinfo] else [])) in
            match Validate cfg with Some e => inr (ErrConfig e) | None => inl cfg end
        end
  end.

End tool.

Definition configure (h : Host) := configure_with (H := traceroute_config.family) (traceroute_cmd.resolveTargets h).

End traceroute_main.

Module traceroute6_main.
Definition splitNonEmpty := Targets.splitNonEmpty.
Definition default_port := traceroute_main.default_port.
Definition configure (h : Host) :=
  traceroute_main.configure_with (H := traceroute6_config.family) (traceroute6_cmd.resolveTargets h).
(** The flags of [cmd/traceroute6] and their defaults. *)
Definition flags := traceroute_main.flags.
Definition default_flags := traceroute_main.default_flags.
End traceroute6_main.

(** ** Starting *)

(** A range a command hands to [Validate]: unset, or valid. *)
Definition range_given (r : PortRange) : Prop := r = mkPortRange 0 0 \/ valid_range r.

Lemma default_range_valid r d : range_given r -> valid_range d -> valid_range (sonar_config.default_range r d).
Proof.
  intros [->|Hr] Hd; [done|]. rewrite SonarConfig.default_range_keep; [done|]. unfold valid_range in Hr. lia.
Qed.

Lemma default_client_range : valid_range (mkPortRange 43500 43599).
Proof. unfold valid_range; cbn; lia. Qed.
Lemma default_server_range : valid_range (mkPortRange 43500 43509).
Proof. unfold valid_range; cbn; lia. Qed.
#[local] Hint Resolve default_client_range default_server_range : core.

Section sonar_validated.
Import sonar_config.

(** What [Validate] computes. *)
Lemma Validate_values h c c' :
  Validate h c = (c', inl tt) ->
  (Role c = RoleClient -> ServerAddrs c' = ServerAddrs c) /\
  ClientPortRange c' = default_range (ClientPortRange c) (mkPortRange 43500 43599) /\
  ServerPortRange c' = default_range (ServerPortRange c) (mkPortRange 43500 43509) /\
  Span c' = default_int (Span c) Second.
Proof.
  intros H. apply Validate_phases in H as (c1 & c2 & Hr & H1 & H2 & H3).
  assert (Hcl : Role c = RoleClient -> c1 = c).
  { intros E. unfold fill_server_addr, bind, get, is_role in H1. rewrite E in H1. cbn in H1. by injection H1. }
  apply fill_server_addr_inv in H1 as (E1 & _ & _). apply fill_client_addr_inv in H2 as (E2 & _ & _).
  assert (Hrole : Role (fill_defaults c2) = Role c) by (cbn; by rewrite E2, E1).
  apply check_msglen_inv in H3 as (-> & _ & _); [|by rewrite Hrole].
  rewrite E2. cbn. rewrite E1. cbn. split_and!; [|done..]. intros Hc. by rewrite Hcl.
Qed.

(** A client started on an accepted configuration. *)
Definition client_started (c : Config) (servers : list string) (run : option (Client * World)) : Prop :=
  valid_range (ClientPortRange c) /\ valid_range (ServerPortRange c) /\
  exists cl w, run = Some (cl, w) /\ client_ok cl w /\ world_ok w /\
    forall a, a ∈ servers -> exists p, cl_peers cl !! a = Some p /\ pe_serverAddr p = a.

Lemma validated_client_starts `{Goscapy} h c c' seed :
  Validate h c = (c', inl tt) -> Role c = RoleClient -> 0 <= Span c ->
  range_given (ClientPortRange c) -> range_given (ServerPortRange c) -> (forall n, in_u64 (seed n)) ->
  client_started c' (ServerAddrs c) (bitflip.runClient c' seed).
Proof.
  intros HV Hr Hsp Hcr Hsr Hseed. destruct (Validate_values h c c' HV) as (Hs & Ec & Es & Ep).
  split; [rewrite Ec; by apply default_range_valid|]. split; [rewrite Es; by apply default_range_valid|].
  destruct (NewClient_ok (HF := sonar_family) (sonar_client_conf c') seed
    (mkWorld ∅ 0 (NewProcessor (Span c') (Delay c')))) as (cl & w & E & Hok & Hw & Hp).
  - cbn. rewrite Ep. unfold default_int. destruct (Z.eqb_spec (Span c) 0); [done|lia].
  - done.
  - apply world_ok_empty.
  - exists cl, w. split_and!; [exact E|done..|]. intros a Ha. apply Hp. cbn. by rewrite Hs.
Qed.

(** A server started on an accepted configuration. *)
Definition server_started (c : Config) (run : option (option Server * SState)) : Prop :=
  valid_range (ClientPortRange c) /\ valid_range (ServerPortRange c) /\
  exists sv st, run = Some (Some sv, st) /\
    UdpServer.server_ok (sv_conf sv) st /\ sc_Span (sv_conf sv) = Span c.

Lemma validated_server_starts h c c' :
  Validate h c = (c', inl tt) -> 0 <= Span c ->
  range_given (ClientPortRange c) -> range_given (ServerPortRange c) ->
  server_started c' (bitflip.runServer c').
Proof.
  intros HV Hsp Hcr Hsr. destruct (Validate_values h c c' HV) as (_ & Ec & Es & Ep).
  split; [rewrite Ec; by apply default_range_valid|]. split; [rewrite Es; by apply default_range_valid|].
  assert (Hs' : 0 < Span c') by (rewrite Ep; unfold default_int; destruct (Z.eqb_spec (Span c) 0); [done|lia]).
  unfold bitflip.runServer, sonar_server.New, UdpServer.New. set (conf := if _ <? _ then _ else _).
  assert (Hconf : Z.of_nat SonarCodec.MsgHeaderLen <= sc_MsgLen conf /\ sc_Span conf = Span c')
    by (unfold conf; destruct (Z.ltb_spec (sc_MsgLen (sonar_server_conf c')) (Z.of_nat SonarCodec.MsgHeaderLen));
        cbn in *; auto with lia).
  destruct Hconf as [Hm Hsc]. cbn [need_localIP sonar_server_family andb].
  destruct (NewSalts_spec (sc_MsgLen conf - Z.of_nat SonarCodec.MsgHeaderLen)) as (salts & _ & -> & _); [lia|].
  cbn [mbind option_bind]. eexists _, _. split_and!; [reflexivity| |exact Hsc].
  apply UdpServer.prepare_clients_ok; [cbn; lia|]. apply server_ok_empty, world_ok_empty.
Qed.

End sonar_validated.

Lemma parsed_range_given s r : baize.parsePortRange s = inl r -> range_given r.
Proof.
  unfold baize.parsePortRange. case_decide; [intros [= <-]; by left|]. intros Hp. right.
  by eapply ParsePortRange_sound.
Qed.

Lemma with_ranges_inl {C E} f (make : PortRange -> PortRange -> C) (validate : C -> C * (unit + E)) c :
  bitflip.with_ranges sonar_config.ParsePortRange f make validate = inl c ->
  exists cpr spr, valid_range cpr /\ valid_range spr /\ validate (make cpr spr) = (c, inl tt).
Proof.
  unfold bitflip.with_ranges. destruct (sonar_config.ParsePortRange (bitflip.f_clientPorts f)) as [cpr|] eqn:E1; [|done].
  destruct (sonar_config.ParsePortRange (bitflip.f_serverPorts f)) as [spr|] eqn:E2; [|done].
  destruct (validate (make cpr spr)) as [c' [[]|]] eqn:E3; [|done]. intros [= <-].
  exists cpr, spr. split_and!; [by eapply ParsePortRange_sound..|done].
Qed.

(** The parts of a [baize] file, once accepted. *)
Lemma baize_client_inl h cfg c :
  baize.client_config h cfg = inl c ->
  exists c0, sonar_config.Validate h c0 = (c, inl tt) /\ sonar_config.Role c0 = sonar_config.RoleClient /\
    sonar_config.ServerAddrs c0 = baize.splitNonEmpty (baize.cc_ServerAddrs cfg) /\
    sonar_config.Span c0 = baize.parseDuration (baize.cc_Span cfg) /\
    range_given (sonar_config.ClientPortRange c0) /\ range_given (sonar_config.ServerPortRange c0).
Proof.
  unfold baize.client_config, baize.parse_ranges, baize.validated.
  destruct (baize.parsePortRange (baize.cc_ClientPortRange cfg)) as [cpr|] eqn:E1; [|done].
  destruct (baize.parsePortRange (baize.cc_ServerPortRange cfg)) as [spr|] eqn:E2; [|done].
  match goal with |- context [sonar_config.Validate h ?c0] => set (c1 := c0) end.
  destruct (sonar_config.Validate h c1) as [c' [[]|]] eqn:E; [|done]. intros [= <-].
  exists c1. split_and!; [done..|exact (parsed_range_given _ _ E1)|exact (parsed_range_given _ _ E2)].
Qed.

Lemma baize_server_inl h cfg c :
  baize.server_config h cfg = inl c ->
  exists c0, sonar_config.Validate h c0 = (c, inl tt) /\
    sonar_config.Span c0 = baize.parseDuration (baize.sc_Span cfg) /\
    range_given (sonar_config.ClientPortRange c0) /\ range_given (sonar_config.ServerPortRange c0).
Proof.
  unfold baize.server_config, baize.parse_ranges, baize.validated.
  destruct (baize.parsePortRange (baize.sc_ClientPortRange cfg)) as [cpr|] eqn:E1; [|done].
  destruct (baize.parsePortRange (baize.sc_ServerPortRange cfg)) as [spr|] eqn:E2; [|done].
  match goal with |- context [sonar_config.Validate h ?c0] => set (c1 := c0) end.
  destruct (sonar_config.Validate h c1) as [c' [[]|]] eqn:E; [|done]. intros [= <-].
  exists c1. split_and!; [done..|exact (parsed_range_given _ _ E1)|exact (parsed_range_given _ _ E2)].
Qed.

(** The outcome of a start, when its configuration was accepted. *)
Definition accepted {A E} (r : option (A + E)) : option A :=
  r ← r; match r with inl a => Some a | inr _ => None end.

Lemma accepted_inl {A E} (m : option A) : m = accepted (E := E) (a ← m; Some (inl a)).
Proof. by destruct m. Qed.

(** C27: what [bitflip] and [baize] start: whatever flags [bitflip] accepts and
    whatever file [baize] accepts, the latter if its span is not negative (a
    text that is no duration counts as unset), the client has valid port
    ranges, one peer for every server address, and satisfies the invariant under
    which its replies are matched to its probes; the server satisfies its own;
    making them does not panic. A negative span such as ["-1s"], which
    [Validate] lets pass, is not covered. *)
Theorem sonar_commands_start :
  forall `{Goscapy} h seed, (forall n, in_u64 (seed n)) ->
    (forall f c, bitflip.configure h f = inl c ->
       (bitflip.f_role f = sonar_config.RoleClient ->
          client_started c (mping_splitNonEmpty (bitflip.f_serverAddr f)) (bitflip.runClient c seed)) /\
       server_started c (bitflip.runServer c)) /\
    (forall cfg c, baize.client_config h cfg = inl c -> 0 <= baize.parseDuration (baize.cc_Span cfg) ->
       client_started c (baize.splitNonEmpty (baize.cc_ServerAddrs cfg)) (accepted (baize.runClient h cfg seed))) /\
    (forall cfg c, baize.server_config h cfg = inl c -> 0 <= baize.parseDuration (baize.sc_Span cfg) ->
       server_started c (accepted (baize.runServer h cfg))).
Proof.
  intros HG h seed Hseed. split_and!.
  - intros f c (cpr & spr & Hc & Hs & HV)%with_ranges_inl. split.
    + intros Hr. apply (validated_client_starts h _ _ _ HV); [done|done|by right..|done].
    + apply (validated_server_starts h _ _ HV); [done|by right..].
  - intros cfg c HE Hspan. unfold baize.runClient. rewrite HE, <- accepted_inl.
    apply baize_client_inl in HE as (c0 & HV & Hr & <- & Hsp & Hc & Hs).
    apply (validated_client_starts h c0); [done|done|by rewrite Hsp|done..].
  - intros cfg c HE Hspan. unfold baize.runServer. rewrite HE, <- accepted_inl.
    apply baize_server_inl in HE as (c0 & HV & Hsp & Hc & Hs).
    apply (validated_server_starts h c0); [done|by rewrite Hsp|done..].
Qed.

(** ** The flags of [evr] *)

Module evr_flags.
Import evr_config evr.

(** The field a flag sets, and the value it has there; [None] for a text that
    does not parse. *)
Inductive value :=
| VS (s : string)
| VZ (z : Z)
| VB (b : bool)
| VT (ts : list Target)
| VR (r : PortRange).

Definition field (k : nat) (c : Config) : value :=
  match k with
  | 0 => VS (ID c) | 1 => VS (ClientAddr c) | 2 => VT (Targets c) | 3 => VZ (DstPort c)
  | 4 => VZ (InnerDstPort c) | 5 => VS (SrcMAC c) | 6 => VS (DstMAC c) | 7 => VZ (VNI c)
  | 8 => VZ (TOS c) | 9 => VZ (TTL c) | 10 => VR (ClientPortRange c) | 11 => VZ (RateInSpan c)
  | 12 => VZ (Span c) | 13 => VZ (Delay c) | 14 => VZ (MsgLen c) | 15 => VS (PprofAddr c)
  | 16 => VS (LogDir c) | 17 => VZ (LogMaxAgeDays c) | _ => VB (Verbose c)
  end%nat.

Definition slot (f : flag) : nat :=
  match f with
  | FlagId _ => 0 | FlagClientAddr _ => 1 | FlagTargets _ => 2 | FlagDstPort _ => 3
  | FlagInnerDstPort _ => 4 | FlagSrcMAC _ => 5 | FlagDstMAC _ => 6 | FlagVNI _ => 7
  | FlagTOS _ => 8 | FlagTTL _ => 9 | FlagClientPortRange _ => 10 | FlagRateInSpan _ => 11
  | FlagSpan _ => 12 | FlagDelay _ => 13 | FlagMsgLen _ => 14 | FlagPprof _ => 15
  | FlagLogDir _ => 16 | FlagLogMaxAge _ => 17 | FlagVerbose _ => 18
  end.

Definition flag_value (f : flag) : option value :=
  match f with
  | FlagId v | FlagClientAddr v | FlagSrcMAC v | FlagDstMAC v | FlagPprof v | FlagLogDir v => Some (VS v)
  | FlagTargets v => match ParseTargets v with inl ts => Some (VT ts) | inr _ => None end
  | FlagClientPortRange v =>
      match PortRangeText.evr_config.ParsePortRange v with inl r => Some (VR r) | inr _ => None end
  | FlagVerbose v => Some (VB v)
  | FlagDstPort v | FlagInnerDstPort v | FlagVNI v | FlagTOS v | FlagTTL v | FlagRateInSpan v | FlagSpan v
  | FlagDelay v | FlagMsgLen v | FlagLogMaxAge v => Some (VZ v)
  end.

(** One flag: its field gets its value, the others stay. *)
Lemma visit_field c f v :
  flag_value f = Some v ->
  exists c', visit (inl c) f = inl c' /\
    forall k, (k < 19)%nat -> field k c' = if decide (k = slot f) then v else field k c.
Proof.
  intros Hv.
  assert (Hall : forall c', Forall (fun k => field k c' = if decide (k = slot f) then v else field k c) (seq 0 19) ->
    forall k, (k < 19)%nat -> field k c' = if decide (k = slot f) then v else field k c).
  { intros c' Hl k Hk. rewrite Forall_forall in Hl. apply Hl, elem_of_seq. lia. }
  destruct f; cbn in Hv;
    repeat match goal with H : context [match ?r with inl _ => _ | inr _ => _ end] |- _ => destruct r eqn:? end;
    try discriminate; injection Hv as <-; cbn [visit];
    repeat match goal with H : ?r = inl _ |- context [match ?r with inl _ => _ | inr _ => _ end] => rewrite H end;
    (eexists; split; [reflexivity|]; apply Hall; repeat constructor).
Qed.

Lemma visit_bad c f : flag_value f = None -> exists e, visit (inl c) f = inr e.
Proof.
  destruct f; cbn; try discriminate.
  - destruct (ParseTargets v); [discriminate|eauto].
  - destruct (PortRangeText.evr_config.ParsePortRange v); [discriminate|eauto].
Qed.

Lemma visit_error e fs : foldl visit (inr e) fs = inr e.
Proof. by induction fs. Qed.

Lemma field_ext c c' : (forall k, (k < 19)%nat -> field k c = field k c') -> c = c'.
Proof.
  intros H. assert (Ha : Forall (fun k => field k c = field k c') (seq 0 19)).
  { apply Forall_forall. intros k Hk%elem_of_seq. apply H. lia. }
  destruct c, c'. cbn in Ha. repeat match goal with Hl : Forall _ (_ :: _) |- _ => inv Hl end. congruence.
Qed.

Lemma visits_fields fs c :
  Forall (fun f => is_Some (flag_value f)) fs -> NoDup (map slot fs) ->
  exists c', foldl visit (inl c) fs = inl c' /\
    (forall f, f ∈ fs -> flag_value f = Some (field (slot f) c')) /\
    (forall k, (k < 19)%nat -> k ∉ map slot fs -> field k c' = field k c).
Proof.
  revert c. induction fs as [|f fs IH]; intros c Hv Hd; cbn [foldl map] in *.
  { exists c. split_and!; [done| |done]. intros f Hf. by apply elem_of_nil in Hf. }
  inv Hv. match goal with H : is_Some _ |- _ => destruct H as [v Hv] end. apply NoDup_cons in Hd as [Hn Hd].
  destruct (visit_field c f v Hv) as (c1 & -> & Hc1).
  destruct (IH c1) as (c' & -> & Hs & Hk); [done..|].
  assert (Hsl : (slot f < 19)%nat) by (destruct f; cbn; lia).
  exists c'. split_and!; [done|..].
  - intros g [->|Hg]%elem_of_cons; [|by apply Hs]. rewrite Hk by done. rewrite Hc1 by done.
    by rewrite decide_True by done.
  - intros k Hlt Hnot. apply not_elem_of_cons in Hnot as [Hne Hnot].
    rewrite Hk by done. rewrite Hc1 by done. by rewrite decide_False by done.
Qed.

End evr_flags.

Import evr_flags.

(** The command line of [evr]: each flag given (at most once) has its value
    in the resulting configuration, every other field keeps the value of the
    file, and the order in which [pflag.Visit] passes the flags does not
    matter; with a list of targets or a port range that does not parse the
    command ends with an error. *)
Theorem evr_flags_override :
  forall jc c fs,
    evr.buildConfig jc = inl c -> NoDup (map slot fs) ->
    (Forall (fun f => is_Some (flag_value f)) fs ->
       exists c', (forall fs', fs ≡ₚ fs' -> foldl evr.visit (inl c) fs' = inl c') /\
         (forall f, f ∈ fs -> flag_value f = Some (field (slot f) c')) /\
         (forall k, (k < 19)%nat -> k ∉ map slot fs -> field k c' = field k c)) /\
    (~ Forall (fun f => is_Some (flag_value f)) fs ->
       exists e, foldl evr.visit (inl c) fs = inr e /\ forall h, evr.configure h jc fs = inr e).
Proof.
  intros jc c fs Hb Hd. split.
  - intros Hv. destruct (visits_fields fs c Hv Hd) as (c' & E & Hs & Hk). exists c'. split_and!; [|done..].
    intros fs' Hp. destruct (visits_fields fs' c) as (c2 & E2 & Hs2 & Hk2); [by rewrite <- Hp|by rewrite <- Hp|].
    rewrite E2. f_equal. apply field_ext. intros k Hlt. destruct (decide (k ∈ map slot fs)) as [Hin|Hn].
    + apply list_elem_of_fmap in Hin as (f & -> & Hf). apply (inj Some). rewrite <- Hs by done.
      rewrite <- Hs2; [done|by rewrite <- Hp].
    + rewrite Hk, Hk2 by (done || by rewrite <- Hp). done.
  - intros Hbad. assert (Hx : exists e, foldl evr.visit (inl c) fs = inr e).
    { clear Hb Hd. revert c. induction fs as [|f fs IH]; intros c; [by destruct Hbad|]. cbn [foldl].
      destruct (flag_value f) as [v|] eqn:Hv.
      - destruct (visit_field c f v Hv) as (c1 & -> & _). apply IH. intros Hf. apply Hbad. constructor; [by eexists|done].
      - destruct (visit_bad c f Hv) as [e ->]. exists e. apply visit_error. }
    destruct Hx as [e He]. exists e. split; [done|]. intros h. unfold evr.configure. by rewrite Hb, He.
Qed.

(** ** Starting the other probers *)

Lemma lidar_configure_inl h file fs c :
  lidar.configure h file fs = inl c -> exists c0, lidar_config.Validate h c0 = (c, inl tt).
Proof.
  unfold lidar.configure. destruct (lidar.from_file file) as [c1|]; [|done].
  destruct (_ =? _)%nat; [done|]. destruct (lidar_config.Validate h _) as [c' [[]|]] eqn:E; [|done]. intros [= <-]. eauto.
Qed.

Lemma evr_configure_inl h jc fs c :
  evr.configure h jc fs = inl c -> exists c0, evr_config.Validate h c0 = (c, inl tt).
Proof.
  unfold evr.configure. destruct (evr.buildConfig jc) as [c1|]; [|done].
  destruct (foldl evr.visit (inl c1) fs) as [c2|]; [|done].
  destruct (_ =? _)%nat; [done|]. destruct (evr_config.Validate h c2) as [c' [[]|]] eqn:E; [|done]. intros [= <-]. eauto.
Qed.

Lemma kuiniu_configure_inl f file c :
  kuiniu.configure f file = inl c -> exists c0, kuiniu_config.Validate c0 = (c, inl tt).
Proof.
  unfold kuiniu.configure. destruct (kuiniu_config.Validate _) as [c' [[]|]] eqn:E; [|done]. intros [= <-]. eauto.
Qed.

Lemma mping_configure_inl fuel h f args c :
  mping_main.configure fuel h f args = Some (inl c) ->
  PingConfig.config_ok (H := ping_config.family) c /\ PingConfig.Span c = Second /\
  Z.of_nat (length (PingConfig.TargetAddrs c)) <= mping_main.f_maxTargets f.
Proof.
  unfold mping_main.configure, mping_main.configure_with. destruct (_ =? _)%nat; [done|].
  destruct (mping.targets fuel h _ _) as [[l|e]|] eqn:El; cbn [mbind option_bind]; [|done..].
  match goal with |- context [ping_config.Validate h ?c0] => set (c1 := c0) end.
  destruct (ping_config.Validate h c1) as [c' [[]|]] eqn:E; [|done]. intros [= <-].
  apply ping_Validate_inv in E as (addr & iface & Hc' & Hok & _). split; [done|].
  rewrite Hc'. split; [done|]. cbn. by apply mping_targets_valid in El as (_ & ? & _).
Qed.

(** C33: what the other commands start: a configuration that [evr], [lidar],
    [kuiniu] or [mping] accepts makes a prober that satisfies the invariant its
    properties assume, without a panic, with one target or peer per configured
    one; for [lidar] and [kuiniu] if the span is positive (both accept a negative
    one, [kuiniu] also 0s), for [mping] if the bound on the targets leaves enough
    ICMP identifiers. *)
Theorem probe_commands_start :
  forall `{HG : Goscapy} h seed, (forall n, in_u64 (seed n)) ->
    (forall jc fs c, evr.configure h jc fs = inl c ->
       EvrConfig.config_ok c /\
       exists a w, EvrAgent.New c seed (mkWorld ∅ 0 (NewProcessor (evr_config.Span c) (evr_config.Delay c))) = Some (a, w) /\
         EvrAgent.agent_ok a w /\ EvrAgent.pe_target <$> EvrAgent.ag_peers a = evr_config.Targets c) /\
    (forall file fs c, lidar.configure h file fs = inl c -> 0 < lidar_config.Span c ->
       let '(s, w) := NewScanner c in scanner_ok s w /\ s_targets s = lidar_config.TargetAddrs c) /\
    (forall f file c, kuiniu.configure f file = inl c -> 0 < kuiniu_config.Span c ->
       let w0 := mkWorld ∅ 0 (NewProcessor (kuiniu_config.Span c) (kuiniu_config.Delay c)) in
       (exists cl w, KuiniuClient.NewClient c seed w0 = Some (cl, w) /\ KuiniuClient.client_ok cl w /\
          Z.of_nat (length (KuiniuClient.cl_peers cl)) = kuiniu_config.GPUPairCount c) /\
       (exists sv st, KuiniuServer.New c w0 = Some (sv, st) /\ KuiniuServer.shared_ok sv st)) /\
    (forall fuel f args c, mping_main.configure fuel h f args = Some (inl c) -> mping_main.f_maxTargets f <= 65536 ->
       forall pid, exists p, ping.NewPinger c pid = Some p /\
         let '(p', w) := Run_setup p seed in
         pinger_ok p' w /\ map t_addr (pg_targets p') = PingConfig.TargetAddrs c).
Proof.
  intros HG h seed Hseed. split_and!.
  - intros jc fs c (c0 & HV)%evr_configure_inl. apply evr_Validate_spec in HV as [Hok _]. split; [done|].
    destruct Hok as [_ _ _ _ _ _ _ (_ & Hs & _) _ _].
    destruct (evr_New_ok c seed (mkWorld ∅ 0 (NewProcessor (evr_config.Span c) (evr_config.Delay c))) Hs Hseed
      (world_ok_empty _ _)) as (a & w & E & Ha & _ & Ht). eauto.
  - intros file fs c (c0 & HV)%lidar_configure_inl Hs. apply lidar_Validate_ok in HV as (Ht & Hne & _).
    pose proof (NewScanner_ok c Hs ltac:(congruence)) as H. destruct (NewScanner c) as [s w]. by destruct H as (? & ? & _).
  - intros f file c (c0 & HV)%kuiniu_configure_inl Hs. apply kuiniu_Validate_spec in HV as [_ [Hlen Hne] _ _ _ _ _ _ _ _].
    set (w0 := mkWorld _ _ _). assert (Hw : world_ok w0) by apply world_ok_empty. split.
    + destruct (kuiniu_NewClient_ok c seed w0 Hs Hlen Hw) as (cl & w & E & Hok & _ & Hl & _).
      exists cl, w. split_and!; [done|done|]. unfold kuiniu_config.GPUPairCount. by rewrite Hl.
    + destruct (kuiniu_New_ok c w0 Hs Hne Hlen Hw) as (sv & st & E & _ & Hok & _). eauto.
  - intros fuel f args c (Hok & Hs & Hl)%mping_configure_inl Hm pid.
    pose proof Hok as [_ _ _ Hz _].
    destruct (NewSalts_spec (PingConfig.Size c - Z.of_nat timestampLen)) as (salts & _ & E & _);
      [unfold timestampLen; lia|].
    assert (HN : exists p, ping.NewPinger c pid = Some p)
      by (unfold ping.NewPinger, Ping.NewPinger; rewrite E; eexists; reflexivity).
    destruct HN as [p HN]. exists p. split; [done|].
    pose proof (pinger_setup_ok (HT := ping.tool) c pid seed p ltac:(rewrite Hs; done) Hz ltac:(lia) HN) as H.
    destruct (Run_setup p seed) as [p' w]. by destruct H as (? & ? & _).
Qed.

(** The command line of [kuiniu] cannot ask for everything: [--delay] is never
    used, and a value that equals its default, like [--tos 64], leaves what the
    file says or the zero value. *)
Definition set_delay (d : Z) (f : kuiniu.flags) : kuiniu.flags :=
  let 'kuiniu.mkFlags r l rm tos n sd _ cp sp rate len v pp ld age := f in
  kuiniu.mkFlags r l rm tos n sd d cp sp rate len v pp ld age.

Lemma kuiniu_flags_ignored :
  (forall f d file, kuiniu.configure (set_delay d f) file = kuiniu.configure f file) /\
  (forall f file c, kuiniu.f_tos f = 64 -> kuiniu.configure f file = inl c -> kuiniu_config.TOS c = kuiniu_config.TOS file).
Proof.
  split.
  - intros f d file. unfold kuiniu.configure. by destruct f.
  - intros f file c Hf. unfold kuiniu.configure. destruct (kuiniu_config.Validate _) as [c' [[]|]] eqn:E; [|done].
    intros [= <-]. apply KuiniuConfig.Validate_inv in E as (_ & _ & cr & sr & sp & dl & sd & _ & _ & _ & _ & ->).
    cbn. by rewrite Hf.
Qed.

Module samples.

Definition host : Host :=
  mkHost (Some "node1") (fun n => if decide (n = "node1") then Some ["127.0.0.1"; "10.0.0.7"] else None)
    (Some [mkInterface "eth0" (Some [[10; 0; 0; 7]]) 1]).

Definition client_flags : bitflip.flags :=
  bitflip.mkFlags "client" "10.0.0.1" "10.0.0.2, 10.0.0.3" 64 0 0 (3 * Second) "43500,43599" "43500,43509" 5000 1024 false.

Definition server_file : baize.serverConfig :=
  baize.mkServerConfig "10.0.0.2" "10.0.0.1" 0 "" "43600,43605" 0 "oops" "" 0 false.

Definition evr_file : evr.jsonConfig :=
  evr.mkJson "a1" "10.0.0.1" "10.0.1.10#192.168.100.1" 0 0 "" "" 0 0 0 "63000,63999" 100 "1s" "" 64 "" "" 0 false.

Definition evr_line : list evr.flag := [evr.FlagDelay Second; evr.FlagRateInSpan 5000; evr.FlagTargets "10.0.1.11#192.168.100.2"].

Definition ping_flags : mping_main.flags :=
  mping_main.mkFlags "10.0.0.1" "10.0.0.7" "" 0 64 0 0 (3 * Second) Second 100 64 false true 65536.

End samples.

Lemma sonar_commands_start_witness :
  exists c d, bitflip.configure samples.host samples.client_flags = inl c /\
    baize.server_config samples.host samples.server_file = inl d /\
    client_started c ["10.0.0.2"; "10.0.0.3"] (bitflip.runClient (H := Toy.toy) c (fun _ => 5)) /\
    server_started d (accepted (baize.runServer samples.host samples.server_file)).
Proof.
  destruct (sonar_commands_start (H := Toy.toy) samples.host (fun _ => 5) ltac:(intros ?; unfold in_u64; lia))
    as (Hb & _ & Hs).
  assert (Hc : exists c, bitflip.configure samples.host samples.client_flags = inl c) by (vm_compute; by eexists).
  assert (Hd : exists d, baize.server_config samples.host samples.server_file = inl d) by (vm_compute; by eexists).
  destruct Hc as [c Hc], Hd as [d Hd]. exists c, d. split_and!; [exact Hc|exact Hd|..].
  - exact (proj1 (Hb _ _ Hc) eq_refl).
  - apply (Hs _ _ Hd). vm_compute. discriminate.
Defined.

Lemma evr_flags_override_witness :
  exists c c', evr.buildConfig samples.evr_file = inl c /\ foldl evr.visit (inl c) samples.evr_line = inl c' /\
    evr_config.RateInSpan c' = 5000 /\ evr_config.Span c' = Second /\
    foldl evr.visit (inl c) (reverse samples.evr_line) = inl c'.
Proof.
  assert (Hb : exists c, evr.buildConfig samples.evr_file = inl c /\ evr_config.Span c = Second)
    by (vm_compute; by eexists).
  destruct Hb as (c & Hb & Hspan).
  destruct (evr_flags_override samples.evr_file c samples.evr_line Hb) as [H _].
  { cbn. apply (bool_decide_unpack _). vm_compute. exact I. }
  destruct H as (c' & Hp & Hf & Hk); [repeat constructor; vm_compute; by eexists|].
  exists c, c'. split_and!; [exact Hb|by apply Hp|..].
  - assert (E : Some (VZ 5000) = Some (VZ (evr_config.RateInSpan c')))
      by (apply (Hf (evr.FlagRateInSpan 5000)); apply list_elem_of_further, list_elem_of_here).
    by injection E.
  - assert (E : VZ (evr_config.Span c') = VZ (evr_config.Span c))
      by (apply (Hk 12%nat); [lia|apply (bool_decide_unpack _); vm_compute; exact I]).
    injection E as ->. exact Hspan.
  - apply Hp. by rewrite reverse_Permutation.
Defined.

Lemma probe_commands_start_witness :
  exists c d, evr.configure samples.host samples.evr_file samples.evr_line = inl c /\
    mping_main.configure 10 samples.host samples.ping_flags ["10.0.0.2,10.0.0.3"] = Some (inl d) /\
    (exists a w, EvrAgent.New c (fun _ => 5) (mkWorld ∅ 0 (NewProcessor (evr_config.Span c) (evr_config.Delay c))) = Some (a, w) /\
       EvrAgent.agent_ok a w /\ length (EvrAgent.ag_peers a) = 1%nat) /\
    (exists p, ping.NewPinger (HG := Toy.toy) d 77 = Some p /\
       map t_addr (pg_targets (Run_setup p (fun _ => 5)).1) = ["10.0.0.1"; "10.0.0.2"; "10.0.0.3"]).
Proof.
  destruct (probe_commands_start (HG := Toy.toy) samples.host (fun _ => 5) ltac:(intros ?; unfold in_u64; lia))
    as (He & _ & _ & Hm).
  assert (Hc : exists c, evr.configure samples.host samples.evr_file samples.evr_line = inl c /\
                length (evr_config.Targets c) = 1%nat) by (vm_compute; by eexists).
  assert (Hd : exists d, mping_main.configure 10 samples.host samples.ping_flags ["10.0.0.2,10.0.0.3"] = Some (inl d) /\
                PingConfig.TargetAddrs d = ["10.0.0.1"; "10.0.0.2"; "10.0.0.3"]) by (vm_compute; by eexists).
  destruct Hc as (c & Hc & Hlen), Hd as (d & Hd & Hts). exists c, d. split_and!; [exact Hc|exact Hd|..].
  - destruct (He _ _ _ Hc) as (_ & a & w & E & Hok & Ht). exists a, w. split_and!; [exact E|exact Hok|].
    apply (f_equal length) in Ht. rewrite length_fmap in Ht. congruence.
  - destruct (Hm _ _ _ _ Hd ltac:(vm_compute; discriminate) 77) as (p & E & H).
    exists p. split; [exact E|]. destruct (Run_setup p (fun _ => 5)) as [p' w]. cbn [fst]. destruct H as [_ H]. congruence.
Defined.
