(* ===== verification/Main.v ===== *)
(** * The [main] functions ([cmd/.../main.go], [version/version.go])

    What the main goroutine of each command does, as a list of effects, and how
    the process ends: exit codes, deferred calls (which [os.Exit] skips), the
    recovered panic of the daemons, and the wait for the context. Flags are
    parsed, the content of files, the answers of the system and the arrival of a
    signal are arguments; configurations, clients, servers and their [Run] are
    those of the other files. The goroutines started are effects; what they do
    on their own is not repeated here. *)

From S2P Require Import Prelude GoStd GoNet GoDuration StateErr Goscapy World UdpStat SonarConfig Sonar6Config KuiniuConfig EvrConfig UdpClient UdpServer Sonar EvrAgent KuiniuClient KuiniuServer PingConfig Ping Lidar Enrich TraceConfig Hop Tracer Format RotateWriter Receive ClientRun Commands.
Local Open Scope Z_scope.
Local Open Scope se_scope.

(** ** [version] *)

Module version.
(** The variables the linker may set, and their values if it does not. *)
Record stamp := mkStamp { Version : string; Commit : string; Date : string }.
Definition unset : stamp := mkStamp "dev" "none" "unknown".
(** [String]. *)
Definition String (v : stamp) : string :=
  Version v +:+ " (commit: " +:+ Commit v +:+ ", built: " +:+ Date v +:+ ")".
End version.

(** ** Processes *)

(** The goroutines [main] starts, but for those of a signal and of pprof. *)
Inductive routine :=
| Processor_Run (span delay : Z)
| Client_Run
| Server_Run
| Agent_Run
| Baize_client
| Baize_server.

Inductive effect :=
| Stdout (text : string)
| Stderr
| OpenLog (w : RotateWriter)
| LogTo (stderr_too : bool)
| ServePprof (addr : string)
| NotifySignals
| Go (g : routine)
| CallRun
| WaitDone
| Sleep (d : Z)
| Cancel
| CloseLog.

(** A deferred call: the recovery, [cancel()], [logWriter.Close()]. *)
Inductive deferred_call := DeferRecover | DeferCancel | DeferClose.

(** Why [main] stops before its end: [os.Exit], a panic of its own, a panic of
    another goroutine, which kills the process, or a wait that does not end. *)
Inductive stop := Exit (code : Z) | Panic | Killed | Blocked.

(** The effects so far, the deferred calls, the last one first. *)
Record Proc := mkProc { pr_trace : list effect; pr_defers : list deferred_call }.

Abbreviation main_goroutine := (SE Proc stop).

Definition emit (e : effect) : main_goroutine unit :=
  modify (fun p => mkProc (pr_trace p ++ [e]) (pr_defers p)).
Definition defer (d : deferred_call) : main_goroutine unit :=
  modify (fun p => mkProc (pr_trace p) (d :: pr_defers p)).
(** A message on standard error, and [os.Exit(1)]. *)
Definition fatal {A} : main_goroutine A := emit Stderr ;;; throw (Exit 1).
Definition or_fatal {A E} (r : A + E) : main_goroutine A := match r with inl a => ret a | inr _ => fatal end.
Definition or_panic {A} (r : option A) : main_goroutine A := match r with Some a => ret a | None => throw Panic end.

Inductive status := Exited (code : Z) | Running.

Definition call_effect (d : deferred_call) : list effect :=
  match d with DeferRecover => [] | DeferCancel => [Cancel] | DeferClose => [CloseLog] end.

(** The deferred calls of a panic: the recovery exits with 1. *)
Fixpoint unwind (ds : list deferred_call) : list effect * status :=
  match ds with
  | [] => ([], Exited 2)
  | DeferRecover :: _ => ([], Exited 1)
  | d :: ds => let '(tr, st) := unwind ds in (call_effect d ++ tr, st)
  end.

(** A process with this main goroutine. *)
Definition process (m : main_goroutine unit) : list effect * status :=
  match m (mkProc [] []) with
  | (p, inl _) => (pr_trace p ++ flat_map call_effect (pr_defers p), Exited 0)
  | (p, inr (Exit code)) => (pr_trace p, Exited code)
  | (p, inr Panic) => let '(tr, st) := unwind (pr_defers p) in (pr_trace p ++ tr, st)
  | (p, inr Killed) => (pr_trace p, Exited 2)
  | (p, inr Blocked) => (pr_trace p, Running)
  end.

(** What becomes of the [Run] of a client or agent that is not told to stop: it
    goes on, returns (with an error or not), or panics. *)
Inductive fate := Going | Returned (failed : bool) | Panicked.

Definition fate_of {S} (run : option (option S * ending * list event)) : fate :=
  match run with
  | None => Panicked
  | Some (_, Limit, _) => Returned false
  | Some (_, Cancelled, _) => Going
  | Some (_, _, _) => Returned true
  end.

Definition panicked (f : fate) : bool := match f with Panicked => true | _ => false end.
Definition failed (f : fate) : bool := match f with Returned true => true | _ => false end.

(** [<-ctx.Done()] and the second that follows: a signal comes first; else a
    panic of a goroutine kills the process; else the context is done if a
    goroutine cancelled it. *)
Definition wait_done (signal killed cancelled : bool) : main_goroutine unit :=
  if signal then emit WaitDone ;;; emit (Sleep Second)
  else if killed then throw Killed
  else if cancelled then emit WaitDone ;;; emit (Sleep Second)
  else throw Blocked.

(** [--version]. *)
Definition print_version (v : version.stamp) : main_goroutine unit := emit (Stdout (version.String v +:+ newline)).

(** The configuration file, if one is named: read and decoded. *)
Definition load {C} (file : string) (read : string -> option bytes) (unmarshal : bytes -> option C) (zero : C) :
    main_goroutine C :=
  if decide (file = "") then ret zero
  else match read file with
       | None => fatal
       | Some data => match unmarshal data with None => fatal | Some c => ret c end
       end.

(** The log file: [mkdir] tells whether its directory can be made. *)
Definition setup_log (mkdir : string -> bool) (dir name : string) (days : Z) (stderr_too : bool) : main_goroutine unit :=
  when (bool_decide (dir <> ""))
    (w <-- or_fatal (NewRotateWriter (mkdir dir) dir name (baize.log_age days)) ;;
     emit (OpenLog w) ;;; emit (LogTo stderr_too) ;;; defer DeferClose).

Definition serve_pprof (addr : string) : main_goroutine unit := when (bool_decide (addr <> "")) (emit (ServePprof addr)).

(** ** [cmd/evr] *)

Module evr_main.
Section main.
Context `{Goscapy}.
(** The system: files, the host, the log directory, the sockets of the agent,
    and whether a signal arrives. *)
Variables (read : string -> option bytes) (unmarshal : bytes -> option evr.jsonConfig) (h : Host)
  (mkdir : string -> bool) (seed : nat -> Z) (read_answer write_answer : OpenAnswer) (rawconn : bool)
  (rounds : list (list EvrAgent.Outside)) (signal : bool).

Definition no_file : evr.jsonConfig :=
  evr.mkJson "" "" "" 0 0 "" "" 0 0 0 "" 0 "" "" 0 "" "" 0 false.

(** [main] from the validated configuration on. *)
Definition start (cfg : evr_config.Config) : main_goroutine unit :=
  setup_log mkdir (evr_config.LogDir cfg) "evr.log" (evr_config.LogMaxAgeDays cfg) true ;;;
  serve_pprof (evr_config.PprofAddr cfg) ;;;
  defer DeferCancel ;;;
  emit NotifySignals ;;;
  emit (Go (Processor_Run (evr_config.Span cfg) (evr_config.Delay cfg))) ;;;
  aw <-- or_panic (EvrAgent.New cfg seed (mkWorld ∅ 0 (NewProcessor (evr_config.Span cfg) (evr_config.Delay cfg)))) ;;
  emit (Go Agent_Run) ;;;
  let f := fate_of (evr_run.Run aw.1 read_answer write_answer rawconn rounds aw.2) in
  wait_done signal (panicked f) (failed f).

Definition main (v : version.stamp) (showVersion : bool) (configFile : string) (visited : list evr.flag) : main_goroutine unit :=
  if showVersion then print_version v
  else
    defer DeferRecover ;;;
    jc <-- load configFile read unmarshal no_file ;;
    cfg <-- or_fatal (evr.configure h jc visited) ;;
    start cfg.

End main.
End evr_main.

(** ** [cmd/kuiniu] *)

Module kuiniu_main.
Section main.
Context `{Goscapy}.
Variables (read : string -> option bytes) (unmarshal : bytes -> option kuiniu_config.Config)
  (mkdir : string -> bool) (seed : nat -> Z) (senders : nat -> OpenAnswer) (receivers : nat -> nat -> OpenAnswer)
  (rounds : list (nat -> UdpClient.Outside)) (signal : bool).

(** The client, if the role has one: the world its pairs are registered in and
    what becomes of its [Run]; an error is only logged. *)
Definition start_client (cfg : kuiniu_config.Config) (w : World) : main_goroutine (World * fate) :=
  if kuiniu.runs_client cfg then
    cw <-- or_panic (KuiniuClient.NewClient cfg seed w) ;;
    emit (Go Client_Run) ;;;
    ret (cw.2, fate_of (kuiniu_client_run.Run cw.1 senders receivers rounds cw.2))
  else ret (w, Going).

(** The server, if the role has one; its [Run] waits for the context, and an
    error is only logged. *)
Definition start_server (cfg : kuiniu_config.Config) (w : World) : main_goroutine unit :=
  when (kuiniu.runs_server cfg) (_ <-- or_panic (KuiniuServer.New cfg w) ;; emit (Go Server_Run)).

Definition start (cfg : kuiniu_config.Config) : main_goroutine unit :=
  setup_log mkdir (kuiniu_config.LogDir cfg) "kuiniu.log" (kuiniu_config.LogMaxAgeDays cfg) true ;;;
  serve_pprof (kuiniu_config.PprofAddr cfg) ;;;
  defer DeferCancel ;;;
  emit NotifySignals ;;;
  emit (Go (Processor_Run (kuiniu_config.Span cfg) (kuiniu_config.Delay cfg))) ;;;
  wf <-- start_client cfg (mkWorld ∅ 0 (NewProcessor (kuiniu_config.Span cfg) (kuiniu_config.Delay cfg))) ;;
  start_server cfg wf.1 ;;;
  wait_done signal (panicked wf.2) false.

Definition main (v : version.stamp) (showVersion : bool) (configFile : string) (f : kuiniu.flags) : main_goroutine unit :=
  if showVersion then print_version v
  else
    defer DeferRecover ;;;
    file <-- load configFile read unmarshal kuiniu.no_file ;;
    cfg <-- or_fatal (kuiniu.configure f file) ;;
    start cfg.

End main.
End kuiniu_main.

(** ** [cmd/baize] *)

Module baize_main.
Section main.
Context `{Goscapy}.
Variables (read : string -> option bytes) (unmarshal : bytes -> option baize.baizeConfig) (h : Host)
  (mkdir : string -> bool) (seed : nat -> Z) (answers : nat -> OpenAnswer) (answer : OpenAnswer)
  (rounds : list (list (string * UdpClient.Outside))) (signal : bool).

(** [runClient] as a goroutine: a configuration error cancels the context; an
    error of the client's [Run] is only logged. *)
Definition client_fate (cfg : baize.clientConfig) : fate :=
  match baize.runClient h cfg seed with
  | None => Panicked
  | Some (inr _) => Returned true
  | Some (inl (c, w)) =>
      match baize.client_config h cfg with
      | inr _ => Returned true
      | inl conf =>
          if panicked (fate_of (sonar_run.Run conf c answers answer rounds None w)) then Panicked else Going
      end
  end.

(** [runServer] as a goroutine: a [nil] server panics, another waits. *)
Definition server_fate (cfg : baize.serverConfig) : fate :=
  match baize.runServer h cfg with
  | None => Panicked
  | Some (inr _) => Returned true
  | Some (inl (None, _)) => Panicked
  | Some (inl (Some _, _)) => Going
  end.

(** A part of the configuration that is present starts its goroutine. *)
Definition start_part {C} (part : option C) (g : routine) (run : C -> fate) : main_goroutine fate :=
  match part with Some c => emit (Go g) ;;; ret (run c) | None => ret Going end.

Definition main (v : version.stamp) (showVersion : bool) (configFile : string) : main_goroutine unit :=
  if showVersion then print_version v
  else
    defer DeferRecover ;;;
    cfg <-- match read configFile with None => fatal | Some data => match unmarshal data with None => fatal | Some c => ret c end end ;;
    if negb (baize.has_work cfg) then fatal
    else
      setup_log mkdir (baize.LogDir cfg) "baize.log" (baize.LogMaxAgeDays cfg) false ;;;
      serve_pprof (baize.PprofAddr cfg) ;;;
      defer DeferCancel ;;;
      emit NotifySignals ;;;
      fc <-- start_part (baize.ClientPart cfg) Baize_client client_fate ;;
      fs <-- start_part (baize.ServerPart cfg) Baize_server server_fate ;;
      wait_done signal (panicked fc || panicked fs) (failed fc || failed fs).

End main.
End baize_main.

(** ** [cmd/bitflip], [cmd/bitflip6] *)

(** [main] from the validated configuration on: the client is started in a
    goroutine whose error is only logged, the server is called and waits; no
    call is deferred. *)
Definition start_bitflip {Cl Sv} (span delay : Z) (is_client is_server : bool) (client : option Cl) (run : Cl -> fate)
    (server : option (option Sv)) (nil_server : main_goroutine unit) (signal : bool) : main_goroutine unit :=
  emit NotifySignals ;;;
  if is_client then
    emit (Go (Processor_Run span delay)) ;;;
    c <-- or_panic client ;;
    emit (Go Client_Run) ;;;
    wait_done signal (panicked (run c)) false
  else if is_server then
    emit (Go (Processor_Run span delay)) ;;;
    s <-- or_panic server ;;
    match s with
    | None => nil_server
    | Some _ => emit CallRun ;;; wait_done signal false false
    end
  else emit (Sleep Second).

Module bitflip_main.
Section main.
Context `{Goscapy}.
Variables (h : Host) (seed : nat -> Z) (answers : nat -> OpenAnswer) (answer : OpenAnswer)
  (rounds : list (list (string * UdpClient.Outside))) (signal : bool).

Definition main (v : version.stamp) (showVersion : bool) (f : bitflip.flags) : main_goroutine unit :=
  if showVersion then print_version v
  else
    conf <-- or_fatal (bitflip.configure h f) ;;
    start_bitflip (sonar_config.Span conf) (sonar_config.Delay conf)
      (sonar_config.is_role sonar_config.RoleClient conf) (sonar_config.is_role sonar_config.RoleServer conf)
      (bitflip.runClient conf seed) (fun cw => fate_of (sonar_run.Run conf cw.1 answers answer rounds None cw.2))
      (fst <$> bitflip.runServer conf) (throw Panic) signal.

End main.
End bitflip_main.

Module bitflip6_main.
Section main.
Context `{Goscapy}.
Variables (h : Host) (seed : nat -> Z) (answers : nat -> OpenAnswer) (answer : OpenAnswer)
  (rounds : list (list (string * UdpClient.Outside))) (signal : bool).

(** As [bitflip], but a [nil] server is a fatal error. *)
Definition main (v : version.stamp) (showVersion : bool) (f : bitflip.flags) : main_goroutine unit :=
  if showVersion then print_version v
  else
    conf <-- or_fatal (bitflip6.configure h f) ;;
    start_bitflip (sonar6_config.Span conf) (sonar6_config.Delay conf)
      (bool_decide (sonar6_config.Role conf = sonar6_config.RoleClient))
      (bool_decide (sonar6_config.Role conf = sonar6_config.RoleServer))
      (bitflip6.runClient conf seed) (fun cw => fate_of (sonar6_run.Run conf cw.1 answers answer rounds None cw.2))
      (fst <$> bitflip6.runServer conf) fatal signal.

End main.
End bitflip6_main.

(** ** [cmd/mping], [cmd/mping6], [cmd/lidar] *)

(** [main] from the validated configuration on: [run] is what [Run] does: it
    returns, with an error or not, or does not return. *)
Definition call_run {P} (new : option P) (run : P -> option bool) : main_goroutine unit :=
  emit NotifySignals ;;;
  p <-- or_panic new ;;
  emit CallRun ;;;
  match run p with
  | None => throw Blocked
  | Some true => fatal
  | Some false => ret tt
  end.

Module mping_cmd.
Section main.
Context `{Goscapy}.
Variables (fuel : nat) (h : Host) (pid : Z) (run : Pinger -> option bool).

Definition main (v : version.stamp) (showVersion : bool) (f : mping_main.flags) (args : list string) : main_goroutine unit :=
  if showVersion then print_version v
  else
    r <-- or_panic (mping_main.configure fuel h f args) ;;
    cfg <-- or_fatal r ;;
    defer DeferCancel ;;;
    call_run (ping.NewPinger cfg pid) run.

End main.
End mping_cmd.

Module mping6_cmd.
Section main.
Context `{Goscapy}.
Variables (h : Host) (pid : Z) (run : Pinger -> option bool).

Definition main (v : version.stamp) (showVersion : bool) (f : mping_main.flags) (args : list string) : main_goroutine unit :=
  if showVersion then print_version v
  else
    r <-- or_panic (mping6_main.configure h f args) ;;
    cfg <-- or_fatal r ;;
    defer DeferCancel ;;;
    call_run (ping6.NewPinger cfg pid) run.

End main.
End mping6_cmd.

Module lidar_main.
Section main.
Variables (read : string -> option bytes) (unmarshal : bytes -> option lidar.lidarFileConfig) (h : Host)
  (run : Scanner * World -> option bool).

Definition no_file : lidar.lidarFileConfig := lidar.mkFile "" 0 "" 0 0 0 "" "" 0 "" "" false.

Definition main (v : version.stamp) (showVersion : bool) (configFile : string) (visited : list lidar.flag) : main_goroutine unit :=
  if showVersion then print_version v
  else
    file <-- load configFile read unmarshal no_file ;;
    cfg <-- or_fatal (lidar.configure h file visited) ;;
    call_run (Some (NewScanner cfg)) run.

End main.
End lidar_main.

(** ** [cmd/traceroute], [cmd/traceroute6] *)

(** The loop over the results: a blank line between two. *)
Definition print_results (text : Result -> string) (results : list Result) : main_goroutine unit :=
  for_each (imap pair results) (fun ir =>
    when (0 <? ir.1)%nat (emit (Stdout newline)) ;;; emit (Stdout (text ir.2))).

(** [main] around the configuration and [Tracer.Run]. *)
Definition trace_main {E E'} (text : Result -> string) (cfg : TraceConfig.Config + E)
    (run : TraceConfig.Config -> option (list Result + E')) : main_goroutine unit :=
  cfg <-- or_fatal cfg ;;
  r <-- or_panic (run cfg) ;;
  results <-- or_fatal r ;;
  print_results text results.

Section traceroute.
Context (h : Host) (cymru ipinfo : Provider) (Dial : IP -> option (option IP)) (outcome : TraceConfig.Config -> job -> nat -> nat -> ProbeResult)
  (order : TraceConfig.Config -> job -> list (nat * nat)) (LookupAddr : string -> option (list string))
  (lookups : list Result -> list IP) (resolve : list IP -> gmap string IPInfo).

Definition traceroute_cmd_main (v : version.stamp) (showVersion : bool) (f : traceroute_main.flags) (args : list string) :
    main_goroutine unit :=
  if showVersion then print_version v
  else
    trace_main (Format.traceroute_format.Result_String) (traceroute_main.configure h cymru ipinfo f args)
      (fun cfg => Tracer.Run (HF := traceroute_config.family) Dial cfg h (outcome cfg) (order cfg) LookupAddr lookups resolve).

Definition traceroute6_cmd_main (v : version.stamp) (showVersion : bool) (f : traceroute_main.flags) (args : list string) :
    main_goroutine unit :=
  if showVersion then print_version v
  else
    trace_main (Format.traceroute6_format.Result_String) (traceroute6_main.configure h cymru ipinfo f args)
      (fun cfg => traceroute6_run.Run Dial cfg h (outcome cfg) (order cfg) LookupAddr lookups resolve).

End traceroute.

(** ** Evaluating a main goroutine *)

Lemma emit_bind {A} e (k : unit -> main_goroutine A) p :
  bind (emit e) k p = k tt (mkProc (pr_trace p ++ [e]) (pr_defers p)).
Proof. done. Qed.

Lemma defer_bind {A} d (k : unit -> main_goroutine A) p :
  bind (defer d) k p = k tt (mkProc (pr_trace p) (d :: pr_defers p)).
Proof. done. Qed.

Lemma fatal_bind {A B} (k : A -> main_goroutine B) p :
  bind fatal k p = (mkProc (pr_trace p ++ [Stderr]) (pr_defers p), inr (Exit 1)).
Proof. done. Qed.

Lemma or_panic_bind {A B} (r : option A) (k : A -> main_goroutine B) p :
  bind (or_panic r) k p = match r with Some a => k a p | None => (p, inr Panic) end.
Proof. by destruct r. Qed.

Lemma or_fatal_bind {A E B} (r : A + E) (k : A -> main_goroutine B) p :
  bind (or_fatal r) k p =
    match r with inl a => k a p | inr _ => (mkProc (pr_trace p ++ [Stderr]) (pr_defers p), inr (Exit 1)) end.
Proof. by destruct r. Qed.

Lemma when_bind {A} b m (k : unit -> main_goroutine A) p :
  bind (when b m) k p = if b then bind m k p else k tt p.
Proof. by destruct b. Qed.

(** What [load] gives, [None] if it ends the process. *)
Definition loaded {C} (file : string) (read : string -> option bytes) (unmarshal : bytes -> option C) (zero : C) : option C :=
  if decide (file = "") then Some zero else data ← read file; unmarshal data.

Lemma load_bind {C A} file read unmarshal (zero : C) (k : C -> main_goroutine A) p :
  bind (load file read unmarshal zero) k p =
    match loaded file read unmarshal zero with
    | Some c => k c p
    | None => (mkProc (pr_trace p ++ [Stderr]) (pr_defers p), inr (Exit 1))
    end.
Proof.
  unfold load, loaded. case_decide; [done|]. destruct (read file) as [data|]; [|done].
  cbn [mbind option_bind]. by destruct (unmarshal data).
Qed.

(** The log, if a directory is configured: [None] if it cannot be set up. *)
Definition log_effects (mkdir : string -> bool) (dir name : string) (days : Z) (stderr_too : bool) :
    option (list effect * list deferred_call) :=
  if bool_decide (dir <> "") then
    match NewRotateWriter (mkdir dir) dir name (baize.log_age days) with
    | inl w => Some ([OpenLog w; LogTo stderr_too], [DeferClose])
    | inr _ => None
    end
  else Some ([], []).

Lemma setup_log_bind {A} mkdir dir name days both (k : unit -> main_goroutine A) p :
  bind (setup_log mkdir dir name days both) k p =
    match log_effects mkdir dir name days both with
    | Some (tr, ds) => k tt (mkProc (pr_trace p ++ tr) (ds ++ pr_defers p))
    | None => (mkProc (pr_trace p ++ [Stderr]) (pr_defers p), inr (Exit 1))
    end.
Proof.
  unfold setup_log, log_effects. rewrite when_bind. destruct (bool_decide _).
  - unfold bind at 1. rewrite or_fatal_bind. destruct (NewRotateWriter _ _ _ _); [|done].
    unfold bind, emit, defer, modify. cbn. by rewrite <- app_assoc.
  - rewrite app_nil_r. by destruct p.
Qed.

Definition pprof_effects (addr : string) : list effect := if bool_decide (addr <> "") then [ServePprof addr] else [].

Lemma serve_pprof_bind {A} addr (k : unit -> main_goroutine A) p :
  bind (serve_pprof addr) k p = k tt (mkProc (pr_trace p ++ pprof_effects addr) (pr_defers p)).
Proof.
  unfold serve_pprof, pprof_effects. rewrite when_bind. destruct (bool_decide _); [done|].
  rewrite app_nil_r. by destruct p.
Qed.

Definition done_effects : list effect := [WaitDone; Sleep Second].

Lemma wait_done_eval signal killed cancelled p :
  wait_done signal killed cancelled p =
    if signal || (negb killed && cancelled) then (mkProc (pr_trace p ++ done_effects) (pr_defers p), inl tt)
    else (p, inr (if killed then Killed else Blocked)).
Proof.
  unfold wait_done, bind, emit, modify. destruct p, signal, killed, cancelled; cbn; by rewrite <- ?app_assoc.
Qed.

Ltac run_main :=
  repeat first
    [ rewrite emit_bind | rewrite defer_bind | rewrite fatal_bind | rewrite or_panic_bind | rewrite or_fatal_bind
    | rewrite load_bind | rewrite setup_log_bind | rewrite serve_pprof_bind ];
  cbn [pr_trace pr_defers app].

(** The main goroutine of the three daemons from the opening of the log on. *)
Definition log_opened (tr : list effect) : bool := existsb (fun e => match e with OpenLog _ => true | _ => false end) tr.
Definition log_closed (tr : list effect) : bool := existsb (fun e => match e with CloseLog => true | _ => false end) tr.

(** Messages on the terminal and nothing else. *)
Definition message (e : effect) : Prop := match e with Stdout _ | Stderr => True | _ => False end.

(** ** Rejected configurations *)

(** A command prints its version and ends with 0, and ends with 1 and a message
    when there is no accepted configuration. *)
Definition rejects {A} (accepted : option A) (v : version.stamp) (main : bool -> main_goroutine unit) : Prop :=
  process (main true) = ([Stdout (version.String v +:+ newline)], Exited 0) /\
  (accepted = None -> process (main false) = ([Stderr], Exited 1)).

Definition left_of {A E} (r : A + E) : option A := match r with inl a => Some a | inr _ => None end.

Section rejected.
Context `{Goscapy} (h : Host) (v : version.stamp) (seed : nat -> Z) (read : string -> option bytes)
  (mkdir : string -> bool) (answers : nat -> OpenAnswer) (answer : OpenAnswer) (file : string) (signal : bool).

Lemma evr_rejects unmarshal read_answer rawconn rounds visited :
  rejects (jc ← loaded file read unmarshal evr_main.no_file; left_of (evr.configure h jc visited)) v
    (fun b => evr_main.main read unmarshal h mkdir seed read_answer answer rawconn rounds signal v b file visited).
Proof.
  split; [done|]. intros Ha. unfold evr_main.main, process. run_main.
  destruct (loaded _ _ _ _) as [jc|]; [|done]. cbn [mbind option_bind] in Ha. run_main.
  by destruct (evr.configure h jc visited).
Qed.

Lemma kuiniu_rejects unmarshal receivers rounds f :
  rejects (c ← loaded file read unmarshal kuiniu.no_file; left_of (kuiniu.configure f c)) v
    (fun b => kuiniu_main.main read unmarshal mkdir seed answers receivers rounds signal v b file f).
Proof.
  split; [done|]. intros Ha. unfold kuiniu_main.main, process. run_main.
  destruct (loaded _ _ _ _) as [c|]; [|done]. cbn [mbind option_bind] in Ha. run_main.
  by destruct (kuiniu.configure f c).
Qed.

Lemma bitflip_rejects rounds f :
  rejects (left_of (bitflip.configure h f)) v (fun b => bitflip_main.main h seed answers answer rounds signal v b f) /\
  rejects (left_of (bitflip6.configure h f)) v (fun b => bitflip6_main.main h seed answers answer rounds signal v b f).
Proof.
  split; (split; [done|]); intros Ha; unfold bitflip_main.main, bitflip6_main.main, process; run_main.
  - by destruct (bitflip.configure h f).
  - by destruct (bitflip6.configure h f).
Qed.

Lemma baize_rejects unmarshal rounds :
  rejects (c ← data ← read file; unmarshal data; if baize.has_work c then Some c else None) v
    (fun b => baize_main.main read unmarshal h mkdir seed answers answer rounds signal v b file).
Proof.
  split; [done|]. intros Ha. unfold baize_main.main, process. run_main.
  destruct (read file) as [data|]; [|done]. cbn [mbind option_bind] in Ha.
  destruct (unmarshal data) as [c|]; [|done]. cbn [mbind option_bind] in Ha. run_main.
  unfold bind at 1. cbn [ret]. by destruct (baize.has_work c).
Qed.

Lemma lidar_rejects unmarshal run visited :
  rejects (l ← loaded file read unmarshal lidar_main.no_file; left_of (lidar.configure h l visited)) v
    (fun b => lidar_main.main read unmarshal h run v b file visited).
Proof.
  split; [done|]. intros Ha. unfold lidar_main.main, process. run_main.
  destruct (loaded _ _ _ _) as [l|]; [|done]. cbn [mbind option_bind] in Ha. run_main.
  by destruct (lidar.configure h l visited).
Qed.

(** For the commands whose target list may make them panic. *)
Definition decided {A E} (r : option (A + E)) : option (option A) :=
  match r with Some (inr _) => None | Some (inl a) => Some (Some a) | None => Some None end.

Lemma mping_rejects fuel pid run f args :
  rejects (decided (mping_main.configure fuel h f args)) v (fun b => mping_cmd.main fuel h pid run v b f args) /\
  rejects (decided (mping6_main.configure h f args)) v (fun b => mping6_cmd.main h pid run v b f args).
Proof.
  split; (split; [done|]); intros Ha; unfold mping_cmd.main, mping6_cmd.main, process; run_main.
  - destruct (mping_main.configure fuel h f args) as [[|]|]; [done| |done]. by run_main.
  - destruct (mping6_main.configure h f args) as [[|]|]; [done| |done]. by run_main.
Qed.

Lemma trace_main_rejects {E E'} text (cfg : TraceConfig.Config + E) (run : TraceConfig.Config -> option (list Result + E')) :
  left_of cfg = None -> process (trace_main text cfg run) = ([Stderr], Exited 1).
Proof. destruct cfg; [done|]. reflexivity. Qed.

End rejected.

(** ** The daemons *)

(** What they have done when their goroutines start, if the log could be set
    up. *)
Definition daemon_prefix (log : list effect) (pprof : string) : list effect := log ++ pprof_effects pprof ++ [NotifySignals].

(** How the wait ends: the trace so far is extended by the end of [main] and the
    deferred calls. *)
Definition daemon_end (signal killed cancelled : bool) (tr : list effect) (ds : list deferred_call) : list effect * status :=
  if signal || (negb killed && cancelled) then (tr ++ done_effects ++ [Cancel] ++ flat_map call_effect ds, Exited 0)
  else (tr, if killed then Exited 2 else Running).

Lemma process_wait signal killed cancelled tr ds (m : main_goroutine unit) :
  m (mkProc [] []) = wait_done signal killed cancelled (mkProc tr (DeferCancel :: ds ++ [DeferRecover])) ->
  process m = daemon_end signal killed cancelled tr ds.
Proof.
  intros E. unfold process, daemon_end. rewrite E, wait_done_eval. destruct (signal || _).
  - cbn [pr_trace pr_defers flat_map call_effect]. rewrite flat_map_app. cbn. by rewrite app_nil_r, <- !app_assoc.
  - by destruct killed.
Qed.

Section daemons.
Context `{Goscapy} (h : Host) (v : version.stamp) (seed : nat -> Z) (read : string -> option bytes)
  (mkdir : string -> bool) (answers : nat -> OpenAnswer) (answer : OpenAnswer) (file : string) (signal : bool).

(** [evr] with a configuration, a log and an agent. *)
Lemma evr_main_waits unmarshal read_answer rawconn rounds visited jc cfg log ds a w :
  loaded file read unmarshal evr_main.no_file = Some jc -> evr.configure h jc visited = inl cfg ->
  log_effects mkdir (evr_config.LogDir cfg) "evr.log" (evr_config.LogMaxAgeDays cfg) true = Some (log, ds) ->
  EvrAgent.New cfg seed (mkWorld ∅ 0 (NewProcessor (evr_config.Span cfg) (evr_config.Delay cfg))) = Some (a, w) ->
  let f := fate_of (evr_run.Run a read_answer answer rawconn rounds w) in
  process (evr_main.main read unmarshal h mkdir seed read_answer answer rawconn rounds signal v false file visited) =
    daemon_end signal (panicked f) (failed f)
      (daemon_prefix log (evr_config.PprofAddr cfg) ++
       [Go (Processor_Run (evr_config.Span cfg) (evr_config.Delay cfg)); Go Agent_Run]) ds.
Proof.
  intros Hl Hc Hlog Ha f. apply process_wait. unfold evr_main.main, evr_main.start. run_main.
  rewrite Hl. run_main. rewrite Hc. run_main. rewrite Hlog. run_main. rewrite Ha. run_main. cbn [fst snd]. fold f.
  unfold daemon_prefix. by rewrite <- !app_assoc.
Qed.

(** The routines of a role of [kuiniu]. *)
Definition role_routines (cfg : kuiniu_config.Config) : list effect :=
  (if kuiniu.runs_client cfg then [Go Client_Run] else []) ++ (if kuiniu.runs_server cfg then [Go Server_Run] else []).

(** [kuiniu] with a configuration, a log and what its role needs. *)
Lemma kuiniu_main_waits unmarshal receivers rounds f jc cfg log ds c wc sv :
  let w0 := mkWorld ∅ 0 (NewProcessor (kuiniu_config.Span cfg) (kuiniu_config.Delay cfg)) in
  loaded file read unmarshal kuiniu.no_file = Some jc -> kuiniu.configure f jc = inl cfg ->
  log_effects mkdir (kuiniu_config.LogDir cfg) "kuiniu.log" (kuiniu_config.LogMaxAgeDays cfg) true = Some (log, ds) ->
  KuiniuClient.NewClient cfg seed w0 = Some (c, wc) ->
  KuiniuServer.New cfg (if kuiniu.runs_client cfg then wc else w0) = Some sv ->
  let fate := if kuiniu.runs_client cfg then fate_of (kuiniu_client_run.Run c answers receivers rounds wc) else Going in
  process (kuiniu_main.main read unmarshal mkdir seed answers receivers rounds signal v false file f) =
    daemon_end signal (panicked fate) false
      (daemon_prefix log (kuiniu_config.PprofAddr cfg) ++
       [Go (Processor_Run (kuiniu_config.Span cfg) (kuiniu_config.Delay cfg))] ++ role_routines cfg) ds.
Proof.
  intros w0 Hl Hc Hlog HC HS fate. apply process_wait. unfold kuiniu_main.main, kuiniu_main.start. run_main.
  rewrite Hl. run_main. rewrite Hc. run_main. rewrite Hlog. run_main.
  unfold kuiniu_main.start_client, kuiniu_main.start_server, role_routines, fate, daemon_prefix. fold w0.
  destruct (kuiniu.runs_client cfg).
  - unfold bind at 1. run_main. rewrite HC. run_main. cbn [ret fst snd]. rewrite when_bind.
    destruct (kuiniu.runs_server cfg); [|by rewrite <- !app_assoc].
    unfold bind at 1. run_main. rewrite HS. cbn. by rewrite <- !app_assoc.
  - unfold bind at 1. cbn [ret fst snd]. rewrite when_bind.
    destruct (kuiniu.runs_server cfg); [|by rewrite <- !app_assoc].
    unfold bind at 1. run_main. rewrite HS. cbn. by rewrite <- !app_assoc.
Qed.

(** [baize] with work and a log. *)
Lemma baize_main_waits unmarshal rounds data cfg log ds :
  read file = Some data -> unmarshal data = Some cfg -> baize.has_work cfg = true ->
  log_effects mkdir (baize.LogDir cfg) "baize.log" (baize.LogMaxAgeDays cfg) false = Some (log, ds) ->
  let fc := from_option (baize_main.client_fate h seed answers answer rounds) Going (baize.ClientPart cfg) in
  let fs := from_option (baize_main.server_fate h) Going (baize.ServerPart cfg) in
  process (baize_main.main read unmarshal h mkdir seed answers answer rounds signal v false file) =
    daemon_end signal (panicked fc || panicked fs) (failed fc || failed fs)
      (daemon_prefix log (baize.PprofAddr cfg) ++
       match baize.ClientPart cfg with Some _ => [Go Baize_client] | None => [] end ++
       match baize.ServerPart cfg with Some _ => [Go Baize_server] | None => [] end) ds.
Proof.
  intros Hr Hu Hw Hlog fc fs. apply process_wait. unfold baize_main.main. run_main. rewrite Hr, Hu.
  unfold bind at 1. cbn [ret]. rewrite Hw. cbn [negb]. run_main. rewrite Hlog. run_main. unfold fc, fs, daemon_prefix.
  destruct (baize.ClientPart cfg), (baize.ServerPart cfg); unfold bind, baize_main.start_part; cbn;
    by rewrite ?app_nil_r, <- !app_assoc.
Qed.

End daemons.

(** A part of the file [baize] cannot start with. *)
Definition bad_part {C} (config : C -> sonar_config.Config + baize.error) (part : option C) : Prop :=
  exists c e, part = Some c /\ config c = inr e.

(** Such a part is only noticed in its goroutine, which cancels the context. *)
Lemma baize_bad_part `{Goscapy} h v seed read mkdir answers answer file signal unmarshal rounds data cfg log ds :
  read file = Some data -> unmarshal data = Some cfg -> baize.has_work cfg = true ->
  log_effects mkdir (baize.LogDir cfg) "baize.log" (baize.LogMaxAgeDays cfg) false = Some (log, ds) ->
  bad_part (baize.client_config h) (baize.ClientPart cfg) \/ bad_part (baize.server_config h) (baize.ServerPart cfg) ->
  (forall c, baize.ClientPart cfg = Some c -> baize_main.client_fate h seed answers answer rounds c <> Panicked) ->
  (forall c, baize.ServerPart cfg = Some c -> baize_main.server_fate h c <> Panicked) ->
  process (baize_main.main read unmarshal h mkdir seed answers answer rounds signal v false file) =
    (daemon_prefix log (baize.PprofAddr cfg) ++
     match baize.ClientPart cfg with Some _ => [Go Baize_client] | None => [] end ++
     match baize.ServerPart cfg with Some _ => [Go Baize_server] | None => [] end ++
     done_effects ++ [Cancel] ++ flat_map call_effect ds, Exited 0).
Proof.
  intros Hr Hu Hw Hlog Hbad Hc Hs. erewrite baize_main_waits by done. unfold daemon_end.
  set (fc := from_option (baize_main.client_fate _ _ _ _ _) _ _). set (fs := from_option (baize_main.server_fate _) _ _).
  assert (Hpc : panicked fc = false).
  { unfold fc. destruct (baize.ClientPart cfg) as [c|]; [|done]. specialize (Hc c eq_refl). cbn.
    by destruct (baize_main.client_fate _ _ _ _ _ c). }
  assert (Hps : panicked fs = false).
  { unfold fs. destruct (baize.ServerPart cfg) as [c|]; [|done]. specialize (Hs c eq_refl). cbn.
    by destruct (baize_main.server_fate _ c). }
  assert (Hf : failed fc || failed fs = true).
  { destruct Hbad as [(c & e & Ep & Ec)|(c & e & Ep & Ec)]; [apply orb_true_iff; left|apply orb_true_iff; right].
    - unfold fc. rewrite Ep. cbn. unfold baize_main.client_fate, baize.runClient. by rewrite Ec.
    - unfold fs. rewrite Ep. cbn. unfold baize_main.server_fate, baize.runServer. by rewrite Ec. }
  rewrite Hpc, Hps, Hf. cbn [orb negb andb]. rewrite orb_true_r. by rewrite <- !app_assoc.
Qed.

(** C34: every command prints its version and ends with 0 if asked to, and what
    it does without an accepted configuration. [evr], [kuiniu], [bitflip],
    [bitflip6], [lidar], [mping], [mping6] and the traceroutes end with 1 after
    a message if the file they are given cannot be read or decoded, or flags and
    file do not make a valid configuration (for the ping tools, unless making
    the target list panics): no log file, no listener, no goroutine, no client
    or server is started. [baize] does so only if its file cannot be read or
    decoded or has neither a client nor a server part; a part that is not
    valid is noticed after the log is open, the listener up and the goroutines
    started, and, unless the other part panics, the process then closes the
    log and ends with 0. *)
Theorem mains_reject_configs :
  forall `{Goscapy} h v seed read mkdir answers answer file signal,
    (forall unmarshal read_answer rawconn rounds visited,
       rejects (jc ← loaded file read unmarshal evr_main.no_file; left_of (evr.configure h jc visited)) v
         (fun b => evr_main.main read unmarshal h mkdir seed read_answer answer rawconn rounds signal v b file visited)) /\
    (forall unmarshal receivers rounds f,
       rejects (c ← loaded file read unmarshal kuiniu.no_file; left_of (kuiniu.configure f c)) v
         (fun b => kuiniu_main.main read unmarshal mkdir seed answers receivers rounds signal v b file f)) /\
    (forall unmarshal rounds,
       rejects (c ← data ← read file; unmarshal data; if baize.has_work c then Some c else None) v
         (fun b => baize_main.main read unmarshal h mkdir seed answers answer rounds signal v b file)) /\
    (forall rounds f,
       rejects (left_of (bitflip.configure h f)) v (fun b => bitflip_main.main h seed answers answer rounds signal v b f) /\
       rejects (left_of (bitflip6.configure h f)) v (fun b => bitflip6_main.main h seed answers answer rounds signal v b f)) /\
    (forall unmarshal run visited,
       rejects (l ← loaded file read unmarshal lidar_main.no_file; left_of (lidar.configure h l visited)) v
         (fun b => lidar_main.main read unmarshal h run v b file visited)) /\
    (forall fuel pid run f args,
       rejects (decided (mping_main.configure fuel h f args)) v (fun b => mping_cmd.main fuel h pid run v b f args) /\
       rejects (decided (mping6_main.configure h f args)) v (fun b => mping6_cmd.main h pid run v b f args)) /\
    (forall cymru ipinfo Dial outcome order LookupAddr lookups resolve f args,
       rejects (left_of (traceroute_main.configure h cymru ipinfo f args)) v
         (fun b => traceroute_cmd_main h cymru ipinfo Dial outcome order LookupAddr lookups resolve v b f args) /\
       rejects (left_of (traceroute6_main.configure h cymru ipinfo f args)) v
         (fun b => traceroute6_cmd_main h cymru ipinfo Dial outcome order LookupAddr lookups resolve v b f args)) /\
    (forall unmarshal rounds data cfg log ds,
       read file = Some data -> unmarshal data = Some cfg -> baize.has_work cfg = true ->
       log_effects mkdir (baize.LogDir cfg) "baize.log" (baize.LogMaxAgeDays cfg) false = Some (log, ds) ->
       bad_part (baize.client_config h) (baize.ClientPart cfg) \/
       bad_part (baize.server_config h) (baize.ServerPart cfg) ->
       (forall c, baize.ClientPart cfg = Some c -> baize_main.client_fate h seed answers answer rounds c <> Panicked) ->
       (forall c, baize.ServerPart cfg = Some c -> baize_main.server_fate h c <> Panicked) ->
       process (baize_main.main read unmarshal h mkdir seed answers answer rounds signal v false file) =
         (daemon_prefix log (baize.PprofAddr cfg) ++
          match baize.ClientPart cfg with Some _ => [Go Baize_client] | None => [] end ++
          match baize.ServerPart cfg with Some _ => [Go Baize_server] | None => [] end ++
          done_effects ++ [Cancel] ++ flat_map call_effect ds, Exited 0)).
Proof.
  intros. split_and!; intros.
  - apply evr_rejects.
  - apply kuiniu_rejects.
  - apply baize_rejects.
  - apply bitflip_rejects.
  - apply lidar_rejects.
  - apply mping_rejects.
  - split; (split; [done|]); apply trace_main_rejects.
  - by eapply baize_bad_part.
Qed.

(** ** The log file *)

(** A process that ends, other than by a panic in one of its goroutines, has
    closed the log it opened; one that runs has not. *)
Definition log_kept (r : list effect * status) : Prop :=
  match r.2 with
  | Running => log_closed r.1 = false
  | Exited code => code <> 2 -> log_closed r.1 = log_opened r.1
  end.

Definition defers_close (ds : list deferred_call) : bool :=
  existsb (fun d => match d with DeferClose => true | _ => false end) ds.

Lemma log_effects_balanced mkdir dir name days both log ds :
  log_effects mkdir dir name days both = Some (log, ds) ->
  log_closed log = false /\ log_opened log = defers_close ds /\ unwind (DeferCancel :: ds ++ [DeferRecover]) = ([Cancel] ++ flat_map call_effect ds, Exited 1).
Proof.
  unfold log_effects. destruct (bool_decide _); [|by intros [= <- <-]].
  destruct (NewRotateWriter _ _ _ _); [|done]. by intros [= <- <-].
Qed.

Lemma closes_calls ds : log_closed (flat_map call_effect ds) = defers_close ds.
Proof.
  unfold log_closed, defers_close. induction ds as [|d ds IH]; [done|]. cbn [flat_map existsb].
  rewrite existsb_app, IH. by destruct d.
Qed.

Lemma opens_calls ds : log_opened (flat_map call_effect ds) = false.
Proof. unfold log_opened. induction ds as [|[] ds IH]; [done|..]; exact IH. Qed.

Lemma log_app tr tr' :
  log_opened (tr ++ tr') = log_opened tr || log_opened tr' /\ log_closed (tr ++ tr') = log_closed tr || log_closed tr'.
Proof. split; apply existsb_app. Qed.

(** The effects before the wait do not touch the log, apart from its opening. *)
Definition log_balanced (tr : list effect) (ds : list deferred_call) : Prop :=
  log_closed tr = false /\ log_opened tr = defers_close ds.

Lemma log_balanced_app tr tr' ds :
  log_balanced tr ds -> log_opened tr' = false -> log_closed tr' = false -> log_balanced (tr ++ tr') ds.
Proof.
  intros [H1 H2] H3 H4. destruct (log_app tr tr') as [E1 E2]. split; [by rewrite E2, H1, H4|by rewrite E1, H2, H3, orb_false_r].
Qed.

Lemma pprof_no_log addr : log_opened (pprof_effects addr) = false /\ log_closed (pprof_effects addr) = false.
Proof. unfold pprof_effects. by destruct (bool_decide _). Qed.

Lemma daemon_prefix_balanced mkdir dir name days both log ds pprof :
  log_effects mkdir dir name days both = Some (log, ds) -> log_balanced (daemon_prefix log pprof) ds.
Proof.
  intros (H1 & H2 & _)%log_effects_balanced. unfold daemon_prefix. destruct (pprof_no_log pprof) as [E1 E2].
  apply log_balanced_app; [done|..].
  - by rewrite (proj1 (log_app _ _)), E1.
  - by rewrite (proj2 (log_app _ _)), E2.
Qed.

Lemma closing_kept tr ds code :
  log_balanced tr ds -> forall mid, log_opened mid = false -> log_closed mid = false ->
  log_kept (tr ++ mid ++ [Cancel] ++ flat_map call_effect ds, Exited code).
Proof.
  intros [H1 H2] mid Ho Hc _. cbn [fst].
  rewrite (proj1 (log_app tr _)), (proj2 (log_app tr _)), (proj1 (log_app mid _)), (proj2 (log_app mid _)), H1, H2, Ho, Hc.
  cbn [orb]. change ([Cancel] ++ ?l) with (Cancel :: l). unfold log_closed, log_opened. cbn [existsb orb].
  fold (log_closed (flat_map call_effect ds)) (log_opened (flat_map call_effect ds)).
  by rewrite closes_calls, opens_calls, orb_false_r.
Qed.

Lemma daemon_end_kept signal killed cancelled tr ds :
  log_balanced tr ds -> log_kept (daemon_end signal killed cancelled tr ds).
Proof.
  intros Hb. unfold daemon_end. destruct (signal || _); [by apply closing_kept|].
  destruct killed; [by intros []|]. exact (proj1 Hb).
Qed.

Lemma fatal_kept m : process m = ([Stderr], Exited 1) -> log_kept (process m).
Proof. by intros ->. Qed.

(** A panic between the opening of the log and the wait. *)
Lemma panic_kept mkdir dir name days both log ds (m : main_goroutine unit) tr :
  log_effects mkdir dir name days both = Some (log, ds) ->
  m (mkProc [] []) = (mkProc tr (DeferCancel :: ds ++ [DeferRecover]), inr Panic) -> log_balanced tr ds ->
  log_kept (process m).
Proof.
  intros (_ & _ & Hu)%log_effects_balanced E Hb. unfold process. rewrite E. cbn [pr_defers pr_trace]. rewrite Hu.
  exact (closing_kept tr ds 1 Hb [] eq_refl eq_refl).
Qed.

Section kept.
Context `{Goscapy} (h : Host) (v : version.stamp) (seed : nat -> Z) (read : string -> option bytes)
  (mkdir : string -> bool) (answers : nat -> OpenAnswer) (answer : OpenAnswer) (file : string) (signal : bool).

Lemma evr_log_kept unmarshal read_answer rawconn rounds visited :
  log_kept (process (evr_main.main read unmarshal h mkdir seed read_answer answer rawconn rounds signal v false file visited)).
Proof.
  destruct (loaded file read unmarshal evr_main.no_file) as [jc|] eqn:Hl.
  2: { apply fatal_kept, (evr_rejects h v). by rewrite Hl. }
  destruct (evr.configure h jc visited) as [cfg|] eqn:Hc.
  2: { apply fatal_kept, (evr_rejects h v). rewrite Hl. cbn. by rewrite Hc. }
  destruct (log_effects mkdir (evr_config.LogDir cfg) "evr.log" (evr_config.LogMaxAgeDays cfg) true) as [[log ds]|] eqn:Hlog.
  2: { apply fatal_kept. unfold process, evr_main.main, evr_main.start. run_main. rewrite Hl. run_main. rewrite Hc. run_main. by rewrite Hlog. }
  pose proof (daemon_prefix_balanced _ _ _ _ _ _ _ (evr_config.PprofAddr cfg) Hlog) as Hb.
  destruct (EvrAgent.New cfg seed (mkWorld ∅ 0 (NewProcessor (evr_config.Span cfg) (evr_config.Delay cfg)))) as [[a w]|] eqn:Ha.
  - erewrite evr_main_waits by done. by apply daemon_end_kept, log_balanced_app.
  - eapply panic_kept; [exact Hlog|..].
    + unfold evr_main.main, evr_main.start. run_main. rewrite Hl. run_main. rewrite Hc. run_main. rewrite Hlog.
      run_main. rewrite Ha. reflexivity.
    + rewrite <- (app_assoc log). by apply log_balanced_app.
Qed.

Lemma kuiniu_log_kept unmarshal receivers rounds f :
  log_kept (process (kuiniu_main.main read unmarshal mkdir seed answers receivers rounds signal v false file f)).
Proof.
  destruct (loaded file read unmarshal kuiniu.no_file) as [jc|] eqn:Hl.
  2: { apply fatal_kept, (kuiniu_rejects v). by rewrite Hl. }
  destruct (kuiniu.configure f jc) as [cfg|] eqn:Hc.
  2: { apply fatal_kept, (kuiniu_rejects v). rewrite Hl. cbn. by rewrite Hc. }
  destruct (log_effects mkdir (kuiniu_config.LogDir cfg) "kuiniu.log" (kuiniu_config.LogMaxAgeDays cfg) true) as [[log ds]|] eqn:Hlog.
  2: { apply fatal_kept. unfold process, kuiniu_main.main, kuiniu_main.start. run_main. rewrite Hl. run_main. rewrite Hc. run_main. by rewrite Hlog. }
  pose proof (daemon_prefix_balanced _ _ _ _ _ _ _ (kuiniu_config.PprofAddr cfg) Hlog) as Hb.
  set (m := kuiniu_main.main _ _ _ _ _ _ _ _ _ _ _ _).
  set (tr0 := daemon_prefix log (kuiniu_config.PprofAddr cfg) ++ [Go (Processor_Run (kuiniu_config.Span cfg) (kuiniu_config.Delay cfg))]).
  assert (Hm : m (mkProc [] []) =
    bind (kuiniu_main.start_client seed answers receivers rounds cfg (mkWorld ∅ 0 (NewProcessor (kuiniu_config.Span cfg) (kuiniu_config.Delay cfg))))
      (fun wf => bind (kuiniu_main.start_server cfg wf.1) (fun _ => wait_done signal (panicked wf.2) false))
      (mkProc tr0 (DeferCancel :: ds ++ [DeferRecover]))).
  { unfold m, kuiniu_main.main, kuiniu_main.start. run_main. rewrite Hl. run_main. rewrite Hc. run_main. rewrite Hlog. run_main.
    unfold tr0, daemon_prefix. by rewrite <- !app_assoc. }
  assert (Hb0 : log_balanced tr0 ds) by by apply log_balanced_app.
  assert (Hend : forall tr (wf : World * fate) p, log_balanced tr ds -> p = mkProc tr (DeferCancel :: ds ++ [DeferRecover]) ->
    m (mkProc [] []) = bind (kuiniu_main.start_server cfg wf.1) (fun _ => wait_done signal (panicked wf.2) false) p -> log_kept (process m)).
  { intros tr wf p Ht -> E. unfold kuiniu_main.start_server in E. rewrite when_bind in E.
    destruct (kuiniu.runs_server cfg).
    - unfold bind at 1 in E. rewrite or_panic_bind in E. destruct (KuiniuServer.New cfg wf.1) as [sv|].
      + erewrite process_wait by exact E. by apply daemon_end_kept, log_balanced_app.
      + by eapply panic_kept.
    - erewrite process_wait by exact E. by apply daemon_end_kept. }
  unfold kuiniu_main.start_client in Hm. destruct (kuiniu.runs_client cfg).
  - unfold bind at 1 in Hm. rewrite or_panic_bind in Hm. destruct (KuiniuClient.NewClient cfg seed _) as [[c w]|].
    + rewrite emit_bind in Hm. cbn [ret fst snd pr_trace pr_defers] in Hm.
      eapply (Hend _ (w, fate_of _)); [by apply (log_balanced_app tr0 [Go Client_Run] ds)|reflexivity|exact Hm].
    + by eapply panic_kept.
  - eapply (Hend tr0 (mkWorld ∅ 0 _, Going)); [done|reflexivity|exact Hm].
Qed.

Lemma baize_log_kept unmarshal rounds :
  log_kept (process (baize_main.main read unmarshal h mkdir seed answers answer rounds signal v false file)).
Proof.
  destruct (read file) as [data|] eqn:Hr.
  2: { apply fatal_kept, (baize_rejects h v). by rewrite Hr. }
  destruct (unmarshal data) as [cfg|] eqn:Hu.
  2: { apply fatal_kept, (baize_rejects h v). rewrite Hr. cbn. by rewrite Hu. }
  destruct (baize.has_work cfg) eqn:Hw.
  2: { apply fatal_kept, (baize_rejects h v). rewrite Hr. cbn. rewrite Hu. cbn. by rewrite Hw. }
  destruct (log_effects mkdir (baize.LogDir cfg) "baize.log" (baize.LogMaxAgeDays cfg) false) as [[log ds]|] eqn:Hlog.
  2: { apply fatal_kept. unfold process, baize_main.main. run_main. rewrite Hr, Hu. unfold bind at 1. cbn [ret]. rewrite Hw.
       cbn [negb]. run_main. by rewrite Hlog. }
  erewrite baize_main_waits by done. apply daemon_end_kept, log_balanced_app.
  - by eapply daemon_prefix_balanced.
  - by destruct (baize.ClientPart cfg), (baize.ServerPart cfg).
  - by destruct (baize.ClientPart cfg), (baize.ServerPart cfg).
Qed.

End kept.

(** C36: the log file of the daemons: whatever the system answers, [evr], [kuiniu]
    and [baize] have closed the log they opened when the process ends (after a
    signal, an error of the agent or a recovered panic alike), unless a panic
    in one of their goroutines, which nothing recovers, kills the process; a
    process that runs has not closed it. *)
Theorem daemons_close_log :
  forall `{Goscapy} h v seed read mkdir answers answer file signal showVersion,
    (forall unmarshal read_answer rawconn rounds visited,
       log_kept (process (evr_main.main read unmarshal h mkdir seed read_answer answer rawconn rounds signal v showVersion file visited))) /\
    (forall unmarshal receivers rounds f,
       log_kept (process (kuiniu_main.main read unmarshal mkdir seed answers receivers rounds signal v showVersion file f))) /\
    (forall unmarshal rounds,
       log_kept (process (baize_main.main read unmarshal h mkdir seed answers answer rounds signal v showVersion file))).
Proof.
  intros HG h v seed read mkdir answers answer file signal [|]; [by repeat split|]. split_and!; intros.
  - apply evr_log_kept.
  - apply kuiniu_log_kept.
  - apply baize_log_kept.
Qed.

(** ** When a process ends *)

(** What [Run] of the agent comes to, by what the system answers. *)
Lemma evr_fate `{Goscapy} a read_answer write_answer rawconn rounds w :
  fate_of (evr_run.Run a read_answer write_answer rawconn rounds w) =
    if oa_open read_answer && oa_open write_answer && rawconn
    then match EvrAgent.serveWrite a rounds w with Some _ => Going | None => Panicked end
    else Returned true.
Proof.
  unfold evr_run.Run, evr_receive.serveRead. destruct (oa_open read_answer); [|done].
  destruct (oa_open write_answer); [|done]. destruct rawconn; [|done]. cbn [negb andb].
  by destruct (EvrAgent.serveWrite a rounds w).
Qed.

(** C30: the life of [evr]: with an accepted configuration and a log that can be
    opened (or none), it makes an agent that satisfies its invariant, without a
    panic, and a processor with the span and delay of the configuration. Then
    it runs until a signal, as long as its sockets open and its send loop does
    not panic; if one of its sockets cannot be opened, the agent's error ends it
    after one second, with the log closed and exit code 0. *)
Theorem evr_main_lifetime :
  forall `{HG : Goscapy} h v seed read unmarshal mkdir read_answer answer rawconn rounds file visited jc cfg log ds,
    (forall n, in_u64 (seed n)) ->
    loaded file read unmarshal evr_main.no_file = Some jc -> evr.configure h jc visited = inl cfg ->
    log_effects mkdir (evr_config.LogDir cfg) "evr.log" (evr_config.LogMaxAgeDays cfg) true = Some (log, ds) ->
    let run signal := process (evr_main.main read unmarshal h mkdir seed read_answer answer rawconn rounds signal v false file visited) in
    let started := log ++ pprof_effects (evr_config.PprofAddr cfg) ++
      [NotifySignals; Go (Processor_Run (evr_config.Span cfg) (evr_config.Delay cfg)); Go Agent_Run] in
    let ended := (started ++ [WaitDone; Sleep Second; Cancel] ++ flat_map call_effect ds, Exited 0) in
    exists a w,
      EvrAgent.New cfg seed (mkWorld ∅ 0 (NewProcessor (evr_config.Span cfg) (evr_config.Delay cfg))) = Some (a, w) /\
      EvrAgent.agent_ok a w /\
      run true = ended /\
      run false =
        if oa_open read_answer && oa_open answer && rawconn
        then (started, match EvrAgent.serveWrite a rounds w with Some _ => Running | None => Exited 2 end)
        else ended.
Proof.
  intros HG h v seed read unmarshal mkdir read_answer answer rawconn rounds file visited jc cfg log ds Hseed Hl Hc Hlog
    run started ended.
  destruct (evr_configure_inl _ _ _ _ Hc) as (c0 & HV). apply evr_Validate_spec in HV as [[_ _ _ _ _ _ _ (_ & Hs & _) _ _] _].
  destruct (evr_New_ok cfg seed (mkWorld ∅ 0 (NewProcessor (evr_config.Span cfg) (evr_config.Delay cfg))) Hs Hseed
    (world_ok_empty _ _)) as (a & w & Ha & Hok & _). exists a, w. split_and!; [done|done|..]; unfold run.
  - erewrite evr_main_waits by done. unfold daemon_end, ended, started, daemon_prefix, done_effects. cbn [orb]. by rewrite <- !app_assoc.
  - erewrite evr_main_waits by done. rewrite evr_fate. unfold daemon_end, ended, started, daemon_prefix, done_effects.
    destruct (oa_open read_answer && oa_open answer && rawconn).
    + destruct (EvrAgent.serveWrite a rounds w); cbn [panicked failed orb negb andb]; by rewrite <- !app_assoc.
    + cbn [panicked failed orb negb andb]. by rewrite <- !app_assoc.
Qed.

(** C28: [bitflip] and [kuiniu] outlive their client: with an accepted
    configuration a client is made without a panic, and when its [Run] returns,
    at the configured limit or because a socket cannot be opened, the process
    does not end: it waits for a signal with nothing left to send. (For
    [kuiniu], with a log that can be set up and a positive span.) *)
Theorem clients_end_unnoticed :
  forall `{HG : Goscapy} h v seed answers, (forall n, in_u64 (seed n)) ->
    (forall answer rounds f conf,
       bitflip.configure h f = inl conf -> bitflip.f_role f = sonar_config.RoleClient ->
       exists c w, bitflip.runClient conf seed = Some (c, w) /\
         forall failed, fate_of (sonar_run.Run conf c answers answer rounds None w) = Returned failed ->
           process (bitflip_main.main h seed answers answer rounds false v false f) =
             ([NotifySignals; Go (Processor_Run (sonar_config.Span conf) (sonar_config.Delay conf)); Go Client_Run], Running)) /\
    (forall read unmarshal mkdir receivers rounds file f jc cfg log ds,
       loaded file read unmarshal kuiniu.no_file = Some jc -> kuiniu.configure f jc = inl cfg ->
       log_effects mkdir (kuiniu_config.LogDir cfg) "kuiniu.log" (kuiniu_config.LogMaxAgeDays cfg) true = Some (log, ds) ->
       0 < kuiniu_config.Span cfg ->
       exists c w, KuiniuClient.NewClient cfg seed (mkWorld ∅ 0 (NewProcessor (kuiniu_config.Span cfg) (kuiniu_config.Delay cfg))) = Some (c, w) /\
         forall failed, fate_of (kuiniu_client_run.Run c answers receivers rounds w) = Returned failed ->
           process (kuiniu_main.main read unmarshal mkdir seed answers receivers rounds false v false file f) =
             (log ++ pprof_effects (kuiniu_config.PprofAddr cfg) ++
              [NotifySignals; Go (Processor_Run (kuiniu_config.Span cfg) (kuiniu_config.Delay cfg))] ++ role_routines cfg, Running)).
Proof.
  intros HG h v seed answers Hseed. split.
  - intros answer rounds f conf Hc Hr. pose proof Hc as (cpr & spr & Hcr & Hsr & HV)%with_ranges_inl.
    destruct (validated_client_starts h _ _ seed HV) as (_ & _ & c & w & Hcl & _); [done|done|by right..|done|].
    exists c, w. split; [exact Hcl|]. intros failed Hf.
    assert (Hrole : sonar_config.Role conf = sonar_config.RoleClient).
    { apply sonar_Validate_spec in HV as (_ & [_ _ _ _ _ _ _ _ (Hk & _)] & _). rewrite Hk. exact Hr. }
    unfold process, bitflip_main.main. run_main. rewrite Hc. unfold start_bitflip, sonar_config.is_role. run_main.
    rewrite Hrole. rewrite bool_decide_eq_true_2 by done. run_main. rewrite Hcl. run_main. rewrite wait_done_eval.
    cbn [fst snd]. rewrite Hf. by destruct failed.
  - intros read unmarshal mkdir receivers rounds file f jc cfg log ds Hl Hc Hlog Hs.
    destruct (kuiniu_configure_inl _ _ _ Hc) as (c0 & HV). apply kuiniu_Validate_spec in HV as [_ [Hlen Hne] _ _ _ _ _ _ _ _].
    set (w0 := mkWorld _ _ _). assert (Hw : world_ok w0) by apply world_ok_empty.
    destruct (kuiniu_NewClient_ok cfg seed w0 Hs Hlen Hw) as (c & w & Hcl & _ & Hw' & _).
    exists c, w. split; [done|]. intros failed Hf.
    destruct (kuiniu_New_ok cfg (if kuiniu.runs_client cfg then w else w0) Hs Hne Hlen) as (sv & st & Hsv & _);
      [by destruct (kuiniu.runs_client cfg)|].
    erewrite kuiniu_main_waits by done. rewrite Hf. unfold daemon_end, daemon_prefix.
    destruct (kuiniu.runs_client cfg), failed; cbn [panicked orb negb andb]; by rewrite <- !app_assoc.
Qed.

(** ** The output of the traceroutes *)

(** What is printed on standard output. *)
Fixpoint printed (tr : list effect) : string :=
  match tr with
  | [] => ""
  | Stdout s :: tr => s +:+ printed tr
  | _ :: tr => printed tr
  end.

Lemma append_assoc (a b c : string) : (a +:+ b) +:+ c = a +:+ (b +:+ c).
Proof. induction a as [|x a IH]; [done|]. exact (f_equal (String x) IH). Qed.

Lemma append_nil_r (a : string) : a +:+ "" = a.
Proof. induction a as [|x a IH]; [done|]. exact (f_equal (String x) IH). Qed.

Lemma printed_app tr tr' : printed (tr ++ tr') = printed tr +:+ printed tr'.
Proof. induction tr as [|[] tr IH]; cbn; [done|..]; rewrite IH; [by rewrite append_assoc|done..]. Qed.

(** The effects of the loop from result [i] on. *)
Fixpoint result_effects (text : Result -> string) (i : nat) (rs : list Result) : list effect :=
  match rs with
  | [] => []
  | r :: rs => (if (0 <? i)%nat then [Stdout newline] else []) ++ [Stdout (text r)] ++ result_effects text (S i) rs
  end.

Lemma print_results_eval text rs p : exists tr,
  print_results text rs p = (mkProc (pr_trace p ++ tr) (pr_defers p), inl tt) /\ tr = result_effects text 0 rs.
Proof.
  unfold print_results. eexists. split; [|done].
  enough (H : forall g : nat -> nat, (forall k, g (S k) = S (g k)) -> forall p,
    for_each (imap (fun k r => (g k, r)) rs) (fun ir => when (0 <? ir.1)%nat (emit (Stdout newline)) ;;; emit (Stdout (text ir.2))) p =
      (mkProc (pr_trace p ++ result_effects text (g 0%nat) rs) (pr_defers p), inl tt)) by (apply (H id); done).
  clear p. induction rs as [|r rs IH]; intros g Hg p; cbn [imap for_each result_effects].
  - rewrite app_nil_r. by destruct p.
  - specialize (IH (g ∘ S) (fun k => Hg (S k))). unfold compose in IH. rewrite Hg in IH.
    unfold bind at 1. rewrite when_bind. cbn [fst snd].
    destruct (0 <? g 0)%nat; [rewrite emit_bind|]; cbn [emit modify pr_trace pr_defers] in *; unfold modify;
      (etrans; [apply IH|]); cbn [pr_trace pr_defers]; by rewrite <- !app_assoc.
Qed.

Lemma printed_results text i rs :
  printed (result_effects text (S i) rs) = foldr (fun r s => newline +:+ (text r +:+ s)) "" rs.
Proof. revert i. induction rs as [|r rs IH]; intros i; cbn [result_effects]; [done|]. cbn. by rewrite IH. Qed.

Lemma concat_newline l x :
  String.concat newline (x :: l) = x +:+ foldr (fun r s => newline +:+ (r +:+ s)) "" l.
Proof.
  revert x. induction l as [|y l IH]; intros x; cbn [foldr]; [cbn; by rewrite append_nil_r|].
  change (String.concat newline (x :: y :: l)) with (x +:+ (newline +:+ String.concat newline (y :: l))).
  by rewrite IH.
Qed.

Lemma trace_main_prints {E E'} text (cfg : TraceConfig.Config + E) (run : TraceConfig.Config -> option (list Result + E')) c rs :
  cfg = inl c -> run c = Some (inl rs) ->
  exists tr, process (trace_main text cfg run) = (tr, Exited 0) /\ Forall message tr /\
    printed tr = String.concat newline (map text rs).
Proof.
  intros -> Hr. unfold process, trace_main. run_main. rewrite Hr. run_main.
  destruct (print_results_eval text rs (mkProc [] [])) as (tr & -> & ->). cbn [pr_trace pr_defers app flat_map].
  rewrite app_nil_r. eexists. split; [done|]. split.
  - clear Hr. generalize 0%nat as i. induction rs as [|r rs IH]; intros i; cbn [result_effects]; [by constructor|].
    destruct (0 <? i)%nat; repeat (constructor; [done|]); apply IH.
  - destruct rs as [|r rs]; [done|]. cbn [result_effects Nat.ltb Nat.leb app map]. rewrite concat_newline. cbn.
    rewrite printed_results. f_equal. clear Hr. induction rs as [|r' rs IH]; cbn; [done|]. by rewrite IH.
Qed.

(** The output of the traceroute commands: with an accepted configuration
    they print the text of one result after the other, in the order of [Run],
    with an empty line between two, and end with 0; an error of [Run] is a
    message and exit code 1. *)
Theorem traceroute_main_output :
  forall h v cymru ipinfo Dial outcome order LookupAddr lookups resolve f args,
    let of_run text (run : option (list Result + run_error)) (r : list effect * status) := match run with
      | None => r = ([], Exited 2)
      | Some (inr _) => r = ([Stderr], Exited 1)
      | Some (inl rs) => r.2 = Exited 0 /\ Forall message r.1 /\ printed r.1 = String.concat newline (map text rs)
      end in
    (forall conf, traceroute_main.configure h cymru ipinfo f args = inl conf ->
       of_run Format.traceroute_format.Result_String
         (Tracer.Run (HF := traceroute_config.family) Dial conf h (outcome conf) (order conf) LookupAddr lookups resolve)
         (process (traceroute_cmd_main h cymru ipinfo Dial outcome order LookupAddr lookups resolve v false f args))) /\
    (forall conf, traceroute6_main.configure h cymru ipinfo f args = inl conf ->
       of_run Format.traceroute6_format.Result_String
         (traceroute6_run.Run Dial conf h (outcome conf) (order conf) LookupAddr lookups resolve)
         (process (traceroute6_cmd_main h cymru ipinfo Dial outcome order LookupAddr lookups resolve v false f args))).
Proof.
  assert (H : forall E (cfg : TraceConfig.Config + E) text (run : TraceConfig.Config -> option (list Result + run_error)) c,
    cfg = inl c ->
    match run c with
    | None => process (trace_main text cfg run) = ([], Exited 2)
    | Some (inr _) => process (trace_main text cfg run) = ([Stderr], Exited 1)
    | Some (inl rs) => (process (trace_main text cfg run)).2 = Exited 0 /\ Forall message (process (trace_main text cfg run)).1 /\
        printed (process (trace_main text cfg run)).1 = String.concat newline (map text rs)
    end).
  { intros E cfg text run c Hc. destruct (run c) as [[rs|e]|] eqn:Hr.
    - destruct (trace_main_prints text cfg run c rs Hc Hr) as (tr & -> & Hm & Hp). auto.
    - unfold process, trace_main. run_main. rewrite Hc. run_main. by rewrite Hr.
    - unfold process, trace_main. run_main. rewrite Hc. run_main. by rewrite Hr. }
  intros h v cymru ipinfo Dial outcome order LookupAddr lookups resolve f args of_run.
  split; intros conf Hc; unfold of_run; cbn zeta.
  - exact (H _ _ _ (fun cfg => Tracer.Run (HF := traceroute_config.family) Dial cfg h (outcome cfg) (order cfg) LookupAddr lookups resolve) conf Hc).
  - exact (H _ _ _ (fun cfg => traceroute6_run.Run Dial cfg h (outcome cfg) (order cfg) LookupAddr lookups resolve) conf Hc).
Qed.

(** ** Witnesses *)

Module samples.

Definition v : version.stamp := version.unset.
Definition all_answer : OpenAnswer := mkOpenAnswer true true true.
Definition seed : nat -> Z := fun _ => 5.
(** Two hops with two probes each, without names. *)
Definition trace_flags : traceroute_main.flags :=
  traceroute_main.mkFlags "icmp" 2 2 0 0 false "" "" Second true 0 16 "" "10.0.0.7" false false.
Definition dial : IP -> option (option IP) := fun _ => Some (Some [10; 0; 0; 7]).
Definition none : Provider := fun _ => None.
Definition trace_conf : TraceConfig.Config :=
  match traceroute_main.configure Commands.samples.host none none trace_flags ["10.0.0.9,10.0.0.8"%string] with
  | inl c => c
  | inr _ => Tracer.samples.conf
  end.
Definition trace_run : option (list Result + run_error) :=
  Tracer.Run (HF := traceroute_config.family) dial trace_conf Commands.samples.host (fun _ => Tracer.samples.outcome)
    (fun _ => all_probes trace_conf) (fun _ => None) all_addrs (fun _ => ∅).
Definition trace_results : list Result := match trace_run with Some (inl rs) => rs | _ => [] end.

(** A client that is given a limit of two probes. *)
Definition client_flags : bitflip.flags :=
  bitflip.mkFlags "client" "10.0.0.1" "10.0.0.2" 64 2 0 (3 * Second) "43500,43599" "43500,43509" 5000 1024 false.

Definition rounds : list (list (string * UdpClient.Outside)) := replicate 3 [("10.0.0.2"%string, UdpClient.samples.outside)].

Definition evr_line : list evr.flag := [evr.FlagLogDir "/var/log/evr"].
Definition evr_cfg : evr_config.Config :=
  match evr.configure Commands.samples.host Commands.samples.evr_file evr_line with
  | inl c => c
  | inr _ => EvrConfig.sample_validated
  end.

(** A file for [baize] whose client part has a port range that is none. *)
Definition baize_file : baize.baizeConfig :=
  baize.mkBaizeConfig "" "" 0
    (Some (baize.mkClientConfig "10.0.0.1" "10.0.0.2" 64 "43500-43599" "43500,43509" 5000 "1s" "3s" 1024 0 "" false)) None.

Example version_text : version.String v = "dev (commit: none, built: unknown)".
Proof. reflexivity. Qed.

End samples.

Lemma evr_serveWrite_nil `{Goscapy} a w : EvrAgent.serveWrite a [] w = Some (a, w, []).
Proof. done. Qed.

Lemma mains_reject_configs_witness :
  process (baize_main.main (H := Goscapy.Toy.toy) (fun _ => Some []) (fun _ => Some samples.baize_file)
    Commands.samples.host (fun _ => true) samples.seed ClientRun.samples.answers samples.all_answer samples.rounds
    false samples.v false "/etc/baize.json") =
    ([NotifySignals; Go Baize_client; WaitDone; Sleep Second; Cancel], Exited 0) /\
  process (baize_main.main (H := Goscapy.Toy.toy) (fun _ => None) (fun _ => Some samples.baize_file)
    Commands.samples.host (fun _ => true) samples.seed ClientRun.samples.answers samples.all_answer samples.rounds
    false samples.v false "/etc/baize.json") = ([Stderr], Exited 1).
Proof.
  split.
  - destruct (mains_reject_configs (H := Goscapy.Toy.toy) Commands.samples.host samples.v samples.seed (fun _ => Some [])
      (fun _ => true) ClientRun.samples.answers samples.all_answer "/etc/baize.json" false)
      as (_ & _ & _ & _ & _ & _ & _ & Hbad).
    apply (Hbad (fun _ => Some samples.baize_file) samples.rounds [] samples.baize_file [] []);
      [reflexivity|reflexivity|reflexivity|reflexivity| |intros c [= <-]; discriminate|discriminate].
    left. eexists _, _. split; reflexivity.
  - destruct (mains_reject_configs (H := Goscapy.Toy.toy) Commands.samples.host samples.v samples.seed (fun _ => None)
      (fun _ => true) ClientRun.samples.answers samples.all_answer "/etc/baize.json" false)
      as (_ & _ & Hfile & _).
    by apply (Hfile (fun _ => Some samples.baize_file) samples.rounds).
Defined.

Lemma evr_main_lifetime_witness :
  let run answer := process (evr_main.main (H := Goscapy.Toy.toy) (fun _ => Some []) (fun _ => Some Commands.samples.evr_file)
    Commands.samples.host (fun _ => true) samples.seed answer samples.all_answer true [] false samples.v false "evr.json"
    samples.evr_line) in
  (run samples.all_answer).2 = Running /\
  (run (mkOpenAnswer false true true)).2 = Exited 0 /\ log_closed (run (mkOpenAnswer false true true)).1 = true.
Proof.
  intros run.
  assert (Hc : evr.configure Commands.samples.host Commands.samples.evr_file samples.evr_line = inl samples.evr_cfg)
    by (vm_compute; reflexivity).
  assert (Hlog : log_effects (fun _ => true) (evr_config.LogDir samples.evr_cfg) "evr.log" (evr_config.LogMaxAgeDays samples.evr_cfg) true =
    Some ([OpenLog (mkRotateWriter "/var/log/evr" "evr.log" 3 None ""); LogTo true], [DeferClose])) by (vm_compute; reflexivity).
  assert (Hseed : forall n, in_u64 (samples.seed n)) by (intros ?; unfold samples.seed, in_u64; lia).
  split.
  - destruct (evr_main_lifetime (HG := Goscapy.Toy.toy) Commands.samples.host samples.v samples.seed (fun _ => Some [])
      (fun _ => Some Commands.samples.evr_file) (fun _ => true) samples.all_answer samples.all_answer true [] "evr.json"
      samples.evr_line Commands.samples.evr_file samples.evr_cfg _ _ Hseed eq_refl Hc Hlog) as (a & w & _ & _ & _ & E).
    unfold run. rewrite E. cbn [oa_open samples.all_answer andb fst snd]. by rewrite evr_serveWrite_nil.
  - destruct (evr_main_lifetime (HG := Goscapy.Toy.toy) Commands.samples.host samples.v samples.seed (fun _ => Some [])
      (fun _ => Some Commands.samples.evr_file) (fun _ => true) (mkOpenAnswer false true true) samples.all_answer true [] "evr.json"
      samples.evr_line Commands.samples.evr_file samples.evr_cfg _ _ Hseed eq_refl Hc Hlog) as (a & w & _ & _ & _ & E).
    unfold run. rewrite E. cbn [oa_open andb fst snd]. split; [reflexivity|].
    rewrite !(proj2 (log_app _ _)). cbn. by rewrite !orb_true_r.
Defined.

Lemma clients_end_unnoticed_witness :
  exists conf,
    bitflip.configure Commands.samples.host samples.client_flags = inl conf /\
    (process (bitflip_main.main (H := Goscapy.Toy.toy) Commands.samples.host samples.seed ClientRun.samples.answers
      samples.all_answer samples.rounds false samples.v false samples.client_flags)).2 = Running.
Proof.
  assert (Hc : exists conf cw, bitflip.configure Commands.samples.host samples.client_flags = inl conf /\
    bitflip.runClient (H := Goscapy.Toy.toy) conf samples.seed = Some cw /\
    fate_of (sonar_run.Run (H := Goscapy.Toy.toy) conf cw.1 ClientRun.samples.answers samples.all_answer samples.rounds None cw.2) =
      Returned false) by (eexists _, _; split; [reflexivity|split; reflexivity]).
  destruct Hc as (conf & cw & Hc & Hr & Hf). exists conf. split; [exact Hc|].
  destruct (clients_end_unnoticed (HG := Goscapy.Toy.toy) Commands.samples.host samples.v samples.seed ClientRun.samples.answers) as [H _].
  { intros ?. unfold samples.seed, in_u64. lia. }
  destruct (H samples.all_answer samples.rounds samples.client_flags conf Hc eq_refl) as (c & w & Hcl & Hx).
  rewrite Hr in Hcl. injection Hcl as ->. rewrite (Hx false Hf). reflexivity.
Defined.

Lemma traceroute_main_output_witness :
  let run := process (traceroute_cmd_main Commands.samples.host samples.none samples.none samples.dial
    (fun _ _ => Tracer.samples.outcome) (fun conf _ => all_probes conf) (fun _ => None) all_addrs (fun _ => ∅)
    samples.v false samples.trace_flags ["10.0.0.9,10.0.0.8"%string]) in
  run.2 = Exited 0 /\ map Dst samples.trace_results = ["10.0.0.9"; "10.0.0.8"] /\
  printed run.1 = String.concat newline (map Format.traceroute_format.Result_String samples.trace_results).
Proof.
  intros run.
  assert (Hc : traceroute_main.configure Commands.samples.host samples.none samples.none samples.trace_flags
    ["10.0.0.9,10.0.0.8"%string] = inl samples.trace_conf) by (vm_compute; reflexivity).
  pose proof (proj1 (traceroute_main_output Commands.samples.host samples.v samples.none samples.none samples.dial
    (fun _ _ => Tracer.samples.outcome) (fun conf _ => all_probes conf) (fun _ => None) all_addrs (fun _ => ∅)
    samples.trace_flags ["10.0.0.9,10.0.0.8"%string]) samples.trace_conf Hc) as H.
  assert (Hr : Tracer.Run (HF := traceroute_config.family) samples.dial samples.trace_conf Commands.samples.host
    (fun _ => Tracer.samples.outcome) (fun _ => all_probes samples.trace_conf) (fun _ => None) all_addrs (fun _ => ∅) =
    Some (inl samples.trace_results)) by (vm_compute; reflexivity).
  cbn beta zeta in H. rewrite Hr in H. destruct H as (H1 & _ & H2). split; [exact H1|]. split; [vm_compute; reflexivity|exact H2].
Defined.
